(* ===== verification/_CoqProject ===== *)
-Q . S2P
Prelude.v
Float64.v
FloatFacts.v
GoTime.v
World.v
GoStrings.v
Model.v
Topic.v
State.v
Metrics.v
Optimizer.v
Dispatch.v
Json.v
JsonString.v
JsonText.v
JsonDecode.v
Sha256.v
DeviceAuth.v
Strconv.v
Config.v
FloatNearest.v
FloatText.v
Rfc3339.v
Decoders.v
Messages.v
SignedMessages.v
Bodies.v
BodyFields.v
Http.v
Scheduler.v
EdgeCache.v
EdgeGateway.v
Simulator.v
Repository.v
Mqtt.v
Connect.v
Redis.v
Influx.v
SimulatorMain.v
EndToEnd.v
ControlLoop.v
EdgeHttp.v
EdgeMain.v
Platform.v
Api.v
Main.v
System.v
