(* ===== verification/Prelude.v ===== *)
(** * vpp-lab: a verified model of the virtual power plant

    vpp-lab controls the devices of a site (photovoltaics, batteries, loads)
    over MQTT.  This library models the Go program and proves what makes its
    parts correct.

    ** The program and the files of the library

    - [cmd/vpp-lab] is the platform.  At start it fills the live store from
      Redis and PostgreSQL, then runs the MQTT client, the scheduler and an HTTP
      server on that store.  Files Platform (the loads), Main (the start, and what
      runs after it).
    - [internal/config]: the settings.  File Config.
    - [internal/model], [internal/topic]: the data and the MQTT topic names.
      Files Model, Topic.
    - [internal/state]: [Store], the live state, and its mirror in Redis.  Each
      method holds its lock for its whole body, so each is one atomic function on
      the record [Store].  Files State, Redis.
    - [internal/repository]: the PostgreSQL tables, each a map from its primary
      key.  One method is one SQL statement.  File Repository.
    - [internal/timeseries]: readings as points of a time series.  File Influx.
    - [internal/mqtt]: messages from devices to the store and the repository,
      commands to devices, the client and its TLS settings.  Files Mqtt, Connect.
    - [internal/deviceauth]: signatures of devices.  Files DeviceAuth and
      SignedMessages, on SHA-256 (Sha256).
    - [internal/scheduler]: the control loop, which reads the store and sends
      commands through its [Commander], the MQTT client.  File Scheduler.
    - [internal/optimizer], [internal/dispatch]: the day-ahead battery plan and
      the command that tracks it.  Files Optimizer, Dispatch.
    - [internal/api], [internal/metrics]: the HTTP server of the platform and its
      Prometheus page.  Files Http (requests and patterns), Bodies and BodyFields
      (decoding of requests, and what they say), Api, Metrics.
    - [internal/edge], [cmd/edge-gateway]: a gateway that stores device messages
      in SQLite and forwards them.  Files EdgeCache, EdgeGateway (capturing,
      forwarding), EdgeHttp (its HTTP handlers), EdgeMain (settings, loops).
    - [cmd/simulator]: simulated devices, the other end of the command topics.
      Files Simulator, SimulatorMain.
    - The parts put together: EndToEnd (a device, its messages and the platform),
      ControlLoop (the scheduler on the platform, and the devices that obey), System
      (messages, ticks and requests interleaved on the running platform).
    - The language and its standard library: Prelude (machine integers, ranging
      over maps, sorting), Float64, FloatFacts and FloatNearest (binary64), GoTime
      and Rfc3339 (package time), GoStrings, Strconv, encoding/json (Json prints
      values, JsonString and JsonText are literals and the scanner, JsonDecode and
      Decoders fill typed values, FloatText is the text of numbers, Messages the
      structs of this program), World (what the program is connected to).

    ** How the code is modelled

    Names follow the source, with a trailing underscore where Go lets a method
    have the name of a type ([Device_], [Telemetry_], [Policy_], [List_]).  A
    method is a function from its receiver's state to its results and the new
    state.  Effects are state passing: operations that read the clock, publish,
    run SQL or call another service take and return a world [W], and reach it
    through type classes; theorems hold for every instance.  A single reading of
    the clock or a single outcome of a statement is a plain argument.  An error is
    [Some message] or [inl]; a panic is [None].  [int] and [int64] are [Z] with the
    wrap-around written out ([wrap64]); [float64] is the Standard Library's
    [spec_float] at precision 53, with its rounding at every operation.  Ranging
    over a Go map takes the visited order as an argument, any order the language
    allows ([range_of]).  Sorting with [sort.Slice], which is not stable, is
    insertion sort; the theorems that depend on the order are stated for every
    sorted permutation, or hold up to equal keys.  Goroutines meet in the store,
    the cache and the broker, whose operations are atomic: what may happen between
    them is a step relation ([sys_step], [store_step], [gw_step], [mstep])
    or an explicit order of two operations ([early_ack_diverges]).

    ** Parameters

    Services: [Clock], [Broker], [Storage], [Commander] (World, Scheduler), [Redis],
    [Influx], [Connector] and [Subscriber] (paho's connecting), [Pool] (pgx), [Certificates] (files and
    X.509), [Sinks] (where readings are kept besides the live store; implemented by
    [platform_sinks]).  Their laws, where a theorem needs them, state what the
    documentation of the service says: [RedisLaws], [InfluxLaws], [FilterLaws] (the MQTT rules for
    the filters of subscriptions), [MonotoneClock] and [MonotoneWorld] (the monotonic clock does not go
    back).  Without laws: [Location] (offset of the local time zone), [MathSin]
    (package math's sine), [DecodeErrors] (the wording of decoding errors).
    [Verifier] and [Decoder] separate the handling of messages from their text;
    [device_verifier] and [json_decoder] are what the program uses.  PostgreSQL and
    SQLite are modelled by the documented meaning of the statements sent to
    them; every statement may fail instead and then changes nothing.  A JSONB
    column holds the value that was encoded.

    ** What the theorems show

    - Planning.  Every plan for an accepted configuration is a run of an
      abstract battery within its bounds and its power limit
      ([plan_refines_battery]); lookup by time is exact ([CurrentSlot_exact]);
      planning is total up to the size of a slice ([plan_total], [customPlan_spec]);
      validation is characterized ([ValidateConfig_spec]).
    - Dispatch.  A candidate command follows the active slot and addresses a
      registered battery ([preview_command_safe]); approval is characterized
      ([DecideApply_spec]).
    - Control loop.  A tick sends only what the policy allows
      ([Tick_commands]); once a command is accepted, none of its key is
      handed over within the cooldown of the reading it was made with ([Run_cooldown];
      what a slow broker makes of that: [slow_broker]); what is due and not
      held back by a cooldown is sent, recorded, executed and confirmed ([control_loop]).  The simulated devices understand every command
      ([scheduler_commands_understood], [dispatch_command_understood]), hear those
      of their site only, do exactly what they say and answer with what was done
      ([simulator_commands]), and stay within their limits ([simulator_safe]).
    - The running platform.  In every state reached from a start, whatever is
      interleaved, the live store is well formed and has the devices of the
      database ([running_consistent], [store_reachable_wf]), as long as requests are
      served one at a time ([registrations_race]).
    - Live store.  The summary against a reference definition
      ([Summary_spec]), acknowledgements ([ack_within_history]), the mirror
      ([restart_restores]).
    - Messages.  A device speaks only for itself ([message_identity]), and only
      when verified ([message_authenticated]); commands are recorded exactly
      when published ([PublishCommand_spec]); the platform hears its own site only
      ([subscribed_site]); what is written is read back ([messages_round_trip]).
      An accepted reading is kept in the store, the mirror and the time series
      alike ([reading_everywhere]).
    - Signatures.  They bind topic and content, up to a collision of the two texts that
      were signed ([signature_binds]), and expire
      ([accepted_fresh]); what they do not cover ([forged_metric]).
    - From end to end: telemetry ([telemetry_delivered]), commands
      ([command_answered]), and what an outage loses ([outage_loses]).
    - Starting.  The platform serves nothing before its store is complete, and a
      second start finds what the first left ([start_spec]); its health page is
      exact ([health_spec]).  The live history lacks what the repository has: its two writes of
      a command commute ([issue_ack_commute], [early_ack_diverges]).
    - HTTP.  Changes need the control token ([control_required]) and leave an audit
      record, unless the trail has one of the same nanosecond ([changes_are_audited],
      [same_nanosecond]); the handlers that change state
      ([applyDispatch_spec], [upsertDevice_spec]); what is decoded is what
      the body says ([bodies_read]), explicit zeros included ([explicit_bounds]); the metrics page
      can be read back ([page_reads_back]) and has no duplicates ([page_no_duplicates]).
    - Gateway.  Under every interleaving of capture, forwarding and cleanup, and
      every failure, no message is lost ([gateway_at_least_once]) or reordered
      ([gateway_in_order]); [flushPending] implements these steps
      ([flushPending_refines]) and its loop drains the cache while broker and
      database work ([flushLoop_drains]); local commands need the token and are
      executed ([local_command_executed]) and counted ([local_commands_counted]).

    ** Bounds and fuel

    Loops over lists are structural.  The planner's loop runs once per slot;
    [max_slots], 2^41, is the largest slice of slots the runtime allocates.
    [max_horizon] is the number of hours an [int64] of nanoseconds holds; the
    theorems about the times of slots assume a horizon within it, and
    [accepted_horizon_panics] shows validation does not ensure it.  [shortest]
    of Json tries at most 17 digits, which always determine a [float64]
    ([parse_marshal_float]); [count_digits] and the trimming of strings recur on
    the length; the scanner of JSON stops at 10000 nested values, as Go's does
    ([max_depth]).  Histories hold 200 records ([history]).  A loop on a timer is a
    function of the number, or of the list, of its ticks.

    ** Not modelled

    The end of the processes ([http.Server.Shutdown], closing of connections), the
    listeners and the headers of HTTP answers, log lines and the wording of some errors, and time limits
    of calls.  The firmware, the scripts and the deployment are not Go. *)
From stdpp Require Export base tactics option list sorting gmap strings pretty fin_maps.
From Stdlib Require Export ZArith Lia.

(** ** Machine integers *)

(** Go's [int] and [int64] on the 64-bit targets of this repository: results of
    arithmetic wrap around modulo 2^64 into the signed range. *)
Definition min_int64 : Z := (- 2 ^ 63)%Z.
Definition max_int64 : Z := (2 ^ 63 - 1)%Z.
Definition wrap64 (z : Z) : Z := ((z + 2 ^ 63) `mod` 2 ^ 64 - 2 ^ 63)%Z.
Definition in_int64 (z : Z) : Prop := (min_int64 ≤ z ≤ max_int64)%Z.

(** Saturation, used by [time.Time.Sub]. *)
Definition sat64 (z : Z) : Z := Z.max min_int64 (Z.min max_int64 z).

(** ** Errors *)

(** Go's [error] values are modelled by their message; [None] is [nil]. *)
Definition error := string.

(** ** Ranging over a Go map *)

(** [range] over a map visits every entry once, in an order the language leaves
    open: an operation that ranges takes the visited sequence as an argument,
    and its theorems hold for every sequence related to the map. *)
Definition range_of {A} (m : gmap string A) (l : list (string * A)) : Prop :=
  l ≡ₚ map_to_list m.

(** ** Lists *)

(** [sort.Slice] with a [less] function: some permutation of the slice in which
    no later element is less than an earlier one.  Insertion into a sorted list
    is one such algorithm; where the elements are pairwise comparable the
    result does not depend on it ([sort_slice_unique]). *)
Fixpoint sort_insert {A} (less : A → A → bool) (x : A) (l : list A) : list A :=
  match l with
  | [] => [x]
  | y :: l' => if less y x then y :: sort_insert less x l' else x :: y :: l'
  end.

Fixpoint sort_slice {A} (less : A → A → bool) (l : list A) : list A :=
  match l with
  | [] => []
  | x :: l' => sort_insert less x (sort_slice less l')
  end.

(** The first index whose element satisfies [p] is updated, as a [for] loop
    that assigns and returns does. *)
Fixpoint update_first {A} (p : A → bool) (f : A → A) (l : list A) : list A :=
  match l with
  | [] => []
  | x :: l' => if p x then f x :: l' else x :: update_first p f l'
  end.

(** ** Automation *)

(** Splits the boolean guards of the code in the hypotheses and the goal. *)
Ltac guards :=
  repeat match goal with
  | H : (_ && _)%bool = true |- _ => apply andb_true_iff in H; destruct H
  | H : (_ || _)%bool = false |- _ => apply orb_false_iff in H; destruct H
  | H : negb _ = true |- _ => apply negb_true_iff in H
  | H : negb _ = false |- _ => apply negb_false_iff in H
  end.

(** Destructs the innermost [if] of the goal, keeping its equation. *)
Ltac case_if :=
  match goal with
  | |- context [if ?b then _ else _] => let E := fresh "E" in destruct b eqn:E
  end.

(** Linear arithmetic with division and remainder by constants. *)
Ltac zlia := Z.to_euclidean_division_equations; lia.

Create HintDb vpp discriminated.

(** ** Lemmas on machine integers *)

Lemma wrap64_id z : in_int64 z → wrap64 z = z.
Proof.
  unfold in_int64, wrap64, min_int64, max_int64. intros H.
  rewrite Z.mod_small; lia.
Qed.

Lemma wrap64_range z : in_int64 (wrap64 z).
Proof.
  unfold in_int64, wrap64, min_int64, max_int64.
  pose proof (Z.mod_pos_bound (z + 2 ^ 63) (2 ^ 64)). lia.
Qed.

(** ** Lemmas on lists *)

Section SortSlice.
Context {A : Type} (less : A → A → bool).

Lemma sort_insert_perm x l : sort_insert less x l ≡ₚ x :: l.
Proof.
  induction l as [|y l IH]; simpl; [done|].
  destruct (less y x); [|done]. rewrite IH. apply Permutation_swap.
Qed.

Lemma sort_slice_perm l : sort_slice less l ≡ₚ l.
Proof.
  induction l as [|x l IH]; simpl; [done|].
  by rewrite sort_insert_perm, IH.
Qed.

(** The order [sort.Slice] promises: nothing later is less. *)
Definition sorted_by : list A → Prop := StronglySorted (λ x y, less y x = false).

Context (less_asym : ∀ x y, less x y = true → less y x = false).
Context (nless_trans : ∀ x y z, less y x = false → less z y = false → less z x = false).

Lemma sort_insert_sorted x l : sorted_by l → sorted_by (sort_insert less x l).
Proof.
  unfold sorted_by. induction 1 as [|y l Hl IH Hy]; simpl.
  { repeat constructor. }
  destruct (less y x) eqn:E.
  - constructor; [done|]. rewrite Forall_forall in Hy |- *. intros z Hz.
    rewrite sort_insert_perm in Hz.
    apply elem_of_cons in Hz as [->|Hz]; [by apply less_asym|by apply Hy].
  - constructor; [by constructor|]. constructor; [done|].
    eapply Forall_impl; [exact Hy|]. intros z Hz. by apply nless_trans with y.
Qed.

Lemma sort_slice_sorted l : sorted_by (sort_slice less l).
Proof.
  induction l as [|x l IH]; simpl; [constructor|]. by apply sort_insert_sorted.
Qed.

(** Whatever algorithm sorts, the result is the same list when [less] tells
    apart any two different elements. *)
Lemma sort_slice_unique l l' :
  sorted_by l' → l' ≡ₚ l →
  (∀ x y, x ∈ l → y ∈ l → less x y = false → less y x = false → x = y) →
  l' = sort_slice less l.
Proof.
  intros Hs Hp Htot. unfold sorted_by in Hs.
  apply (StronglySorted_unique_strong (λ x y, less y x = false)).
  - intros x y Hx Hy H1 H2.
    rewrite Hp in Hx. rewrite sort_slice_perm in Hy. by apply Htot.
  - exact Hs.
  - apply sort_slice_sorted.
  - by rewrite sort_slice_perm.
Qed.
End SortSlice.

Section UpdateFirst.
Context {A : Type} (p : A → bool) (f : A → A).

Lemma length_update_first l : length (update_first p f l) = length l.
Proof. induction l as [|x l IH]; simpl; [done|]. destruct (p x); simpl; auto. Qed.

(** No element qualifies: nothing changes. *)
Lemma update_first_none l : (∀ x, x ∈ l → p x = false) → update_first p f l = l.
Proof.
  induction l as [|x l IH]; intros H; simpl; [done|].
  rewrite (H x) by (by left). f_equal. apply IH. intros y Hy. apply H. by right.
Qed.

(** The elements before the first match keep their place, the match is
    updated, and everything after it is untouched. *)
Lemma update_first_split l1 x l2 :
  (∀ y, y ∈ l1 → p y = false) → p x = true →
  update_first p f (l1 ++ x :: l2) = l1 ++ f x :: l2.
Proof.
  intros H Hx. induction l1 as [|y l1 IH]; simpl.
  - by rewrite Hx.
  - rewrite (H y) by (by left). f_equal. apply IH. intros z Hz. apply H. by right.
Qed.

Lemma update_first_Forall (P : A → Prop) l :
  (∀ x, P x → P (f x)) → Forall P l → Forall P (update_first p f l).
Proof.
  intros Hf. induction 1 as [|x l Hx Hl IH]; simpl; [constructor|].
  destruct (p x); constructor; auto.
Qed.
End UpdateFirst.

Lemma range_of_elem {A} (m : gmap string A) l k x :
  range_of m l → (k, x) ∈ l ↔ m !! k = Some x.
Proof. intros H. unfold range_of in H. by rewrite H, elem_of_map_to_list. Qed.

Lemma range_of_NoDup_fst {A} (m : gmap string A) l : range_of m l → NoDup l.*1.
Proof. intros H. unfold range_of in H. rewrite H. apply NoDup_fst_map_to_list. Qed.

#[export] Hint Resolve wrap64_range : vpp.

Lemma take_cons_take {A} n (x : A) l : take n (x :: take n l) = take n (x :: l).
Proof. destruct n; [done|]. cbn [take]. f_equal. rewrite take_take. f_equal. lia. Qed.

Lemma take_app_ge' {A} n (l1 l2 : list A) :
  length l1 ≤ n → take n (l1 ++ l2) = l1 ++ take (n - length l1) l2.
Proof. intros. rewrite take_app, take_ge by lia. done. Qed.

(** [omap] looks only at the elements it keeps. *)
Lemma omap_filter_Some {A B} (f : A → option B) (l : list A) :
  omap f (filter (λ x, is_Some (f x)) l) = omap f l.
Proof.
  induction l as [|x l IH]; [done|]. rewrite filter_cons.
  case_decide as Hx; simpl.
  - destruct Hx as [y Hy]. rewrite Hy. f_equal. exact IH.
  - apply eq_None_not_Some in Hx. rewrite Hx. exact IH.
Qed.

Lemma omap_filter_None {A B} (f : A → option B) (l : list A) :
  omap f (filter (λ x, ¬ is_Some (f x)) l) = [].
Proof.
  induction l as [|x l IH]; [done|]. rewrite filter_cons.
  case_decide as Hx; simpl; [|exact IH]. apply eq_None_not_Some in Hx. rewrite Hx. exact IH.
Qed.

Lemma NoDup_singleton {A} (l : list A) x :
  NoDup l → x ∈ l → (∀ y, y ∈ l → y = x) → l = [x].
Proof.
  destruct l as [|y [|z l]]; intros Hn Hx H.
  - by apply not_elem_of_nil in Hx.
  - f_equal. apply H. by left.
  - apply NoDup_cons in Hn as [Hn _]. exfalso. apply Hn.
    rewrite (H y), (H z) by (by left || by right; left). by left.
Qed.

Lemma filter_snd {A B} (P : B → Prop) `{∀ x, Decision (P x)} (l : list (A * B)) :
  filter P l.*2 = (filter (λ ab, P ab.2) l).*2.
Proof.
  induction l as [|[a b] l IH]; [done|].
  rewrite fmap_cons, !filter_cons. simpl. case_decide; [|done]. by rewrite fmap_cons, IH.
Qed.

(** Two visits of a map agree up to the order. *)
Lemma range_of_perm {A} (m : gmap string A) l l' : range_of m l → range_of m l' → l ≡ₚ l'.
Proof. unfold range_of. by intros -> ->. Qed.

Lemma range_of_NoDup {A} (m : gmap string A) l : range_of m l → NoDup l.
Proof. intros H. unfold range_of in H. rewrite H. apply NoDup_map_to_list. Qed.

(** Some visit of the map exists. *)
Lemma range_of_map_to_list {A} (m : gmap string A) : range_of m (map_to_list m).
Proof. unfold range_of. reflexivity. Qed.

#[export] Hint Resolve range_of_map_to_list : vpp.

Lemma Forall_filter' {A} (P Q : A → Prop) `{∀ x, Decision (Q x)} (l : list A) :
  Forall P l → Forall P (filter Q l).
Proof.
  rewrite !Forall_forall. intros Hl x [_ Hx]%list_elem_of_filter. by apply Hl.
Qed.

(** Nothing passes a filter no element passes. *)
Lemma filter_none {A} (P : A → Prop) `{∀ x, Decision (P x)} (l : list A) :
  (∀ x, x ∈ l → ¬ P x) → filter P l = [].
Proof.
  induction l as [|x l IH]; intros Hl; [done|].
  rewrite filter_cons_False by (apply Hl; by left). apply IH. intros y Hy. apply Hl. by right.
Qed.
