(* ===== verification/Float64.v ===== *)
(** * IEEE 754 binary64 arithmetic as the Go code uses it

    [float64] is the Standard Library's [spec_float] at precision 53 and maximal
    exponent 1024: every operation rounds to nearest even, with signed zeros,
    infinities and NaN.  One operation of the source is one rounding here, as on
    amd64, where the compiler fuses no multiplication with an addition.
    The file also holds [math.Max], [math.Min], [math.Abs], [math.Round], the
    conversions to and from [int], and the [%.Nf] format of package fmt. *)
From Stdlib Require Import Floats.SpecFloat.
From S2P Require Import Prelude.

(** ** Values and operations *)

Definition float64 := spec_float.

Definition fadd : float64 → float64 → float64 := SFadd 53 1024.
Definition fsub : float64 → float64 → float64 := SFsub 53 1024.
Definition fmul : float64 → float64 → float64 := SFmul 53 1024.
Definition fdiv : float64 → float64 → float64 := SFdiv 53 1024.
Definition fneg : float64 → float64 := SFopp.
Definition feqb : float64 → float64 → bool := SFeqb.
Definition fltb : float64 → float64 → bool := SFltb.
Definition fleb : float64 → float64 → bool := SFleb.

Declare Scope f64_scope.
Delimit Scope f64_scope with f64.
Infix "+" := fadd : f64_scope.
Infix "-" := fsub : f64_scope.
Infix "*" := fmul : f64_scope.
Infix "/" := fdiv : f64_scope.
Infix "==" := feqb (at level 70) : f64_scope.
Infix "<?" := fltb : f64_scope.
Infix "<=?" := fleb : f64_scope.
Notation "x >? y" := (fltb y x) (only parsing) : f64_scope.
Notation "x >=? y" := (fleb y x) (only parsing) : f64_scope.

(** [float64(n)] for an integer [n]. *)
Definition of_int (n : Z) : float64 := binary_normalize 53 1024 n 0 false.

(** The decimal constant n/d of the source: both parts are exact integers, so
    the division is the correctly rounded value of the literal. *)
Definition lit (n d : Z) : float64 := fdiv (of_int n) (of_int d).

Definition fzero : float64 := S754_zero false.

Definition is_nan (x : float64) : bool :=
  match x with S754_nan => true | _ => false end.

Definition is_finite (x : float64) : bool :=
  match x with S754_zero _ | S754_finite _ _ _ => true | _ => false end.

(** [math.Signbit] and [math.IsInf(x, 1)], [math.IsInf(x, -1)]. *)
Definition signbit (x : float64) : bool :=
  match x with
  | S754_zero s | S754_infinity s | S754_finite s _ _ => s
  | S754_nan => false
  end.

Definition is_pos_inf (x : float64) : bool :=
  match x with S754_infinity false => true | _ => false end.
Definition is_neg_inf (x : float64) : bool :=
  match x with S754_infinity true => true | _ => false end.

(** ** Package math *)

Definition math_Max (x y : float64) : float64 :=
  if is_pos_inf x || is_pos_inf y then S754_infinity false
  else if is_nan x || is_nan y then S754_nan
  else if ((x == fzero) && (x == y))%f64 then (if signbit x then y else x)
  else if (x >? y)%f64 then x else y.

Definition math_Min (x y : float64) : float64 :=
  if is_neg_inf x || is_neg_inf y then S754_infinity true
  else if is_nan x || is_nan y then S754_nan
  else if ((x == fzero) && (x == y))%f64 then (if signbit x then x else y)
  else if (x <? y)%f64 then x else y.

Definition math_Abs : float64 → float64 := SFabs.

(** [math.Round]: to the nearest integer, halves away from zero. *)
Definition math_Round (x : float64) : float64 :=
  match x with
  | S754_finite s m (Zneg k) =>
      match ((Zpos m + 2 ^ (Zpos k - 1)) / 2 ^ Zpos k)%Z with
      | Zpos q => binary_round 53 1024 s q 0
      | _ => S754_zero s
      end
  | _ => x
  end.

(** ** Conversions and formatting *)

(** The integer part of a finite value, truncated toward zero. *)
Definition trunc_mag (m : positive) (e : Z) : Z :=
  match e with
  | Zneg k => (Zpos m / 2 ^ Zpos k)%Z
  | _ => (Zpos m * 2 ^ e)%Z
  end.

(** [int(x)] and [int64(x)]: the amd64 conversion instruction yields the least
    integer for NaN, infinities and values out of range. *)
Definition to_int (x : float64) : Z :=
  match x with
  | S754_zero _ => 0%Z
  | S754_finite s m e =>
      let v := (if s then - trunc_mag m e else trunc_mag m e)%Z in
      if (min_int64 <=? v)%Z && (v <=? max_int64)%Z then v else min_int64
  | _ => min_int64
  end.

(** Decimal digits of [n], at least [w] of them. *)
Fixpoint digits_pad (w : nat) (n : N) : string :=
  match w with
  | O => ""
  | S w' => digits_pad w' (n / 10) +:+ pretty (n mod 10)%N
  end.

(** [m * 2^e * 10^p] rounded to an integer, ties to even. *)
Definition scaled_digits (p : nat) (m : positive) (e : Z) : Z :=
  let n := (Zpos m * 10 ^ Z.of_nat p)%Z in
  match e with
  | Zneg k =>
      let q := (n / 2 ^ Zpos k)%Z in
      let r := (n mod 2 ^ Zpos k)%Z in
      match Z.compare (2 * r) (2 ^ Zpos k) with
      | Lt => q
      | Gt => (q + 1)%Z
      | Eq => if Z.even q then q else (q + 1)%Z
      end
  | _ => (n * 2 ^ e)%Z
  end.

Definition fixed_digits (p : nat) (n : Z) : string :=
  let d := (10 ^ N.of_nat p)%N in
  pretty (Z.to_N n / d)%N +:+
  (if decide (p = 0) then "" else "." +:+ digits_pad p (Z.to_N n mod d)%N).

(** [fmt.Sprintf("%.pf", x)]. *)
Definition fmt_fixed (p : nat) (x : float64) : string :=
  match x with
  | S754_nan => "NaN"
  | S754_infinity false => "+Inf"
  | S754_infinity true => "-Inf"
  | S754_zero s => (if s then "-" else "") +:+ fixed_digits p 0
  | S754_finite s m e =>
      (if s then "-" else "") +:+ fixed_digits p (scaled_digits p m e)
  end.
