(* ===== verification/FloatFacts.v ===== *)
(** * Facts about binary64

    The comparisons form a total preorder on the values that are not NaN; the
    operations yield NaN only from the invalid combinations of IEEE 754; sums
    and differences are rounded monotonically, so adding a non-negative amount
    never decreases a value.  These are the laws the component files use. *)
From Stdlib Require Import Floats.SpecFloat.
From S2P Require Import Prelude Float64.
Local Open Scope Z_scope.

(** ** Comparison *)

(** The position of a value on the number line: its sign class, then the signed
    exponent, then the signed mantissa, compared lexicographically. *)
Definition rank (x : float64) : Z * Z * Z :=
  match x with
  | S754_nan => (0, 0, 0)
  | S754_infinity s => (if s then -2 else 2, 0, 0)
  | S754_zero _ => (0, 0, 0)
  | S754_finite true m e => (-1, - e, - Zpos m)
  | S754_finite false m e => (1, e, Zpos m)
  end.

Definition rank_lt (a b : Z * Z * Z) : Prop :=
  a.1.1 < b.1.1 ∨ a.1.1 = b.1.1 ∧ (a.1.2 < b.1.2 ∨ a.1.2 = b.1.2 ∧ a.2 < b.2).

Lemma SFcompare_rank x y :
  is_nan x = false → is_nan y = false →
  match SFcompare x y with
  | Some Lt => rank_lt (rank x) (rank y)
  | Some Gt => rank_lt (rank y) (rank x)
  | Some Eq => rank x = rank y
  | None => False
  end.
Proof.
  destruct x as [[]|[]| |[] m e], y as [[]|[]| |[] m' e']; try done; intros _ _;
    unfold rank_lt; simpl; try lia.
  - destruct (Z.compare_spec e e'); simpl; try lia.
    fold (Pos.compare m m'). destruct (Pos.compare_spec m m'); simpl; try lia.
    subst. done.
  - destruct (Z.compare_spec e e'); simpl; try lia.
    fold (Pos.compare m m'). destruct (Pos.compare_spec m m'); simpl; try lia.
    subst. done.
Qed.

Lemma fltb_rank x y :
  is_nan x = false → is_nan y = false →
  fltb x y = true ↔ rank_lt (rank x) (rank y).
Proof.
  intros Hx Hy. pose proof (SFcompare_rank x y Hx Hy) as H.
  unfold fltb, SFltb. destruct (SFcompare x y) as [[]|]; try done.
  - split; [done|]. rewrite H. unfold rank_lt. lia.
  - split; [done|]. revert H. unfold rank_lt. lia.
Qed.

Lemma fleb_rank x y :
  is_nan x = false → is_nan y = false →
  fleb x y = true ↔ ¬ rank_lt (rank y) (rank x).
Proof.
  intros Hx Hy. pose proof (SFcompare_rank x y Hx Hy) as H.
  unfold fleb, SFleb. destruct (SFcompare x y) as [[]|]; try done.
  - split; [|done]. rewrite H. unfold rank_lt. lia.
  - split; [|done]. revert H. unfold rank_lt. lia.
Qed.

Lemma fltb_not_nan x y : fltb x y = true → is_nan x = false ∧ is_nan y = false.
Proof. destruct x as [[]|[]| |[]], y as [[]|[]| |[]]; done. Qed.
Lemma fleb_not_nan x y : fleb x y = true → is_nan x = false ∧ is_nan y = false.
Proof. destruct x as [[]|[]| |[]], y as [[]|[]| |[]]; done. Qed.

(** Decides a goal about comparisons of values known not to be NaN. *)
Ltac f64_order :=
  repeat match goal with
  | H : fltb ?x ?y = true |- _ =>
      let H1 := fresh in let H2 := fresh in
      destruct (fltb_not_nan _ _ H) as [H1 H2]; apply fltb_rank in H; [|exact H1|exact H2]
  | H : fleb ?x ?y = true |- _ =>
      let H1 := fresh in let H2 := fresh in
      destruct (fleb_not_nan _ _ H) as [H1 H2]; apply fleb_rank in H; [|exact H1|exact H2]
  | H : fltb ?x ?y = false |- _ =>
      apply not_true_iff_false in H; rewrite fltb_rank in H by assumption
  | H : fleb ?x ?y = false |- _ =>
      apply not_true_iff_false in H; rewrite fleb_rank in H by assumption
  end;
  rewrite ?fltb_rank, ?fleb_rank by assumption;
  unfold rank_lt in *; lia.

Lemma fleb_refl x : is_nan x = false → fleb x x = true.
Proof. intros. f64_order. Qed.
Lemma fleb_trans x y z : fleb x y = true → fleb y z = true → fleb x z = true.
Proof. intros. f64_order. Qed.
Lemma fltb_fleb x y : fltb x y = true → fleb x y = true.
Proof. intros. f64_order. Qed.
Lemma fltb_trans x y z : fltb x y = true → fltb y z = true → fltb x z = true.
Proof. intros. f64_order. Qed.
Lemma fltb_fleb_trans x y z : fltb x y = true → fleb y z = true → fltb x z = true.
Proof. intros. f64_order. Qed.
Lemma fleb_fltb_trans x y z : fleb x y = true → fltb y z = true → fltb x z = true.
Proof. intros. f64_order. Qed.
Lemma fltb_irrefl x : fltb x x = false.
Proof.
  destruct (is_nan x) eqn:E; [by destruct x as [[]|[]| |[]]|].
  apply not_true_iff_false. intros ?. f64_order.
Qed.
Lemma fleb_false x y :
  is_nan x = false → is_nan y = false → fleb x y = false ↔ fltb y x = true.
Proof.
  intros. split; intros.
  - f64_order.
  - apply not_true_iff_false. intros ?. f64_order.
Qed.
Lemma fltb_false x y :
  is_nan x = false → is_nan y = false → fltb x y = false ↔ fleb y x = true.
Proof.
  intros. split; intros.
  - f64_order.
  - apply not_true_iff_false. intros ?. f64_order.
Qed.

(** ** Rounding *)

(** Shifting a non-negative mantissa right by [p] keeps its floor, and is exact
    when nothing is shifted out. *)
Lemma shr_1_spec mrs :
  0 ≤ shr_m mrs →
  shr_m (shr_1 mrs) = shr_m mrs / 2 ∧
  (loc_of_shr_record mrs = loc_Exact → shr_m mrs mod 2 = 0 →
   loc_of_shr_record (shr_1 mrs) = loc_Exact).
Proof.
  destruct mrs as [[|[p|p|]|p] r s]; cbn [shr_m shr_1]; intros H; try lia.
  - split; [done|]. by destruct r, s.
  - rewrite Pos2Z.inj_xI. split; [zlia|]. intros _ ?. zlia.
  - rewrite Pos2Z.inj_xO. split; [zlia|]. by destruct r, s.
  - split; [done|]. intros _ ?. done.
Qed.

Lemma iter_pos_iter {A} (f : A → A) p x : SpecFloat.iter_pos f p x = Pos.iter f x p.
Proof.
  revert x. induction p as [p IH|p IH|]; intros x; simpl; [| |done].
  - by rewrite !IH, !Pos.iter_swap.
  - by rewrite !IH.
Qed.

Lemma shr_pos_spec mrs p :
  0 ≤ shr_m mrs →
  shr_m (SpecFloat.iter_pos shr_1 p mrs) = shr_m mrs / 2 ^ Zpos p ∧
  (loc_of_shr_record mrs = loc_Exact → shr_m mrs mod 2 ^ Zpos p = 0 →
   loc_of_shr_record (SpecFloat.iter_pos shr_1 p mrs) = loc_Exact).
Proof.
  intros H. rewrite iter_pos_iter.
  induction p as [|p [IH1 IH2]] using Pos.peano_ind.
  { simpl. by apply shr_1_spec. }
  rewrite Pos.iter_succ, Pos2Z.inj_succ, Z.pow_succ_r by lia.
  destruct (shr_1_spec (Pos.iter shr_1 mrs p)) as [H1 H2].
  { rewrite IH1. apply Z.div_pos; lia. }
  assert (Hd : shr_m mrs / (2 * 2 ^ Z.pos p) = shr_m mrs / 2 ^ Z.pos p / 2).
  { rewrite Z.div_div by lia. f_equal. lia. }
  split; [rewrite H1, IH1; lia|]. intros Hl Hm.
  apply Z.mod_divide in Hm as [k Hk]; [|lia].
  assert (Hq : shr_m mrs / 2 ^ Z.pos p = k * 2).
  { rewrite Hk. rewrite Z.mul_assoc. apply Z.div_mul. lia. }
  apply H2.
  - apply IH2; [done|]. rewrite Hk, Z.mul_assoc. apply Z.mod_mul. lia.
  - rewrite IH1, Hq. apply Z.mod_mul. lia.
Qed.

Lemma shr_record_of_loc_m m l : shr_m (shr_record_of_loc m l) = m.
Proof. by destruct l as [|[]]. Qed.
Lemma loc_of_shr_record_of_loc m l : loc_of_shr_record (shr_record_of_loc m l) = l.
Proof. by destruct l as [|[]]. Qed.

Lemma rne_range m l :
  m ≤ round_nearest_even m l ≤ m + 1 ∧ (l = loc_Exact → round_nearest_even m l = m).
Proof.
  destruct l as [|[]]; simpl; (split; [|done]); try destruct (Z.even m); lia.
Qed.

Lemma shr_fexp_nonneg m e l :
  0 ≤ m → 0 ≤ shr_m (shr_fexp 53 1024 m e l).1.
Proof.
  intros H. unfold shr_fexp, shr. destruct (_ - _)%Z as [|p|p]; simpl.
  - by rewrite shr_record_of_loc_m.
  - destruct (shr_pos_spec (shr_record_of_loc m l) p) as [-> _];
      rewrite shr_record_of_loc_m; [done|]. apply Z.div_pos; lia.
  - by rewrite shr_record_of_loc_m.
Qed.

(** The rounding of a non-negative mantissa is a value of the given sign. *)
Lemma binary_round_aux_sign s m e l :
  0 ≤ m →
  is_nan (binary_round_aux 53 1024 s m e l) = false ∧
  signbit (binary_round_aux 53 1024 s m e l) = s.
Proof.
  intros H. unfold binary_round_aux.
  pose proof (shr_fexp_nonneg m e l H) as H1.
  destruct (shr_fexp 53 1024 m e l) as [mrs e'] eqn:E1; simpl in H1.
  pose proof (rne_range (shr_m mrs) (loc_of_shr_record mrs)) as [H2 _].
  pose proof (shr_fexp_nonneg _ e' loc_Exact
    ltac:(exact (Z.le_trans _ _ _ H1 (proj1 H2)))) as H3.
  destruct (shr_fexp 53 1024 _ e' _) as [mrs' e'']; simpl in H3.
  destruct (shr_m mrs'); [done| |lia]. by destruct (_ <=? _)%Z.
Qed.

Lemma binary_round_sign s m e :
  is_nan (binary_round 53 1024 s m e) = false ∧
  signbit (binary_round 53 1024 s m e) = s.
Proof.
  unfold binary_round. destruct (shl_align _ _ _). by apply binary_round_aux_sign.
Qed.

Lemma binary_normalize_not_nan m e s : is_nan (binary_normalize 53 1024 m e s) = false.
Proof. destruct m; simpl; [done|apply binary_round_sign..]. Qed.

(** ** Where NaN can come from *)

Lemma fadd_not_nan x y :
  is_finite x = true → is_nan y = false → is_nan (x + y)%f64 = false.
Proof.
  destruct x as [[]|[]| |], y as [[]|[]| |]; simpl; try done; intros _ _.
  all: apply binary_normalize_not_nan.
Qed.

Lemma fsub_not_nan x y :
  is_finite x = true → is_nan y = false → is_nan (x - y)%f64 = false.
Proof.
  destruct x as [[]|[]| |], y as [[]|[]| |]; simpl; try done; intros _ _.
  all: apply binary_normalize_not_nan.
Qed.

Lemma fmul_not_nan x y :
  is_nan x = false → is_finite y = true → (y == fzero)%f64 = false →
  is_nan (x * y)%f64 = false.
Proof.
  destruct x as [[]|[]| |], y as [[]|[]| |]; simpl; try done; intros _ _ _.
  all: by apply binary_round_aux_sign.
Qed.

Lemma SFdiv_core_nonneg m1 e1 m2 e2 :
  0 ≤ (SFdiv_core_binary 53 1024 (Zpos m1) e1 (Zpos m2) e2).1.1.
Proof.
  unfold SFdiv_core_binary. set (s := (_ - _)%Z).
  set (m' := match s with Z0 => _ | Zpos _ => _ | Zneg _ => _ end).
  assert (0 ≤ m').
  { unfold m'. destruct s; [lia| |lia]. apply Z.shiftl_nonneg. lia. }
  pose proof (Z_div_mod m' (Zpos m2) ltac:(lia)) as Hq.
  destruct (Z.div_eucl m' (Zpos m2)) as [q r]. simpl. nia.
Qed.

Lemma fdiv_not_nan x y :
  is_nan x = false → is_finite y = true → (y == fzero)%f64 = false →
  is_nan (x / y)%f64 = false.
Proof.
  destruct x as [[]|[]| |s1 m1 e1], y as [[]|[]| |s2 m2 e2]; simpl; try done; intros _ _ _.
  all: pose proof (SFdiv_core_nonneg m1 e1 m2 e2) as H;
    destruct (SFdiv_core_binary 53 1024 (Zpos m1) e1 (Zpos m2) e2) as [[q e] l];
    by apply binary_round_aux_sign.
Qed.

Lemma of_int_not_nan n : is_nan (of_int n) = false.
Proof. apply binary_normalize_not_nan. Qed.

(** ** The shape of a rounded value *)

Definition valid (x : float64) : Prop := valid_binary 53 1024 x = true.

Abbreviation dg m := (Zpos (digits2_pos m)).
Abbreviation fexp64 := (SpecFloat.fexp 53 1024).
Definition canonical (m : positive) (e : Z) : Prop := fexp64 (dg m + e) = e.

(** [n * 2^k] is at most [m * 2^e]. *)
Definition vle (n k m e : Z) : Prop :=
  n * 2 ^ (k - Z.min k e) ≤ m * 2 ^ (e - Z.min k e).

Lemma digits_log2 p : dg p = Z.log2 (Zpos p) + 1.
Proof.
  induction p as [p IH|p IH|]; [| |done]; cbn [digits2_pos];
    rewrite Pos2Z.inj_succ, IH.
  - rewrite (Pos2Z.inj_xI p), Z.log2_succ_double by lia. lia.
  - rewrite (Pos2Z.inj_xO p), Z.log2_double by lia. lia.
Qed.

Lemma digits_bounds p : 2 ^ (dg p - 1) ≤ Zpos p < 2 ^ dg p.
Proof.
  rewrite digits_log2. replace (Z.log2 (Zpos p) + 1 - 1) with (Z.log2 (Zpos p)) by lia.
  pose proof (Z.log2_spec (Zpos p)). lia.
Qed.

Lemma digits_le p n : Zpos p < 2 ^ n → dg p ≤ n.
Proof.
  intros H. destruct (Z.le_gt_cases 0 n); [|rewrite Z.pow_neg_r in H by lia; lia].
  rewrite digits_log2. assert (Z.log2 (Zpos p) < n); [|lia].
  apply Z.log2_lt_pow2; lia.
Qed.

Lemma digits_ge p n : 2 ^ n ≤ Zpos p → n + 1 ≤ dg p.
Proof.
  intros H. destruct (Z.le_gt_cases 0 n); [|lia].
  rewrite digits_log2. assert (n ≤ Z.log2 (Zpos p)); [|lia].
  apply Z.log2_le_pow2; lia.
Qed.

Lemma fexp_unfold x : fexp64 x = Z.max (x - 53) (-1074).
Proof. done. Qed.

Lemma canonical_range m e :
  canonical m e → Zpos m < 2 ^ 53 ∧ -1074 ≤ e ∧ (-1074 < e → 2 ^ 52 ≤ Zpos m).
Proof.
  unfold canonical. rewrite fexp_unfold. intros H. pose proof (digits_bounds m) as [H1 H2].
  repeat split; [|lia|].
  - eapply Z.lt_le_trans; [exact H2|]. apply Z.pow_le_mono_r; lia.
  - intros. replace 52 with (dg m - 1) by lia. done.
Qed.

Definition pack (s : bool) (m : positive) (e : Z) : float64 :=
  if e <=? 971 then S754_finite s m e else S754_infinity s.

(** Rounding the magnitude [m * 2^e] (with the inexact part [l] below) keeps
    the quotient by the target exponent or takes the next integer. *)
Lemma round_quotient m e :
  let E := fexp64 (dg m + e) in
  e ≤ E →
  let q := Zpos m / 2 ^ (E - e) in
  0 ≤ q < 2 ^ 53 ∧ (-1074 < E → 2 ^ 52 ≤ q) ∧ -1074 ≤ E.
Proof.
  intros E HE q. pose proof (digits_bounds m) as [H1 H2].
  assert (HEu : E = Z.max (dg m + e - 53) (-1074)) by done.
  assert (0 < 2 ^ (E - e)) by (apply Z.pow_pos_nonneg; lia).
  split_and!.
  - apply Z.div_pos; lia.
  - apply Z.div_lt_upper_bound; [done|]. rewrite <- Z.pow_add_r by lia.
    eapply Z.lt_le_trans; [exact H2|]. apply Z.pow_le_mono_r; lia.
  - intros. apply Z.div_le_lower_bound; [done|]. rewrite <- Z.pow_add_r by lia.
    eapply Z.le_trans; [|exact H1]. apply Z.pow_le_mono_r; lia.
  - lia.
Qed.

Lemma shr_fexp_shape m e l :
  let E := fexp64 (dg m + e) in
  e ≤ E →
  ∃ mrs, shr_fexp 53 1024 (Zpos m) e l = (mrs, E) ∧
    shr_m mrs = Zpos m / 2 ^ (E - e) ∧
    (l = loc_Exact → Zpos m mod 2 ^ (E - e) = 0 → loc_of_shr_record mrs = loc_Exact).
Proof.
  intros E HE. unfold shr_fexp. cbn [Zdigits2]. fold E. unfold shr.
  destruct (E - e) as [|p|p] eqn:Ee; [|destruct (shr_pos_spec (shr_record_of_loc (Zpos m) l) p)
    as [H1 H2]; rewrite shr_record_of_loc_m in *; [lia|]|lia].
  - eexists. split; [f_equal; lia|]. rewrite shr_record_of_loc_m, loc_of_shr_record_of_loc.
    split; [by rewrite Z.div_1_r|done].
  - eexists. split; [f_equal; lia|]. rewrite loc_of_shr_record_of_loc in H2. by split.
Qed.

Lemma shr_fexp_final M E :
  -1074 ≤ E → (-1074 < E → 2 ^ 52 ≤ Zpos M) → Zpos M ≤ 2 ^ 53 →
  ∃ M' E', shr_fexp 53 1024 (Zpos M) E loc_Exact
             = (Build_shr_record (Zpos M') false false, E') ∧
    canonical M' E' ∧ (M' = M ∧ E' = E ∨ Zpos M = 2 ^ 53 ∧ Zpos M' = 2 ^ 52 ∧ E' = E + 1).
Proof.
  intros HE Hlow Hup. unfold shr_fexp. cbn [Zdigits2].
  destruct (decide (Zpos M = 2 ^ 53)) as [Heq|Hne].
  - assert (M = (2 ^ 53)%positive) as -> by lia.
    replace (fexp64 (dg (2 ^ 53) + E) - E) with 1
      by (rewrite fexp_unfold; change (dg (2 ^ 53)) with 54; lia).
    exists (2 ^ 52)%positive, (E + 1). split; [done|]. split; [|by right].
    unfold canonical. rewrite fexp_unfold. change (dg (2 ^ 52)) with 53. lia.
  - pose proof (digits_le M 53 ltac:(lia)) as Hd.
    assert (fexp64 (dg M + E) - E ≤ 0) by (rewrite fexp_unfold; lia).
    exists M, E. split.
    { unfold shr. destruct (fexp64 (dg M + E) - E); done || lia. }
    split; [|by left]. unfold canonical. rewrite fexp_unfold.
    destruct (decide (E = -1074)) as [->|]; [lia|].
    pose proof (digits_ge M 52 ltac:(apply Hlow; lia)). lia.
Qed.

(** The rounded value of [m * 2^e]: zero, or a packed canonical pair built from
    the quotient [q] or its successor; an exact quotient is kept. *)
Lemma binary_round_aux_shape s m e l :
  let E := fexp64 (dg m + e) in
  e ≤ E →
  let q := Zpos m / 2 ^ (E - e) in
  ∃ M, q ≤ M ≤ q + 1 ∧
    (l = loc_Exact → Zpos m mod 2 ^ (E - e) = 0 → M = q) ∧
    (M = 0 ∧ binary_round_aux 53 1024 s (Zpos m) e l = S754_zero s ∨
     ∃ M' E', binary_round_aux 53 1024 s (Zpos m) e l = pack s M' E' ∧ canonical M' E' ∧
       (Zpos M' = M ∧ E' = E ∨ M = 2 ^ 53 ∧ Zpos M' = 2 ^ 52 ∧ E' = E + 1)).
Proof.
  intros E HE q. destruct (round_quotient m e HE) as (Hq & Hq52 & HE0).
  destruct (shr_fexp_shape m e l HE) as (mrs & Hs & Hm & Hl).
  pose proof (rne_range (shr_m mrs) (loc_of_shr_record mrs)) as [Hr Hx].
  unfold binary_round_aux. rewrite Hs.
  set (M := round_nearest_even (shr_m mrs) (loc_of_shr_record mrs)) in *.
  rewrite Hm in Hr, Hx. fold E in Hr, Hx, Hq, Hq52, HE0. fold q in Hr, Hx, Hq, Hq52.
  exists M. split; [done|]. split; [by auto|].
  destruct M as [|M|M]; [|right|lia].
  - left. split; [done|]. unfold shr_fexp, shr. cbn [Zdigits2].
    fold E. destruct (fexp64 (0 + E) - E) eqn:Ez; try done.
    rewrite fexp_unfold in Ez. lia.
  - destruct (shr_fexp_final M E) as (M' & E' & HM & Hc & Hd); [lia| |lia|].
    { intros. specialize (Hq52 ltac:(done)). lia. }
    exists M', E'. fold E. rewrite HM. cbn [shr_m]. split; [done|]. split; [done|].
    destruct Hd as [[-> ->]|?]; [by left|by right].
Qed.

(** ** Rounding is monotone *)

Lemma vle_digits n k m e : vle (Zpos n) k (Zpos m) e → dg n + k ≤ dg m + e.
Proof.
  unfold vle. intros H. set (t := Z.min k e) in *.
  pose proof (digits_bounds n) as [Hn _]. pose proof (digits_bounds m) as [_ Hm].
  assert (0 < 2 ^ (k - t)) by (apply Z.pow_pos_nonneg; lia).
  assert (0 < 2 ^ (e - t)) by (apply Z.pow_pos_nonneg; lia).
  assert (Hp : 2 ^ (dg n - 1 + (k - t)) < 2 ^ (dg m + (e - t))).
  { rewrite !Z.pow_add_r by lia. nia. }
  apply Z.pow_lt_mono_r_iff in Hp; lia.
Qed.

(** Rescaling both sides to a common exponent below both. *)
Lemma vle_scale n k m e t :
  t ≤ k → t ≤ e → vle n k m e ↔ n * 2 ^ (k - t) ≤ m * 2 ^ (e - t).
Proof.
  intros Hk He. unfold vle. set (u := Z.min k e).
  replace (k - t) with (k - u + (u - t)) by lia.
  replace (e - t) with (e - u + (u - t)) by lia.
  rewrite !Z.pow_add_r, !Z.mul_assoc by lia.
  assert (0 < 2 ^ (u - t)) by (apply Z.pow_pos_nonneg; lia). nia.
Qed.

Lemma fexp_mono x y : x ≤ y → fexp64 x ≤ fexp64 y.
Proof. rewrite !fexp_unfold. lia. Qed.

Lemma pack_le s m e x : fleb (S754_finite s m e) x = true → e ≤ 971 → fleb (pack s m e) x = true.
Proof. intros H He. unfold pack. destruct (Z.leb_spec e 971); [done|lia]. Qed.

Lemma finite_le m e m' e' :
  e < e' ∨ e = e' ∧ Zpos m ≤ Zpos m' →
  fleb (S754_finite false m e) (S754_finite false m' e') = true.
Proof. intros H. apply fleb_rank; [done..|]. unfold rank_lt. simpl. lia. Qed.

Lemma pack_ge m e m' e' :
  e < e' ∨ e = e' ∧ Zpos m ≤ Zpos m' →
  fleb (S754_finite false m e) (pack false m' e') = true.
Proof. intros H. unfold pack. destruct (e' <=? 971); [by apply finite_le|done]. Qed.

Lemma vle_quotient_le n k m E :
  k ≤ E → vle n k m E → n / 2 ^ (E - k) ≤ m ∧ (n / 2 ^ (E - k) = m → n mod 2 ^ (E - k) = 0).
Proof.
  intros HE H. apply (vle_scale _ _ _ _ k) in H; [|lia..].
  rewrite Z.sub_diag, Z.pow_0_r, Z.mul_1_r in H.
  assert (Hp : 0 < 2 ^ (E - k)) by (apply Z.pow_pos_nonneg; lia).
  pose proof (Z.div_mod n (2 ^ (E - k)) ltac:(lia)) as Hd.
  pose proof (Z.mod_pos_bound n (2 ^ (E - k)) Hp).
  split; [|nia]. apply Z.div_le_upper_bound; lia.
Qed.

(** A representable bound from above survives rounding. *)
Lemma round_aux_upper n k m e :
  canonical m e → e ≤ 971 → k ≤ fexp64 (dg n + k) → vle (Zpos n) k (Zpos m) e →
  fleb (binary_round_aux 53 1024 false (Zpos n) k loc_Exact) (S754_finite false m e) = true.
Proof.
  intros Hc He Hk Hv. destruct (canonical_range m e Hc) as (Hm & He0 & Hm52).
  pose proof (fexp_mono _ _ (vle_digits _ _ _ _ Hv)) as HE. rewrite Hc in HE.
  destruct (round_quotient n k Hk) as (_ & _ & HE0).
  pose proof (binary_round_aux_shape false n k loc_Exact Hk) as HS. cbv zeta in HS.
  set (E := fexp64 (dg n + k)) in *. set (q := Zpos n / 2 ^ (E - k)) in *.
  destruct HS as (M & HMq & Hx & [[_ ->]|(M' & E' & -> & _ & HM)]); [done|].
  assert (Hq : E = e → M ≤ Zpos m).
  { intros <-. destruct (vle_quotient_le _ _ _ _ Hk Hv) as [Hq Hq0].
    fold q in Hq, Hq0. destruct (decide (q = Zpos m)) as [Hqm|]; [|lia].
    rewrite Hx by auto. lia. }
  destruct HM as [[HM ->]|(HM & HM' & ->)].
  - apply pack_le; [|lia]. apply finite_le.
    destruct (decide (E = e)); [right; split; [done|]; rewrite HM; auto|lia].
  - destruct (decide (E = e)) as [Hee|]; [specialize (Hq Hee); lia|].
    apply pack_le; [|lia]. apply finite_le. lia.
Qed.

(** A representable bound from below survives rounding. *)
Lemma round_aux_lower n k m e :
  canonical m e → k ≤ fexp64 (dg n + k) → vle (Zpos m) e (Zpos n) k →
  fleb (S754_finite false m e) (binary_round_aux 53 1024 false (Zpos n) k loc_Exact) = true.
Proof.
  intros Hc Hk Hv. destruct (canonical_range m e Hc) as (Hm & He0 & Hm52).
  pose proof (fexp_mono _ _ (vle_digits _ _ _ _ Hv)) as HE. rewrite Hc in HE.
  destruct (round_quotient n k Hk) as (Hq & Hq52 & HE0).
  pose proof (binary_round_aux_shape false n k loc_Exact Hk) as HS. cbv zeta in HS.
  set (E := fexp64 (dg n + k)) in *. set (q := Zpos n / 2 ^ (E - k)) in *.
  assert (Hmq : E = e → Zpos m ≤ q).
  { intros <-. apply (vle_scale _ _ _ _ k) in Hv; [|lia..].
    rewrite Z.sub_diag, Z.pow_0_r, Z.mul_1_r in Hv.
    apply Z.div_le_lower_bound; [apply Z.pow_pos_nonneg; lia|]. lia. }
  destruct HS as (M & HMq & Hx & [[HM0 _]|(M' & E' & -> & _ & HM)]).
  - exfalso. destruct (decide (E = e)) as [Hee|]; [specialize (Hmq Hee); lia|].
    specialize (Hq52 ltac:(lia)). lia.
  - apply pack_ge. destruct HM as [[HM ->]|(HM & HM' & ->)]; [|lia].
    destruct (decide (E = e)) as [Hee|]; [specialize (Hmq Hee); lia|lia].
Qed.

Lemma iter_xO n d : Zpos (Pos.iter xO n d) = Zpos n * 2 ^ Zpos d.
Proof.
  induction d as [|d IH] using Pos.peano_ind.
  - simpl. lia.
  - rewrite Pos.iter_succ, Pos2Z.inj_succ, Z.pow_succ_r by lia. lia.
Qed.

Lemma shl_align_spec n k E :
  Zpos (shl_align n k E).1 = Zpos n * 2 ^ (k - (shl_align n k E).2) ∧
  (shl_align n k E).2 = Z.min k E.
Proof.
  unfold shl_align. destruct (E - k) as [|d|d] eqn:Ed; simpl.
  - rewrite Z.sub_diag. lia.
  - rewrite Z.sub_diag. lia.
  - rewrite iter_xO. replace (k - E) with (Zpos d) by lia. lia.
Qed.

Lemma digits_scale n n' j : 0 ≤ j → Zpos n' = Zpos n * 2 ^ j → dg n' = dg n + j.
Proof. intros Hj H. rewrite !digits_log2, H, Z.log2_mul_pow2 by lia. lia. Qed.

(** [binary_round] is [binary_round_aux] on the aligned pair, which denotes the
    same number and needs no left shift. *)
Lemma binary_round_align n k s :
  ∃ n' k', binary_round 53 1024 s n k = binary_round_aux 53 1024 s (Zpos n') k' loc_Exact ∧
    k' ≤ fexp64 (dg n' + k') ∧ k' ≤ k ∧ Zpos n' = Zpos n * 2 ^ (k - k').
Proof.
  unfold binary_round. set (E := fexp64 (dg n + k)).
  destruct (shl_align_spec n k E) as [H1 H2].
  destruct (shl_align n k E) as [n' k']. simpl in *.
  exists n', k'. split; [done|]. split; [|split; [lia|done]].
  rewrite (digits_scale n n' (k - k')) by (lia || done).
  replace (dg n + (k - k') + k') with (dg n + k) by lia. fold E. lia.
Qed.

Lemma vle_rescale_l n n' k k' m e :
  k' ≤ k → n' = n * 2 ^ (k - k') → vle n' k' m e ↔ vle n k m e.
Proof.
  intros Hk ->. set (t := Z.min k' e).
  rewrite !(vle_scale _ _ _ _ t) by lia. rewrite <- Z.mul_assoc, <- Z.pow_add_r by lia.
  by replace (k - k' + (k' - t)) with (k - t) by lia.
Qed.

Lemma vle_rescale_r n n' k k' m e :
  k' ≤ k → n' = n * 2 ^ (k - k') → vle m e n' k' ↔ vle m e n k.
Proof.
  intros Hk ->. set (t := Z.min k' e).
  rewrite !(vle_scale _ _ _ _ t) by lia. rewrite <- Z.mul_assoc, <- Z.pow_add_r by lia.
  by replace (k - k' + (k' - t)) with (k - t) by lia.
Qed.

Lemma round_upper n k m e :
  canonical m e → e ≤ 971 → vle (Zpos n) k (Zpos m) e →
  fleb (binary_round 53 1024 false n k) (S754_finite false m e) = true.
Proof.
  intros Hc He Hv. destruct (binary_round_align n k false) as (n' & k' & -> & Hk & Hle & Hn).
  apply round_aux_upper; [done..|]. by rewrite (vle_rescale_l (Zpos n) _ k).
Qed.

Lemma round_lower n k m e :
  canonical m e → vle (Zpos m) e (Zpos n) k →
  fleb (S754_finite false m e) (binary_round 53 1024 false n k) = true.
Proof.
  intros Hc Hv. destruct (binary_round_align n k false) as (n' & k' & -> & Hk & Hle & Hn).
  apply round_aux_lower; [done..|]. by rewrite (vle_rescale_r (Zpos n) _ k).
Qed.

(** ** Negation *)

Lemma fleb_fneg x y : fleb (fneg x) (fneg y) = fleb y x.
Proof.
  destruct (is_nan x) eqn:Ex; [destruct x, y as [[]|[]| |[]]; done|].
  destruct (is_nan y) eqn:Ey; [destruct y, x as [[]|[]| |[]]; done|].
  apply eq_true_iff_eq. rewrite !fleb_rank by (done || by destruct x, y).
  destruct x as [[]|[]| |[]], y as [[]|[]| |[]]; unfold rank_lt; simpl; lia.
Qed.

Lemma binary_round_aux_neg m e l :
  0 ≤ m → binary_round_aux 53 1024 true m e l = fneg (binary_round_aux 53 1024 false m e l).
Proof.
  intros H. unfold binary_round_aux.
  pose proof (shr_fexp_nonneg m e l H) as H1.
  destruct (shr_fexp 53 1024 m e l) as [mrs e'] eqn:E1; simpl in H1.
  pose proof (rne_range (shr_m mrs) (loc_of_shr_record mrs)) as [H2 _].
  pose proof (shr_fexp_nonneg _ e' loc_Exact
    ltac:(exact (Z.le_trans _ _ _ H1 (proj1 H2)))) as H3.
  destruct (shr_fexp 53 1024 _ e' _) as [mrs' e'']; simpl in H3.
  destruct (shr_m mrs'); [done| |lia]. by destruct (_ <=? _)%Z.
Qed.

Lemma binary_round_neg m e :
  binary_round 53 1024 true m e = fneg (binary_round 53 1024 false m e).
Proof. unfold binary_round. destruct (shl_align _ _ _). by apply binary_round_aux_neg. Qed.

Lemma binary_round_nonneg m e : fleb fzero (binary_round 53 1024 false m e) = true.
Proof.
  destruct (binary_round_sign false m e).
  by destruct (binary_round 53 1024 false m e) as [[]|[]| |[]].
Qed.

Lemma binary_round_nonpos m e : fleb (binary_round 53 1024 true m e) fzero = true.
Proof.
  destruct (binary_round_sign true m e).
  by destruct (binary_round 53 1024 true m e) as [[]|[]| |[]].
Qed.

Lemma fsub_fadd x y : (x - y)%f64 = (x + fneg y)%f64.
Proof.
  destruct x as [[]|[]| |[]], y as [[]|[]| |[]]; try done; unfold fsub, fadd; simpl;
    by rewrite ?Z.sub_opp_r.
Qed.

(** ** Sums *)

Lemma valid_canonical s m e : valid (S754_finite s m e) → canonical m e ∧ e ≤ 971.
Proof.
  unfold valid, valid_binary, bounded, canonical_mantissa.
  rewrite andb_true_iff, Z.eqb_eq, Z.leb_le. intros [H1 H2]. by split; [|lia].
Qed.

(** The exact sum of two finite values, as an integer at the lesser exponent. *)
Definition exact_sum (sx : bool) (mx : positive) (ex : Z) (sy : bool) (my : positive) (ey : Z) : Z :=
  cond_Zopp sx (Zpos mx * 2 ^ (ex - Z.min ex ey)) +
  cond_Zopp sy (Zpos my * 2 ^ (ey - Z.min ex ey)).

Lemma fadd_finite sx mx ex sy my ey :
  (S754_finite sx mx ex + S754_finite sy my ey)%f64 =
  binary_normalize 53 1024 (exact_sum sx mx ex sy my ey) (Z.min ex ey) false.
Proof.
  unfold fadd, SFadd, exact_sum.
  destruct (shl_align_spec mx ex (Z.min ex ey)) as [H1 H2].
  destruct (shl_align_spec my ey (Z.min ex ey)) as [H3 H4].
  rewrite H1, H3, H2, H4.
  by replace (Z.min ex (Z.min ex ey)) with (Z.min ex ey) by lia;
    replace (Z.min ey (Z.min ex ey)) with (Z.min ex ey) by lia.
Qed.

(** Adding a non-negative amount never decreases a value. *)
Lemma fadd_ge x y :
  valid x → is_nan x = false → fleb fzero y = true → is_nan (x + y)%f64 = false →
  fleb x (x + y)%f64 = true.
Proof.
  intros Hv Hx Hy Hn.
  destruct x as [sx|sx| |sx mx ex]; [| |done|].
  - destruct y as [[]|[]| |[] my ey], sx; try done; by apply fleb_refl.
  - destruct y as [[]|[]| |[] my ey], sx; try done; by apply fleb_refl.
  - destruct y as [sy|[]| |[] my ey]; try done; [by apply fleb_refl|].
    rewrite fadd_finite in *. destruct (valid_canonical _ _ _ Hv) as [Hc He].
    set (t := Z.min ex ey). assert (0 < 2 ^ (ex - t)) by (apply Z.pow_pos_nonneg; lia).
    assert (0 < 2 ^ (ey - t)) by (apply Z.pow_pos_nonneg; lia).
    destruct (exact_sum sx mx ex false my ey) as [|n|n] eqn:En;
      unfold exact_sum, cond_Zopp in En; fold t in En; destruct sx; simpl; try nia; try done.
    + pose proof (binary_round_nonneg n t). by apply fleb_trans with fzero.
    + apply round_lower; [done|]. apply (vle_scale _ _ _ _ t); [lia..|].
      rewrite Z.sub_diag. nia.
    + rewrite binary_round_neg. change (S754_finite true mx ex) with (fneg (S754_finite false mx ex)).
      rewrite fleb_fneg. apply round_upper; [done..|]. apply (vle_scale _ _ _ _ t); [lia..|].
      rewrite Z.sub_diag. nia.
Qed.

Lemma binary_normalize_opp n e :
  n ≠ 0 → binary_normalize 53 1024 (- n) e false = fneg (binary_normalize 53 1024 n e false).
Proof.
  destruct n as [|n|n]; [done|intros _..]; simpl.
  - apply binary_round_neg.
  - rewrite binary_round_neg. by destruct (binary_round 53 1024 false n e) as [| | |]; simpl;
      rewrite ?negb_involutive.
Qed.

(** Negating both summands negates the sum, up to the sign of an exact zero. *)
Lemma fadd_fneg x y :
  (fneg x + fneg y)%f64 = fneg (x + y)%f64 ∨
  (x + y = fzero)%f64 ∧ (fneg x + fneg y = fzero)%f64.
Proof.
  destruct x as [[]|[]| |sx mx ex], y as [[]|[]| |sy my ey]; try (by left); try (by right).
  cbn [fneg SFopp]. rewrite !fadd_finite.
  replace (exact_sum (negb sx) mx ex (negb sy) my ey) with (- exact_sum sx mx ex sy my ey)
    by (unfold exact_sum, cond_Zopp; destruct sx, sy; simpl; lia).
  destruct (decide (exact_sum sx mx ex sy my ey = 0)) as [->|Hn]; [by right|left].
  by apply binary_normalize_opp.
Qed.

Lemma fneg_valid x : valid (fneg x) ↔ valid x.
Proof. by destruct x. Qed.
Lemma fneg_not_nan x : is_nan (fneg x) = is_nan x.
Proof. by destruct x. Qed.
Lemma fneg_involutive x : fneg (fneg x) = x.
Proof. destruct x; simpl; by rewrite ?negb_involutive. Qed.

(** Subtracting a non-negative amount never increases a value. *)
Lemma fsub_le x y :
  valid x → is_nan x = false → fleb fzero y = true → is_nan (x - y)%f64 = false →
  fleb (x - y)%f64 x = true.
Proof.
  intros Hv Hx Hy Hn. rewrite fsub_fadd in *.
  assert (Hge : is_nan (fneg x + y)%f64 = false → fleb (fneg x) (fneg x + y)%f64 = true).
  { intros. apply fadd_ge; [by apply fneg_valid|by rewrite fneg_not_nan|done|done]. }
  destruct (fadd_fneg x (fneg y)) as [H|[H1 H2]].
  - rewrite fneg_involutive in H. rewrite H, fneg_not_nan in Hge.
    rewrite <- fleb_fneg. auto.
  - rewrite fneg_involutive in H2. rewrite H2 in Hge. rewrite H1.
    specialize (Hge eq_refl). change fzero with (fneg (fneg fzero)). rewrite <- fleb_fneg.
    by rewrite fneg_involutive.
Qed.

(** ** Products and quotients keep their sign *)

Lemma fmul_nonneg x y :
  fleb fzero x = true → fleb fzero y = true → is_nan (x * y)%f64 = false →
  fleb fzero (x * y)%f64 = true.
Proof.
  destruct x as [[]|[]| |[] mx ex], y as [[]|[]| |[] my ey]; try done; intros _ _.
  unfold fmul, SFmul, xorb. intros.
  destruct (binary_round_aux_sign false (Zpos (mx * my)) (ex + ey) loc_Exact) as [_ H1]; [lia|].
  destruct (binary_round_aux _ _ _ _ _ _) as [[]|[]| |[]]; done.
Qed.

Lemma fdiv_nonneg x y :
  fleb fzero x = true → fltb fzero y = true → is_nan (x / y)%f64 = false →
  fleb fzero (x / y)%f64 = true.
Proof.
  destruct x as [[]|[]| |[] mx ex], y as [[]|[]| |[] my ey]; try done; intros _ _.
  unfold fdiv, SFdiv, xorb.
  pose proof (SFdiv_core_nonneg mx ex my ey) as H.
  destruct (SFdiv_core_binary 53 1024 (Zpos mx) ex (Zpos my) ey) as [[q e] l].
  destruct (binary_round_aux_sign false q e l H) as [_ H1].
  destruct (binary_round_aux _ _ _ _ _ _) as [[]|[]| |[]]; done.
Qed.

(** ** Validity *)

Lemma pack_valid s m e : canonical m e → valid (pack s m e).
Proof.
  intros H. unfold pack. destruct (Z.leb_spec e 971); [|done].
  unfold valid, valid_binary, bounded, canonical_mantissa.
  by rewrite andb_true_iff, Z.eqb_eq, Z.leb_le.
Qed.

Lemma round_aux_valid s m e l :
  e ≤ fexp64 (dg m + e) → valid (binary_round_aux 53 1024 s (Zpos m) e l).
Proof.
  intros H. destruct (binary_round_aux_shape s m e l H) as (M & _ & _ & [[_ ->]|HM]); [done|].
  destruct HM as (M' & E' & -> & Hc & _). by apply pack_valid.
Qed.

Lemma round_valid s m e : valid (binary_round 53 1024 s m e).
Proof.
  destruct (binary_round_align m e s) as (n' & k' & -> & Hk & _ & _). by apply round_aux_valid.
Qed.

Lemma of_int_valid n : valid (of_int n).
Proof. destruct n; [done|apply round_valid..]. Qed.

Lemma fadd_valid x y : valid x → valid y → valid (x + y)%f64.
Proof.
  intros Hx Hy. destruct x as [[]|[]| |sx mx ex], y as [[]|[]| |sy my ey]; try done.
  rewrite fadd_finite. destruct (exact_sum _ _ _ _ _ _); [done|apply round_valid..].
Qed.

Lemma fsub_valid x y : valid x → valid y → valid (x - y)%f64.
Proof. intros. rewrite fsub_fadd. apply fadd_valid; [done|by apply fneg_valid]. Qed.

Lemma fmul_exponent mx ex my ey :
  canonical mx ex → canonical my ey → ex + ey ≤ fexp64 (dg (mx * my) + (ex + ey)).
Proof.
  intros Hx Hy. destruct (canonical_range _ _ Hx) as (_ & Hx0 & Hx52).
  destruct (canonical_range _ _ Hy) as (_ & Hy0 & Hy52). rewrite fexp_unfold.
  destruct (decide (ex = -1074 ∧ ey = -1074)) as [[-> ->]|Hne]; [lia|].
  assert (52 + 1 ≤ dg (mx * my)); [|lia]. apply digits_ge. rewrite Pos2Z.inj_mul.
  destruct (decide (ex = -1074)); [specialize (Hy52 ltac:(lia))|specialize (Hx52 ltac:(lia))]; nia.
Qed.

Lemma fmul_valid x y : valid x → valid y → valid (x * y)%f64.
Proof.
  intros Hx Hy. destruct x as [[]|[]| |sx mx ex], y as [[]|[]| |sy my ey]; try done.
  apply round_aux_valid, fmul_exponent; by eapply valid_canonical.
Qed.

Lemma round_aux_zero_valid s e l : e ≤ -1074 → valid (binary_round_aux 53 1024 s 0 e l).
Proof.
  intros He.
  assert (Hs : ∃ mrs, shr_fexp 53 1024 0 e l = (mrs, -1074) ∧ shr_m mrs = 0).
  { unfold shr_fexp, shr. cbn [Zdigits2]. rewrite fexp_unfold.
    replace (Z.max (0 + e - 53) (-1074) - e) with (-1074 - e) by lia.
    destruct (-1074 - e) as [|p|p] eqn:Ep; [| |lia].
    - eexists. split; [f_equal; lia|apply shr_record_of_loc_m].
    - eexists. split; [f_equal; lia|].
      destruct (shr_pos_spec (shr_record_of_loc 0 l) p) as [-> _];
        rewrite shr_record_of_loc_m; [lia|]. by rewrite Z.div_0_l by lia. }
  unfold binary_round_aux.
  destruct Hs as (mrs & -> & H0). rewrite H0.
  destruct (rne_range 0 (loc_of_shr_record mrs)) as [Hr _].
  set (M := round_nearest_even 0 _) in *.
  assert (M = 0 ∨ M = 1) as [->| ->] by lia; done.
Qed.

Lemma fdiv_core_exponent m1 e1 m2 e2 :
  let '(q, e, _) := SFdiv_core_binary 53 1024 (Zpos m1) e1 (Zpos m2) e2 in
  match q with
  | Zpos p => e ≤ fexp64 (dg p + e)
  | Z0 => e ≤ -1074
  | Zneg _ => False
  end.
Proof.
  unfold SFdiv_core_binary. cbn [Zdigits2].
  set (X := dg m1 + e1 - (dg m2 + e2)). set (e' := Z.min (fexp64 X) (e1 - e2)).
  set (s := e1 - e2 - e').
  set (m' := match s with Z0 => _ | Zpos _ => _ | Zneg _ => _ end).
  assert (Hm' : m' = Zpos m1 * 2 ^ s).
  { unfold m'. destruct s eqn:Es; [lia| |lia]. rewrite Z.shiftl_mul_pow2; lia. }
  destruct (digits_bounds m1) as [H1 _]. destruct (digits_bounds m2) as [_ H2].
  pose proof (Z_div_mod m' (Zpos m2) ltac:(lia)) as Hq.
  destruct (Z.div_eucl m' (Zpos m2)) as [q r]. destruct Hq as [Hq Hr].
  assert (Hs0 : 0 ≤ s) by lia. assert (0 < 2 ^ s) by (apply Z.pow_pos_nonneg; lia).
  assert (Hlow : 2 ^ (dg m1 - 1 + s) ≤ m').
  { rewrite Hm', Z.pow_add_r by lia. nia. }
  assert (He' : e' ≤ fexp64 X) by lia. assert (HXs : dg m1 + s - dg m2 = X - e') by lia.
  destruct q as [|q|q]; [| |nia].
  - assert (Hlt : 2 ^ (dg m1 - 1 + s) < 2 ^ dg m2) by lia.
    apply Z.pow_lt_mono_r_iff in Hlt; [|lia..]. rewrite fexp_unfold in He'. lia.
  - eapply Z.le_trans; [exact He'|]. apply fexp_mono. assert (dg m1 + s - dg m2 ≤ dg q); [|lia].
    destruct (digits_bounds q) as [_ Hq2].
    assert (Hlt : 2 ^ (dg m1 - 1 + s) < 2 ^ (dg m2 + dg q)).
    { rewrite (Z.pow_add_r 2 (dg m2)) by lia. nia. }
    apply Z.pow_lt_mono_r_iff in Hlt; lia.
Qed.

Lemma fdiv_valid x y : valid x → valid y → valid (x / y)%f64.
Proof.
  intros Hx Hy. destruct x as [[]|[]| |sx mx ex], y as [[]|[]| |sy my ey]; try done.
  unfold fdiv, SFdiv. pose proof (fdiv_core_exponent mx ex my ey) as H.
  destruct (SFdiv_core_binary 53 1024 (Zpos mx) ex (Zpos my) ey) as [[[|q|q] e] l]; [| |done].
  - by apply round_aux_zero_valid.
  - by apply round_aux_valid.
Qed.

(** ** Differences and scaling *)

(** The comparison of canonical values is the comparison of the numbers. *)
Lemma canonical_lt m e m' e' t :
  canonical m e → canonical m' e' → t ≤ e → t ≤ e' →
  e < e' ∨ e = e' ∧ Zpos m < Zpos m' → Zpos m * 2 ^ (e - t) < Zpos m' * 2 ^ (e' - t).
Proof.
  intros Hc Hc' Ht Ht' [H|[-> H]].
  - destruct (canonical_range _ _ Hc) as (Hm & He0 & _).
    destruct (canonical_range _ _ Hc') as (_ & _ & Hm').
    specialize (Hm' ltac:(lia)).
    replace (e' - t) with (1 + (e' - e - 1) + (e - t)) by lia.
    rewrite !Z.pow_add_r by lia.
    assert (0 < 2 ^ (e - t)) by (apply Z.pow_pos_nonneg; lia).
    assert (0 < 2 ^ (e' - e - 1)) by (apply Z.pow_pos_nonneg; lia).
    assert (Zpos m < Zpos m' * (2 ^ 1 * 2 ^ (e' - e - 1))) by nia. nia.
  - assert (0 < 2 ^ (e' - t)) by (apply Z.pow_pos_nonneg; lia). nia.
Qed.

Lemma binary_normalize_pos n e :
  0 < n → -1074 ≤ e → fltb fzero (binary_normalize 53 1024 n e false) = true.
Proof.
  intros Hn He. destruct n as [|n|n]; [lia| |lia]. simpl.
  apply fltb_fleb_trans with (S754_finite false 1 (-1074)); [done|].
  apply round_lower; [done|]. apply (vle_scale _ _ _ _ (-1074)); [lia..|].
  assert (0 < 2 ^ (e - -1074)) by (apply Z.pow_pos_nonneg; lia). nia.
Qed.

(** A greater finite value minus a lesser one is positive: gradual underflow
    never rounds a nonzero difference to zero. *)
Lemma fsub_pos x y :
  valid x → valid y → is_finite y = true → fltb y x = true → fltb fzero (x - y)%f64 = true.
Proof.
  intros Hx Hy Hf Hlt. rewrite fsub_fadd.
  destruct x as [sx|[]| |sx mx ex], y as [sy|[]| |sy my ey]; try done.
  all: try (destruct sx; done). all: try (destruct sy; done).
  all: try (destruct sx, sy; done).
  cbn [fneg SFopp]. rewrite fadd_finite.
  destruct (valid_canonical _ _ _ Hx) as [Hcx _], (valid_canonical _ _ _ Hy) as [Hcy _].
  destruct (canonical_range _ _ Hcx) as (_ & Hex & _), (canonical_range _ _ Hcy) as (_ & Hey & _).
  apply binary_normalize_pos; [|lia]. apply fltb_rank in Hlt; [|done..].
  unfold exact_sum, cond_Zopp. set (t := Z.min ex ey).
  assert (0 < 2 ^ (ex - t)) by (apply Z.pow_pos_nonneg; lia).
  assert (0 < 2 ^ (ey - t)) by (apply Z.pow_pos_nonneg; lia).
  destruct sx, sy; unfold rank_lt in Hlt; simpl in Hlt |- *; try lia; try nia.
  - pose proof (canonical_lt mx ex my ey t Hcx Hcy ltac:(lia) ltac:(lia)). lia.
  - pose proof (canonical_lt my ey mx ex t Hcy Hcx ltac:(lia) ltac:(lia)). lia.
Qed.

(** Scaling a non-negative value by a factor of at most one does not increase it. *)
Lemma fmul_le x y :
  valid x → valid y → is_finite x = true → fleb fzero x = true →
  fleb fzero y = true → fleb y (of_int 1) = true →
  fleb (x * y)%f64 x = true.
Proof.
  intros Hx Hy Hf H0 Hy0 Hy1. change (of_int 1) with (S754_finite false (2 ^ 52) (-52)) in Hy1.
  destruct x as [sx|[]| |[] mx ex], y as [sy|[]| |[] my ey]; try done; try (by destruct sx).
  unfold fmul, SFmul, xorb.
  destruct (valid_canonical _ _ _ Hx) as [Hcx Hex], (valid_canonical _ _ _ Hy) as [Hcy _].
  apply round_aux_upper; [done..|by apply fmul_exponent|].
  destruct (canonical_range _ _ Hcy) as (Hmy & _). apply fleb_rank in Hy1; [|done..].
  unfold rank_lt in Hy1. simpl in Hy1.
  apply (vle_scale _ _ _ _ (ex + ey)); [lia..|]. rewrite Z.sub_diag, Pos2Z.inj_mul.
  replace (ex - (ex + ey)) with (- ey) by lia.
  assert (Zpos my ≤ 2 ^ (- ey)); [|nia].
  destruct (decide (ey = -52)) as [->|]; [lia|].
  assert (2 ^ 53 ≤ 2 ^ (- ey)); [|lia]. apply Z.pow_le_mono_r; lia.
Qed.

(** ** Minimum and maximum *)

Lemma math_Min_le_l x y : is_nan x = false → is_nan y = false → fleb (math_Min x y) x = true.
Proof.
  intros Hx Hy. unfold math_Min. rewrite Hx, Hy. simpl.
  destruct (is_neg_inf x) eqn:Ex; simpl; [by destruct x as [|[]| |]|].
  destruct (is_neg_inf y) eqn:Ey; simpl; [by destruct x as [[]|[]| |[]]|].
  destruct (x == fzero)%f64 eqn:E0; simpl.
  - destruct (x == y)%f64 eqn:Exy; [|destruct (x <? y)%f64 eqn:El; [by apply fleb_refl|]].
    + destruct (signbit x); [by apply fleb_refl|].
      destruct x as [[]|[]| |[]], y as [[]|[]| |[]]; done.
    + by apply fltb_false in El.
  - destruct (x <? y)%f64 eqn:El; [by apply fleb_refl|]. by apply fltb_false in El.
Qed.

Lemma math_Min_cases x y :
  is_nan x = false → is_nan y = false → math_Min x y = x ∨ math_Min x y = y.
Proof.
  intros Hx Hy. unfold math_Min. rewrite Hx, Hy. simpl.
  destruct (is_neg_inf x) eqn:Ex; simpl; [destruct x as [|[]| |]; by auto|].
  destruct (is_neg_inf y) eqn:Ey; simpl; [destruct y as [|[]| |]; by auto|].
  repeat case_if; auto.
Qed.

Lemma math_Max_cases x y :
  is_nan x = false → is_nan y = false → math_Max x y = x ∨ math_Max x y = y.
Proof.
  intros Hx Hy. unfold math_Max. rewrite Hx, Hy. simpl.
  destruct (is_pos_inf x) eqn:Ex; simpl; [destruct x as [|[]| |]; by auto|].
  destruct (is_pos_inf y) eqn:Ey; simpl; [destruct y as [|[]| |]; by auto|].
  repeat case_if; auto.
Qed.

Lemma math_Max_ge_r x y : is_nan x = false → is_nan y = false → fleb y (math_Max x y) = true.
Proof.
  intros Hx Hy. unfold math_Max. rewrite Hx, Hy. simpl.
  destruct (is_pos_inf x) eqn:Ex; simpl; [by destruct y as [[]|[]| |[]]|].
  destruct (is_pos_inf y) eqn:Ey; simpl; [by destruct y as [[]|[]| |[]]|].
  destruct (x == fzero)%f64 eqn:E0; simpl.
  - destruct (x == y)%f64 eqn:Exy.
    + destruct x as [[]|[]| |[]], y as [[]|[]| |[]]; done.
    + destruct (y <? x)%f64 eqn:El; [by apply fltb_fleb|by apply fleb_refl].
  - destruct (y <? x)%f64 eqn:El; [by apply fltb_fleb|by apply fleb_refl].
Qed.

#[export] Hint Resolve of_int_valid fadd_valid fsub_valid fmul_valid fdiv_valid : vpp.
#[export] Hint Resolve of_int_not_nan : vpp.
