(* ===== verification/GoTime.v ===== *)
(** * Package time

    An instant is a number of nanoseconds since January 1, year 1, 00:00:00
    UTC (Go's zero time), together with the monotonic clock reading [time.Now]
    attaches.  Durations are [int64] nanoseconds. *)
From S2P Require Import Prelude Float64.
Local Open Scope Z_scope.

Record Time := MkTime { t_wall : Z; t_mono : option Z }.

#[export] Instance Time_eq_dec : EqDecision Time.
Proof. solve_decision. Defined.

Definition Nanosecond : Z := 1.
Definition Second : Z := 10 ^ 9.
Definition Minute : Z := 60 * Second.
Definition Hour_ : Z := 60 * Minute.

(** Seconds from the zero time to January 1, 1970. *)
Definition unix_epoch : Z := 62135596800.

Definition zero_time : Time := MkTime 0 None.
Definition IsZero (t : Time) : bool := t_wall t =? 0.

(** [time.Unix(sec, 0)]: the seconds since the zero time wrap around. *)
Definition time_Unix (sec : Z) : Time := MkTime (wrap64 (sec + unix_epoch) * Second) None.

(** [t.Unix()] and [t.UnixNano()]. *)
Definition Unix (t : Time) : Z := wrap64 (t_wall t / Second - unix_epoch).
Definition UnixNano (t : Time) : Z := wrap64 (t_wall t - unix_epoch * Second).

(** Comparisons use the monotonic readings when both instants have one. *)
Definition on_clock {A} (f : Z → Z → A) (t u : Time) : A :=
  match t_mono t, t_mono u with
  | Some a, Some b => f a b
  | _, _ => f (t_wall t) (t_wall u)
  end.
Definition Equal : Time → Time → bool := on_clock Z.eqb.
Definition Before : Time → Time → bool := on_clock Z.ltb.
Definition After (t u : Time) : bool := Before u t.

(** [t.Sub(u)] saturates. *)
Definition Sub : Time → Time → Z := on_clock (λ a b, sat64 (a - b)).

Definition Add (t : Time) (d : Z) : Time :=
  MkTime (t_wall t + d) ((λ m, m + d) <$> t_mono t).

(** [t.Truncate(d)]: down to a multiple of [d] since the zero time; the
    monotonic reading is dropped. *)
Definition Truncate (t : Time) (d : Z) : Time :=
  MkTime (if d <=? 0 then t_wall t else t_wall t - t_wall t `mod` d) None.

(** [d.Seconds()]. *)
Definition Seconds (d : Z) : float64 :=
  (of_int (Z.quot d Second) + of_int (Z.rem d Second) / of_int Second)%f64.

(** The time zone of a clock: the offset east of UTC, in seconds, in force at a
    Unix time. *)
Class Location := zone_offset : Z → Z.

Definition UTC : Location := λ _, 0.

Section Clock.
Context `{Location}.
Definition seconds_of_day (t : Time) : Z :=
  (t_wall t / Second + zone_offset (t_wall t / Second - unix_epoch)) `mod` 86400.
(** [t.Hour()] and [t.Minute()]. *)
Definition Hour (t : Time) : Z := seconds_of_day t / 3600.
Definition Minute_of (t : Time) : Z := seconds_of_day t `mod` 3600 / 60.
End Clock.

(** [time.Now] acts on a world [W]: a type class, so that every theorem holds for
    every clock. *)
Class Clock (W : Type) := Now : W → Time * W.

(** ** Formatting *)

(** The proleptic Gregorian date of a day, counted from January 1, year 1: year,
    month and day of the month. *)
Definition civil (day : Z) : Z * Z * Z :=
  let z := day + 306 in
  let era := z / 146097 in
  let doe := z `mod` 146097 in
  let yoe := (doe - doe / 1460 + doe / 36524 - doe / 146096) / 365 in
  let doy := doe - (365 * yoe + yoe / 4 - yoe / 100) in
  let mp := (5 * doy + 2) / 153 in
  let d := doy - (153 * mp + 2) / 5 + 1 in
  let m := if mp <? 10 then mp + 3 else mp - 9 in
  (yoe + era * 400 + (if m <=? 2 then 1 else 0), m, d).

(** [t.Format("20060102150405")] and [t.Format("20060102150405.000000000")]. *)
Definition format_datetime `{Location} (t : Time) : string :=
  let secs := t_wall t / Second + zone_offset (t_wall t / Second - unix_epoch) in
  let '(y, m, d) := civil (secs / 86400) in
  let n := secs `mod` 86400 in
  digits_pad 4 (Z.to_N y) +:+ digits_pad 2 (Z.to_N m) +:+ digits_pad 2 (Z.to_N d) +:+
  digits_pad 2 (Z.to_N (n / 3600)) +:+ digits_pad 2 (Z.to_N (n `mod` 3600 / 60)) +:+
  digits_pad 2 (Z.to_N (n `mod` 60)).

Definition format_stamp `{Location} (t : Time) : string :=
  format_datetime t +:+ "." +:+ digits_pad 9 (Z.to_N (t_wall t `mod` Second)).

(** ** Facts *)

Lemma Hour_range `{Location} t : 0 ≤ Hour t < 24.
Proof.
  unfold Hour, seconds_of_day.
  pose proof (Z.mod_pos_bound (t_wall t / Second +
    zone_offset (t_wall t / Second - unix_epoch)) 86400). zlia.
Qed.

Lemma Minute_range `{Location} t : 0 ≤ Minute_of t < 60.
Proof. unfold Minute_of. set (n := seconds_of_day t). zlia. Qed.

Lemma Truncate_spec t d :
  0 < d → t_wall (Truncate t d) ≤ t_wall t < t_wall (Truncate t d) + d ∧
          t_wall (Truncate t d) `mod` d = 0.
Proof.
  intros Hd. unfold Truncate. destruct (Z.leb_spec d 0); [lia|]. simpl.
  pose proof (Z.mod_pos_bound (t_wall t) d Hd). split; [lia|].
  pose proof (Z.div_mod (t_wall t) d ltac:(lia)).
  replace (t_wall t - t_wall t `mod` d) with (t_wall t / d * d) by lia.
  apply Z.mod_mul. lia.
Qed.
