(* ===== verification/World.v ===== *)
(** * What the program is connected to

    The broker and the databases are services: the operations that call them act
    on a world [W] and are written against these type classes, together with
    [Clock] of GoTime.  Theorems hold for every instance. *)
From S2P Require Import Prelude Float64 GoTime.

(** A paho client: [IsConnected], and [Publish] (topic, payload) followed by
    waiting for its token; [None] is the nil error. *)
Class Broker (W : Type) := {
  IsConnected : W → bool * W;
  Publish : string → string → W → option error * W
}.

(** The outcome of the next database statement. *)
Class Storage (W : Type) := db_fault : W → option error * W.

(** A world whose monotonic clock does not go back: a reading lies between the
    times before and after it, and the calls of the services take time only. *)
Class MonotoneWorld (W : Type) `{Clock W} `{Broker W} `{Storage W} := {
  world_clock : W → Z;
  world_now : ∀ w, ∃ n, t_mono (Now w).1 = Some n ∧ (world_clock w ≤ n ≤ world_clock (Now w).2)%Z;
  world_publish : ∀ topic payload w, (world_clock w ≤ world_clock (Publish topic payload w).2)%Z;
  world_fault : ∀ w, (world_clock w ≤ world_clock (db_fault w).2)%Z
}.

(** ** Observing a world *)

(** The same world with a log beside it; reading the clock and running a
    statement leave the log alone. *)
Definition traced_clock {W} {C : Clock W} {A} : Clock (W * list A) :=
  λ '(w, l), let '(t, w) := Now w in (t, (w, l)).
Definition traced_storage {W} {S : Storage W} {A} : Storage (W * list A) :=
  λ '(w, l), let '(f, w) := db_fault w in (f, (w, l)).

(** Here the log holds what the broker accepted. *)
Definition traced_broker {W} {B : Broker W} : Broker (W * list (string * string)) := {|
  IsConnected := λ '(w, l), let '(b, w) := IsConnected w in (b, (w, l));
  Publish := λ topic payload '(w, l),
    let '(err, w) := Publish topic payload w in
    (err, (w, match err with None => l ++ [(topic, payload)] | Some _ => l end))
|}.

Lemma traced_now {W} {C : Clock W} {A} (w : W) (l : list A) :
  @Now _ traced_clock (w, l) = let '(t, w) := Now w in (t, (w, l)).
Proof. done. Qed.
Lemma traced_fault {W} {S : Storage W} {A} (w : W) (l : list A) :
  @db_fault _ traced_storage (w, l) = let '(f, w) := db_fault w in (f, (w, l)).
Proof. done. Qed.
