(* ===== verification/GoStrings.v ===== *)
(** * Package strings

    The functions of Go's package strings the code calls, on byte strings: a
    [string] is the sequence of its bytes. *)
From Stdlib Require Import Ascii.
From S2P Require Import Prelude.

(** [strings.Split(s, sep)] for a one-byte separator. *)
Fixpoint Split (s : string) (sep : ascii) : list string :=
  match s with
  | EmptyString => [""]
  | String c s' =>
      if decide (c = sep) then "" :: Split s' sep
      else match Split s' sep with
           | [] => [String c ""]
           | w :: ws => String c w :: ws
           end
  end.

(** [strings.Join(parts, sep)]. *)
Fixpoint Join (parts : list string) (sep : string) : string :=
  match parts with
  | [] => ""
  | [w] => w
  | w :: ws => w +:+ sep +:+ Join ws sep
  end.

Definition HasPrefix (s p : string) : bool := String.prefix p s.

(** [strings.TrimPrefix(s, p)]. *)
Fixpoint drop_bytes (n : nat) (s : string) : string :=
  match n, s with
  | S n', String _ s' => drop_bytes n' s'
  | _, _ => s
  end.
Definition TrimPrefix (s p : string) : string :=
  if HasPrefix s p then drop_bytes (String.length p) s else s.

Definition HasSuffix (s p : string) : bool :=
  (String.length p <=? String.length s) &&
  (drop_bytes (String.length s - String.length p) s =? p)%string.

Fixpoint Contains (s sub : string) : bool :=
  HasPrefix s sub ||
  match s with EmptyString => false | String _ s' => Contains s' sub end.

(** [strings.ReplaceAll(s, old, new)] for a one-byte [old]. *)
Fixpoint ReplaceAll (s : string) (old : ascii) (new : string) : string :=
  match s with
  | EmptyString => EmptyString
  | String c s' =>
      if decide (c = old) then new +:+ ReplaceAll s' old new else String c (ReplaceAll s' old new)
  end.

(** [strings.Cut(s, sep)] for a one-byte separator: [None] when it is absent. *)
Fixpoint Cut (s : string) (sep : ascii) : option (string * string) :=
  match s with
  | EmptyString => None
  | String c s' =>
      if decide (c = sep) then Some ("", s')
      else match Cut s' sep with
           | Some (a, b) => Some (String c a, b)
           | None => None
           end
  end.

(** The encodings of the code points [unicode.IsSpace] accepts: the ASCII ones,
    U+0085, U+00A0, U+1680, U+2000 to U+200A, U+2028, U+2029, U+202F, U+205F
    and U+3000. *)
Definition bytes (l : list nat) : string :=
  foldr (λ n s, String (ascii_of_nat n) s) EmptyString l.
Definition spaces : list string :=
  map bytes
    ([[9]; [10]; [11]; [12]; [13]; [32]; [194; 133]; [194; 160]; [225; 154; 128];
      [226; 128; 168]; [226; 128; 169]; [226; 128; 175]; [226; 129; 159]; [227; 128; 128]]
     ++ map (λ k, [226; 128; k]) (seq 128 11)).

Definition leading_space (s : string) : option string :=
  list_find (λ p, HasPrefix s p = true) spaces ≫= λ '(_, p), Some (drop_bytes (String.length p) s).

Fixpoint take_bytes (n : nat) (s : string) : string :=
  match n, s with
  | S n', String c s' => String c (take_bytes n' s')
  | _, _ => EmptyString
  end.

Definition trailing_space (s : string) : option string :=
  list_find (λ p, HasSuffix s p = true) spaces ≫=
  λ '(_, p), Some (take_bytes (String.length s - String.length p) s).

(** Strips with [f] as long as it applies; every step shortens the string, so
    its length is enough fuel. *)
Fixpoint strip (f : string → option string) (fuel : nat) (s : string) : string :=
  match fuel with
  | O => s
  | S n => match f s with Some s' => strip f n s' | None => s end
  end.

(** [strings.TrimSpace]. *)
Definition TrimSpace (s : string) : string :=
  let s := strip leading_space (String.length s) s in
  strip trailing_space (String.length s) s.

(** [strings.TrimLeft(s, cutset)] and [strings.Trim(s, cutset)] for a one-byte
    cutset. *)
Fixpoint TrimLeft (s : string) (c : ascii) : string :=
  match s with
  | String a s' => if decide (a = c) then TrimLeft s' c else s
  | EmptyString => EmptyString
  end.

Fixpoint TrimRight (s : string) (c : ascii) : string :=
  match s with
  | String a s' =>
      match TrimRight s' c with
      | EmptyString => if decide (a = c) then EmptyString else String a EmptyString
      | r => String a r
      end
  | EmptyString => EmptyString
  end.

Definition Trim (s : string) (c : ascii) : string := TrimRight (TrimLeft s c) c.

(** The byte [c] occurs in [s]. *)
Fixpoint has_byte (c : ascii) (s : string) : bool :=
  match s with
  | EmptyString => false
  | String a s' => bool_decide (a = c) || has_byte c s'
  end.

(** ** Splitting and joining *)

Lemma Split_no_sep s c : has_byte c s = false → Split s c = [s].
Proof.
  induction s as [|a s IH]; simpl; [done|]. intros [H1 H2]%orb_false_iff.
  apply bool_decide_eq_false in H1. rewrite decide_False by done. by rewrite IH.
Qed.

Lemma Split_app s1 c s2 :
  has_byte c s1 = false → Split (s1 +:+ String c s2) c = s1 :: Split s2 c.
Proof.
  induction s1 as [|a s1 IH]; simpl.
  - intros _. by rewrite decide_True.
  - intros [H1 H2]%orb_false_iff. apply bool_decide_eq_false in H1.
    rewrite decide_False by done. by rewrite IH.
Qed.

Lemma Split_cons s c : ∃ w ws, Split s c = w :: ws.
Proof.
  destruct s as [|a s]; simpl; [by eauto|]. case_decide; [by eauto|].
  destruct (Split s c); eauto.
Qed.

(** The parts joined by the separator are the string. *)
Lemma Split_Join s c : Join (Split s c) (String c "") = s.
Proof.
  induction s as [|a s IH]; [done|]. simpl.
  destruct (Split_cons s c) as (w & ws & E). rewrite E in IH |- *. case_decide as Hc.
  - subst a. rewrite <- IH. done.
  - rewrite <- IH. by destruct ws.
Qed.

(** No part holds the separator. *)
Lemma Split_parts s c : Forall (λ w, has_byte c w = false) (Split s c).
Proof.
  induction s as [|a s IH]; simpl; [by repeat constructor|].
  destruct (Split_cons s c) as (w & ws & E). rewrite E in IH |- *.
  apply Forall_cons in IH as [Hw Hws]. case_decide as Hc.
  - by repeat constructor.
  - constructor; [|done]. simpl. by rewrite bool_decide_eq_false_2.
Qed.

Lemma has_byte_app c s1 s2 : has_byte c (s1 +:+ s2) = has_byte c s1 || has_byte c s2.
Proof. induction s1 as [|a s1 IH]; simpl; [done|]. by rewrite IH, orb_assoc. Qed.

(** [simpl] does not unfold concatenation. *)
Lemma str_cons_app a s1 s2 : String a s1 +:+ s2 = String a (s1 +:+ s2).
Proof. done. Qed.

Lemma str_nil_app s : "" +:+ s = s.
Proof. done. Qed.

Lemma str_app_assoc s1 s2 s3 : (s1 +:+ s2) +:+ s3 = s1 +:+ s2 +:+ s3.
Proof. induction s1 as [|a s1 IH]; [done|]. change (String a ((s1 +:+ s2) +:+ s3) = String a (s1 +:+ s2 +:+ s3)). by rewrite IH. Qed.

Lemma str_app_nil s : s +:+ "" = s.
Proof. induction s as [|a s IH]; [done|]. change (String a (s +:+ "") = String a s). by rewrite IH. Qed.

(** Strings that agree up to a separator neither prefix holds are equal part by
    part. *)
Lemma sep_app_inj c s1 s2 t1 t2 :
  has_byte c s1 = false → has_byte c t1 = false →
  s1 +:+ String c s2 = t1 +:+ String c t2 → s1 = t1 ∧ s2 = t2.
Proof.
  revert t1. induction s1 as [|a s1 IH]; intros [|b t1]; simpl; intros H1 H2 Happ.
  - by simplify_eq.
  - injection Happ as <- _. by rewrite bool_decide_eq_true_2 in H2.
  - injection Happ as -> _. by rewrite bool_decide_eq_true_2 in H1.
  - injection Happ as -> Hs. apply orb_false_iff in H1 as [_ H1]. apply orb_false_iff in H2 as [_ H2].
    destruct (IH t1 H1 H2 Hs) as [-> ->]. done.
Qed.

(** ** Trimming a byte *)

Lemma TrimLeft_no_lead s c s' : TrimLeft s c ≠ String c s'.
Proof.
  induction s as [|a s IH]; simpl; [done|]. case_decide; [done|]. congruence.
Qed.

Lemma TrimRight_lead s c a s' : TrimRight s c = String a s' → ∃ s'', s = String a s''.
Proof.
  destruct s as [|b s]; simpl; [done|].
  destruct (TrimRight s c); [case_decide; [done|]|]; intros ?; simplify_eq; eauto.
Qed.

Lemma Trim_no_lead s c s' : Trim s c ≠ String c s'.
Proof.
  unfold Trim. intros H. destruct (TrimRight_lead _ _ _ _ H) as [s'' Hs].
  by apply TrimLeft_no_lead in Hs.
Qed.

(** ** The order of strings *)

Lemma ltb_leb a b : String.ltb a b = negb (String.leb b a).
Proof. unfold String.ltb, String.leb. rewrite (String.compare_antisym b a). by destruct (a ?= b)%string. Qed.

Lemma leb_refl a : String.leb a a = true.
Proof. destruct (String.leb_total a a); done. Qed.

Lemma leb_trans a b c : String.leb a b = true → String.leb b c = true → String.leb a c = true.
Proof.
  intros H1 H2. apply Is_true_true. change (String.le a c).
  by transitivity b; apply Is_true_true.
Qed.

(** ** Replacing and cutting *)

Lemma ReplaceAll_app s1 s2 c new :
  ReplaceAll (s1 +:+ s2) c new = ReplaceAll s1 c new +:+ ReplaceAll s2 c new.
Proof.
  induction s1 as [|a s1 IH]; [done|].
  change (String a s1 +:+ s2) with (String a (s1 +:+ s2)). simpl. rewrite IH.
  case_decide; [by rewrite str_app_assoc|done].
Qed.

Lemma Cut_app s1 c s2 : has_byte c s1 = false → Cut (s1 +:+ String c s2) c = Some (s1, s2).
Proof.
  induction s1 as [|a s1 IH].
  - intros _. simpl. by rewrite decide_True.
  - change (String a s1 +:+ String c s2) with (String a (s1 +:+ String c s2)). simpl.
    intros [H1 H2]%orb_false_iff. apply bool_decide_eq_false in H1.
    by rewrite decide_False, IH.
Qed.

(** ** Prefixes, suffixes and substrings *)

Lemma drop_bytes_app p s : drop_bytes (String.length p) (p +:+ s) = s.
Proof. induction p as [|a p IH]; [by destruct s|exact IH]. Qed.

Lemma length_str_app s1 s2 : String.length (s1 +:+ s2) = String.length s1 + String.length s2.
Proof. induction s1 as [|a s1 IH]; [done|]. change (S (String.length (s1 +:+ s2)) = S (String.length s1 + String.length s2)). by rewrite IH. Qed.

Lemma HasPrefix_app p s : HasPrefix (p +:+ s) p = true.
Proof.
  unfold HasPrefix. induction p as [|a p IH]; [by destruct s|].
  change (String a p +:+ s) with (String a (p +:+ s)). simpl.
  by destruct (Ascii.ascii_dec a a).
Qed.

Lemma HasSuffix_app s p : HasSuffix (s +:+ p) p = true.
Proof.
  unfold HasSuffix. rewrite length_str_app, Nat.add_sub, drop_bytes_app, String.eqb_refl.
  rewrite andb_true_r. apply Nat.leb_le. lia.
Qed.

Lemma Contains_app s1 p s2 : Contains (s1 +:+ p +:+ s2) p = true.
Proof.
  induction s1 as [|a s1 IH].
  - change ("" +:+ p +:+ s2) with (p +:+ s2). pose proof (HasPrefix_app p s2) as H.
    destruct (p +:+ s2); cbn [Contains]; by rewrite H.
  - change (String a s1 +:+ p +:+ s2) with (String a (s1 +:+ p +:+ s2)). simpl.
    by rewrite IH, orb_true_r.
Qed.

(** The last occurrence of a separator. *)
Lemma last_sep_inj c s1 s2 t1 t2 :
  has_byte c s2 = false → has_byte c t2 = false → s1 +:+ String c s2 = t1 +:+ String c t2 → s1 = t1 ∧ s2 = t2.
Proof.
  intros Hs Ht. revert t1. induction s1 as [|a s1 IH]; intros [|b t1]; rewrite ?str_cons_app, ?str_nil_app.
  - by intros [= <-].
  - intros [= <- ->]. rewrite has_byte_app in Hs. simpl in Hs. rewrite bool_decide_eq_true_2, orb_true_r in Hs by done. done.
  - intros [= -> <-]. rewrite has_byte_app in Ht. simpl in Ht. rewrite bool_decide_eq_true_2, orb_true_r in Ht by done. done.
  - intros [= <- H]. by destruct (IH _ H) as [-> ->].
Qed.

(** ** Pairs in the order of their keys *)

Definition by_key {A} (l : list (string * A)) : list (string * A) :=
  sort_slice (λ a b, String.ltb a.1 b.1) l.

Lemma by_key_perm {A} (l : list (string * A)) : by_key l ≡ₚ l.
Proof. apply sort_slice_perm. Qed.

Lemma ltb_asym a b : String.ltb a b = true → String.ltb b a = false.
Proof.
  rewrite !ltb_leb, negb_true_iff, negb_false_iff. intros H. destruct (String.leb_total a b); congruence.
Qed.
Lemma nltb_trans a b c : String.ltb b a = false → String.ltb c b = false → String.ltb c a = false.
Proof. rewrite !ltb_leb, !negb_false_iff. eauto using leb_trans. Qed.

(** Different keys have one order. *)
Lemma by_key_unique {A} (l l' : list (string * A)) : NoDup l.*1 → l ≡ₚ l' → by_key l = by_key l'.
Proof.
  intros Hl Hp. unfold by_key. apply sort_slice_unique.
  - intros x y. apply ltb_asym.
  - intros x y z. apply nltb_trans.
  - apply sort_slice_sorted; [intros x y; apply ltb_asym|intros x y z; apply nltb_trans].
  - by rewrite sort_slice_perm, Hp.
  - intros [k v] [k' v'] Hx Hy. simpl. rewrite !ltb_leb, !negb_false_iff. intros H1 H2.
    rewrite <- Hp in Hx, Hy. assert (k = k') as -> by by apply String.leb_antisym.
    apply (elem_of_list_to_map_1 (M := gmap string)) in Hx, Hy; [congruence|done..].
Qed.

Lemma by_key_fmap {A B} (f : A → B) (l : list (string * A)) :
  by_key (prod_map id f <$> l) = prod_map id f <$> by_key l.
Proof.
  assert (∀ k x l', sort_insert (λ a b : string * B, String.ltb a.1 b.1) (prod_map id f (k, x)) (prod_map id f <$> l') =
    prod_map id f <$> sort_insert (λ a b : string * A, String.ltb a.1 b.1) (k, x) l') as Hins.
  { intros k x l'. induction l' as [|[k' x'] l' IH]; [done|]. rewrite fmap_cons. cbn [sort_insert].
    rewrite IH. cbn [prod_map id fst]. by case_if. }
  unfold by_key. induction l as [|[k x] l IH]; [done|]. rewrite fmap_cons. cbn [sort_slice]. by rewrite IH, Hins.
Qed.
