(* ===== verification/Model.v ===== *)
(** * internal/model: the data of the platform

    One record per struct of [internal/model/model.go], each field prefixed by
    an abbreviation of its struct.  A Go map is a [gmap]; the nil map and the
    empty map, which every reader of these maps treats alike, are identified.
    A pointer that may be nil is an [option]. *)
From Stdlib Require Import Floats.SpecFloat.
From S2P Require Import Prelude Float64 GoTime.

#[export] Instance float64_eq_dec : EqDecision float64.
Proof. unfold float64. solve_decision. Defined.

(** The values of Go's [interface{}] that package encoding/json produces. *)
#[local] Unset Elimination Schemes.
Inductive json :=
| JNull
| JBool (b : bool)
| JNum (x : float64)
| JStr (s : string)
| JArr (l : list json)
| JObj (fields : list (string * json)).
#[local] Set Elimination Schemes.

(** A [DeviceType] is a string; the constants name the supported ones. *)
Definition DeviceType := string.
Definition DevicePV : DeviceType := "pv".
Definition DeviceBattery : DeviceType := "battery".
Definition DeviceLoad : DeviceType := "load".

Record Device := MkDevice {
  dev_ID : string;
  dev_SiteID : string;
  dev_Type : DeviceType;
  dev_Name : string;
  dev_RatedPowerW : float64;
  dev_CapacityWh : float64;
  dev_CriticalLoad : bool;
  dev_CreatedAt : Time
}.

Record Telemetry := MkTelemetry {
  tel_DeviceID : string;
  tel_SiteID : string;
  tel_Type : DeviceType;
  tel_Timestamp : Z;
  tel_Metrics : gmap string float64;
  tel_State : string;
  tel_Seq : Z
}.

Record Command := MkCommand {
  cmd_CommandID : string;
  cmd_Action : string;
  cmd_Params : gmap string json;
  cmd_IssuedAt : Z;
  cmd_Reason : string
}.

Record CommandAck := MkCommandAck {
  ack_CommandID : string;
  ack_OK : bool;
  ack_Error : string;
  ack_Timestamp : Z
}.

Record CommandRecord := MkCommandRecord {
  rec_SiteID : string;
  rec_DeviceID : string;
  rec_DeviceType : DeviceType;
  rec_Command : Command;
  rec_Status : string;
  rec_Ack : option CommandAck;
  rec_UpdatedAt : Time
}.

Record DeviceEvent := MkDeviceEvent {
  ev_EventID : string;
  ev_SiteID : string;
  ev_DeviceID : string;
  ev_DeviceType : DeviceType;
  ev_Severity : string;
  ev_Code : string;
  ev_Message : string;
  ev_Details : gmap string json;
  ev_Timestamp : Z;
  ev_CreatedAt : Time
}.

Record AuditLog := MkAuditLog {
  al_ID : string;
  al_OccurredAt : Time;
  al_Actor : string;
  al_Action : string;
  al_Method : string;
  al_Path : string;
  al_StatusCode : Z;
  al_ClientIP : string;
  al_UserAgent : string;
  al_Details : gmap string json
}.

Record SiteSummary := MkSiteSummary {
  sum_SiteID : string;
  sum_PVPowerW : float64;
  sum_LoadPowerW : float64;
  sum_BatteryPower : float64;
  sum_NetPowerW : float64;
  sum_AvgSOC : float64;
  sum_LastUpdated : Time
}.

Record DeviceRuntimeState := MkDeviceRuntimeState {
  drs_Device : Device;
  drs_Telemetry : option Telemetry;
  drs_Online : bool;
  drs_LastSeenAt : Time;
  drs_StaleForSec : Z
}.

Record Policy := MkPolicy {
  pol_BatteryMinSOC : float64;
  pol_BatteryMaxSOC : float64;
  pol_LoadShedThreshold : float64
}.

(** Reading a key of a metrics map yields the zero value when it is absent. *)
Definition metric (m : gmap string float64) (k : string) : float64 := default fzero (m !! k).
