(* ===== verification/Topic.v ===== *)
(** * internal/topic: MQTT topic names

    The topic builders, [Parse], and their relation: what the builders produce
    parses back, and what parses was built from its parts. *)
From Stdlib Require Import Ascii.
From S2P Require Import Prelude GoStrings.

Record Parsed := MkParsed {
  p_SiteID : string;
  p_DeviceType : string;
  p_DeviceID : string;
  p_Kind : string
}.

Definition slash : ascii := "/"%char.

Definition Telemetry (siteID deviceType deviceID : string) : string :=
  "vpp/" +:+ siteID +:+ "/" +:+ deviceType +:+ "/" +:+ deviceID +:+ "/telemetry".

Definition Command (siteID deviceType deviceID : string) : string :=
  "vpp/" +:+ siteID +:+ "/" +:+ deviceType +:+ "/" +:+ deviceID +:+ "/command".

Definition Wildcard (siteID : string) : string := "vpp/" +:+ siteID +:+ "/+/+/+".

Definition CommandAckWildcard (siteID : string) : string :=
  "vpp/" +:+ siteID +:+ "/+/+/command/ack".

(** [None] is the result [Parsed{}, false]. *)
Definition Parse (t : string) : option Parsed :=
  match Split t slash with
  | root :: site :: typ :: id :: kind :: rest =>
      if decide (root = "vpp") then
        Some (MkParsed site typ id
          match rest with
          | [sub] => kind +:+ "/" +:+ sub
          | _ => kind
          end)
      else None
  | _ => None
  end.

(** The topic of a parsed message: its parts under the root, joined. *)
Definition topic_of (p : Parsed) : string :=
  "vpp/" +:+ p_SiteID p +:+ "/" +:+ p_DeviceType p +:+ "/" +:+ p_DeviceID p +:+ "/" +:+ p_Kind p.

(** A topic level: no separator inside. *)
Definition level (s : string) : Prop := has_byte slash s = false.

(** ** Properties *)

Lemma Split_topic site typ id kind :
  level site → level typ → level id →
  Split ("vpp/" +:+ site +:+ "/" +:+ typ +:+ "/" +:+ id +:+ "/" +:+ kind) slash
  = "vpp" :: site :: typ :: id :: Split kind slash.
Proof.
  unfold level. intros Hs Ht Hi.
  etrans; [by apply (Split_app "vpp" slash)|]. f_equal.
  etrans; [by apply (Split_app site slash)|]. f_equal.
  etrans; [by apply (Split_app typ slash)|]. f_equal.
  by apply (Split_app id slash).
Qed.

(** Parsing a topic built from its levels gives the levels back; the kind may be
    one level or, as for [command/ack], two. *)
Lemma Parse_topic_of p k1 :
  level (p_SiteID p) → level (p_DeviceType p) → level (p_DeviceID p) → level k1 →
  (p_Kind p = k1 ∨ ∃ k2, level k2 ∧ p_Kind p = k1 +:+ "/" +:+ k2) →
  Parse (topic_of p) = Some p.
Proof.
  intros Hs Ht Hi Hk1 Hk. unfold Parse, topic_of. rewrite Split_topic by done.
  destruct Hk as [Hk|(k2 & Hk2 & Hk)]; rewrite Hk.
  - rewrite Split_no_sep by done. by destruct p; simpl in *; subst.
  - change (k1 +:+ "/" +:+ k2) with (k1 +:+ String slash k2).
    rewrite Split_app, Split_no_sep by done. by destruct p; simpl in *; subst.
Qed.

(** What [Parse] accepts: exactly the topics of at least five levels under the
    root, of which it keeps the fifth and, when there are six, the sixth. *)
Lemma Parse_Some t p :
  Parse t = Some p ↔
  ∃ kind rest, Split t slash = "vpp" :: p_SiteID p :: p_DeviceType p :: p_DeviceID p :: kind :: rest ∧
    p_Kind p = match rest with [sub] => kind +:+ "/" +:+ sub | _ => kind end.
Proof.
  unfold Parse. split.
  - destruct (Split t slash) as [|root [|site [|typ [|id [|kind rest]]]]]; try done.
    case_decide; [|done]. intros [= <-]. subst. simpl. eauto.
  - intros (kind & rest & -> & Hk). destruct p. simpl in *. by rewrite Hk.
Qed.

(** The parts of a parsed topic are levels. *)
Lemma Parse_levels t p :
  Parse t = Some p → level (p_SiteID p) ∧ level (p_DeviceType p) ∧ level (p_DeviceID p).
Proof.
  intros (kind & rest & Hs & _)%Parse_Some. pose proof (Split_parts t slash) as H.
  rewrite Hs in H. unfold level. by repeat (apply Forall_cons in H as [? H]).
Qed.

(** *** Topics as properties of the platform *)

(** Round trip: a topic built from levels parses back to the same site, device
    type, device and kind, the kind being one level or, as for [command/ack],
    two. *)
Lemma Parse_build p k1 :
  level (p_SiteID p) → level (p_DeviceType p) → level (p_DeviceID p) → level k1 →
  (p_Kind p = k1 ∨ ∃ k2, level k2 ∧ p_Kind p = k1 +:+ "/" +:+ k2) →
  Parse (topic_of p) = Some p.
Proof. apply Parse_topic_of. Qed.

(** The topics of telemetry and commands tell apart every site, type and
    device whose names are levels, and never coincide with each other. *)
Lemma topics_injective s1 t1 d1 s2 t2 d2 :
  level s1 → level t1 → level d1 → level s2 → level t2 → level d2 →
  (Telemetry s1 t1 d1 = Telemetry s2 t2 d2 → s1 = s2 ∧ t1 = t2 ∧ d1 = d2) ∧
  (Command s1 t1 d1 = Command s2 t2 d2 → s1 = s2 ∧ t1 = t2 ∧ d1 = d2) ∧
  Telemetry s1 t1 d1 ≠ Command s2 t2 d2.
Proof.
  intros Hs1 Ht1 Hd1 Hs2 Ht2 Hd2.
  assert (Hp : ∀ s t d k, level s → level t → level d → level k →
    Parse (topic_of (MkParsed s t d k)) = Some (MkParsed s t d k)).
  { intros s t d k ? ? ? ?. apply (Parse_topic_of _ k); auto. }
  assert (HT : ∀ s t d, Telemetry s t d = topic_of (MkParsed s t d "telemetry")) by done.
  assert (HC : ∀ s t d, Command s t d = topic_of (MkParsed s t d "command")) by done.
  rewrite !HT, !HC.
  split_and!; intros Heq; apply (f_equal Parse) in Heq; rewrite !Hp in Heq by done; by simplify_eq.
Qed.
