(* ===== verification/State.v ===== *)
(** * internal/state: the live state of the platform

    [Store] is the in-memory state the MQTT client, the scheduler and the HTTP
    server share.  Every method takes its lock for its whole body, so a method
    is one atomic function here.  A method that ranges over a map takes the
    visited entries as an argument ([range_of]); one that reads the clock takes
    the reading.  The mirror in Redis ([loadTelemetry], [persistTelemetry]) is in
    Redis.v. *)
From Stdlib Require Import Ascii.
From S2P Require Import Prelude Float64 FloatFacts GoTime GoStrings Model.

(** ** The store *)

Record Store := MkStore {
  st_devices : gmap string Device;
  st_telemetry : gmap string Telemetry;
  st_commands : list CommandRecord;
  st_events : list DeviceEvent;
  st_siteID : string
}.

(** [NewStore] leaves [siteID] empty; [NewRedisStore] sets it. *)
Definition NewStore : Store := MkStore ∅ ∅ [] [] "".

Definition set_devices (f : gmap string Device → gmap string Device) (s : Store) : Store :=
  MkStore (f (st_devices s)) (st_telemetry s) (st_commands s) (st_events s) (st_siteID s).
Definition set_telemetry (f : gmap string Telemetry → gmap string Telemetry) (s : Store) : Store :=
  MkStore (st_devices s) (f (st_telemetry s)) (st_commands s) (st_events s) (st_siteID s).
Definition set_commands (f : list CommandRecord → list CommandRecord) (s : Store) : Store :=
  MkStore (st_devices s) (st_telemetry s) (f (st_commands s)) (st_events s) (st_siteID s).
Definition set_events (f : list DeviceEvent → list DeviceEvent) (s : Store) : Store :=
  MkStore (st_devices s) (st_telemetry s) (st_commands s) (f (st_events s)) (st_siteID s).

(** The separator byte of [stateKey]. *)
Definition nul : ascii := "000"%char.
Definition stateKey (siteID id : string) : string := siteID +:+ String nul id.

(** ** Devices *)

Definition UpsertDevice (now : Time) (d : Device) (s : Store) : Store :=
  let d :=
    if IsZero (dev_CreatedAt d)
    then MkDevice (dev_ID d) (dev_SiteID d) (dev_Type d) (dev_Name d) (dev_RatedPowerW d)
           (dev_CapacityWh d) (dev_CriticalLoad d) now
    else d in
  set_devices <[stateKey (dev_SiteID d) (dev_ID d) := d]> s.

Definition Devices (ord : list (string * Device)) : list Device := ord.*2.

Definition DeviceInSite (siteID id : string) (s : Store) : option Device :=
  st_devices s !! stateKey siteID id.

(** The loop of [deviceByIDLocked]: the last match and the number of matches. *)
Definition deviceByID_loop (id : string) (ord : list (string * Device)) : option Device * nat :=
  foldl (λ '(found, matches) '(_, d),
    if decide (dev_ID d = id) then (Some d, S matches) else (found, matches))
    (None, 0) ord.

Definition deviceByIDLocked (ord : list (string * Device)) (id : string) : option Device :=
  let '(found, matches) := deviceByID_loop id ord in
  if decide (matches ≠ 1) then None else found.

(** [Device(id)] is [deviceByIDLocked] under the read lock. *)
Definition Device_ (ord : list (string * Device)) (id : string) : option Device :=
  deviceByIDLocked ord id.

(** ** Telemetry *)

Definition with_site (site : string) (t : Telemetry) : Telemetry :=
  MkTelemetry (tel_DeviceID t) site (tel_Type t) (tel_Timestamp t) (tel_Metrics t)
    (tel_State t) (tel_Seq t).

(** The site a telemetry without one is filed under. *)
Definition fill_site (ord : list (string * Device)) (t : Telemetry) (s : Store) : Telemetry :=
  if decide (tel_SiteID t = "") then
    match deviceByIDLocked ord (tel_DeviceID t) with
    | Some d => with_site (dev_SiteID d) t
    | None => if decide (st_siteID s ≠ "") then with_site (st_siteID s) t else t
    end
  else t.

Definition PutTelemetry (ord : list (string * Device)) (t : Telemetry) (s : Store) : Store :=
  let t := fill_site ord t s in
  set_telemetry <[stateKey (tel_SiteID t) (tel_DeviceID t) := t]> s.

Definition Telemetry_ (s : Store) : gmap string Telemetry := st_telemetry s.

Definition TelemetryForSite (siteID : string) (ord : list (string * Telemetry)) :
    gmap string Telemetry :=
  foldl (λ out '(_, t),
    if decide (tel_SiteID t = siteID) then <[tel_DeviceID t := t]> out else out) ∅ ord.

(** ** Summary *)

(** The accumulators of the loop of [Summary]. *)
Record Acc := MkAcc {
  acc_pv : float64; acc_load : float64; acc_battery : float64;
  acc_updated : Time; acc_socSum : float64; acc_socCount : Z
}.

Definition acc_zero : Acc := MkAcc fzero fzero fzero zero_time fzero 0.

(** The body for one telemetry of a device of the site. *)
Definition summary_add (d : Device) (t : Telemetry) (a : Acc) : Acc :=
  let power := metric (tel_Metrics t) "power" in
  let a :=
    if decide (dev_Type d = DevicePV) then
      MkAcc (acc_pv a + power)%f64 (acc_load a) (acc_battery a)
        (acc_updated a) (acc_socSum a) (acc_socCount a)
    else if decide (dev_Type d = DeviceLoad) then
      MkAcc (acc_pv a) (acc_load a + power)%f64 (acc_battery a)
        (acc_updated a) (acc_socSum a) (acc_socCount a)
    else if decide (dev_Type d = DeviceBattery) then
      let a := MkAcc (acc_pv a) (acc_load a) (acc_battery a + power)%f64
                 (acc_updated a) (acc_socSum a) (acc_socCount a) in
      match tel_Metrics t !! "soc" with
      | Some soc => MkAcc (acc_pv a) (acc_load a) (acc_battery a) (acc_updated a)
                      (acc_socSum a + soc)%f64 (acc_socCount a + 1)
      | None => a
      end
    else a in
  let ts := time_Unix (tel_Timestamp t) in
  if After ts (acc_updated a)
  then MkAcc (acc_pv a) (acc_load a) (acc_battery a) ts (acc_socSum a) (acc_socCount a)
  else a.

Definition summary_step (siteID : string) (s : Store) (a : Acc) (kt : string * Telemetry) : Acc :=
  let t := kt.2 in
  match st_devices s !! stateKey (tel_SiteID t) (tel_DeviceID t) with
  | Some d => if decide (dev_SiteID d ≠ siteID) then a else summary_add d t a
  | None => a
  end.

Definition Summary (siteID : string) (ord : list (string * Telemetry)) (s : Store) : SiteSummary :=
  let a := foldl (summary_step siteID s) acc_zero ord in
  MkSiteSummary siteID (acc_pv a) (acc_load a) (acc_battery a)
    (acc_load a - acc_pv a - acc_battery a)%f64
    (if (0 <? acc_socCount a)%Z then (acc_socSum a / of_int (acc_socCount a))%f64 else fzero)
    (acc_updated a).

(** ** Device states *)

Definition runtime_state (siteID : string) (now : Time) (onlineTTL : Z) (s : Store) (d : Device) :
    DeviceRuntimeState :=
  match st_telemetry s !! stateKey siteID (dev_ID d) with
  | None => MkDeviceRuntimeState d None false zero_time 0
  | Some tele =>
      let seen := time_Unix (tel_Timestamp tele) in
      if negb (IsZero seen) then
        let staleFor := Sub now seen in
        let staleFor := if (staleFor <? 0)%Z then 0%Z else staleFor in
        MkDeviceRuntimeState d (Some tele) (staleFor <=? onlineTTL)%Z seen
          (to_int (Seconds staleFor))
      else MkDeviceRuntimeState d (Some tele) false seen 0
  end.

Definition device_less (a b : Device) : bool :=
  if decide (dev_Type a = dev_Type b) then String.ltb (dev_ID a) (dev_ID b)
  else String.ltb (dev_Type a) (dev_Type b).

Definition state_less (a b : DeviceRuntimeState) : bool :=
  device_less (drs_Device a) (drs_Device b).

Definition DeviceStates (siteID : string) (now : Time) (onlineTTL : Z)
    (ord : list (string * Device)) (s : Store) : list DeviceRuntimeState :=
  sort_slice state_less
    (runtime_state siteID now onlineTTL s <$> filter (λ d, dev_SiteID d = siteID) ord.*2).

(** ** Commands and events *)

(** The number of records kept. *)
Definition history : nat := 200.

Definition PutCommandIssued (now : Time) (siteID : string) (d : Device) (cmd : Command)
    (s : Store) : Store :=
  set_commands (λ l, take history
    (MkCommandRecord siteID (dev_ID d) (dev_Type d) cmd "issued" None now :: l)) s.

Definition SetCommands (commands : list CommandRecord) (s : Store) : Store :=
  set_commands (λ _, take history commands) s.

Definition record_matches (deviceID commandID : string) (r : CommandRecord) : bool :=
  bool_decide (rec_DeviceID r = deviceID) &&
  bool_decide (cmd_CommandID (rec_Command r) = commandID).

Definition record_ack (now : Time) (ack : CommandAck) (r : CommandRecord) : CommandRecord :=
  MkCommandRecord (rec_SiteID r) (rec_DeviceID r) (rec_DeviceType r) (rec_Command r)
    (if ack_OK ack then "acked" else "failed") (Some ack) now.

Definition PutCommandAck (now : Time) (deviceID : string) (ack : CommandAck) (s : Store) : Store :=
  set_commands
    (update_first (record_matches deviceID (ack_CommandID ack)) (record_ack now ack)) s.

Definition Commands (s : Store) : list CommandRecord := st_commands s.

Definition PutEvent (event : DeviceEvent) (s : Store) : Store :=
  set_events (λ l, take history (event :: l)) s.

Definition SetEvents (events : list DeviceEvent) (s : Store) : Store :=
  set_events (λ _, take history events) s.

Definition Events (s : Store) : list DeviceEvent := st_events s.

(** ** Reference definitions of the summary *)

(** The telemetry that counts for a site, with its device: the device is
    registered under the telemetry's own key, and belongs to the site. *)
Definition reading (siteID : string) (s : Store) (kt : string * Telemetry) :
    option (Device * Telemetry) :=
  d ← st_devices s !! stateKey (tel_SiteID kt.2) (tel_DeviceID kt.2);
  if decide (dev_SiteID d = siteID) then Some (d, kt.2) else None.

Definition readings (siteID : string) (s : Store) (ord : list (string * Telemetry)) :
    list (Device * Telemetry) := omap (reading siteID s) ord.

Definition fsum : list float64 → float64 := foldl fadd fzero.

Definition power_of (typ : DeviceType) (dt : Device * Telemetry) : option float64 :=
  if decide (dev_Type dt.1 = typ) then Some (metric (tel_Metrics dt.2) "power") else None.

Definition soc_of (dt : Device * Telemetry) : option float64 :=
  if decide (dev_Type dt.1 = DeviceBattery) then tel_Metrics dt.2 !! "soc" else None.

Definition latest (l : list (Device * Telemetry)) : Time :=
  foldl (λ u dt, let ts := time_Unix (tel_Timestamp dt.2) in if After ts u then ts else u)
    zero_time l.

Definition mean (l : list float64) : float64 :=
  match l with [] => fzero | _ => (fsum l / of_int (Z.of_nat (length l)))%f64 end.

Definition summary_ref (siteID : string) (l : list (Device * Telemetry)) : SiteSummary :=
  let pv := fsum (omap (power_of DevicePV) l) in
  let load := fsum (omap (power_of DeviceLoad) l) in
  let battery := fsum (omap (power_of DeviceBattery) l) in
  MkSiteSummary siteID pv load battery (load - pv - battery)%f64 (mean (omap soc_of l)) (latest l).

(** Issuing a list of commands, oldest first. *)
Definition issue_all (l : list (Time * string * Device * Command)) (s : Store) : Store :=
  foldl (λ s '(now, site, d, cmd), PutCommandIssued now site d cmd s) s l.

Definition issued_record (c : Time * string * Device * Command) : CommandRecord :=
  let '(now, site, d, cmd) := c in
  MkCommandRecord site (dev_ID d) (dev_Type d) cmd "issued" None now.

(** ** Well-formed states and the steps of the store *)

(** Every map key is the [stateKey] of its value, and the histories are bounded. *)
Record wf (s : Store) : Prop := {
  wf_devices : ∀ k d, st_devices s !! k = Some d → k = stateKey (dev_SiteID d) (dev_ID d);
  wf_telemetry : ∀ k t, st_telemetry s !! k = Some t → k = stateKey (tel_SiteID t) (tel_DeviceID t);
  wf_commands : length (st_commands s) ≤ history;
  wf_events : length (st_events s) ≤ history
}.

(** One call of a method that writes. *)
Inductive store_step (s : Store) : Store → Prop :=
| step_UpsertDevice now d : store_step s (UpsertDevice now d s)
| step_PutTelemetry ord t : range_of (st_devices s) ord → store_step s (PutTelemetry ord t s)
| step_PutCommandIssued now site d cmd : store_step s (PutCommandIssued now site d cmd s)
| step_SetCommands l : store_step s (SetCommands l s)
| step_PutCommandAck now id ack : store_step s (PutCommandAck now id ack s)
| step_PutEvent e : store_step s (PutEvent e s)
| step_SetEvents l : store_step s (SetEvents l s).

(** ** Lemmas *)

Lemma stateKey_inj s1 i1 s2 i2 :
  has_byte nul s1 = false → has_byte nul s2 = false →
  stateKey s1 i1 = stateKey s2 i2 → s1 = s2 ∧ i1 = i2.
Proof. apply sep_app_inj. Qed.

Lemma stateKey_inj_site s i1 i2 : stateKey s i1 = stateKey s i2 → i1 = i2.
Proof. unfold stateKey. intros H. apply (inj (String.append s)) in H. by simplify_eq. Qed.

Lemma wf_NewStore : wf NewStore.
Proof. split; simpl; [done..|unfold history; lia|unfold history; lia]. Qed.

Lemma insert_keyed {A} (key : A → string) (m : gmap string A) x k y :
  (∀ k y, m !! k = Some y → k = key y) → <[key x := x]> m !! k = Some y → k = key y.
Proof. intros H [[<- <-]|[_ ?]]%lookup_insert_Some; auto. Qed.

Lemma step_wf s s' : store_step s s' → wf s → wf s'.
Proof.
  intros Hs [Hd Ht Hc He]. destruct Hs; split; try assumption;
    try (cbn -[take]; rewrite length_take; lia); simpl.
  - intros k d'. by apply (insert_keyed (λ d, stateKey (dev_SiteID d) (dev_ID d))).
  - intros k t'. by apply (insert_keyed (λ t, stateKey (tel_SiteID t) (tel_DeviceID t))).
  - by rewrite length_update_first.
Qed.

(** A device of the store is filed under its site and identifier. *)
Lemma wf_DeviceInSite s k d :
  wf s → st_devices s !! k = Some d → DeviceInSite (dev_SiteID d) (dev_ID d) s = Some d.
Proof. intros H Hk. unfold DeviceInSite. by rewrite <- (wf_devices _ H _ _ Hk). Qed.

(** *** Lookup by identifier *)

Lemma deviceByID_loop_spec id ord :
  deviceByID_loop id ord =
  (last (filter (λ d, dev_ID d = id) ord.*2), length (filter (λ d, dev_ID d = id) ord.*2)).
Proof.
  unfold deviceByID_loop. induction ord as [|[k d] ord IH] using rev_ind; [done|].
  rewrite foldl_app, fmap_app, filter_app, IH. simpl.
  destruct (decide (dev_ID d = id)).
  - rewrite filter_cons_True, filter_nil by done. by rewrite last_snoc, length_app, Nat.add_1_r.
  - by rewrite filter_cons_False, filter_nil, app_nil_r.
Qed.

Lemma deviceByIDLocked_filter ord id d :
  deviceByIDLocked ord id = Some d ↔ filter (λ d, dev_ID d = id) ord.*2 = [d].
Proof.
  unfold deviceByIDLocked. rewrite deviceByID_loop_spec.
  destruct (filter _ ord.*2) as [|x [|y l]]; simpl; [done| |done].
  split; [by intros [= ->]|by intros [= ->]].
Qed.

(** *** Ordering of device states *)

Lemma device_nless a b :
  device_less b a = false ↔
  if decide (dev_Type a = dev_Type b) then String.leb (dev_ID a) (dev_ID b) = true
  else String.leb (dev_Type a) (dev_Type b) = true.
Proof.
  unfold device_less. rewrite !ltb_leb.
  destruct (decide (dev_Type b = dev_Type a)), (decide (dev_Type a = dev_Type b)); try congruence;
    apply negb_false_iff.
Qed.

Lemma state_less_asym x y : state_less x y = true → state_less y x = false.
Proof.
  unfold state_less, device_less. set (a := drs_Device x). set (b := drs_Device y).
  rewrite !ltb_leb.
  destruct (decide (dev_Type a = dev_Type b)), (decide (dev_Type b = dev_Type a)); try congruence;
    rewrite negb_true_iff, negb_false_iff; intros H.
  - destruct (String.leb_total (dev_ID a) (dev_ID b)); congruence.
  - destruct (String.leb_total (dev_Type a) (dev_Type b)); congruence.
Qed.

Lemma state_nless_trans x y z :
  state_less y x = false → state_less z y = false → state_less z x = false.
Proof.
  unfold state_less. set (a := drs_Device x). set (b := drs_Device y). set (c := drs_Device z).
  rewrite !device_nless.
  destruct (decide (dev_Type a = dev_Type b)) as [E1|E1],
    (decide (dev_Type b = dev_Type c)) as [E2|E2],
    (decide (dev_Type a = dev_Type c)) as [E3|E3]; intros H1 H2; try congruence.
  - by apply leb_trans with (dev_ID b).
  - exfalso. apply E1. apply String.leb_antisym; [done|congruence].
  - by apply leb_trans with (dev_Type b).
Qed.

(** Two states neither of which is less than the other have the same device
    type and identifier. *)
Lemma state_less_total x y :
  state_less x y = false → state_less y x = false →
  dev_Type (drs_Device x) = dev_Type (drs_Device y) ∧ dev_ID (drs_Device x) = dev_ID (drs_Device y).
Proof.
  unfold state_less. rewrite !device_nless.
  set (a := drs_Device x). set (b := drs_Device y).
  destruct (decide (dev_Type a = dev_Type b)) as [E|E],
    (decide (dev_Type b = dev_Type a)) as [E'|E']; intros H1 H2; try congruence.
  - split; [done|]. by apply String.leb_antisym.
  - exfalso. apply E. by apply String.leb_antisym.
Qed.

(** ** Properties *)

(** every store the platform can reach from the empty one is well formed:
    each device and telemetry is filed under the key of its own site and
    identifier, and neither history exceeds its 200 records. *)
Lemma store_reachable_wf s : rtc store_step NewStore s → wf s.
Proof.
  intros H. remember NewStore as s0 eqn:E.
  assert (H0 : wf s0) by (subst; apply wf_NewStore). clear E.
  induction H; eauto using step_wf.
Qed.

Lemma Device_pair (ord : list (string * Device)) id d :
  filter (λ d, dev_ID d = id) ord.*2 = [d] ↔
  ∃ k, filter (λ kd, dev_ID kd.2 = id) ord = [(k, d)].
Proof.
  rewrite filter_snd. split.
  - destruct (filter _ ord) as [|[k d'] [|]]; try done. intros [= ->]. eauto.
  - by intros [k ->].
Qed.

(** looking a device up by its bare identifier succeeds exactly when one
    site only has a device of that identifier, whatever order the map is
    visited in; an ambiguous identifier is refused. *)
Lemma Device_unique s ord id d :
  range_of (st_devices s) ord →
  Device_ ord id = Some d ↔
  ∃ k, st_devices s !! k = Some d ∧ dev_ID d = id ∧
    ∀ k' d', st_devices s !! k' = Some d' → dev_ID d' = id → k' = k.
Proof.
  intros Hr. unfold Device_. rewrite deviceByIDLocked_filter, Device_pair.
  split; intros [k H]; exists k.
  - assert (Hin : (k, d) ∈ filter (λ kd, dev_ID kd.2 = id) ord) by (rewrite H; by left).
    apply list_elem_of_filter in Hin as [Hid Hin]. simpl in Hid.
    split; [by apply (range_of_elem _ _ _ _ Hr)|]. split; [done|]. intros k' d' Hk' Hid'.
    assert (Hin' : (k', d') ∈ filter (λ kd, dev_ID kd.2 = id) ord).
    { apply list_elem_of_filter. split; [done|]. by apply (range_of_elem _ _ _ _ Hr). }
    rewrite H in Hin'. apply list_elem_of_singleton in Hin'. by simplify_eq.
  - destruct H as (Hk & Hid & Huniq). apply NoDup_singleton.
    + apply NoDup_filter. by eapply range_of_NoDup.
    + apply list_elem_of_filter. split; [done|]. by apply (range_of_elem _ _ _ _ Hr).
    + intros [k' d'] [Hid' Hin]%list_elem_of_filter.
      apply (range_of_elem _ _ _ _ Hr) in Hin.
      assert (k' = k) as -> by eauto. by simplify_eq.
Qed.

Lemma DeviceStates_keys s ord siteID now ttl x y :
  wf s → range_of (st_devices s) ord →
  x ∈ runtime_state siteID now ttl s <$> filter (λ d, dev_SiteID d = siteID) ord.*2 →
  y ∈ runtime_state siteID now ttl s <$> filter (λ d, dev_SiteID d = siteID) ord.*2 →
  dev_ID (drs_Device x) = dev_ID (drs_Device y) → x = y.
Proof.
  assert (Hdev : ∀ d, drs_Device (runtime_state siteID now ttl s d) = d).
  { intros d. unfold runtime_state. by repeat case_match. }
  intros Hwf Hr (d & -> & [Hd Hin]%list_elem_of_filter)%list_elem_of_fmap
    (d' & -> & [Hd' Hin']%list_elem_of_filter)%list_elem_of_fmap.
  rewrite !Hdev. intros Hid.
  apply list_elem_of_fmap in Hin as ([k ?] & -> & Hin), Hin' as ([k' ?] & -> & Hin'). simpl in *.
  apply (range_of_elem _ _ _ _ Hr) in Hin, Hin'.
  pose proof (wf_devices _ Hwf _ _ Hin) as Hk. pose proof (wf_devices _ Hwf _ _ Hin') as Hk'.
  rewrite Hd, Hid in Hk. rewrite Hd' in Hk'. f_equal. congruence.
Qed.

(** [DeviceStates] lists every device of the site once, sorted by type and
    identifier, and is determined by the store alone: any sorting algorithm, run
    on the devices visited in any order, returns this list. *)
Lemma DeviceStates_determined s ord ord' siteID now ttl l :
  wf s → range_of (st_devices s) ord → range_of (st_devices s) ord' →
  l ≡ₚ (runtime_state siteID now ttl s <$> filter (λ d, dev_SiteID d = siteID) ord'.*2) →
  sorted_by state_less l →
  l = DeviceStates siteID now ttl ord s.
Proof.
  intros Hwf Hr Hr' Hp Hs. unfold DeviceStates.
  apply sort_slice_unique;
    [exact state_less_asym|exact state_nless_trans|done| |].
  - rewrite Hp. by rewrite (range_of_perm _ _ _ Hr Hr').
  - intros x y Hx Hy H1 H2.
    destruct (state_less_total x y H1 H2). by apply (DeviceStates_keys s ord siteID now ttl).
Qed.

(** *** Summaries *)

Lemma Summary_readings siteID s ord a :
  foldl (summary_step siteID s) a ord =
  foldl (λ a dt, summary_add dt.1 dt.2 a) a (readings siteID s ord).
Proof.
  revert a. induction ord as [|kt ord IH]; intros a; [done|]. simpl.
  unfold summary_step at 2, reading.
  destruct (st_devices s !! _) as [d|]; simpl; [|apply IH].
  destruct (decide (dev_SiteID d ≠ siteID)), (decide (dev_SiteID d = siteID));
    try (exfalso; done); simpl; apply IH.
Qed.

(** The accumulators after the loop, field by field. *)
Lemma summary_add_fold l :
  foldl (λ a dt, summary_add dt.1 dt.2 a) acc_zero l =
  MkAcc (fsum (omap (power_of DevicePV) l)) (fsum (omap (power_of DeviceLoad) l))
    (fsum (omap (power_of DeviceBattery) l)) (latest l)
    (fsum (omap soc_of l)) (Z.of_nat (length (omap soc_of l))).
Proof.
  induction l as [|[d t] l IH] using rev_ind; [done|].
  rewrite foldl_app, IH, !omap_app. unfold latest. rewrite foldl_app. fold (latest l).
  unfold fsum. rewrite !foldl_app, length_app. fold fsum.
  unfold summary_add, power_of, soc_of. simpl.
  destruct (decide (dev_Type d = DevicePV)) as [E1|E1].
  { rewrite !decide_False by (rewrite E1; done). simpl. rewrite Nat.add_0_r. by destruct (After _ _). }
  destruct (decide (dev_Type d = DeviceLoad)) as [E2|E2].
  { rewrite !decide_False by (rewrite E2; done). simpl. rewrite Nat.add_0_r. by destruct (After _ _). }
  destruct (decide (dev_Type d = DeviceBattery)) as [E3|E3].
  - destruct (tel_Metrics t !! "soc"); simpl; destruct (After _ _); f_equal; simpl; lia.
  - simpl. rewrite Nat.add_0_r. by destruct (After _ _).
Qed.

Lemma Summary_ref siteID ord s :
  Summary siteID ord s = summary_ref siteID (readings siteID s ord).
Proof.
  unfold Summary, summary_ref. rewrite Summary_readings, summary_add_fold. simpl.
  f_equal. unfold mean. by destruct (omap soc_of _).
Qed.

(** C12: [Summary] computes its specification: the sums of the powers by device
    type over the registered telemetry of the site, net power as load minus
    photovoltaic minus battery power, the mean of the reported states of charge
    (zero without any), and the latest timestamp. *)
Theorem Summary_spec siteID ord s :
  Summary siteID ord s = summary_ref siteID (readings siteID s ord).
Proof. apply Summary_ref. Qed.

(** A store entry of another site is no reading of this one. *)
Lemma reading_other siteID s t k t' :
  wf s → has_byte nul siteID = false → has_byte nul (tel_SiteID t) = false →
  tel_SiteID t ≠ siteID →
  stateKey (tel_SiteID t') (tel_DeviceID t') = stateKey (tel_SiteID t) (tel_DeviceID t) →
  ¬ is_Some (reading siteID s (k, t')).
Proof.
  intros Hwf Hn1 Hn2 Hne Hkey [x Hx]. unfold reading in Hx. simpl in Hx. rewrite Hkey in Hx.
  destruct (st_devices s !! _) as [d|] eqn:Hd; simpl in Hx; [|done].
  case_decide as Hs; [|done]. pose proof (wf_devices _ Hwf _ _ Hd) as Hk. rewrite Hs in Hk.
  destruct (stateKey_inj _ _ _ _ Hn2 Hn1 Hk). done.
Qed.

Lemma filter_insert_irrelevant {A} (P : string * A → Prop) `{∀ x, Decision (P x)} m k x :
  ¬ P (k, x) → (∀ y, m !! k = Some y → ¬ P (k, y)) →
  filter P (map_to_list (<[k := x]> m)) ≡ₚ filter P (map_to_list m).
Proof.
  intros Hx Hy. rewrite <- (insert_delete_eq m k x).
  rewrite (map_to_list_insert (delete k m)), filter_cons_False by (done || apply lookup_delete_eq).
  destruct (m !! k) as [y|] eqn:E; [|by rewrite delete_id].
  rewrite <- (insert_delete_id m k y) at 2 by done.
  rewrite (map_to_list_insert (delete k m)), filter_cons_False by (auto || apply lookup_delete_eq).
  done.
Qed.

(** sites are isolated: storing a telemetry of another site leaves the
    summary of this site as it was (for some order of visiting the old map),
    provided the site names hold no NUL byte. *)
Lemma Summary_isolated s siteID ordd t ord' :
  wf s → has_byte nul siteID = false → has_byte nul (tel_SiteID t) = false →
  tel_SiteID t ≠ "" → tel_SiteID t ≠ siteID →
  range_of (st_telemetry (PutTelemetry ordd t s)) ord' →
  ∃ ord, range_of (st_telemetry s) ord ∧
    Summary siteID ord' (PutTelemetry ordd t s) = Summary siteID ord s.
Proof.
  intros Hwf Hn1 Hn2 Hne Hns Hr. unfold PutTelemetry, fill_site in *.
  rewrite decide_False in * by done. set (k := stateKey _ _) in *.
  set (P := λ kt, is_Some (reading siteID s kt)).
  exists (filter P ord' ++ filter (λ kt, ¬ P kt) (map_to_list (st_telemetry s))). split.
  - unfold range_of in *. rewrite Hr. simpl. unfold P. rewrite filter_insert_irrelevant.
    + apply filter_app_complement.
    + by apply (reading_other _ _ t).
    + intros t' Ht'. apply (reading_other _ _ t); try done.
      by rewrite <- (wf_telemetry _ Hwf _ _ Ht').
  - rewrite !Summary_ref. f_equal. unfold readings at 2. rewrite omap_app.
    unfold P. by rewrite omap_filter_Some, omap_filter_None, app_nil_r.
Qed.

(** *** Acknowledgements *)

Lemma PutCommandIssued_commands now site d cmd s :
  st_commands (PutCommandIssued now site d cmd s) =
  take history (issued_record (now, site, d, cmd) :: st_commands s).
Proof. done. Qed.

Lemma issue_all_commands l s :
  length (st_commands s) ≤ history →
  st_commands (issue_all l s) = take history (reverse (issued_record <$> l) ++ st_commands s).
Proof.
  intros Hs. induction l as [|c l IH] using rev_ind; [by rewrite take_ge|].
  unfold issue_all in *. rewrite foldl_app, fmap_app, reverse_app. cbn [foldl].
  destruct c as [[[now site] d] cmd]. etrans; [apply PutCommandIssued_commands|].
  rewrite IH. apply take_cons_take.
Qed.

(** an acknowledgement reaches its command as long as fewer than 200 other
    commands were issued after it: that record alone becomes acked or failed,
    with the acknowledgement attached, and every other record stays as it was. *)
Lemma ack_within_history now0 now site d cmd others ack s :
  length (st_commands s) ≤ history →
  length others < history →
  ack_CommandID ack = cmd_CommandID cmd →
  Forall (λ c, record_matches (dev_ID d) (ack_CommandID ack) (issued_record c) = false) others →
  st_commands (PutCommandAck now (dev_ID d) ack
    (issue_all others (PutCommandIssued now0 site d cmd s))) =
  take history (reverse (issued_record <$> others) ++
    record_ack now ack (issued_record (now0, site, d, cmd)) :: st_commands s).
Proof.
  intros Hs Hlen Hid Hothers. unfold PutCommandAck, set_commands at 1. cbn [st_commands].
  rewrite issue_all_commands, PutCommandIssued_commands
    by (rewrite PutCommandIssued_commands, length_take; lia).
  set (l1 := reverse (issued_record <$> others)).
  assert (Hl1 : length l1 < history) by (unfold l1; by rewrite length_reverse, length_fmap).
  rewrite !take_app_ge' by lia.
  destruct (history - length l1) as [|n] eqn:En; [lia|].
  assert (Hn : S n ≤ history) by lia.
  rewrite take_take, Nat.min_l by done. cbn [take]. apply update_first_split.
  - intros r Hr. rewrite Forall_forall in Hothers. unfold l1 in Hr.
    apply elem_of_reverse, list_elem_of_fmap in Hr as (c & -> & Hc). by apply Hothers.
  - unfold record_matches. simpl. by rewrite Hid, !bool_decide_eq_true_2.
Qed.

(** ** The theorems at a concrete store *)

Definition ex_battery : Device :=
  MkDevice "battery-1" "site-a" DeviceBattery "cell" (of_int 50) (of_int 150) false (time_Unix 1).
Definition ex_foreign : Device :=
  MkDevice "battery-1" "site-b" DeviceBattery "cell" (of_int 50) (of_int 150) false (time_Unix 1).
Definition ex_load : Device :=
  MkDevice "load-1" "site-a" DeviceLoad "pump" (of_int 50) fzero true (time_Unix 1).
Definition ex_store : Store :=
  UpsertDevice zero_time ex_load (UpsertDevice zero_time ex_battery NewStore).
Definition ex_telemetry : Telemetry :=
  MkTelemetry "battery-1" "site-b" DeviceBattery 5 {["power" := of_int 7]} "" 1.
Definition ex_issued : Command := MkCommand "c-1" "set_mode" ∅ 3 "test".

Lemma ex_store_wf : wf ex_store.
Proof. repeat (eapply step_wf; [apply step_UpsertDevice|]). apply wf_NewStore. Qed.
