(* ===== verification/Metrics.v ===== *)
(** * internal/metrics: the Prometheus page

    [RenderPrometheus] writes one line at a time; [page] lists the lines of a
    snapshot in the order they are written.  A function that ranges over a map
    of counts takes the visited entries as an argument. *)
From Stdlib Require Import Floats.SpecFloat Ascii.
From S2P Require Import Prelude Float64 GoTime GoStrings Model State.

(** ** The snapshot *)

Definition DeviceOnlineTTL : Z := (30 * Second)%Z.

Record Snapshot := MkSnapshot {
  mt_GeneratedAt : Time;
  mt_SiteID : string;
  mt_Summary : SiteSummary;
  mt_Devices : list Device;
  mt_Telemetry : gmap string Telemetry;
  mt_Commands : list CommandRecord;
  mt_Events : list DeviceEvent;
  mt_AuditLogs : list AuditLog;
  mt_MQTTRejects : gmap string Z
}.

(** ** Lines *)

Definition newline : ascii := "010"%char.
Definition backslash : ascii := "\"%char.
Definition dquote : ascii := "034"%char.

Definition escapeLabel (v : string) : string :=
  let v := ReplaceAll v backslash "\\" in
  let v := ReplaceAll v dquote (String backslash (String dquote "")) in
  ReplaceAll v newline "\n".

(** [sort.Strings] on the keys of a map, which are distinct. *)
Definition sorted_keys {A} (m : gmap string A) : list string :=
  sort_slice String.ltb (map_to_list m).*1.

Definition render_label (labels : gmap string string) (k : string) : string :=
  k +:+ "=" +:+ String dquote (escapeLabel (default "" (labels !! k)) +:+ String dquote "").

Definition renderLabels (labels : gmap string string) : string :=
  Join (render_label labels <$> sorted_keys labels) ",".

(** What the three writers append to the builder. *)
Inductive Line :=
| Help (name help : string)
| Type_ (name typ : string)
| Metric (name : string) (labels : gmap string string) (value : float64).

Definition line_text (l : Line) : string :=
  match l with
  | Help name help => "# HELP " +:+ name +:+ " " +:+ help
  | Type_ name typ => "# TYPE " +:+ name +:+ " " +:+ typ
  | Metric name labels value =>
      name +:+ "{" +:+ renderLabels labels +:+ "} " +:+ fmt_fixed 6 value
  end.

Definition write_line (l : Line) : string := line_text l +:+ String newline "".

(** ** Parts of the page *)

Definition telemetryForDevice (telemetry : gmap string Telemetry) (d : Device) : option Telemetry :=
  match telemetry !! stateKey (dev_SiteID d) (dev_ID d) with
  | Some tele => Some tele
  | None => telemetry !! dev_ID d
  end.

Definition site_less (a b : Device) : bool :=
  if decide (dev_SiteID a = dev_SiteID b) then String.ltb (dev_ID a) (dev_ID b)
  else String.ltb (dev_SiteID a) (dev_SiteID b).

Definition sortedDevices (devices : list Device) : list Device := sort_slice site_less devices.

Definition sortedMetricKeys (metrics : gmap string float64) : list string := sorted_keys metrics.

(** [counts[k]++] after making sure of the entry. *)
Definition count_in (m : gmap string Z) (k : string) : gmap string Z :=
  <[k := (default 0 (m !! k) + 1)%Z]> m.

Definition commandStatusCounts (commands : list CommandRecord) : gmap string Z :=
  foldl (λ m c, count_in m (rec_Status c))
    (list_to_map [("issued", 0%Z); ("acked", 0%Z); ("failed", 0%Z)]) commands.

Definition eventSeverityCounts (events : list DeviceEvent) : gmap string Z :=
  foldl (λ m e, count_in m (if decide (ev_Severity e = "") then "info" else ev_Severity e))
    (list_to_map [("info", 0%Z); ("warning", 0%Z); ("critical", 0%Z)]) events.

(** The keys are pairs of an action and a status code. *)
Definition auditLogCounts (logs : list AuditLog) : gmap (string * string) Z :=
  foldl (λ m log,
      let action := if decide (al_Action log = "") then "unknown" else al_Action log in
      let key := (action, pretty (al_StatusCode log)) in
      <[key := (default 0 (m !! key) + 1)%Z]> m)
    ∅ logs.

Definition sortedRejectReasons (rejects : gmap string Z) : list string := sorted_keys rejects.

(** ** The page *)

Definition labels (l : list (string * string)) : gmap string string := list_to_map l.

Definition power_line (s : Snapshot) (component : string) (value : float64) : Line :=
  Metric "vpp_site_power_w" (labels [("site_id", mt_SiteID s); ("component", component)]) value.

(** The body of the loop over the devices. *)
Definition device_lines (s : Snapshot) (d : Device) : list Line :=
  let tele := telemetryForDevice (mt_Telemetry s) d in
  let online :=
    match tele with
    | Some t => if (Sub (mt_GeneratedAt s) (time_Unix (tel_Timestamp t)) <=? DeviceOnlineTTL)%Z
                then of_int 1 else fzero
    | None => fzero
    end in
  let metrics := match tele with Some t => tel_Metrics t | None => ∅ end in
  let base := [("site_id", dev_SiteID d); ("device_id", dev_ID d); ("device_type", dev_Type d)] in
  Metric "vpp_device_online" (labels base) online ::
  ((λ key, Metric "vpp_device_metric" (labels (base ++ [("metric", key)])) (metric metrics key))
    <$> sortedMetricKeys metrics).

Definition count_line (s : Snapshot) (name key : string) (kv : string * Z) : Line :=
  Metric name (labels [("site_id", mt_SiteID s); (key, kv.1)]) (of_int kv.2).

Definition audit_line (s : Snapshot) (kv : (string * string) * Z) : Line :=
  Metric "vpp_audit_logs_total"
    (labels [("site_id", mt_SiteID s); ("action", kv.1.1); ("status_code", kv.1.2)]) (of_int kv.2).

(** The blocks of the page, each with the comments it begins with. *)
Definition site_lines (s : Snapshot) : list Line :=
  [Help "vpp_site_power_w" "Site power by component."; Type_ "vpp_site_power_w" "gauge";
   power_line s "pv" (sum_PVPowerW (mt_Summary s));
   power_line s "load" (sum_LoadPowerW (mt_Summary s));
   power_line s "battery" (sum_BatteryPower (mt_Summary s));
   power_line s "net" (sum_NetPowerW (mt_Summary s));
   Help "vpp_site_battery_soc" "Average site battery SOC ratio.";
   Type_ "vpp_site_battery_soc" "gauge";
   Metric "vpp_site_battery_soc" (labels [("site_id", mt_SiteID s)]) (sum_AvgSOC (mt_Summary s))].

Definition devices_lines (s : Snapshot) : list Line :=
  [Help "vpp_device_online" "Device online state based on last telemetry timestamp.";
   Type_ "vpp_device_online" "gauge";
   Help "vpp_device_metric" "Latest device telemetry metric."; Type_ "vpp_device_metric" "gauge"] ++
  concat (device_lines s <$> sortedDevices (mt_Devices s)).

Definition command_lines (ord : list (string * Z)) (s : Snapshot) : list Line :=
  [Help "vpp_command_records_total" "Recent command records by status.";
   Type_ "vpp_command_records_total" "gauge"] ++
  (count_line s "vpp_command_records_total" "status" <$> ord).

Definition event_lines (ord : list (string * Z)) (s : Snapshot) : list Line :=
  [Help "vpp_device_events_total" "Recent device events by severity.";
   Type_ "vpp_device_events_total" "gauge"] ++
  (count_line s "vpp_device_events_total" "severity" <$> ord).

Definition audit_lines (ord : list ((string * string) * Z)) (s : Snapshot) : list Line :=
  [Help "vpp_audit_logs_total" "Recent control operation audit logs by action and status code.";
   Type_ "vpp_audit_logs_total" "gauge"] ++
  (audit_line s <$> ord).

Definition reject_lines (s : Snapshot) : list Line :=
  [Help "vpp_mqtt_rejected_messages_total" "MQTT messages rejected by the platform.";
   Type_ "vpp_mqtt_rejected_messages_total" "counter"] ++
  ((λ reason, count_line s "vpp_mqtt_rejected_messages_total" "reason"
      (reason, default 0%Z (mt_MQTTRejects s !! reason))) <$>
    sortedRejectReasons (mt_MQTTRejects s)).

(** [ord1], [ord2] and [ord3] are the orders the three maps of counts are visited. *)
Definition page (ord1 ord2 : list (string * Z)) (ord3 : list ((string * string) * Z))
    (s : Snapshot) : list Line :=
  site_lines s ++ devices_lines s ++ command_lines ord1 s ++ event_lines ord2 s ++
  audit_lines ord3 s ++ reject_lines s.

Definition RenderPrometheus (ord1 ord2 : list (string * Z)) (ord3 : list ((string * string) * Z))
    (s : Snapshot) : string :=
  foldl (λ b l, b +:+ write_line l) "" (page ord1 ord2 ord3 s).

(** ** Reading the page back *)

(** A label value up to its closing quote. *)
Fixpoint read_value (s : string) : option (string * string) :=
  match s with
  | "" => None
  | String a s' =>
      if decide (a = dquote) then Some ("", s')
      else if decide (a = backslash) then
        match s' with
        | "" => None
        | String b s'' =>
            '(v, rest) ← read_value s'';
            Some (String (if decide (b = "n"%char) then newline else b) v, rest)
        end
      else '(v, rest) ← read_value s'; Some (String a v, rest)
  end.

(** The labels up to the closing brace, at most [n] of them. *)
Fixpoint read_labels (n : nat) (s : string) : option (list (string * string) * string) :=
  match n with
  | O => None
  | S n' =>
      '(k, s) ← Cut s "=";
      match s with
      | String q s =>
          '(v, s) ← read_value s;
          match s with
          | String c s =>
              if decide (q ≠ dquote) then None
              else if decide (c = "}"%char) then Some ([(k, v)], s)
              else '(l, s) ← read_labels n' s; Some ((k, v) :: l, s)
          | "" => None
          end
      | "" => None
      end
  end.

(** A sample: its name, its labels and the text of its value. *)
Definition read_sample (line : string) : option (string * list (string * string) * string) :=
  '(name, s) ← Cut line "{";
  '(l, s) ← read_labels (S (String.length s)) s;
  Some (name, l, TrimPrefix s " ").

(** *** Label values *)

Definition escape_byte (a : ascii) : string :=
  if decide (a = backslash) then "\\"
  else if decide (a = dquote) then String backslash (String dquote "")
  else if decide (a = newline) then "\n"
  else String a "".

Lemma escapeLabel_cons a v : escapeLabel (String a v) = escape_byte a +:+ escapeLabel v.
Proof.
  unfold escapeLabel, escape_byte. change (String a v) with (String a "" +:+ v).
  rewrite !ReplaceAll_app. f_equal.
  repeat case_decide; subst; [done..|]. by repeat (simpl; rewrite decide_False by done).
Qed.

Lemma read_value_escape v rest :
  read_value (escapeLabel v +:+ String dquote rest) = Some (v, rest).
Proof.
  induction v as [|a v IH]; [done|]. rewrite escapeLabel_cons, str_app_assoc.
  revert IH. generalize (escapeLabel v +:+ String dquote rest) as r. intros r IH. unfold escape_byte.
  repeat case_decide; subst;
    [rewrite !str_cons_app, str_nil_app; simpl; by rewrite IH..|].
  rewrite str_cons_app, str_nil_app. cbn [read_value].
  by rewrite !decide_False, IH.
Qed.

(** *** Label sets *)

Lemma sorted_keys_perm {A} (m : gmap string A) : sorted_keys m ≡ₚ (map_to_list m).*1.
Proof. apply sort_slice_perm. Qed.

Lemma sorted_keys_NoDup {A} (m : gmap string A) : NoDup (sorted_keys m).
Proof. rewrite sorted_keys_perm. apply NoDup_fst_map_to_list. Qed.

Lemma elem_of_sorted_keys {A} (m : gmap string A) k : k ∈ sorted_keys m ↔ is_Some (m !! k).
Proof.
  rewrite sorted_keys_perm, list_elem_of_fmap. split.
  - intros ([k' x] & -> & Hx%elem_of_map_to_list). by exists x.
  - intros [x Hx]. exists (k, x). by rewrite elem_of_map_to_list.
Qed.

(** The pairs of a label set in the order they are written. *)
Definition label_pairs (m : gmap string string) : list (string * string) :=
  (λ k, (k, default "" (m !! k))) <$> sorted_keys m.

Lemma label_pairs_map m : list_to_map (label_pairs m) = m.
Proof.
  assert (Hk : (label_pairs m).*1 = sorted_keys m).
  { unfold label_pairs. rewrite <- list_fmap_compose. by apply list_fmap_id. }
  apply map_eq. intros k. destruct (m !! k) as [v|] eqn:E.
  - apply elem_of_list_to_map_1; [rewrite Hk; apply sorted_keys_NoDup|].
    apply list_elem_of_fmap. exists k. rewrite E. split; [done|].
    apply elem_of_sorted_keys. by exists v.
  - apply not_elem_of_list_to_map_1. rewrite Hk, elem_of_sorted_keys, E. apply is_Some_None.
Qed.

(** *** Lines *)

Definition plain (s : string) : Prop := has_byte newline s = false.

Lemma plain_app s1 s2 : plain s1 → plain s2 → plain (s1 +:+ s2).
Proof. unfold plain. intros H1 H2. by rewrite has_byte_app, H1, H2. Qed.

Lemma plain_cons a s : a ≠ newline → plain s → plain (String a s).
Proof. unfold plain. intros Ha Hs. simpl. by rewrite bool_decide_eq_false_2. Qed.

Lemma plain_nil : plain "".
Proof. done. Qed.

Lemma escapeLabel_plain v : plain (escapeLabel v).
Proof.
  unfold plain. induction v as [|a v IH]; [done|]. rewrite escapeLabel_cons, has_byte_app, IH, orb_false_r.
  unfold escape_byte. repeat case_decide; try done. simpl. by rewrite bool_decide_eq_false_2.
Qed.

Create HintDb plain.
#[local] Hint Resolve plain_app plain_nil escapeLabel_plain : plain.
#[local] Hint Extern 1 (plain (String _ _)) => apply plain_cons; [done|] : plain.

Lemma pretty_N_plain (n : N) : plain (pretty n).
Proof.
  assert (Hgo : ∀ s, plain s → plain (pretty_N_go n s)).
  { induction (N.lt_wf_0 n) as [n _ IH]. intros s Hs.
    destruct (decide (n = 0)%N) as [->|Hn]; [done|].
    rewrite pretty_N_go_step by lia. apply IH; [apply N.div_lt; lia|].
    apply plain_cons; [|done]. unfold pretty_N_char. by repeat case_match. }
  unfold pretty, pretty_N. case_decide; [done|]. by apply Hgo.
Qed.

Lemma digits_pad_plain w n : plain (digits_pad w n).
Proof. revert n. induction w; simpl; auto using pretty_N_plain with plain. Qed.

Lemma fmt_fixed_plain p x : plain (fmt_fixed p x).
Proof.
  assert (Hd : ∀ n, plain (fixed_digits p n)).
  { intros n. unfold fixed_digits. case_decide; auto using pretty_N_plain, digits_pad_plain with plain. }
  destruct x as [[]|[]| |[]]; simpl; auto with plain.
Qed.

(** A line that cannot be broken: names and label names are fixed words. *)
Definition wf_line (l : Line) : Prop :=
  match l with
  | Help name text | Type_ name text => plain name ∧ plain text
  | Metric name m _ =>
      plain name ∧ has_byte "{" name = false ∧ m ≠ ∅ ∧
      map_Forall (λ k _, plain k ∧ has_byte "=" k = false) m
  end.

Lemma Join_plain l : Forall plain l → plain (Join l ",").
Proof.
  induction 1 as [|x l Hx Hl IH]; [done|]. destruct l; [done|]. simpl in *. auto with plain.
Qed.

Lemma line_text_plain l : wf_line l → plain (line_text l).
Proof.
  destruct l as [name text|name text|name m v]; simpl; [intros [? ?]; auto 10 with plain..|].
  intros (Hn & _ & _ & Hm). pose proof (fmt_fixed_plain 6 v).
  assert (plain (renderLabels m)).
  { apply Join_plain. apply Forall_fmap, Forall_forall. intros k Hk%elem_of_sorted_keys.
    destruct Hk as [x Hx]. apply Hm in Hx as [? _]. unfold render_label. simpl. auto 10 with plain. }
  auto 10 with plain.
Qed.

(** *** Reading *)

Lemma read_labels_render m ks n rest :
  ks ≠ [] → Forall (λ k, has_byte "=" k = false) ks → length ks ≤ n →
  read_labels n (Join (render_label m <$> ks) "," +:+ String "}" rest) =
  Some ((λ k, (k, default "" (m !! k))) <$> ks, rest).
Proof.
  intros Hne Hks. revert n. induction Hks as [|k ks Hk Hks IH]; [done|].
  intros [|n] Hn; simpl in Hn; [lia|].
  assert (Hstep : ∀ tail, read_labels (S n) (render_label m k +:+ tail) =
    match tail with
    | String c s =>
        if decide (c = "}"%char) then Some ([(k, default "" (m !! k))], s)
        else '(l, s) ← read_labels n s; Some ((k, default "" (m !! k)) :: l, s)
    | "" => None
    end).
  { intros tail. unfold render_label. rewrite !str_app_assoc, !str_cons_app, !str_nil_app.
    cbn [read_labels]. rewrite Cut_app by done. simpl. rewrite !str_app_assoc, str_cons_app, str_nil_app.
    rewrite read_value_escape. simpl. by destruct tail. }
  destruct ks as [|k2 ks].
  - cbn [fmap list_fmap Join]. rewrite Hstep. by rewrite decide_True.
  - change (Join (render_label m <$> k :: k2 :: ks) ",")
      with (render_label m k +:+ String "," (Join (render_label m <$> k2 :: ks) ",")).
    rewrite str_app_assoc, str_cons_app, Hstep, decide_False by done.
    rewrite IH; [done|done|simpl in *; lia].
Qed.

Lemma length_Join_labels m ks : length ks ≤ String.length (Join (render_label m <$> ks) ",") + 1.
Proof.
  assert (Hr : ∀ k, 1 ≤ String.length (render_label m k)).
  { intros k. unfold render_label. rewrite !length_str_app. simpl. lia. }
  induction ks as [|k ks IH]; [simpl; lia|]. destruct ks as [|k2 ks]; [simpl; lia|].
  change (Join (render_label m <$> k :: k2 :: ks) ",")
    with (render_label m k +:+ String "," (Join (render_label m <$> k2 :: ks) ",")).
  rewrite length_str_app. specialize (Hr k). simpl in *. lia.
Qed.

Lemma read_sample_line name m v :
  wf_line (Metric name m v) →
  read_sample (line_text (Metric name m v)) = Some (name, label_pairs m, fmt_fixed 6 v).
Proof.
  intros (_ & Hn & Hne & Hm). unfold read_sample, line_text.
  rewrite str_cons_app, str_nil_app, Cut_app by done.
  cbn [mbind option_bind]. unfold renderLabels.
  change ("} " +:+ fmt_fixed 6 v) with (String "}" (" " +:+ fmt_fixed 6 v)).
  assert (Hks : sorted_keys m ≠ []).
  { intros E. apply Hne, map_eq. intros k. rewrite lookup_empty. apply eq_None_not_Some.
    rewrite <- elem_of_sorted_keys, E. apply not_elem_of_nil. }
  rewrite read_labels_render; [| done| |].
  - cbn [mbind option_bind]. unfold TrimPrefix. by rewrite HasPrefix_app, drop_bytes_app.
  - apply Forall_forall. intros k [x Hx]%elem_of_sorted_keys. by apply Hm in Hx as [_ ?].
  - rewrite length_str_app. pose proof (length_Join_labels m (sorted_keys m)). lia.
Qed.

(** *** The lines of the page *)

Lemma labels_wf l :
  l ≠ [] → Forall (λ kv, plain kv.1 ∧ has_byte "=" kv.1 = false) l →
  labels l ≠ ∅ ∧ map_Forall (λ k _, plain k ∧ has_byte "=" k = false) (labels l).
Proof.
  intros Hne Hl. split.
  - destruct l as [|[k v] l]; [done|]. unfold labels. simpl. apply insert_non_empty.
  - intros k v Hk%elem_of_list_to_map_2. rewrite Forall_forall in Hl. exact (Hl _ Hk).
Qed.

Lemma metric_wf name l v :
  plain name → has_byte "{" name = false → l ≠ [] →
  Forall (λ kv, plain kv.1 ∧ has_byte "=" kv.1 = false) l → wf_line (Metric name (labels l) v).
Proof. intros. split; [done|]. split; [done|]. by apply labels_wf. Qed.

Lemma count_line_wf s name key kv :
  plain name → has_byte "{" name = false → plain key → has_byte "=" key = false →
  wf_line (count_line s name key kv).
Proof. intros. apply metric_wf; [done..|]. by repeat constructor. Qed.

Lemma device_lines_wf s d : Forall wf_line (device_lines s d).
Proof.
  constructor; [|apply Forall_fmap, Forall_true; intros key];
    (apply metric_wf; [done..|]; by repeat constructor).
Qed.

Lemma count_lines_wf s name key l :
  plain name → has_byte "{" name = false → plain key → has_byte "=" key = false →
  Forall wf_line (count_line s name key <$> l).
Proof. intros. apply Forall_fmap, Forall_true. intros kv. by apply count_line_wf. Qed.

Lemma page_wf ord1 ord2 ord3 s : Forall wf_line (page ord1 ord2 ord3 s).
Proof.
  unfold page. rewrite !Forall_app. split_and!.
  - unfold site_lines, power_line.
    repeat (apply Forall_cons; split); try done; apply metric_wf; by repeat constructor.
  - apply Forall_app. split; [by repeat constructor|].
    apply Forall_concat, Forall_fmap, Forall_true. apply device_lines_wf.
  - apply Forall_app. split; [by repeat constructor|by apply count_lines_wf].
  - apply Forall_app. split; [by repeat constructor|by apply count_lines_wf].
  - apply Forall_app. split; [by repeat constructor|].
    apply Forall_fmap, Forall_true. intros kv. apply metric_wf; by repeat constructor.
  - apply Forall_app. split; [by repeat constructor|].
    apply Forall_fmap, Forall_true. intros reason. by apply count_line_wf.
Qed.

Lemma render_lines b ls :
  foldl (λ b l, b +:+ write_line l) b ls =
  b +:+ foldr (λ l s, line_text l +:+ String newline s) "" ls.
Proof.
  revert b. induction ls as [|l ls IH]; intros b; simpl; [by rewrite str_app_nil|].
  rewrite IH. unfold write_line. by rewrite !str_app_assoc, str_cons_app, str_nil_app.
Qed.

Lemma Split_lines ls :
  Forall wf_line ls →
  Split (foldr (λ l s, line_text l +:+ String newline s) "" ls) newline =
  (line_text <$> ls) ++ [""].
Proof.
  induction 1 as [|l ls Hl Hls IH]; [done|]. simpl.
  rewrite Split_app by (by apply line_text_plain). by rewrite IH.
Qed.

(** *** The series of the page *)

(** The name and the labels of the samples. *)
Definition series (l : list Line) : list (string * gmap string string) :=
  omap (λ x, match x with Metric name m _ => Some (name, m) | _ => None end) l.

Lemma series_app l1 l2 : series (l1 ++ l2) = series l1 ++ series l2.
Proof. apply omap_app. Qed.

Definition named (names : list string) (l : list (string * gmap string string)) : Prop :=
  Forall (λ x, x.1 ∈ names) l.

(** Blocks whose names differ do not interfere. *)
Lemma NoDup_blocks names1 names2 l1 l2 :
  named names1 l1 → named names2 l2 → (∀ x, x ∈ names1 → x ∉ names2) →
  NoDup l1 → NoDup l2 → NoDup (l1 ++ l2).
Proof.
  unfold named. rewrite !Forall_forall. intros H1 H2 Hd Hn1 Hn2. apply NoDup_app.
  split_and!; [done| |done]. intros x Hx1 Hx2. by apply (Hd x.1); [apply H1|apply H2].
Qed.

Lemma series_count s name key l :
  series (count_line s name key <$> l) =
  (λ kv : string * Z, (name, labels [("site_id", mt_SiteID s); (key, kv.1)])) <$> l.
Proof. induction l as [|kv l IH]; [done|]. cbn. f_equal. exact IH. Qed.

(** A list is without repetition when a function of its elements is. *)
Lemma NoDup_key {A B} (f : A → B) (l : list A) : NoDup (f <$> l) → NoDup l.
Proof. apply NoDup_fmap_1. Qed.

Lemma count_series_NoDup s name key l :
  key ≠ "site_id" → NoDup l.*1 → NoDup (series (count_line s name key <$> l)).
Proof.
  intros Hk Hl. rewrite series_count. apply (NoDup_key (λ x, x.2 !! key)).
  rewrite <- list_fmap_compose.
  assert (E : compose (λ x : string * gmap string string, x.2 !! key)
      (λ kv : string * Z, (name, labels [("site_id", mt_SiteID s); (key, kv.1)])) <$> l =
      Some <$> l.*1).
  { rewrite <- list_fmap_compose. apply list_fmap_ext. intros _ kv _. unfold labels. simpl.
    by rewrite lookup_insert_ne, lookup_insert_eq. }
  rewrite E. by apply (NoDup_fmap_2 Some).
Qed.

(** The devices' samples by name, site, device and metric. *)
Definition device_key (x : string * gmap string string) :
    string * option string * option string * option string :=
  (x.1, x.2 !! "site_id", x.2 !! "device_id", x.2 !! "metric").

Definition metrics_of (s : Snapshot) (d : Device) : gmap string float64 :=
  match telemetryForDevice (mt_Telemetry s) d with Some t => tel_Metrics t | None => ∅ end.

Lemma device_series_keys s d :
  device_key <$> series (device_lines s d) =
  ("vpp_device_online", Some (dev_SiteID d), Some (dev_ID d), None) ::
  ((λ key, ("vpp_device_metric", Some (dev_SiteID d), Some (dev_ID d), Some key))
     <$> sorted_keys (metrics_of s d)).
Proof.
  unfold device_lines, sortedMetricKeys. fold (metrics_of s d). cbn. f_equal.
  induction (sorted_keys (metrics_of s d)) as [|key l IH]; [done|]. cbn. f_equal. exact IH.
Qed.

Lemma device_series_NoDup s devices :
  NoDup ((λ d, (dev_SiteID d, dev_ID d)) <$> devices) →
  NoDup (series (concat (device_lines s <$> devices))).
Proof.
  intros Hd. apply (NoDup_key device_key).
  induction devices as [|d devices IH]; [constructor|]. cbn [fmap list_fmap concat].
  apply NoDup_cons in Hd as [Hnotin Hd]. unfold series at 1. rewrite omap_app, fmap_app.
  fold (series (device_lines s d)). fold (series (concat (device_lines s <$> devices))).
  rewrite device_series_keys. apply NoDup_app. split_and!; [| |by apply IH].
  - constructor.
    + intros (key & E & _)%list_elem_of_fmap. done.
    + apply NoDup_fmap_2; [|apply sorted_keys_NoDup]. intros k1 k2 E. by simplify_eq.
  - intros x Hx Hx'. apply Hnotin.
    assert (Hxd : x.1.1.2 = Some (dev_SiteID d) ∧ x.1.2 = Some (dev_ID d)).
    { apply elem_of_cons in Hx as [->|(key & -> & _)%list_elem_of_fmap]; done. }
    clear - Hxd Hx'. induction devices as [|d' devices IH]; [by apply elem_of_nil in Hx'|].
    cbn [fmap list_fmap concat] in Hx'. unfold series at 1 in Hx'.
    rewrite omap_app, fmap_app in Hx'. apply elem_of_app in Hx' as [Hx'|Hx'].
    + fold (series (device_lines s d')) in Hx'. rewrite device_series_keys in Hx'. apply elem_of_cons. left.
      destruct Hxd as [H1 H2].
      apply elem_of_cons in Hx' as [->|(key & -> & _)%list_elem_of_fmap]; cbn in *; congruence.
    + apply elem_of_cons. right. by apply IH.
Qed.

Lemma device_series_named s devices :
  named ["vpp_device_online"; "vpp_device_metric"] (series (concat (device_lines s <$> devices))).
Proof.
  induction devices as [|d devices IH]; [constructor|]. cbn [fmap list_fmap concat].
  unfold series, named. rewrite omap_app. apply Forall_app. split; [|exact IH].
  constructor; [by left|]. induction (sortedMetricKeys _) as [|key l IHl]; [constructor|].
  cbn. constructor; [by right; left|exact IHl].
Qed.

Lemma count_series_named s name key l : named [name] (series (count_line s name key <$> l)).
Proof. rewrite series_count. apply Forall_fmap, Forall_true. intros kv. by left. Qed.

Lemma audit_series s l :
  series (audit_line s <$> l) =
  (λ kv : (string * string) * Z, ("vpp_audit_logs_total",
     labels [("site_id", mt_SiteID s); ("action", kv.1.1); ("status_code", kv.1.2)])) <$> l.
Proof. induction l as [|kv l IH]; [done|]. cbn. f_equal. exact IH. Qed.

Lemma audit_series_NoDup s l : NoDup l.*1 → NoDup (series (audit_line s <$> l)).
Proof.
  intros Hl. rewrite audit_series.
  apply (NoDup_key (λ x, (x.2 !! "action", x.2 !! "status_code"))).
  rewrite <- list_fmap_compose.
  assert (E : compose (λ x : string * gmap string string, (x.2 !! "action", x.2 !! "status_code"))
      (λ kv : (string * string) * Z, ("vpp_audit_logs_total",
         labels [("site_id", mt_SiteID s); ("action", kv.1.1); ("status_code", kv.1.2)])) <$> l =
      (λ k : string * string, (Some k.1, Some k.2)) <$> l.*1).
  { rewrite <- list_fmap_compose. apply list_fmap_ext. intros _ [[a b] n] _. simpl.
    unfold labels. simpl. rewrite lookup_insert_ne, lookup_insert_eq by done.
    by rewrite !lookup_insert_ne, lookup_insert_eq by done. }
  rewrite E. apply NoDup_fmap_2; [|done]. intros [a b] [a' b'] Heq. simpl in Heq. congruence.
Qed.

Lemma audit_series_named s l : named ["vpp_audit_logs_total"] (series (audit_line s <$> l)).
Proof. rewrite audit_series. apply Forall_fmap, Forall_true. intros kv. by left. Qed.

Lemma reject_series s l :
  series ((λ reason, count_line s "vpp_mqtt_rejected_messages_total" "reason"
      (reason, default 0%Z (mt_MQTTRejects s !! reason))) <$> l) =
  series (count_line s "vpp_mqtt_rejected_messages_total" "reason" <$>
    ((λ reason, (reason, default 0%Z (mt_MQTTRejects s !! reason))) <$> l)).
Proof. by rewrite <- list_fmap_compose. Qed.

Lemma site_series_NoDup s : NoDup (series (site_lines s)).
Proof.
  apply (NoDup_key (λ x, (x.1, x.2 !! "component"))).
  replace (_ <$> _) with
    [("vpp_site_power_w", Some "pv"); ("vpp_site_power_w", Some "load");
     ("vpp_site_power_w", Some "battery"); ("vpp_site_power_w", Some "net");
     ("vpp_site_battery_soc", None)] by reflexivity.
  by apply (bool_decide_unpack _).
Qed.

Lemma named_app names1 names2 l1 l2 :
  named names1 l1 → named names2 l2 → named (names1 ++ names2) (l1 ++ l2).
Proof.
  unfold named. rewrite Forall_app. intros H1 H2. split.
  - eapply Forall_impl; [exact H1|]. intros x Hx. apply elem_of_app. by left.
  - eapply Forall_impl; [exact H2|]. intros x Hx. apply elem_of_app. by right.
Qed.

Ltac disjoint_names := apply Forall_forall, (bool_decide_unpack _); vm_compute; done.

(** The blocks are about different metrics, so the page repeats a series only if a
    block does. *)
Lemma page_series_NoDup ord1 ord2 ord3 s :
  NoDup ((λ d, (dev_SiteID d, dev_ID d)) <$> mt_Devices s) →
  NoDup ord1.*1 → NoDup ord2.*1 → NoDup ord3.*1 →
  NoDup (series (page ord1 ord2 ord3 s)).
Proof.
  intros Hd H1 H2 H3.
  assert (Hdev : NoDup (series (devices_lines s))).
  { apply device_series_NoDup. unfold sortedDevices. by rewrite sort_slice_perm. }
  assert (Hrej : NoDup (series (reject_lines s)) ∧
      named ["vpp_mqtt_rejected_messages_total"] (series (reject_lines s))).
  { unfold reject_lines. rewrite series_app, reject_series. cbn [app series omap list_omap]. split.
    - apply count_series_NoDup; [done|]. rewrite <- list_fmap_compose.
      rewrite (list_fmap_id (sortedRejectReasons _)). apply sorted_keys_NoDup.
    - apply count_series_named. }
  destruct Hrej as [Hrej Nrej].
  assert (Nsite : named ["vpp_site_power_w"; "vpp_site_battery_soc"] (series (site_lines s))).
  { apply (bool_decide_unpack _). vm_compute. done. }
  assert (Ndev : named _ (series (devices_lines s))) by apply device_series_named.
  assert (Ncmd : named _ (series (command_lines ord1 s))) by apply count_series_named.
  assert (Nev : named _ (series (event_lines ord2 s))) by apply count_series_named.
  assert (Naud : named _ (series (audit_lines ord3 s))) by apply audit_series_named.
  unfold page. rewrite !series_app.
  pose proof (named_app _ _ _ _ Naud Nrej) as N1. pose proof (named_app _ _ _ _ Nev N1) as N2.
  pose proof (named_app _ _ _ _ Ncmd N2) as N3. pose proof (named_app _ _ _ _ Ndev N3) as N4.
  apply (NoDup_blocks _ _ _ _ Nsite N4); [disjoint_names|apply site_series_NoDup|].
  apply (NoDup_blocks _ _ _ _ Ndev N3); [disjoint_names|exact Hdev|].
  apply (NoDup_blocks _ _ _ _ Ncmd N2); [disjoint_names|by apply count_series_NoDup|].
  apply (NoDup_blocks _ _ _ _ Nev N1); [disjoint_names|by apply count_series_NoDup|].
  apply (NoDup_blocks _ _ _ _ Naud Nrej); [disjoint_names|by apply audit_series_NoDup|exact Hrej].
Qed.

(** ** Properties *)

(** C22: No content can disturb the page: split into lines it is exactly what was
    written, comments as comments, and every sample reads back as its metric
    with its own labels, whatever bytes the labels hold, and its value. *)
Theorem page_reads_back ord1 ord2 ord3 s :
  ∃ texts, Split (RenderPrometheus ord1 ord2 ord3 s) newline = texts ++ [""] ∧
    Forall2 (λ l text,
      match l with
      | Metric name m v => ∃ pairs,
          read_sample text = Some (name, pairs, fmt_fixed 6 v) ∧ list_to_map pairs = m
      | _ => HasPrefix text "# " = true
      end) (page ord1 ord2 ord3 s) texts.
Proof.
  exists (line_text <$> page ord1 ord2 ord3 s). split.
  - unfold RenderPrometheus. rewrite render_lines, str_nil_app. apply Split_lines, page_wf.
  - apply Forall2_fmap_r, Forall_Forall2_diag.
    eapply Forall_impl; [apply page_wf|]. intros [name text|name text|name m v] Hw.
    + apply (HasPrefix_app "# ").
    + apply (HasPrefix_app "# ").
    + exists (label_pairs m). split; [by apply read_sample_line|apply label_pairs_map].
Qed.

(** The page holds no series twice: when the devices have distinct sites and
    names, and each map of counts is visited once per key, no two samples agree
    in their metric and labels. *)
Lemma page_no_duplicates ord1 ord2 ord3 s :
  NoDup ((λ d, (dev_SiteID d, dev_ID d)) <$> mt_Devices s) →
  ord1 ≡ₚ map_to_list (commandStatusCounts (mt_Commands s)) →
  ord2 ≡ₚ map_to_list (eventSeverityCounts (mt_Events s)) →
  ord3 ≡ₚ map_to_list (auditLogCounts (mt_AuditLogs s)) →
  NoDup (series (page ord1 ord2 ord3 s)).
Proof.
  intros Hd H1 H2 H3. apply page_series_NoDup; [done|..].
  - rewrite H1. apply NoDup_fst_map_to_list.
  - rewrite H2. apply NoDup_fst_map_to_list.
  - rewrite H3. apply NoDup_fst_map_to_list.
Qed.

(** ** The theorems at a concrete snapshot *)

Definition ex_snapshot : Snapshot :=
  MkSnapshot (time_Unix 1000) "site-a"
    (MkSiteSummary "site-a" fzero fzero fzero fzero fzero zero_time)
    [ex_battery; ex_load] (st_telemetry ex_store) [] [] [] ∅.
