(* ===== verification/Optimizer.v ===== *)
(** * internal/optimizer: the day-ahead plan

    [BuildDayAheadPlan] walks the horizon slot by slot, forecasts photovoltaic
    power and load, chooses a battery action and threads the state of charge
    through [nextSOC].  [ValidateConfig] and [normalizeConfig] guard its input.
    The local time zone and [math.Sin] are parameters ([Location], [MathSin]).
    A run-time panic is [None]. *)
From Stdlib Require Import Floats.SpecFloat.
From S2P Require Import Prelude Float64 FloatFacts GoTime GoStrings Model.

(** [math.Sin], an argument of the definitions that call it. *)
Class MathSin := math_Sin : float64 → float64.

(** [math.Pi] rounded to binary64. *)
Definition math_Pi : float64 := S754_finite false 7074237752028440 (-51).

Definition slotDuration : Z := (15 * Minute)%Z.

(** ** Data *)

Record TariffBand := MkTariffBand {
  tb_Name : string; tb_StartHour : Z; tb_EndHour : Z; tb_Price : float64
}.

Record Config := MkConfig {
  cfg_HorizonHours : Z;
  cfg_SlotMinutes : Z;
  cfg_BatteryCapacityWh : float64;
  cfg_BatteryPowerLimitW : float64;
  cfg_MinSOC : float64;
  cfg_MaxSOC : float64;
  cfg_Tariffs : list TariffBand;
  cfg_minSOCSet : bool;
  cfg_maxSOCSet : bool
}.

Record Slot := MkSlot {
  sl_StartAt : Time;
  sl_EndAt : Time;
  sl_BatteryMode : string;
  sl_TargetPowerW : float64;
  sl_ExpectedPrice : float64;
  sl_ForecastPVW : float64;
  sl_ForecastLoadW : float64;
  sl_ForecastSOC : float64;
  sl_NetLoadW : float64;
  sl_Reason : string
}.

Record Plan := MkPlan {
  pl_GeneratedAt : Time;
  pl_SiteID : string;
  pl_Config : Config;
  pl_Slots : list Slot
}.

(** ** Configuration *)

Definition DefaultConfig : Config :=
  MkConfig 24 15 (of_int 150) (of_int 50) (lit 25 100) (lit 90 100)
    [MkTariffBand "valley" 0 7 (lit 32 100);
     MkTariffBand "flat" 7 18 (lit 58 100);
     MkTariffBand "peak" 18 23 (lit 95 100);
     MkTariffBand "flat" 23 24 (lit 58 100)] false false.

Definition normalizeConfig (cfg : Config) : Config :=
  let def := DefaultConfig in
  MkConfig
    (if (cfg_HorizonHours cfg =? 0)%Z then cfg_HorizonHours def else cfg_HorizonHours cfg)
    (if (cfg_SlotMinutes cfg =? 0)%Z then cfg_SlotMinutes def else cfg_SlotMinutes cfg)
    (if (cfg_BatteryCapacityWh cfg == fzero)%f64
     then cfg_BatteryCapacityWh def else cfg_BatteryCapacityWh cfg)
    (if (cfg_BatteryPowerLimitW cfg == fzero)%f64
     then cfg_BatteryPowerLimitW def else cfg_BatteryPowerLimitW cfg)
    (if (cfg_MinSOC cfg == fzero)%f64 && negb (cfg_minSOCSet cfg)
     then cfg_MinSOC def else cfg_MinSOC cfg)
    (if (cfg_MaxSOC cfg == fzero)%f64 && negb (cfg_maxSOCSet cfg)
     then cfg_MaxSOC def else cfg_MaxSOC cfg)
    (match cfg_Tariffs cfg with [] => cfg_Tariffs def | l => l end)
    (cfg_minSOCSet cfg) (cfg_maxSOCSet cfg).

(** The loop over the bands: the first error. *)
Fixpoint validateBands (i : nat) (l : list TariffBand) : option error :=
  match l with
  | [] => None
  | band :: l' =>
      if (tb_StartHour band <? 0)%Z || (24 <? tb_StartHour band)%Z ||
         (tb_EndHour band <? 0)%Z || (24 <? tb_EndHour band)%Z
      then Some ("tariffs[" +:+ pretty i +:+ "] hours must be between 0 and 24")
      else if (tb_EndHour band <=? tb_StartHour band)%Z
      then Some ("tariffs[" +:+ pretty i +:+ "] start_hour must be < end_hour")
      else if (tb_Price band <? fzero)%f64
      then Some ("tariffs[" +:+ pretty i +:+ "] price must be >= 0")
      else validateBands (S i) l'
  end.

Definition one : float64 := of_int 1.

Definition ValidateConfig (cfg : Config) : option error :=
  if (cfg_HorizonHours cfg <? 0)%Z then Some "horizon_hours must be > 0" else
  if (cfg_SlotMinutes cfg <? 0)%Z then Some "slot_minutes must be > 0" else
  if (0 <? cfg_SlotMinutes cfg)%Z && negb (Z.rem 60 (cfg_SlotMinutes cfg) =? 0)%Z
  then Some "slot_minutes must divide 60" else
  if (cfg_BatteryCapacityWh cfg <? fzero)%f64 then Some "battery_capacity_wh must be > 0" else
  if (cfg_BatteryPowerLimitW cfg <? fzero)%f64 then Some "battery_power_limit_w must be > 0" else
  if (cfg_MinSOC cfg <? fzero)%f64 || (cfg_MinSOC cfg >? one)%f64
  then Some "min_soc must be between 0 and 1" else
  if (cfg_MaxSOC cfg <? fzero)%f64 || (cfg_MaxSOC cfg >? one)%f64
  then Some "max_soc must be between 0 and 1" else
  if (cfg_MinSOC cfg >? cfg_MaxSOC cfg)%f64 then Some "min_soc must be <= max_soc" else
  let normalized := normalizeConfig cfg in
  match validateBands 0 (cfg_Tariffs cfg) with
  | Some err => Some err
  | None =>
      if (cfg_HorizonHours normalized <=? 0)%Z then Some "horizon_hours must be > 0" else
      if (cfg_SlotMinutes normalized <=? 0)%Z then Some "slot_minutes must be > 0" else
      if (cfg_BatteryCapacityWh normalized <=? fzero)%f64
      then Some "battery_capacity_wh must be > 0" else
      if (cfg_BatteryPowerLimitW normalized <=? fzero)%f64
      then Some "battery_power_limit_w must be > 0" else
      if (cfg_MinSOC normalized >? cfg_MaxSOC normalized)%f64
      then Some "min_soc must be <= max_soc" else None
  end.

(** ** Forecasts and prices *)

Definition clamp (v min max : float64) : float64 :=
  if (v <? min)%f64 then min else if (v >? max)%f64 then max else v.

Definition round2 (v : float64) : float64 := (math_Round (v * of_int 100) / of_int 100)%f64.
Definition round4 (v : float64) : float64 := (math_Round (v * of_int 10000) / of_int 10000)%f64.

(** [lowPrice] and [highPrice] read [bands[0]]: no band is a panic. *)
Definition lowPrice (bands : list TariffBand) : option float64 :=
  match bands with
  | [] => None
  | b :: _ => Some (foldl (λ min band,
      if (tb_Price band <? min)%f64 then tb_Price band else min) (tb_Price b) bands)
  end.

Definition highPrice (bands : list TariffBand) : option float64 :=
  match bands with
  | [] => None
  | b :: _ => Some (foldl (λ max band,
      if (tb_Price band >? max)%f64 then tb_Price band else max) (tb_Price b) bands)
  end.

Definition nextSOC (soc : float64) (mode : string) (powerW : float64) (cfg : Config) : float64 :=
  let delta := (powerW * of_int (cfg_SlotMinutes cfg) / of_int 60 / cfg_BatteryCapacityWh cfg)%f64 in
  let soc :=
    if decide (mode = "charge") then (soc + delta)%f64
    else if decide (mode = "discharge") then (soc - delta)%f64
    else soc in
  clamp soc (cfg_MinSOC cfg) (cfg_MaxSOC cfg).

Section Forecast.
Context `{Location} `{MathSin}.

Definition forecastPV (t : Time) (currentPV : float64) : float64 :=
  let hour := (of_int (Hour t) + of_int (Minute_of t) / of_int 60)%f64 in
  let shape := math_Sin ((hour - of_int 6) / of_int 12 * math_Pi)%f64 in
  if (shape <? fzero)%f64 then fzero else (currentPV * shape)%f64.

Definition forecastLoad (t : Time) (currentLoad : float64) : float64 :=
  let hour := Hour t in
  let multiplier :=
    if (7 <=? hour)%Z && (hour <? 10)%Z then lit 115 100
    else if (18 <=? hour)%Z && (hour <? 23)%Z then lit 135 100
    else if (0 <=? hour)%Z && (hour <? 6)%Z then lit 75 100
    else one in
  (currentLoad * multiplier)%f64.

Fixpoint priceAt_from (h : Z) (bands : list TariffBand) : float64 :=
  match bands with
  | [] => lit 58 100
  | band :: bands' =>
      if (tb_StartHour band <=? h)%Z && (h <? tb_EndHour band)%Z then tb_Price band
      else priceAt_from h bands'
  end.

Definition priceAt (t : Time) (bands : list TariffBand) : float64 := priceAt_from (Hour t) bands.
End Forecast.

(** ** The plan *)

(** The switch of the loop body: mode, target power and reason. *)
Definition choose (cfg : Config) (pv load price low high soc : float64) :
    string * float64 * string :=
  let netLoad := (load - pv)%f64 in
  let hasArbitrage := (high >? low)%f64 in
  let limit := cfg_BatteryPowerLimitW cfg in
  if (pv >? load + of_int 10)%f64 && (soc <? cfg_MaxSOC cfg)%f64 then
    ("charge", math_Min limit (pv - load)%f64, "pv surplus")
  else if hasArbitrage && (price <=? low)%f64 && (soc <? cfg_MaxSOC cfg)%f64 then
    ("charge", limit, "low tariff")
  else if hasArbitrage && (price >=? high)%f64 && (netLoad >? fzero)%f64 &&
          (soc >? cfg_MinSOC cfg)%f64 then
    ("discharge", math_Min limit netLoad, "peak tariff and load deficit")
  else if (netLoad >? limit)%f64 && (soc >? cfg_MinSOC cfg)%f64 then
    ("discharge", math_Min limit netLoad, "reduce net load")
  else ("idle", fzero, "balanced or battery held for constraints").

(** The [i]-th multiple of the slot length, as an [int64] duration. *)
Definition slot_offset (cfg : Config) (i : Z) : Z :=
  wrap64 (wrap64 (i * cfg_SlotMinutes cfg) * Minute)%Z.

(** The largest capacity [make] accepts for slots of 128 bytes. *)
Definition max_slots : Z := (2 ^ 41)%Z.

(** [cfg.HorizonHours * 60 / cfg.SlotMinutes], or 96 when not positive. *)
Definition slot_count (cfg : Config) : Z :=
  let slotCount := wrap64 (Z.quot (wrap64 (cfg_HorizonHours cfg * 60)) (cfg_SlotMinutes cfg)) in
  if (slotCount <=? 0)%Z then 96%Z else slotCount.

Section Plan.
Context `{Location} `{MathSin}.
Context (cfg : Config) (start : Time) (currentPV currentLoad : float64).

(** One iteration: the slot appended and the state of charge after it. *)
Definition plan_slot (i : Z) (soc : float64) : option (Slot * float64) :=
  let slotStart := Add start (slot_offset cfg i) in
  let price := priceAt slotStart (cfg_Tariffs cfg) in
  low ← lowPrice (cfg_Tariffs cfg);
  high ← highPrice (cfg_Tariffs cfg);
  let pv := forecastPV slotStart currentPV in
  let load := forecastLoad slotStart currentLoad in
  let '(mode, target, reason) := choose cfg pv load price low high soc in
  let soc := nextSOC soc mode target cfg in
  Some (MkSlot slotStart (Add slotStart (slot_offset cfg 1)) mode (round2 target) price
          (round2 pv) (round2 load) (round4 soc) (round2 (load - pv)%f64) reason, soc).

(** The iterations from [i] on, [n] of them. *)
Fixpoint plan_loop (n : nat) (i : Z) (soc : float64) : option (list Slot) :=
  match n with
  | O => Some []
  | S n' =>
      '(slot, soc') ← plan_slot i soc;
      slots ← plan_loop n' (i + 1)%Z soc';
      Some (slot :: slots)
  end.
End Plan.

(** The state of charge the loop starts from. *)
Definition initial_soc (cfg : Config) (summary : SiteSummary) : float64 :=
  let soc := sum_AvgSOC summary in
  let soc := if (soc == fzero)%f64 then lit 5 10 else soc in
  clamp soc (cfg_MinSOC cfg) (cfg_MaxSOC cfg).

Definition BuildDayAheadPlan `{Location} `{MathSin} (now : Time) (summary : SiteSummary)
    (cfg : Config) : option Plan :=
  let cfg := normalizeConfig cfg in
  let start := Truncate now slotDuration in
  let slotCount := slot_count cfg in
  if (max_slots <? slotCount)%Z then None else
  slots ← plan_loop cfg start (math_Max (sum_PVPowerW summary) (of_int 20))
            (math_Max (sum_LoadPowerW summary) (of_int 30))
            (Z.to_nat slotCount) 0 (initial_soc cfg summary);
  Some (MkPlan now (sum_SiteID summary) cfg slots).

Fixpoint current_slot (at_ : Time) (slots : list Slot) : option Slot :=
  match slots with
  | [] => None
  | slot :: slots' =>
      if (Equal at_ (sl_StartAt slot) || After at_ (sl_StartAt slot)) &&
         Before at_ (sl_EndAt slot)
      then Some slot else current_slot at_ slots'
  end.

(** [CurrentSlot]: [None] is the result [Slot{}, false]. *)
Definition CurrentSlot (plan : Plan) (at_ : Time) : option Slot :=
  current_slot at_ (pl_Slots plan).

(** ** Configurations that are accepted *)

(** What decoded JSON guarantees: every number is finite. *)
Definition real (x : float64) : Prop := valid x ∧ is_finite x = true.

Record finite_config (cfg : Config) : Prop := {
  fin_cap : real (cfg_BatteryCapacityWh cfg);
  fin_limit : real (cfg_BatteryPowerLimitW cfg);
  fin_min : real (cfg_MinSOC cfg);
  fin_max : real (cfg_MaxSOC cfg);
  fin_prices : Forall (λ b, real (tb_Price b)) (cfg_Tariffs cfg)
}.

Definition wf_band (band : TariffBand) : Prop :=
  (0 ≤ tb_StartHour band < tb_EndHour band)%Z ∧ (tb_EndHour band ≤ 24)%Z ∧
  fleb fzero (tb_Price band) = true.

(** The configurations the planner is meant to run on. *)
Record wf_config (cfg : Config) : Prop := {
  wf_hours : (0 < cfg_HorizonHours cfg)%Z;
  wf_slot : (0 < cfg_SlotMinutes cfg)%Z ∧ (60 mod cfg_SlotMinutes cfg = 0)%Z;
  wf_cap : fltb fzero (cfg_BatteryCapacityWh cfg) = true;
  wf_limit : fltb fzero (cfg_BatteryPowerLimitW cfg) = true;
  wf_min : fleb fzero (cfg_MinSOC cfg) = true;
  wf_soc : fleb (cfg_MinSOC cfg) (cfg_MaxSOC cfg) = true;
  wf_max : fleb (cfg_MaxSOC cfg) one = true;
  wf_tariffs : cfg_Tariffs cfg ≠ [] ∧ Forall wf_band (cfg_Tariffs cfg)
}.

Lemma real_not_nan x : real x → is_nan x = false.
Proof. intros [_ H]. by destruct x. Qed.

#[export] Hint Resolve real_not_nan : vpp.

Lemma validateBands_None i l :
  Forall (λ b, real (tb_Price b)) l → validateBands i l = None ↔ Forall wf_band l.
Proof.
  intros Hr. revert i. induction Hr as [|b l Hb Hr IH]; intros i; simpl.
  { split; [constructor|done]. }
  rewrite Forall_cons, <- (IH (S i)). unfold wf_band.
  apply real_not_nan in Hb.
  repeat case_if; guards; split; try done.
  all: try (intros [(? & ? & _) _]; exfalso; lia).
  - intros [(? & ? & Hp) ?]. exfalso. apply (fltb_false _ fzero) in Hp; [congruence|done..].
  - intros ?. repeat split; try lia; [|done]. by apply (fltb_false _ fzero).
  - tauto.
Qed.

Lemma DefaultConfig_wf : wf_config DefaultConfig.
Proof. split; try done. split; [done|]. repeat constructor; simpl; try lia; done. Qed.

Lemma DefaultConfig_finite : finite_config DefaultConfig.
Proof. split; try (by vm_compute). all: repeat (constructor; try by vm_compute). Qed.

Lemma normalizeConfig_finite cfg : finite_config cfg → finite_config (normalizeConfig cfg).
Proof.
  intros [Hc Hl Hm HM Hp]. pose proof DefaultConfig_finite as [Dc Dl Dm DM Dp].
  split; unfold normalizeConfig; cbn -[DefaultConfig]; try (by case_if).
  by destruct (cfg_Tariffs cfg).
Qed.

(** Filling in the defaults a second time changes nothing. *)
Lemma normalizeConfig_idem cfg : normalizeConfig (normalizeConfig cfg) = normalizeConfig cfg.
Proof.
  unfold normalizeConfig. destruct cfg as [h s c l m M t ms Ms].
  cbn -[DefaultConfig feqb].
  f_equal.
  - destruct (h =? 0)%Z eqn:E; [done|by rewrite E].
  - destruct (s =? 0)%Z eqn:E; [done|by rewrite E].
  - destruct (c == fzero)%f64 eqn:E; [done|by rewrite E].
  - destruct (l == fzero)%f64 eqn:E; [done|by rewrite E].
  - destruct ((m == fzero)%f64 && negb ms) eqn:E; [by destruct ms|by rewrite E].
  - destruct ((M == fzero)%f64 && negb Ms) eqn:E; [by destruct Ms|by rewrite E].
  - by destruct t.
Qed.

(** The checks of [ValidateConfig] before it looks at the tariffs. *)
Definition in_unit (x : float64) : Prop := fleb fzero x = true ∧ fleb x one = true.

Lemma real_one : real one.
Proof. by vm_compute. Qed.
Lemma real_zero : real fzero.
Proof. by vm_compute. Qed.

(** A value that is not below zero and not [== 0] is positive. *)
Lemma pos_spec x : is_nan x = false → (x <=? fzero)%f64 = false ↔ fltb fzero x = true.
Proof. intros Hx. by apply fleb_false. Qed.

Lemma neg_spec x : is_nan x = false → (x <? fzero)%f64 = false ↔ fleb fzero x = true.
Proof. intros Hx. by apply fltb_false. Qed.

Lemma feqb_zero x : (x == fzero)%f64 = true → fleb x fzero = true ∧ fleb fzero x = true.
Proof. by destruct x as [[]|[]| |[]]. Qed.

Lemma feqb_zero_false x :
  is_nan x = false → (x == fzero)%f64 = false → fleb fzero x = true → fltb fzero x = true.
Proof. by destruct x as [[]|[]| |[]]. Qed.

Lemma real_default x d : real x → real d → real (if (x == fzero)%f64 then d else x).
Proof. by case_if. Qed.

Lemma check_None (b : bool) (e : error) k :
  (if b then Some e else k) = None ↔ b = false ∧ k = None.
Proof. destruct b; split; [done|by intros [? _]|done|by intros [_ ?]]. Qed.

(** Each number of the configuration, before and after the defaults. *)
Section Normalized.
Context (cfg : Config) (Hfin : finite_config cfg).
Let n := normalizeConfig cfg.

Lemma hours_spec :
  (cfg_HorizonHours cfg <? 0)%Z = false ∧ (cfg_HorizonHours n <=? 0)%Z = false ↔
  (0 < cfg_HorizonHours n)%Z.
Proof. unfold n. simpl. rewrite Z.ltb_ge, Z.leb_gt. case_if; lia. Qed.

Lemma slot_spec :
  (cfg_SlotMinutes cfg <? 0)%Z = false ∧
  (0 <? cfg_SlotMinutes cfg)%Z && negb (Z.rem 60 (cfg_SlotMinutes cfg) =? 0)%Z = false ∧
  (cfg_SlotMinutes n <=? 0)%Z = false ↔
  (0 < cfg_SlotMinutes n)%Z ∧ (60 mod cfg_SlotMinutes n = 0)%Z.
Proof.
  unfold n. simpl. rewrite Z.ltb_ge, Z.leb_gt, andb_false_iff, negb_false_iff, Z.ltb_ge, Z.eqb_eq.
  destruct (cfg_SlotMinutes cfg =? 0)%Z eqn:E.
  - apply Z.eqb_eq in E. rewrite E. split; [done|]. intros _. split; [lia|]. split; [by left|lia].
  - apply Z.eqb_neq in E. split.
    + intros (H1 & [H2|H2] & H3); [lia|]. split; [done|]. by rewrite <- Z.rem_mod_nonneg by lia.
    + intros (H1 & H2). rewrite Z.rem_mod_nonneg by lia. split_and!; [lia|by right|lia].
Qed.

Lemma positive_spec x d :
  real x → fltb fzero d = true →
  (x <? fzero)%f64 = false ∧ ((if x == fzero then d else x) <=? fzero)%f64 = false ↔
  fltb fzero (if (x == fzero)%f64 then d else x) = true.
Proof.
  intros Hx Hd. apply real_not_nan in Hx. rewrite neg_spec by done.
  destruct (x == fzero)%f64 eqn:E.
  - apply feqb_zero in E as [E1 E2]. rewrite Hd, E2.
    pose proof (fltb_not_nan _ _ Hd) as [_ ?]. rewrite pos_spec by done. tauto.
  - rewrite pos_spec by done. split; [tauto|]. intros ?. split; [by apply fltb_fleb|done].
Qed.

Lemma unit_spec x :
  real x → (x <? fzero)%f64 || (x >? one)%f64 = false ↔ in_unit x.
Proof.
  intros Hx. apply real_not_nan in Hx. rewrite orb_false_iff, neg_spec, fltb_false by done.
  done.
Qed.

Lemma tariffs_spec :
  validateBands 0 (cfg_Tariffs cfg) = None ↔
  cfg_Tariffs n ≠ [] ∧ Forall wf_band (cfg_Tariffs n).
Proof.
  rewrite validateBands_None by apply Hfin. unfold n, normalizeConfig. cbn -[DefaultConfig].
  destruct (cfg_Tariffs cfg) as [|b l] eqn:E.
  - pose proof (wf_tariffs _ DefaultConfig_wf). split; [done|]. constructor.
  - split; [by split|by intros [_ ?]].
Qed.

(** The bounds of the state of charge: those configured lie in [0,1] in order
    whenever those in force do, and conversely. *)
Lemma soc_spec :
  fleb (cfg_MinSOC cfg) (cfg_MaxSOC cfg) = true →
  in_unit (cfg_MinSOC cfg) ∧ in_unit (cfg_MaxSOC cfg) ∧
    (cfg_MinSOC n >? cfg_MaxSOC n)%f64 = false ↔
  fleb fzero (cfg_MinSOC n) = true ∧ fleb (cfg_MinSOC n) (cfg_MaxSOC n) = true ∧
    fleb (cfg_MaxSOC n) one = true.
Proof.
  intros Hraw. pose proof (normalizeConfig_finite _ Hfin) as Hn. fold n in Hn.
  pose proof (real_not_nan _ (fin_min _ Hn)). pose proof (real_not_nan _ (fin_max _ Hn)).
  rewrite fltb_false by done. unfold in_unit.
  assert (HM : fleb (cfg_MaxSOC n) one = true ↔ fleb (cfg_MaxSOC cfg) one = true).
  { unfold n, normalizeConfig. cbn [cfg_MinSOC cfg_MaxSOC]. case_if; [|done]. apply andb_true_iff in E as [E _].
    apply feqb_zero in E as [E _]. split; intros _; [|by vm_compute].
    by apply (fleb_trans _ fzero). }
  assert (Hm : fleb fzero (cfg_MinSOC n) = true ↔ fleb fzero (cfg_MinSOC cfg) = true).
  { unfold n, normalizeConfig. cbn [cfg_MinSOC cfg_MaxSOC]. case_if; [|done]. apply andb_true_iff in E as [E _].
    apply feqb_zero in E as [_ E]. split; intros _; [done|by vm_compute]. }
  rewrite HM, Hm. split; [tauto|]. intros (Hlo & ? & Hhi).
  split_and!; try done.
  - by apply (fleb_trans _ _ _ Hraw).
  - by apply (fleb_trans _ _ _ Hlo).
Qed.
End Normalized.

(** Shows the default of a positive field in the goal. *)
Ltac fold_normalized cfg :=
  try change (cfg_BatteryCapacityWh (normalizeConfig cfg))
    with (if (cfg_BatteryCapacityWh cfg == fzero)%f64
          then cfg_BatteryCapacityWh DefaultConfig else cfg_BatteryCapacityWh cfg);
  try change (cfg_BatteryPowerLimitW (normalizeConfig cfg))
    with (if (cfg_BatteryPowerLimitW cfg == fzero)%f64
          then cfg_BatteryPowerLimitW DefaultConfig else cfg_BatteryPowerLimitW cfg).

(** Acceptance, in terms of what the planner is given. *)
Lemma accepted_iff cfg :
  finite_config cfg →
  ValidateConfig cfg = None ↔
    fleb (cfg_MinSOC cfg) (cfg_MaxSOC cfg) = true ∧ wf_config (normalizeConfig cfg).
Proof.
  intros Hf. pose proof Hf as [Hc Hl Hm HM _].
  unfold ValidateConfig. cbv zeta. rewrite !check_None.
  rewrite (fltb_false (cfg_MaxSOC cfg)) by by apply real_not_nan.
  rewrite !unit_spec by done.
  pose proof (hours_spec cfg). pose proof (slot_spec cfg). pose proof (tariffs_spec cfg Hf).
  pose proof (soc_spec cfg Hf).
  pose proof (positive_spec _ _ Hc (wf_cap _ DefaultConfig_wf)) as Pc.
  pose proof (positive_spec _ _ Hl (wf_limit _ DefaultConfig_wf)) as Pl.
  destruct (validateBands 0 (cfg_Tariffs cfg)) as [e|] eqn:E.
  { assert (Some e ≠ None) by done. split; [tauto|]. intros [_ [? ? ? ? ? ? ? ?]]. tauto. }
  rewrite !check_None.
  fold_normalized cfg. split.
  - intros. split; [tauto|]. constructor; fold_normalized cfg; tauto.
  - intros [? [? ? Hcap Hlim ? ? ? ?]]. revert Hcap Hlim. fold_normalized cfg. tauto.
Qed.

Lemma accepted_wf cfg :
  finite_config cfg → ValidateConfig cfg = None → wf_config (normalizeConfig cfg).
Proof. intros Hf. rewrite accepted_iff by done. tauto. Qed.

(** ** The battery the plan drives *)

(** What any plan may ask of a battery whose state of charge is [s]: hold, take
    at most the power limit while below the upper bound, or give at most the
    power limit while above the lower bound.  The state of charge moves in the
    direction of the command and stays within the bounds. *)
Inductive battery_step (cfg : Config) (s : float64) : string → float64 → float64 → Prop :=
  | battery_idle : battery_step cfg s "idle" fzero s
  | battery_charge p s' :
      fleb fzero p = true → fleb p (cfg_BatteryPowerLimitW cfg) = true →
      fltb s (cfg_MaxSOC cfg) = true →
      fleb s s' = true → fleb s' (cfg_MaxSOC cfg) = true →
      battery_step cfg s "charge" p s'
  | battery_discharge p s' :
      fleb fzero p = true → fleb p (cfg_BatteryPowerLimitW cfg) = true →
      fltb (cfg_MinSOC cfg) s = true →
      fleb s' s = true → fleb (cfg_MinSOC cfg) s' = true →
      battery_step cfg s "discharge" p s'.

(** The slots are a run of that battery, with the reported numbers rounded. *)
Inductive battery_run (cfg : Config) : float64 → list Slot → Prop :=
  | run_nil s : battery_run cfg s []
  | run_cons s p s' slot slots :
      battery_step cfg s (sl_BatteryMode slot) p s' →
      sl_TargetPowerW slot = round2 p →
      sl_ForecastSOC slot = round4 s' →
      battery_run cfg s' slots →
      battery_run cfg s (slot :: slots).

Definition soc_ok (cfg : Config) (s : float64) : Prop :=
  valid s ∧ fleb (cfg_MinSOC cfg) s = true ∧ fleb s (cfg_MaxSOC cfg) = true.

Lemma soc_ok_not_nan cfg s : soc_ok cfg s → is_nan s = false.
Proof. intros (_ & H & _). by apply fleb_not_nan in H as []. Qed.

(** A value between two finite ones is finite. *)
Lemma between_finite x y z :
  is_finite x = true → is_finite z = true → fleb x y = true → fleb y z = true → is_finite y = true.
Proof. destruct x as [|[]| |[]], y as [|[]| |], z as [|[]| |[]]; done. Qed.

Lemma clamp_valid v lo hi : valid v → valid lo → valid hi → valid (clamp v lo hi).
Proof. intros. unfold clamp. by repeat case_if. Qed.

Lemma clamp_range v lo hi :
  is_nan v = false → fleb lo hi = true →
  fleb lo (clamp v lo hi) = true ∧ fleb (clamp v lo hi) hi = true.
Proof.
  intros Hv Hlh. pose proof (fleb_not_nan _ _ Hlh) as [Hlo Hhi]. unfold clamp.
  destruct (fltb v lo) eqn:E1; [by split; [apply fleb_refl|]|].
  destruct (fltb hi v) eqn:E2; [by split; [|apply fleb_refl]|].
  split; by apply fltb_false.
Qed.

(** Clamping does not cross a value that is already within the bounds. *)
Lemma clamp_ge s v lo hi :
  fleb s v = true → fleb s hi = true → fleb lo hi = true → fleb s (clamp v lo hi) = true.
Proof.
  intros H1 H2 H3. unfold clamp.
  destruct (fltb v lo) eqn:E1; [by apply (fleb_trans _ _ _ H1), fltb_fleb|].
  by case_if.
Qed.

Lemma clamp_le s v lo hi :
  fleb v s = true → fleb lo s = true → fleb (clamp v lo hi) s = true.
Proof.
  intros H1 H2. unfold clamp. case_if; [done|].
  destruct (fltb hi v) eqn:E2; [|done]. apply fltb_fleb in E2. exact (fleb_trans _ _ _ E2 H1).
Qed.

Lemma of_int_finite_small n : (0 < n ≤ 60)%Z → real (of_int n) ∧ fltb fzero (of_int n) = true.
Proof.
  intros Hn. split; [split; [apply of_int_valid|]|].
  all: assert (Hall : forallb (λ k, is_finite (of_int (Z.of_nat k)) && fltb fzero (of_int (Z.of_nat k)))
                 (seq 1 60) = true) by by vm_compute.
  all: rewrite forallb_forall in Hall.
  all: specialize (Hall (Z.to_nat n)); rewrite Z2Nat.id in Hall by lia.
  all: rewrite in_seq in Hall; specialize (Hall ltac:(lia)); by guards.
Qed.

(** The change of the state of charge a power causes in one slot. *)
Lemma soc_delta cfg p :
  wf_config cfg → finite_config cfg → valid p → is_finite p = true → fleb fzero p = true →
  let delta := (p * of_int (cfg_SlotMinutes cfg) / of_int 60 / cfg_BatteryCapacityWh cfg)%f64 in
  valid delta ∧ is_nan delta = false ∧ fleb fzero delta = true.
Proof.
  intros Hw Hf Hv Hp H0.
  destruct (of_int_finite_small (cfg_SlotMinutes cfg)) as [[Vs Fs] Ps].
  { destruct (wf_slot _ Hw) as [? Hm]. split; [lia|]. apply Z.mod_divide in Hm; [|lia].
    by apply Z.divide_pos_le in Hm. }
  destruct (of_int_finite_small 60) as [[V60 F60] P60]; [lia|].
  destruct (fin_cap _ Hf) as [Vc Fc]. pose proof (wf_cap _ Hw) as Pc.
  assert (Hz : ∀ x, fltb fzero x = true → (x == fzero)%f64 = false) by by intros [[]|[]| |[]].
  cbv zeta.
  set (a := (p * of_int (cfg_SlotMinutes cfg))%f64).
  assert (Na : is_nan a = false) by (apply fmul_not_nan; auto; by destruct p).
  assert (Za : fleb fzero a = true) by (apply fmul_nonneg; auto; by apply fltb_fleb).
  assert (Nb : is_nan (a / of_int 60)%f64 = false) by (apply fdiv_not_nan; auto).
  assert (Zb : fleb fzero (a / of_int 60)%f64 = true) by (apply fdiv_nonneg; auto).
  assert (Nc : is_nan (a / of_int 60 / cfg_BatteryCapacityWh cfg)%f64 = false)
    by (apply fdiv_not_nan; auto).
  split_and!; [|done|by apply fdiv_nonneg].
  repeat apply fdiv_valid; auto. by apply fmul_valid.
Qed.

(** A mode and a power some step of the battery from [s] has. *)
Definition command_ok (cfg : Config) (s : float64) (mode : string) (p : float64) : Prop :=
  mode = "idle" ∧ p = fzero ∨
  (mode = "charge" ∧ fltb s (cfg_MaxSOC cfg) = true ∨
   mode = "discharge" ∧ fltb (cfg_MinSOC cfg) s = true) ∧
  fleb fzero p = true ∧ fleb p (cfg_BatteryPowerLimitW cfg) = true.

(** [nextSOC] implements one step of the battery. *)
Lemma nextSOC_step cfg s mode p :
  wf_config cfg → finite_config cfg → soc_ok cfg s → valid p →
  command_ok cfg s mode p →
  battery_step cfg s mode p (nextSOC s mode p cfg) ∧ soc_ok cfg (nextSOC s mode p cfg).
Proof.
  intros Hw Hf Hs Hv Hcase. pose proof (soc_ok_not_nan _ _ Hs) as Ns.
  destruct Hs as (Vs & Lo & Hi). pose proof (wf_soc _ Hw) as Hlh.
  destruct (fin_min _ Hf) as [Vm Fm]. destruct (fin_max _ Hf) as [VM FM].
  pose proof (between_finite _ _ _ Fm FM Lo Hi) as Fs.
  unfold nextSOC, soc_ok.
  destruct Hcase as [[-> ->]|(Hmode & P0 & Pl)].
  - simpl. assert (clamp s (cfg_MinSOC cfg) (cfg_MaxSOC cfg) = s) as ->.
    { unfold clamp. apply (fltb_false s) in Lo as ->; [|done|by destruct (cfg_MinSOC cfg)].
      apply (fltb_false (cfg_MaxSOC cfg)) in Hi as ->; [done|by destruct (cfg_MaxSOC cfg)|done]. }
    split; [constructor|done].
  - assert (Fp : is_finite p = true).
    { by apply (between_finite fzero p (cfg_BatteryPowerLimitW cfg)); [|apply Hf|..]. }
    destruct (soc_delta cfg p Hw Hf Hv Fp P0) as (Vd & Nd & Pd).
    set (delta := (_ / cfg_BatteryCapacityWh cfg)%f64) in *.
    destruct Hmode as [[-> Hlt]|[-> Hlt]]; simpl.
    + pose proof (fadd_not_nan _ _ Fs Nd) as Nx.
      pose proof (clamp_range _ _ _ Nx Hlh) as [C1 C2].
      pose proof (fadd_ge _ _ Vs Ns Pd Nx). split.
      * constructor; try done. by apply clamp_ge.
      * split_and!; try done. apply clamp_valid; try done. by apply fadd_valid.
    + pose proof (fsub_not_nan _ _ Fs Nd) as Nx.
      pose proof (clamp_range _ _ _ Nx Hlh) as [C1 C2].
      pose proof (fsub_le _ _ Vs Ns Pd Nx). split.
      * constructor; try done. by apply clamp_le.
      * split_and!; try done. apply clamp_valid; try done. by apply fsub_valid.
Qed.

Lemma math_Min_valid x y : valid x → valid y → valid (math_Min x y).
Proof. intros. unfold math_Min. repeat case_if; done. Qed.

Lemma math_Max_valid x y : valid x → valid y → valid (math_Max x y).
Proof. intros. unfold math_Max. repeat case_if; done. Qed.

(** The smaller of the limit and a positive power is a power within the limit. *)
Lemma min_target limit x :
  valid limit → fltb fzero limit = true → valid x → fltb fzero x = true →
  valid (math_Min limit x) ∧ fleb fzero (math_Min limit x) = true ∧
  fleb (math_Min limit x) limit = true.
Proof.
  intros Vl Pl Vx Px. pose proof (fltb_not_nan _ _ Pl) as [_ Nl].
  pose proof (fltb_not_nan _ _ Px) as [_ Nx]. split_and!.
  - by apply math_Min_valid.
  - destruct (math_Min_cases limit x Nl Nx) as [-> | ->]; by apply fltb_fleb.
  - by apply math_Min_le_l.
Qed.

(** A surplus of more than 10 W is positive after the subtraction. *)
Lemma surplus_pos pv load :
  valid pv → valid load → fltb (load + of_int 10)%f64 pv = true →
  fltb fzero (pv - load)%f64 = true.
Proof.
  intros Vp Vl Hgt. destruct load as [sl|sl| |sl ml el]; [| |done|].
  2: { destruct sl; [|by destruct pv as [|[]| |[]]]. by destruct pv as [|[]| |]. }
  all: apply fsub_pos; try done; eapply fleb_fltb_trans; [|exact Hgt].
  all: apply fadd_ge; try done; by apply fadd_not_nan.
Qed.

(** [choose] asks for a step the battery can make. *)
Lemma choose_step cfg pv load price low high s :
  wf_config cfg → finite_config cfg → valid pv → valid load →
  let '(mode, target, _) := choose cfg pv load price low high s in
  valid target ∧ command_ok cfg s mode target.
Proof.
  intros Hw Hf Vp Vl. destruct (fin_limit _ Hf) as [VL FL]. pose proof (wf_limit _ Hw) as PL.
  pose proof (min_target _ (pv - load)%f64 VL PL (fsub_valid _ _ Vp Vl)) as Hc.
  pose proof (min_target _ (load - pv)%f64 VL PL (fsub_valid _ _ Vl Vp)) as Hd.
  assert (Hself : fleb (cfg_BatteryPowerLimitW cfg) (cfg_BatteryPowerLimitW cfg) = true)
    by (apply fleb_refl; by destruct (cfg_BatteryPowerLimitW cfg)).
  unfold choose, command_ok. repeat case_if; guards.
  - destruct Hc as (? & ? & ?); [by apply surplus_pos|]. split; [done|]. right. by split; [left|].
  - apply fltb_fleb in PL. split; [done|]. right. by split; [left|].
  - destruct Hd as (? & ? & ?); [done|]. split; [done|]. right. by split; [right|].
  - destruct Hd as (? & ? & ?); [by apply (fltb_trans _ _ _ PL)|].
    split; [done|]. right. by split; [right|].
  - split; [done|by left].
Qed.

(** The forecasts are values of the type when [math.Sin] returns one. *)
Section Forecasts.
Context `{Location} `{MathSin}.
Context (sin_valid : ∀ x, valid x → valid (math_Sin x)).

Lemma forecastPV_valid t pv : valid pv → valid (forecastPV t pv).
Proof.
  intros Hv. unfold forecastPV. case_if; [done|]. apply fmul_valid; [done|].
  apply sin_valid, fmul_valid; [|done]. apply fdiv_valid; [|apply of_int_valid].
  apply fsub_valid; [|apply of_int_valid]. apply fadd_valid; [apply of_int_valid|].
  apply fdiv_valid; apply of_int_valid.
Qed.

Lemma forecastLoad_valid t load : valid load → valid (forecastLoad t load).
Proof. intros Hv. unfold forecastLoad. repeat case_if; by apply fmul_valid. Qed.
End Forecasts.

Section Planning.
Context `{Location} `{MathSin}.
Context (sin_valid : ∀ x, valid x → valid (math_Sin x)).

Lemma plan_slot_step cfg start pv load i s slot s' :
  wf_config cfg → finite_config cfg → valid pv → valid load → soc_ok cfg s →
  plan_slot cfg start pv load i s = Some (slot, s') →
  ∃ p, battery_step cfg s (sl_BatteryMode slot) p s' ∧ sl_TargetPowerW slot = round2 p ∧
    sl_ForecastSOC slot = round4 s' ∧ soc_ok cfg s'.
Proof.
  intros Hw Hf Vp Vl Hs. unfold plan_slot. cbv zeta.
  set (at_ := Add start (slot_offset cfg i)). intros Hp.
  apply bind_Some in Hp as (low & _ & Hp). apply bind_Some in Hp as (high & _ & Hp).
  pose proof (choose_step cfg (forecastPV at_ pv) (forecastLoad at_ load)
    (priceAt at_ (cfg_Tariffs cfg)) low high s Hw Hf
    (forecastPV_valid sin_valid _ _ Vp) (forecastLoad_valid _ _ Vl)) as Hc.
  destruct (choose _ _ _ _ _ _ _) as [[mode target] reason]. destruct Hc as [Vt Hc].
  injection Hp as <- <-. exists target. simpl.
  destruct (nextSOC_step cfg s mode target Hw Hf Hs Vt Hc). done.
Qed.

Lemma plan_loop_run cfg start pv load n i s slots :
  wf_config cfg → finite_config cfg → valid pv → valid load → soc_ok cfg s →
  plan_loop cfg start pv load n i s = Some slots → battery_run cfg s slots.
Proof.
  intros Hw Hf Vp Vl. revert i s slots. induction n as [|n IH]; simpl; intros i s slots Hs Hp.
  { injection Hp as <-. constructor. }
  apply bind_Some in Hp as ([slot s'] & Hslot & Hp).
  apply bind_Some in Hp as (rest & Hrest & Hp). injection Hp as <-.
  destruct (plan_slot_step _ _ _ _ _ _ _ _ Hw Hf Vp Vl Hs Hslot) as (p & ? & ? & ? & Hs').
  econstructor; eauto.
Qed.
End Planning.

Lemma initial_soc_ok cfg summary :
  wf_config cfg → finite_config cfg → real (sum_AvgSOC summary) →
  soc_ok cfg (initial_soc cfg summary).
Proof.
  intros Hw Hf Ha. unfold initial_soc.
  cbv zeta.
  set (s := if (sum_AvgSOC summary == fzero)%f64 then lit 5 10 else sum_AvgSOC summary).
  assert (Hs : real s) by (unfold s; by case_if).
  destruct (clamp_range s _ _ (real_not_nan _ Hs) (wf_soc _ Hw)).
  split_and!; try done. apply clamp_valid; [apply Hs|apply Hf..].
Qed.

Lemma plan_run `{Location} `{MathSin} now summary cfg plan :
  (∀ x, valid x → valid (math_Sin x)) →
  finite_config cfg → ValidateConfig cfg = None → real (sum_AvgSOC summary) →
  valid (sum_PVPowerW summary) → valid (sum_LoadPowerW summary) →
  BuildDayAheadPlan now summary cfg = Some plan →
  battery_run (pl_Config plan) (initial_soc (pl_Config plan) summary) (pl_Slots plan).
Proof.
  intros Hsin Hf Hv Ha Vp Vl Hb. unfold BuildDayAheadPlan in Hb.
  destruct (_ <? _)%Z; [done|]. apply bind_Some in Hb as (slots & Hb & [= <-]).
  apply normalizeConfig_finite in Hf as Hn.
  assert (Hw : wf_config (normalizeConfig cfg)) by by apply accepted_wf.
  eapply (plan_loop_run Hsin); [done|done| | |by apply initial_soc_ok|exact Hb].
  all: apply math_Max_valid; [done|apply of_int_valid].
Qed.

Lemma battery_run_Forall cfg s slots :
  battery_run cfg s slots →
  Forall (λ slot, ∃ s0 p s', battery_step cfg s0 (sl_BatteryMode slot) p s' ∧
    sl_TargetPowerW slot = round2 p ∧ sl_ForecastSOC slot = round4 s') slots.
Proof. induction 1; constructor; eauto 10. Qed.

(** ** The timetable of a plan *)

(** The longest horizon whose slots all start a representable duration away. *)
Definition max_horizon : Z := 2562047%Z.

Section Timetable.
Context `{Location} `{MathSin}.

Lemma plan_slot_some cfg start pv load i s :
  cfg_Tariffs cfg ≠ [] → is_Some (plan_slot cfg start pv load i s).
Proof.
  intros Ht. unfold plan_slot. destruct (cfg_Tariffs cfg) as [|b l]; [done|].
  simpl. destruct (choose _ _ _ _ _ _ _) as [[mode target] reason]. by eexists.
Qed.

Lemma plan_slot_times cfg start pv load i s slot s' :
  plan_slot cfg start pv load i s = Some (slot, s') →
  sl_StartAt slot = Add start (slot_offset cfg i) ∧
  sl_EndAt slot = Add (sl_StartAt slot) (slot_offset cfg 1).
Proof.
  unfold plan_slot. cbv zeta. intros Hp.
  apply bind_Some in Hp as (low & _ & Hp). apply bind_Some in Hp as (high & _ & Hp).
  destruct (choose _ _ _ _ _ _ _) as [[mode target] reason]. by injection Hp as <- <-.
Qed.

Lemma plan_loop_total cfg start pv load n i s :
  cfg_Tariffs cfg ≠ [] → is_Some (plan_loop cfg start pv load n i s).
Proof.
  intros Ht. revert i s. induction n as [|n IH]; intros i s; simpl; [by eexists|].
  destruct (plan_slot_some cfg start pv load i s Ht) as [[slot s'] ->]. simpl.
  destruct (IH (i + 1)%Z s') as [slots ->]. by eexists.
Qed.

Lemma plan_loop_times cfg start pv load n i s slots :
  plan_loop cfg start pv load n i s = Some slots →
  length slots = n ∧
  ∀ k slot, slots !! k = Some slot →
    sl_StartAt slot = Add start (slot_offset cfg (i + Z.of_nat k)) ∧
    sl_EndAt slot = Add (sl_StartAt slot) (slot_offset cfg 1).
Proof.
  revert i s slots. induction n as [|n IH]; simpl; intros i s slots Hp.
  { by injection Hp as <-. }
  apply bind_Some in Hp as ([slot s'] & Hslot & Hp).
  apply bind_Some in Hp as (rest & Hrest & Hp). injection Hp as <-.
  apply IH in Hrest as [Hlen Htimes]. split; [simpl; by rewrite Hlen|].
  intros [|k] sl Hk; simpl in Hk.
  - injection Hk as <-. rewrite Z.add_0_r. by eapply plan_slot_times.
  - apply Htimes in Hk. by replace (i + Z.of_nat (S k))%Z with (i + 1 + Z.of_nat k)%Z by lia.
Qed.
End Timetable.

Lemma slot_minutes_le cfg : wf_config cfg → (0 < cfg_SlotMinutes cfg ≤ 60)%Z.
Proof.
  intros Hw. destruct (wf_slot _ Hw) as [? Hm]. split; [done|].
  apply Z.mod_divide in Hm; [|lia]. by apply Z.divide_pos_le in Hm.
Qed.

(** The number of slots is that of the horizon, without wrapping around. *)
Lemma slot_count_exact cfg :
  wf_config cfg → (cfg_HorizonHours cfg ≤ max_int64 / 60)%Z →
  slot_count cfg = (cfg_HorizonHours cfg * 60 / cfg_SlotMinutes cfg)%Z ∧
  (slot_count cfg * cfg_SlotMinutes cfg = cfg_HorizonHours cfg * 60)%Z ∧ (0 < slot_count cfg)%Z.
Proof.
  intros Hw Hh. pose proof (slot_minutes_le _ Hw) as Hs. pose proof (wf_hours _ Hw) as Hh0.
  destruct (wf_slot _ Hw) as [_ Hm]. unfold slot_count.
  set (h := cfg_HorizonHours cfg) in *. set (m := cfg_SlotMinutes cfg) in *.
  unfold max_int64 in Hh.
  assert (Hh60 : (h * 60 < 2 ^ 63)%Z) by zlia.
  apply Z.mod_divide in Hm as [q Hq]; [|lia].
  assert (Hq0 : (0 < q)%Z) by nia.
  assert (Hdiv : (h * 60 / m = h * q)%Z).
  { rewrite Hq, Z.mul_assoc. apply Z.div_mul. lia. }
  assert (Hhq : (0 < h * q ≤ h * 60)%Z) by nia.
  rewrite (wrap64_id (h * 60)) by (unfold in_int64, min_int64, max_int64; lia).
  rewrite Z.quot_div_nonneg by lia. rewrite Hdiv.
  rewrite wrap64_id by (unfold in_int64, min_int64, max_int64; lia).
  rewrite (proj2 (Z.leb_gt _ _)) by lia. split_and!; [done|nia|lia].
Qed.

(** Within the bound, the [k]-th slot is offset by exactly [k] slot lengths. *)
Lemma slot_offset_exact cfg k :
  wf_config cfg → (0 ≤ k * cfg_SlotMinutes cfg ≤ max_horizon * 60)%Z →
  slot_offset cfg k = (k * (cfg_SlotMinutes cfg * Minute))%Z.
Proof.
  intros Hw Hk. unfold slot_offset, max_horizon in *.
  rewrite (wrap64_id (k * _)) by (unfold in_int64, min_int64, max_int64; lia).
  rewrite wrap64_id; [lia|]. unfold in_int64, min_int64, max_int64, Minute, Second. lia.
Qed.

(** The start of the plan and the wall times of its slots. *)
Lemma plan_timetable `{Location} `{MathSin} now summary cfg plan :
  wf_config (normalizeConfig cfg) → (cfg_HorizonHours (normalizeConfig cfg) ≤ max_horizon)%Z →
  BuildDayAheadPlan now summary cfg = Some plan →
  Z.of_nat (length (pl_Slots plan)) =
    (cfg_HorizonHours (pl_Config plan) * 60 / cfg_SlotMinutes (pl_Config plan))%Z ∧
  ∀ k slot, pl_Slots plan !! k = Some slot →
    t_mono (sl_StartAt slot) = None ∧ t_mono (sl_EndAt slot) = None ∧
    let len := (cfg_SlotMinutes (pl_Config plan) * Minute)%Z in
    t_wall (sl_StartAt slot) = (t_wall (Truncate now slotDuration) + Z.of_nat k * len)%Z ∧
    t_wall (sl_EndAt slot) = (t_wall (sl_StartAt slot) + len)%Z.
Proof.
  intros Hw Hh Hb. unfold BuildDayAheadPlan in Hb.
  destruct (_ <? _)%Z; [done|]. apply bind_Some in Hb as (slots & Hb & [= <-]).
  apply plan_loop_times in Hb as [Hlen Ht]. cbn [pl_Slots pl_Config].
  set (c := normalizeConfig cfg) in *. clearbody c.
  pose proof (slot_minutes_le _ Hw) as Hs.
  destruct (slot_count_exact _ Hw) as (Hc & Hcm & Hc0).
  { unfold max_horizon in Hh. etrans; [exact Hh|]. done. }
  split; [by rewrite Hlen, Z2Nat.id, Hc by lia|].
  intros k slot Hk. apply lookup_lt_Some in Hk as Hk'. apply Ht in Hk as [-> ->].
  assert (Hkb : (Z.of_nat k + 1 ≤ slot_count c)%Z) by lia.
  cbn [Add t_mono t_wall].
  rewrite !slot_offset_exact by (done || unfold max_horizon in *; nia).
  cbv zeta. split_and!; try done; lia.
Qed.

(** ** Finding the slot of an instant *)

(** Slots of [len] nanoseconds, one after the other from [start]. *)
Definition contiguous (start len : Z) (slots : list Slot) : Prop :=
  ∀ k slot, slots !! k = Some slot →
    t_mono (sl_StartAt slot) = None ∧ t_mono (sl_EndAt slot) = None ∧
    t_wall (sl_StartAt slot) = (start + Z.of_nat k * len)%Z ∧
    t_wall (sl_EndAt slot) = (t_wall (sl_StartAt slot) + len)%Z.

Lemma contiguous_tail start len slot slots :
  contiguous start len (slot :: slots) → contiguous (start + len) len slots.
Proof.
  intros Hc k sl Hk. destruct (Hc (S k) sl Hk) as (? & ? & ? & ?). split_and!; try done. lia.
Qed.

(** The wall clocks decide when one side has no monotonic reading. *)
Lemma on_clock_wall {A} (f : Z → Z → A) t u : t_mono u = None → on_clock f t u = f (t_wall t) (t_wall u).
Proof. unfold on_clock. intros ->. by destruct (t_mono t). Qed.

Lemma on_clock_wall' {A} (f : Z → Z → A) t u : t_mono t = None → on_clock f t u = f (t_wall t) (t_wall u).
Proof. unfold on_clock. by intros ->. Qed.

Lemma current_slot_contiguous at_ start len slots :
  (0 < len)%Z → contiguous start len slots →
  current_slot at_ slots =
    if (start <=? t_wall at_)%Z then slots !! Z.to_nat ((t_wall at_ - start) / len) else None.
Proof.
  intros Hlen. revert start. induction slots as [|slot slots IH]; intros start Hc; simpl.
  { by case_if. }
  destruct (Hc 0 slot eq_refl) as (Ms & Me & Ws & We).
  unfold Equal, Before, After, Before. rewrite (on_clock_wall _ at_ _ Ms), (on_clock_wall' _ _ at_ Ms), (on_clock_wall _ at_ _ Me), We, Ws.
  rewrite (IH _ (contiguous_tail _ _ _ _ Hc)).
  replace (start + Z.of_nat 0 * len)%Z with start by lia.
  destruct (Z.leb_spec start (t_wall at_)) as [Hge|Hlt].
  - replace ((_ =? _) || (start <? _))%Z%bool with true
      by (symmetry; apply orb_true_iff; rewrite Z.eqb_eq, Z.ltb_lt; lia).
    destruct (Z.ltb_spec (t_wall at_) (start + len)) as [Hin|Hout]; simpl.
    + rewrite Z.div_small by lia. done.
    + rewrite (proj2 (Z.leb_le _ _)) by lia.
      replace (t_wall at_ - start)%Z with ((t_wall at_ - (start + len)) + 1 * len)%Z by lia.
      rewrite Z.div_add by lia.
      pose proof (Z.div_pos (t_wall at_ - (start + len)) len ltac:(lia) Hlen).
      by rewrite Z2Nat.inj_add, Nat.add_1_r by lia.
  - replace ((_ =? _) || (start <? _))%Z%bool with false
      by (symmetry; apply orb_false_iff; rewrite Z.eqb_neq, Z.ltb_ge; lia).
    simpl. by rewrite (proj2 (Z.leb_gt _ _)) by lia.
Qed.

(** ** Prices *)

Section Extremes.
Context (l : list TariffBand) (Hl : Forall (λ b, real (tb_Price b)) l).

Lemma low_fold m :
  real m →
  let r := foldl (λ min band, if (tb_Price band <? min)%f64 then tb_Price band else min) m l in
  real r ∧ fleb r m = true ∧ Forall (λ b, fleb r (tb_Price b) = true) l.
Proof.
  revert m. induction Hl as [|b l' Hb Hl' IH]; intros m Hm; simpl.
  { split_and!; [done| |constructor]. by apply fleb_refl, real_not_nan. }
  apply real_not_nan in Hb as Nb. apply real_not_nan in Hm as Nm.
  destruct (tb_Price b <? m)%f64 eqn:E.
  - destruct (IH Hl' (tb_Price b) Hb) as (? & Hr & ?). split_and!; [done| |by constructor].
    by apply (fleb_trans _ _ _ Hr), fltb_fleb.
  - destruct (IH Hl' m Hm) as (? & Hr & ?). split_and!; [done|done|]. constructor; [|done].
    apply (fltb_false _ m Nb Nm) in E. by apply (fleb_trans _ _ _ Hr).
Qed.

Lemma high_fold m :
  real m →
  let r := foldl (λ max band, if (tb_Price band >? max)%f64 then tb_Price band else max) m l in
  real r ∧ fleb m r = true ∧ Forall (λ b, fleb (tb_Price b) r = true) l.
Proof.
  revert m. induction Hl as [|b l' Hb Hl' IH]; intros m Hm; simpl.
  { split_and!; [done| |constructor]. by apply fleb_refl, real_not_nan. }
  apply real_not_nan in Hb as Nb. apply real_not_nan in Hm as Nm.
  destruct (m <? tb_Price b)%f64 eqn:E.
  - destruct (IH Hl' (tb_Price b) Hb) as (? & Hr & ?). split_and!; [done| |by constructor].
    apply fltb_fleb in E. exact (fleb_trans _ _ _ E Hr).
  - destruct (IH Hl' m Hm) as (? & Hr & ?). split_and!; [done|done|]. constructor; [|done].
    apply (fltb_false m _ Nm Nb) in E. exact (fleb_trans _ _ _ E Hr).
Qed.
End Extremes.

Lemma lowPrice_spec l low :
  Forall (λ b, real (tb_Price b)) l → lowPrice l = Some low →
  ∀ b, b ∈ l → fleb low (tb_Price b) = true.
Proof.
  intros Hl. unfold lowPrice. destruct l as [|b0 l]; [done|]. intros [= <-].
  apply Forall_forall. eapply (low_fold (b0 :: l) Hl (tb_Price b0)). by inversion Hl.
Qed.

Lemma highPrice_spec l high :
  Forall (λ b, real (tb_Price b)) l → highPrice l = Some high →
  ∀ b, b ∈ l → fleb (tb_Price b) high = true.
Proof.
  intros Hl. unfold highPrice. destruct l as [|b0 l]; [done|]. intros [= <-].
  apply Forall_forall. eapply (high_fold (b0 :: l) Hl (tb_Price b0)). by inversion Hl.
Qed.

Lemma fold_pick (test : float64 → float64 → bool) l m :
  let r := foldl (λ m band, if test (tb_Price band) m then tb_Price band else m) m l in
  r = m ∨ ∃ b, b ∈ l ∧ r = tb_Price b.
Proof.
  revert m. induction l as [|b l IH]; intros m; simpl; [by left|].
  destruct (IH (if test (tb_Price b) m then tb_Price b else m)) as [-> | (c & Hc & ->)].
  - case_if; [right; exists b; split; [by left|done]|by left].
  - right. exists c. split; [by right|done].
Qed.

Lemma lowPrice_elem l low : lowPrice l = Some low → ∃ b, b ∈ l ∧ low = tb_Price b.
Proof.
  unfold lowPrice. destruct l as [|b0 l]; [done|]. intros [= Hl].
  destruct (fold_pick fltb (b0 :: l) (tb_Price b0)) as [Hr | (b & Hb & Hr)].
  - exists b0. split; [by left|]. exact (eq_trans (eq_sym Hl) Hr).
  - exists b. split; [done|]. exact (eq_trans (eq_sym Hl) Hr).
Qed.

Lemma highPrice_elem l high : highPrice l = Some high → ∃ b, b ∈ l ∧ high = tb_Price b.
Proof.
  unfold highPrice. destruct l as [|b0 l]; [done|]. intros [= Hl].
  destruct (fold_pick (λ p m, fltb m p) (b0 :: l) (tb_Price b0)) as [Hr | (b & Hb & Hr)].
  - exists b0. split; [by left|]. exact (eq_trans (eq_sym Hl) Hr).
  - exists b. split; [done|]. exact (eq_trans (eq_sym Hl) Hr).
Qed.

(** A tariff that is nowhere more expensive, or nowhere cheaper, than the
    others, and not the only one. *)
Definition cheapest (bands : list TariffBand) (price : float64) : Prop :=
  (∀ b, b ∈ bands → fleb price (tb_Price b) = true) ∧ ∃ b, b ∈ bands ∧ fltb price (tb_Price b) = true.
Definition dearest (bands : list TariffBand) (price : float64) : Prop :=
  (∀ b, b ∈ bands → fleb (tb_Price b) price = true) ∧ ∃ b, b ∈ bands ∧ fltb (tb_Price b) price = true.

(** What a slot's reason tells about its price and its command. *)
Definition reason_ok (bands : list TariffBand) (slot : Slot) : Prop :=
  (sl_Reason slot = "low tariff" →
    sl_BatteryMode slot = "charge" ∧ cheapest bands (sl_ExpectedPrice slot)) ∧
  (sl_Reason slot = "peak tariff and load deficit" →
    sl_BatteryMode slot = "discharge" ∧ dearest bands (sl_ExpectedPrice slot)).

Section Reasons.
Context `{Location} `{MathSin}.

Lemma plan_slot_reason cfg start pv load i s slot s' :
  finite_config cfg → plan_slot cfg start pv load i s = Some (slot, s') →
  reason_ok (cfg_Tariffs cfg) slot.
Proof.
  intros Hf. unfold plan_slot. cbv zeta. intros Hp.
  apply bind_Some in Hp as (low & Hlow & Hp). apply bind_Some in Hp as (high & Hhigh & Hp).
  pose proof (lowPrice_spec _ _ (fin_prices _ Hf) Hlow) as Hmin.
  pose proof (highPrice_spec _ _ (fin_prices _ Hf) Hhigh) as Hmax.
  destruct (lowPrice_elem _ _ Hlow) as (bl & Hbl & El).
  destruct (highPrice_elem _ _ Hhigh) as (bh & Hbh & Eh).
  revert Hp. unfold choose. repeat case_if; intros [= <- <-].
  all: split; simpl; intros Hr; try discriminate Hr; split; try done; guards.
  - split; [intros b Hb; by apply (fleb_trans _ low), Hmin|].
    exists bh. split; [done|]. rewrite <- Eh. by apply (fleb_fltb_trans _ low).
  - split; [intros b Hb; apply (fleb_trans _ high); [by apply Hmax|done]|].
    exists bl. split; [done|]. rewrite <- El. by apply (fltb_fleb_trans _ high).
Qed.

(** What holds of each slot [plan_slot] makes holds of all slots of the plan. *)
Lemma plan_loop_Forall (P : Slot → Prop) cfg start pv load n i s slots :
  (∀ i s slot s', plan_slot cfg start pv load i s = Some (slot, s') → P slot) →
  plan_loop cfg start pv load n i s = Some slots → Forall P slots.
Proof.
  intros HP. revert i s slots. induction n as [|n IH]; simpl; intros i s slots Hl.
  { injection Hl as <-. constructor. }
  apply bind_Some in Hl as ([slot s'] & Hslot & Hl).
  apply bind_Some in Hl as (rest & Hrest & Hl). injection Hl as <-.
  constructor; [by eapply HP|by eapply IH].
Qed.
End Reasons.

(** The slot of the present instant exists in every accepted plan. *)
Lemma slots_contiguous `{Location} `{MathSin} now summary cfg plan :
  wf_config (normalizeConfig cfg) → (cfg_HorizonHours (normalizeConfig cfg) ≤ max_horizon)%Z →
  BuildDayAheadPlan now summary cfg = Some plan →
  contiguous (t_wall (Truncate now slotDuration)) (cfg_SlotMinutes (pl_Config plan) * Minute)
    (pl_Slots plan).
Proof. intros Hw Hh Hb k slot Hk. by eapply plan_timetable. Qed.

Lemma plan_config `{Location} `{MathSin} now summary cfg plan :
  BuildDayAheadPlan now summary cfg = Some plan →
  pl_Config plan = normalizeConfig cfg ∧ pl_SiteID plan = sum_SiteID summary ∧
  pl_GeneratedAt plan = now.
Proof.
  unfold BuildDayAheadPlan. destruct (_ <? _)%Z; [done|].
  intros (slots & _ & [= <-])%bind_Some. done.
Qed.

(** The slots of an accepted plan tile its horizon. *)
Lemma CurrentSlot_lookup `{Location} `{MathSin} now summary cfg plan (at_ : Time) :
  finite_config cfg → ValidateConfig cfg = None →
  (cfg_HorizonHours (normalizeConfig cfg) ≤ max_horizon)%Z →
  BuildDayAheadPlan now summary cfg = Some plan →
  let start := t_wall (Truncate now slotDuration) in
  let len := (cfg_SlotMinutes (pl_Config plan) * Minute)%Z in
  (Z.of_nat (length (pl_Slots plan)) * len = cfg_HorizonHours (pl_Config plan) * Hour_)%Z ∧
  CurrentSlot plan at_ =
    if (start <=? t_wall at_)%Z
    then pl_Slots plan !! Z.to_nat ((t_wall at_ - start) / len) else None.
Proof.
  intros Hf Hv Hh Hb start len. pose proof (accepted_wf _ Hf Hv) as Hw.
  destruct (plan_config _ _ _ _ Hb) as [Hc _].
  destruct (plan_timetable _ _ _ _ Hw Hh Hb) as [Hlen _].
  pose proof (slots_contiguous _ _ _ _ Hw Hh Hb) as Hcont.
  pose proof (slot_minutes_le _ Hw) as Hs.
  destruct (slot_count_exact _ Hw) as (Hcount & Hcm & _).
  { etrans; [exact Hh|]. done. }
  split.
  - rewrite Hlen, Hc in *. unfold len, Hour_. rewrite Hc. rewrite <- Hcount. nia.
  - apply current_slot_contiguous; [|exact Hcont]. unfold len. rewrite Hc.
    unfold Minute, Second. lia.
Qed.

(** In particular the present instant is covered. *)
Lemma CurrentSlot_now `{Location} `{MathSin} now summary cfg plan :
  finite_config cfg → ValidateConfig cfg = None →
  (cfg_HorizonHours (normalizeConfig cfg) ≤ max_horizon)%Z →
  BuildDayAheadPlan now summary cfg = Some plan →
  ∃ slot, CurrentSlot plan now = Some slot ∧ slot ∈ pl_Slots plan.
Proof.
  intros Hf Hv Hh Hb. pose proof (accepted_wf _ Hf Hv) as Hw.
  destruct (CurrentSlot_lookup _ _ _ _ now Hf Hv Hh Hb) as [Hlen ->].
  destruct (plan_config _ _ _ _ Hb) as [Hc _].
  destruct (Truncate_spec now slotDuration) as [[? ?] _]; [done|].
  rewrite (proj2 (Z.leb_le _ _)) by done.
  set (d := (t_wall now - t_wall (Truncate now slotDuration))%Z).
  set (len := (cfg_SlotMinutes (pl_Config plan) * Minute)%Z) in *.
  pose proof (slot_minutes_le _ Hw) as Hs. pose proof (wf_hours _ Hw) as Hh0.
  rewrite <- Hc in Hs, Hh0.
  assert (Hlen0 : (0 < len)%Z) by (unfold len, Minute, Second; lia).
  assert (Hd : (0 ≤ d < Z.of_nat (length (pl_Slots plan)) * len)%Z).
  { rewrite Hlen. unfold d, Hour_, slotDuration, Minute, Second in *. lia. }
  destruct (lookup_lt_is_Some_2 (pl_Slots plan) (Z.to_nat (d / len))) as [slot Hslot].
  { pose proof (Z.div_pos d len ltac:(lia) Hlen0).
    pose proof (Z.div_lt_upper_bound d len (Z.of_nat (length (pl_Slots plan))) Hlen0). nia. }
  exists slot. split; [done|]. by eapply list_elem_of_lookup_2.
Qed.

(** C1: Every plan is a run of the battery: from the present state of charge,
    clamped to the configured bounds, each slot holds, charges or discharges
    within the power limit; it charges only below the upper bound and
    discharges only above the lower one; and the state of charge it forecasts
    moves in the commanded direction without leaving the bounds. *)
Theorem plan_refines_battery `{Location} `{MathSin} now summary cfg plan :
  (∀ x, valid x → valid (math_Sin x)) →
  finite_config cfg → ValidateConfig cfg = None → real (sum_AvgSOC summary) →
  valid (sum_PVPowerW summary) → valid (sum_LoadPowerW summary) →
  BuildDayAheadPlan now summary cfg = Some plan →
  battery_run (pl_Config plan) (initial_soc (pl_Config plan) summary) (pl_Slots plan).
Proof. apply plan_run. Qed.

(** C10: Looking up an instant in an accepted plan finds exactly the slot it falls
    in: the slots tile the horizon from the last quarter of an hour on, one
    every [slot_minutes], and outside of the horizon there is none. *)
Theorem CurrentSlot_exact `{Location} `{MathSin} now summary cfg plan (at_ : Time) :
  finite_config cfg → ValidateConfig cfg = None →
  (cfg_HorizonHours (normalizeConfig cfg) ≤ max_horizon)%Z →
  BuildDayAheadPlan now summary cfg = Some plan →
  let start := t_wall (Truncate now slotDuration) in
  let len := (cfg_SlotMinutes (pl_Config plan) * Minute)%Z in
  (Z.of_nat (length (pl_Slots plan)) * len = cfg_HorizonHours (pl_Config plan) * Hour_)%Z ∧
  CurrentSlot plan at_ =
    if (start <=? t_wall at_)%Z
    then pl_Slots plan !! Z.to_nat ((t_wall at_ - start) / len) else None.
Proof. apply CurrentSlot_lookup. Qed.

(** The planner never fails on an accepted configuration of up to 2^41 slots:
    it returns a plan of the site with exactly that many slots.  Beyond, the
    allocation panics. *)
Lemma plan_total `{Location} `{MathSin} now summary cfg :
  finite_config cfg → ValidateConfig cfg = None →
  match BuildDayAheadPlan now summary cfg with
  | Some plan =>
      (slot_count (normalizeConfig cfg) ≤ max_slots)%Z ∧ pl_SiteID plan = sum_SiteID summary ∧
      length (pl_Slots plan) = Z.to_nat (slot_count (normalizeConfig cfg))
  | None => (max_slots < slot_count (normalizeConfig cfg))%Z
  end.
Proof.
  intros Hf Hv. pose proof (accepted_wf _ Hf Hv) as Hw. unfold BuildDayAheadPlan. cbv zeta.
  destruct (Z.ltb_spec max_slots (slot_count (normalizeConfig cfg))) as [Hgt|Hle]; [done|].
  destruct (plan_loop_total (normalizeConfig cfg) (Truncate now slotDuration)
    (math_Max (sum_PVPowerW summary) (of_int 20)) (math_Max (sum_LoadPowerW summary) (of_int 30))
    (Z.to_nat (slot_count (normalizeConfig cfg))) 0
    (initial_soc (normalizeConfig cfg) summary) (proj1 (wf_tariffs _ Hw))) as [slots Hl].
  apply plan_loop_times in Hl as Ht. rewrite Hl. split_and!; [done..|]. apply Ht.
Qed.

(** Tariff arbitrage only happens at the extremes: a slot charged for its low
    tariff has a price no band undercuts and some band exceeds, a slot
    discharged for its peak tariff a price no band exceeds and some band
    undercuts; with a single price neither reason occurs. *)
Lemma plan_arbitrage `{Location} `{MathSin} now summary cfg plan :
  finite_config cfg → BuildDayAheadPlan now summary cfg = Some plan →
  Forall (reason_ok (cfg_Tariffs (pl_Config plan))) (pl_Slots plan).
Proof.
  intros Hf Hb. apply normalizeConfig_finite in Hf as Hn. unfold BuildDayAheadPlan in Hb.
  destruct (_ <? _)%Z; [done|]. apply bind_Some in Hb as (slots & Hb & [= <-]).
  eapply plan_loop_Forall; [|exact Hb]. intros i s slot s'. by apply plan_slot_reason.
Qed.

(** C11: [ValidateConfig] is exactly the gate the planner needs: a configuration
    with finite numbers is accepted if and only if its own bounds are ordered
    and what [normalizeConfig] makes of it is well formed. *)
Theorem ValidateConfig_spec cfg :
  finite_config cfg →
  ValidateConfig cfg = None ↔
    fleb (cfg_MinSOC cfg) (cfg_MaxSOC cfg) = true ∧ wf_config (normalizeConfig cfg).
Proof. apply accepted_iff. Qed.

(** An accepted configuration can still stop the planner: the horizon has no
    upper bound, and one of 2^50 hours asks for more slots than any slice
    holds, whatever the site's state. *)
Lemma accepted_horizon_panics `{Location} `{MathSin} :
  ∃ cfg, finite_config cfg ∧ ValidateConfig cfg = None ∧
    ∀ now summary, BuildDayAheadPlan now summary cfg = None.
Proof.
  exists (MkConfig (2 ^ 50) 0 fzero fzero fzero fzero [] false false).
  split; [split; try (by vm_compute); constructor|]. split; [by vm_compute|].
  intros now summary. unfold BuildDayAheadPlan.
  by replace (max_slots <? _)%Z with true by by vm_compute.
Qed.

(** A lower bound alone is refused: the defaults are filled in only after the
    configured bounds are compared, so a positive [min_soc] without [max_soc]
    fails although 0.90 would be its upper bound. *)
Lemma min_soc_alone_rejected cfg :
  real (cfg_MinSOC cfg) → fltb fzero (cfg_MinSOC cfg) = true → fleb (cfg_MinSOC cfg) one = true →
  cfg_MaxSOC cfg = fzero →
  (0 ≤ cfg_HorizonHours cfg)%Z → cfg_SlotMinutes cfg = 0%Z →
  cfg_BatteryCapacityWh cfg = fzero → cfg_BatteryPowerLimitW cfg = fzero →
  ValidateConfig cfg = Some "min_soc must be <= max_soc".
Proof.
  intros Hr Hp Hle HM Hh Hs Hc Hl. unfold ValidateConfig. rewrite Hs, Hc, Hl, HM.
  rewrite (proj2 (Z.ltb_ge _ _) Hh). simpl.
  apply real_not_nan in Hr as Hn.
  replace (fltb (cfg_MinSOC cfg) fzero) with false
    by (symmetry; apply fltb_false; [done|done|by apply fltb_fleb]).
  replace (fltb one (cfg_MinSOC cfg)) with false by (symmetry; by apply fltb_false).
  by rewrite Hp.
Qed.

(** ** The theorems at a concrete site *)

(** A constant sine, 8 o'clock on January 1, 2024, and a site with a battery. *)
Definition ex_sin : MathSin := λ _, lit 5 10.
Definition ex_now : Time := MkTime ((unix_epoch + 1704096123) * Second)%Z (Some 5%Z).
Definition ex_summary : SiteSummary :=
  MkSiteSummary "site-a" (of_int 80) (of_int 40) fzero (of_int 20) (lit 6 10) zero_time.
Definition ex_cfg : Config :=
  MkConfig 2 30 fzero fzero (lit 2 10) (lit 8 10)
    [MkTariffBand "night" 0 8 (lit 3 10); MkTariffBand "day" 8 24 (lit 9 10)] true true.
Definition ex_plan : Plan :=
  match @BuildDayAheadPlan UTC ex_sin ex_now ex_summary ex_cfg with
  | Some plan => plan
  | None => MkPlan zero_time "" DefaultConfig []
  end.

Lemma ex_cfg_finite : finite_config ex_cfg.
Proof. split; try (by vm_compute). all: repeat (constructor; try by vm_compute). Qed.

Lemma ex_sin_valid x : valid x → valid (@math_Sin ex_sin x).
Proof. intros _. by vm_compute. Qed.

Lemma plan_refines_battery_witness :
  battery_run (pl_Config ex_plan) (initial_soc (pl_Config ex_plan) ex_summary) (pl_Slots ex_plan).
Proof.
  apply (@plan_refines_battery UTC ex_sin ex_now ex_summary ex_cfg ex_plan).
  - exact ex_sin_valid.
  - exact ex_cfg_finite.
  - by vm_compute.
  - by vm_compute.
  - by vm_compute.
  - by vm_compute.
  - by vm_compute.
Defined.

Lemma CurrentSlot_exact_witness :
  CurrentSlot ex_plan ex_now = head (pl_Slots ex_plan) ∧ length (pl_Slots ex_plan) = 4.
Proof.
  destruct (@CurrentSlot_exact UTC ex_sin ex_now ex_summary ex_cfg ex_plan ex_now) as [_ ->].
  - exact ex_cfg_finite.
  - by vm_compute.
  - by vm_compute.
  - by vm_compute.
  - split; by vm_compute.
Defined.

Lemma ValidateConfig_spec_witness : wf_config (normalizeConfig ex_cfg).
Proof. apply (ValidateConfig_spec ex_cfg ex_cfg_finite). by vm_compute. Defined.

