(* ===== verification/Dispatch.v ===== *)
(** * internal/dispatch: tracking the plan with one command

    [BuildPreview] compares the site with the active slot of a fresh plan and
    proposes a battery command; [DecideApply] decides whether it may be sent.
    [None] is the panic of the planner. *)
From Stdlib Require Import Floats.SpecFloat.
From S2P Require Import Prelude Float64 FloatFacts GoTime GoStrings Model Optimizer.

(** ** Data *)

Record Preview := MkPreview {
  pv_GeneratedAt : Time;
  pv_SiteID : string;
  pv_Summary : SiteSummary;
  pv_Slot : Slot;
  pv_TrackingErrorW : float64;
  pv_CandidateDeviceID : string;
  pv_CandidateCommand : option Command;
  pv_SafeToApply : bool;
  pv_Reason : string;
  pv_Plan : Plan
}.

Record ApplyRequest := MkApplyRequest {
  req_Confirm : bool;
  req_MaxAbsTrackingErrorW : float64;
  req_Config : Config
}.

Record ApplyDecision := MkApplyDecision {
  dec_CanApply : bool;
  dec_Reason : string;
  dec_Preview : Preview
}.

(** ** Operations *)

Definition zero_slot : Slot :=
  MkSlot zero_time zero_time "" fzero fzero fzero fzero fzero fzero "".

Fixpoint firstDevice (devices : list Device) (siteID : string) (typ : DeviceType) : option Device :=
  match devices with
  | [] => None
  | d :: devices' =>
      if bool_decide (dev_SiteID d = siteID) && bool_decide (dev_Type d = typ)
      then Some d else firstDevice devices' siteID typ
  end.

Definition batteryCommandMode (planMode : string) : string :=
  if decide (planMode = "charge") then "charging"
  else if decide (planMode = "discharge") then "discharging"
  else if decide (planMode = "idle") then "idle"
  else "".

(** The recursive call is on the negation of a negative value, which is not
    negative: the second level takes the other branch. *)
Definition round2 (v : float64) : float64 :=
  let round (v : float64) := (of_int (to_int (v * of_int 100 + lit 5 10)) / of_int 100)%f64 in
  if (v <? fzero)%f64 then fneg (round (fneg v)) else round v.

Definition BuildPreview `{Location} `{MathSin} (now : Time) (summary : SiteSummary)
    (devices : list Device) (cfg : Config) : option Preview :=
  plan ← BuildDayAheadPlan now summary cfg;
  Some (
    let preview slot err device command reason :=
      MkPreview now (sum_SiteID summary) summary slot err device command false reason plan in
    match CurrentSlot plan now with
    | None => preview zero_slot fzero "" None "no active plan slot"
    | Some slot =>
        let err := round2 (sum_NetPowerW summary - sl_NetLoadW slot)%f64 in
        if bool_decide (sl_BatteryMode slot = "idle") || (sl_TargetPowerW slot == fzero)%f64
        then preview slot err "" None "active slot does not require battery action"
        else match firstDevice devices (sum_SiteID summary) DeviceBattery with
        | None => preview slot err "" None "no battery device registered"
        | Some battery =>
            let mode := batteryCommandMode (sl_BatteryMode slot) in
            if decide (mode = "")
            then preview slot err (dev_ID battery) None "active slot has unsupported battery mode"
            else
              let cmd := MkCommand
                (dev_ID battery +:+ "-preview-" +:+ pretty (UnixNano now)) "set_mode"
                (<["mode" := JStr mode]> (<["target_power_w" := JNum (sl_TargetPowerW slot)]> ∅))
                (Unix now) ("day-ahead plan tracking preview: " +:+ sl_Reason slot) in
              preview slot err (dev_ID battery) (Some cmd)
                "candidate command generated from active plan slot"
        end
    end).

Definition DecideApply (preview : Preview) (req : ApplyRequest) : ApplyDecision :=
  if negb (req_Confirm req) then MkApplyDecision false "confirm must be true" preview else
  if negb (bool_decide (is_Some (pv_CandidateCommand preview))) ||
     bool_decide (pv_CandidateDeviceID preview = "")
  then MkApplyDecision false "no candidate command" preview else
  let maxErr := req_MaxAbsTrackingErrorW req in
  let maxErr := if (maxErr == fzero)%f64 then of_int 100 else maxErr in
  if (math_Abs (pv_TrackingErrorW preview) >? maxErr)%f64
  then MkApplyDecision false
    ("tracking error " +:+ fmt_fixed 2 (pv_TrackingErrorW preview) +:+
     "W exceeds limit " +:+ fmt_fixed 2 maxErr +:+ "W") preview
  else MkApplyDecision true "confirmed and within tracking error limit" preview.

(** ** Lemmas *)

Lemma firstDevice_Some devices siteID typ d :
  firstDevice devices siteID typ = Some d →
  d ∈ devices ∧ dev_SiteID d = siteID ∧ dev_Type d = typ.
Proof.
  induction devices as [|x l IH]; simpl; [done|].
  destruct (_ && _) eqn:E.
  - intros [= ->]. rewrite andb_true_iff, !bool_decide_eq_true in E.
    split; [by left|done].
  - intros Hd. destruct (IH Hd). split; [by right|done].
Qed.

Lemma firstDevice_None devices siteID typ :
  firstDevice devices siteID typ = None ↔
  ∀ d, d ∈ devices → dev_SiteID d = siteID → dev_Type d ≠ typ.
Proof.
  induction devices as [|x l IH]; simpl.
  { split; [|done]. intros _ d Hd. by apply not_elem_of_nil in Hd. }
  destruct (_ && _) eqn:E.
  - rewrite andb_true_iff, !bool_decide_eq_true in E. split; [done|].
    intros Hall. destruct (Hall x) as []; try apply E. by left.
  - rewrite andb_false_iff, !bool_decide_eq_false in E. rewrite IH. split.
    + intros Hall d [->|Hd]%elem_of_cons; [tauto|by apply Hall].
    + intros Hall d Hd. apply Hall. by right.
Qed.

(** The slot a preview of an accepted configuration is about is a step of the
    battery the plan drives. *)
Lemma preview_slot `{Location} `{MathSin} now summary cfg plan :
  (∀ x, valid x → valid (math_Sin x)) →
  finite_config cfg → ValidateConfig cfg = None →
  (cfg_HorizonHours (normalizeConfig cfg) ≤ max_horizon)%Z →
  real (sum_AvgSOC summary) → valid (sum_PVPowerW summary) → valid (sum_LoadPowerW summary) →
  BuildDayAheadPlan now summary cfg = Some plan →
  ∃ slot s0 p s', CurrentSlot plan now = Some slot ∧
    battery_step (normalizeConfig cfg) s0 (sl_BatteryMode slot) p s' ∧
    sl_TargetPowerW slot = Optimizer.round2 p.
Proof.
  intros Hsin Hf Hv Hh Ha Vp Vl Hb.
  destruct (CurrentSlot_now _ _ _ _ Hf Hv Hh Hb) as (slot & Hslot & Hin).
  pose proof (battery_run_Forall _ _ _ (plan_run _ _ _ _ Hsin Hf Hv Ha Vp Vl Hb)) as Hall.
  rewrite Forall_forall in Hall. destruct (Hall _ Hin) as (s0 & p & s' & Hstep & Ht & _).
  destruct (plan_config _ _ _ _ Hb) as [Hc _]. rewrite Hc in Hstep. by exists slot, s0, p, s'.
Qed.

(** [round2] is total: whatever it is given, NaN and infinities included, it
    returns a number. *)
Lemma round2_not_nan v : is_nan (round2 v) = false.
Proof.
  assert (Hr : ∀ v, is_nan (of_int (to_int (v * of_int 100 + lit 5 10)) / of_int 100)%f64 = false).
  { intros u. apply fdiv_not_nan; [apply of_int_not_nan|by vm_compute..]. }
  unfold round2. case_if; [by rewrite fneg_not_nan|done].
Qed.

Lemma math_Abs_not_nan x : is_nan (math_Abs x) = is_nan x.
Proof. by destruct x. Qed.

(** The error of a preview is rounded, or zero. *)
Lemma preview_error `{Location} `{MathSin} now summary devices cfg pv :
  BuildPreview now summary devices cfg = Some pv → is_nan (pv_TrackingErrorW pv) = false.
Proof.
  unfold BuildPreview. intros (plan & _ & [= <-])%bind_Some.
  destruct (CurrentSlot plan now); [|done].
  destruct (_ || _); [apply round2_not_nan|]. destruct (firstDevice _ _ _); [|apply round2_not_nan].
  destruct (decide _); apply round2_not_nan.
Qed.

(** *** The candidate of a dispatch *)

Lemma batteryCommandMode_cases m :
  batteryCommandMode m ≠ "" → m ≠ "idle" →
  batteryCommandMode m = "charging" ∨ batteryCommandMode m = "discharging".
Proof.
  unfold batteryCommandMode. repeat case_decide; try done; [by left|by right].
Qed.

Lemma preview_candidate `{Location} `{MathSin} now summary devices cfg pv cmd :
  BuildPreview now summary devices cfg = Some pv → pv_CandidateCommand pv = Some cmd →
  (∃ d, d ∈ devices ∧ dev_SiteID d = sum_SiteID summary ∧ dev_Type d = DeviceBattery ∧
    dev_ID d = pv_CandidateDeviceID pv) ∧
  cmd_Action cmd = "set_mode" ∧
  ∃ mode, cmd_Params cmd !! "mode" = Some (JStr mode) ∧ (mode = "charging" ∨ mode = "discharging").
Proof.
  unfold BuildPreview. intros (plan & _ & [= <-])%bind_Some.
  destruct (CurrentSlot plan now) as [slot|]; [|done]. destruct (_ || _) eqn:Eidle; [done|].
  destruct (firstDevice _ _ _) as [d|] eqn:Ed; [|done]. apply firstDevice_Some in Ed as (? & ? & ?).
  destruct (decide _) as [|Hmode]; [done|]. intros [= <-]. simpl.
  apply orb_false_iff in Eidle as [Ei _]. apply bool_decide_eq_false in Ei.
  split; [by exists d|]. split; [done|]. eexists. split; [apply lookup_insert_eq|].
  by apply batteryCommandMode_cases.
Qed.

(** ** Properties *)

(** C9: A candidate command is one the plan's battery can follow: it addresses a
    registered battery of the site, sets the mode of the slot the present
    instant falls in, which is a charge or a discharge allowed by the bounds
    and the power limit, with that slot's power; and it is never marked safe to
    apply by itself. *)
Theorem preview_command_safe `{Location} `{MathSin} now summary devices cfg pv cmd :
  (∀ x, valid x → valid (math_Sin x)) →
  finite_config cfg → ValidateConfig cfg = None →
  (cfg_HorizonHours (normalizeConfig cfg) ≤ max_horizon)%Z →
  real (sum_AvgSOC summary) → valid (sum_PVPowerW summary) → valid (sum_LoadPowerW summary) →
  BuildPreview now summary devices cfg = Some pv → pv_CandidateCommand pv = Some cmd →
  CurrentSlot (pv_Plan pv) now = Some (pv_Slot pv) ∧ pv_SafeToApply pv = false ∧
  (∃ d, d ∈ devices ∧ dev_SiteID d = sum_SiteID summary ∧ dev_Type d = DeviceBattery ∧
    dev_ID d = pv_CandidateDeviceID pv) ∧
  ∃ s0 p s', battery_step (normalizeConfig cfg) s0 (sl_BatteryMode (pv_Slot pv)) p s' ∧
    (Optimizer.round2 p == fzero)%f64 = false ∧
    cmd_Action cmd = "set_mode" ∧
    cmd_Params cmd !! "target_power_w" = Some (JNum (Optimizer.round2 p)) ∧
    (sl_BatteryMode (pv_Slot pv) = "charge" ∧ cmd_Params cmd !! "mode" = Some (JStr "charging") ∨
     sl_BatteryMode (pv_Slot pv) = "discharge" ∧
     cmd_Params cmd !! "mode" = Some (JStr "discharging")).
Proof.
  intros Hsin Hf Hv Hh Ha Vp Vl Hb Hcmd. unfold BuildPreview in Hb.
  apply bind_Some in Hb as (plan & Hplan & [= <-]).
  destruct (preview_slot _ _ _ _ Hsin Hf Hv Hh Ha Vp Vl Hplan) as (slot & s0 & p & s' & Hs & Hst & Ht).
  revert Hcmd. rewrite Hs.
  destruct (_ || _) eqn:Eidle; [done|].
  destruct (firstDevice _ _ _) as [d|] eqn:Ed; [|done]. apply firstDevice_Some in Ed as (? & ? & ?).
  destruct (decide _) as [|Hmode]; [done|]. intros [= <-]. simpl.
  apply orb_false_iff in Eidle as [Ei Et]. apply bool_decide_eq_false in Ei. rewrite Ht in Et |- *.
  split_and!; [done|done|by exists d|]. exists s0, p, s'. split_and!; try done.
  inversion Hst as [Hm|? ? ? ? ? ? ? Hm|? ? ? ? ? ? ? Hm]; [congruence|left|right]; done.
Qed.

(** A preview of an accepted configuration proposes a command exactly when the
    active slot asks for battery power and the site has a battery, and says
    which of the two is missing otherwise: the branches for a missing slot and
    for an unknown mode are never taken. *)
Lemma preview_outcome `{Location} `{MathSin} now summary devices cfg pv :
  (∀ x, valid x → valid (math_Sin x)) →
  finite_config cfg → ValidateConfig cfg = None →
  (cfg_HorizonHours (normalizeConfig cfg) ≤ max_horizon)%Z →
  real (sum_AvgSOC summary) → valid (sum_PVPowerW summary) → valid (sum_LoadPowerW summary) →
  BuildPreview now summary devices cfg = Some pv →
  let needed := sl_BatteryMode (pv_Slot pv) ≠ "idle" ∧
                (sl_TargetPowerW (pv_Slot pv) == fzero)%f64 = false in
  let has_battery := ∃ d, d ∈ devices ∧ dev_SiteID d = sum_SiteID summary ∧
                          dev_Type d = DeviceBattery in
  (is_Some (pv_CandidateCommand pv) ↔ needed ∧ has_battery) ∧
  (pv_Reason pv = "candidate command generated from active plan slot" ∧ needed ∧ has_battery ∨
   pv_Reason pv = "active slot does not require battery action" ∧ ¬ needed ∨
   pv_Reason pv = "no battery device registered" ∧ needed ∧ ¬ has_battery).
Proof.
  intros Hsin Hf Hv Hh Ha Vp Vl Hb. unfold BuildPreview in Hb.
  apply bind_Some in Hb as (plan & Hplan & [= <-]).
  destruct (preview_slot _ _ _ _ Hsin Hf Hv Hh Ha Vp Vl Hplan) as (slot & s0 & p & s' & Hs & Hst & Ht).
  rewrite Hs. destruct (_ || _) eqn:Eidle; simpl.
  - rewrite orb_true_iff, bool_decide_eq_true in Eidle.
    assert (¬ (sl_BatteryMode slot ≠ "idle" ∧ (sl_TargetPowerW slot == fzero)%f64 = false))
      by (intros []; destruct Eidle; congruence).
    split; [|by right; left]. split; [by intros []|tauto].
  - apply orb_false_iff in Eidle as [Ei Et]. apply bool_decide_eq_false in Ei.
    destruct (firstDevice _ _ _) as [d|] eqn:Ed; simpl.
    + apply firstDevice_Some in Ed as (? & ? & ?).
      rewrite decide_False by (inversion Hst; subst; done). simpl.
      split; [|by left; eauto 10]. split; [by eauto 10|by eexists].
    + rewrite firstDevice_None in Ed.
      assert (¬ ∃ d, d ∈ devices ∧ dev_SiteID d = sum_SiteID summary ∧ dev_Type d = DeviceBattery)
        by (intros (d & Hd & Hsite & Htyp); by apply (Ed d)).
      split; [|right; right; tauto]. split; [by intros []|tauto].
Qed.

(** A dispatch is approved exactly when it is confirmed, there is a candidate
    for a named device, and the tracking error is at most the requested limit
    (100 W when none is given).  The error of a preview is never NaN, so the
    comparison cannot be bypassed. *)
Lemma DecideApply_spec `{Location} `{MathSin} now summary devices cfg pv req :
  BuildPreview now summary devices cfg = Some pv →
  is_nan (req_MaxAbsTrackingErrorW req) = false →
  let limit := if (req_MaxAbsTrackingErrorW req == fzero)%f64
               then of_int 100 else req_MaxAbsTrackingErrorW req in
  dec_Preview (DecideApply pv req) = pv ∧
  (dec_CanApply (DecideApply pv req) = true ↔
    req_Confirm req = true ∧ is_Some (pv_CandidateCommand pv) ∧ pv_CandidateDeviceID pv ≠ "" ∧
    fleb (math_Abs (pv_TrackingErrorW pv)) limit = true).
Proof.
  intros Hb Hn limit. apply preview_error in Hb as He. rewrite <- math_Abs_not_nan in He.
  assert (Hl : is_nan limit = false) by (unfold limit; by case_if).
  unfold DecideApply. fold limit.
  destruct (req_Confirm req); simpl; [|split; [done|]; split; [done|by intros []]].
  destruct (negb _ || _) eqn:E; simpl.
  - split; [done|]. split; [done|]. intros (_ & Hc & Hid & _).
    by rewrite bool_decide_true, bool_decide_false in E.
  - apply orb_false_iff in E as [Ec Ei]. apply negb_false_iff, bool_decide_eq_true in Ec.
    apply bool_decide_eq_false in Ei.
    destruct (fltb limit _) eqn:El; simpl; (split; [done|]).
    + split; [done|]. intros (_ & _ & _ & Hle). apply (fltb_false limit) in Hle; congruence.
    + split; [|done]. intros _. split_and!; try done. by apply fltb_false.
Qed.

(** ** The theorems at a concrete site *)

Definition ex_devices : list Device :=
  [MkDevice "pv-1" "site-a" DevicePV "roof" fzero fzero false zero_time;
   MkDevice "battery-1" "site-a" DeviceBattery "cell" fzero fzero false zero_time].

(** Nine in the morning of a cloudy day, with a single cheap hour. *)
Definition ex_cfg_now : Config :=
  MkConfig 4 15 fzero fzero (lit 2 10) (lit 8 10)
    [MkTariffBand "now" 8 9 (lit 3 10); MkTariffBand "later" 9 24 (lit 9 10)] true true.
Definition ex_preview : Preview :=
  match @BuildPreview UTC ex_sin ex_now ex_summary ex_devices ex_cfg_now with
  | Some pv => pv
  | None => MkPreview zero_time "" ex_summary zero_slot fzero "" None false "" ex_plan
  end.
Definition ex_command : Command :=
  match pv_CandidateCommand ex_preview with
  | Some cmd => cmd
  | None => MkCommand "" "" ∅ 0 ""
  end.

Lemma ex_cfg_now_finite : finite_config ex_cfg_now.
Proof. split; try (by vm_compute). all: repeat (constructor; try by vm_compute). Qed.

Lemma preview_command_safe_witness :
  pv_CandidateDeviceID ex_preview = "battery-1" ∧ pv_SafeToApply ex_preview = false.
Proof.
  destruct (@preview_command_safe UTC ex_sin ex_now ex_summary ex_devices ex_cfg_now ex_preview
    ex_command) as (_ & Hs & _); [exact ex_sin_valid|exact ex_cfg_now_finite|by vm_compute..|].
  split; [by vm_compute|exact Hs].
Defined.
