(* ===== verification/Json.v ===== *)
(** * Package encoding/json: printing

    [Marshal] prints a [json] value as Go does: shortest decimal numbers that
    read back as the same [float64], strings with the HTML-safe escapes, objects
    in the order of their fields ([json_of_map] sorts the keys of a map).
    A value holding NaN or an infinity is an error, [None]. *)
From Stdlib Require Import Floats.SpecFloat Ascii.
From S2P Require Import Prelude Float64 Model.

(** ** Numbers *)

(** The number of decimal digits of [n], for positive [n] below 10^fuel. *)
Fixpoint count_digits (fuel : nat) (n : Z) : Z :=
  match fuel with
  | O => 0
  | S f => if (n <=? 0)%Z then 0 else (1 + count_digits f (n / 10))%Z
  end.

(** [a * 2^p * 10^q <= b * 2^r * 10^s] over the rationals. *)
Definition scaled_leb (a p q b r s : Z) : bool :=
  let p2 (x : Z) := (2 ^ Z.max 0 x)%Z in
  let p10 (x : Z) := (10 ^ Z.max 0 x)%Z in
  (a * p2 p * p10 q * p2 (- r) * p10 (- s) <=? b * p2 r * p10 s * p2 (- p) * p10 (- q))%Z.

(** [q * 10^j] reads back as [m * 2^e]: it lies within half a unit of the last
    place, the ends included when [m] is even. *)
Definition reads_back (m : positive) (e q j : Z) : bool :=
  let lo := (4 * Zpos m - (if (Zpos m =? 2 ^ 52)%Z && (-1074 <? e)%Z then 1 else 2))%Z in
  let hi := (4 * Zpos m + 2)%Z in
  if Z.even (Zpos m)
  then scaled_leb lo e 0 (4 * q) 0 j && scaled_leb (4 * q) 0 j hi e 0
  else negb (scaled_leb (4 * q) 0 j lo e 0) && negb (scaled_leb hi e 0 (4 * q) 0 j).

(** The floor of [m * 2^e / 10^j]. *)
Definition scaled_floor (m : positive) (e j : Z) : Z :=
  (Zpos m * 2 ^ Z.max 0 e * 10 ^ Z.max 0 (- j) / (2 ^ Z.max 0 (- e) * 10 ^ Z.max 0 j))%Z.

(** The decimal exponent of [m * 2^e], at least. *)
Definition decimal_exp (m : positive) (e : Z) : Z :=
  let i := scaled_floor m e 0 in
  if (0 <? i)%Z then (count_digits 400 i - 1)%Z
  else (count_digits 400 (scaled_floor m e (-400)) - 401)%Z.

(** The shortest decimal, from [n] digits on, that reads back. *)
Fixpoint shortest (fuel : nat) (n : Z) (m : positive) (e k : Z) : Z * Z :=
  let j := (k - n + 1)%Z in
  let q := scaled_floor m e j in
  let below := reads_back m e q j in
  let above := reads_back m e (q + 1) j in
  (* twice the value is at most 2q+1: the lower candidate is the nearer *)
  let nearer := scaled_leb (2 * Zpos m) e 0 (2 * q + 1) 0 j in
  if below && (nearer || negb above) then (q, j)
  else if above then ((q + 1)%Z, j)
  else match fuel with
  | O => (q, j)
  | S f => shortest f (n + 1) m e k
  end.

Fixpoint strip_zeros (fuel : nat) (q j : Z) : Z * Z :=
  match fuel with
  | O => (q, j)
  | S f => if (q mod 10 =? 0)%Z && (0 <? q)%Z then strip_zeros f (q / 10) (j + 1) else (q, j)
  end.

Fixpoint zeros (n : nat) : string :=
  match n with O => "" | S n' => "0" +:+ zeros n' end.

(** The digits [q], scaled by [10^j], without an exponent. *)
Definition fmt_f (q j : Z) : string :=
  if (0 <=? j)%Z then pretty q +:+ zeros (Z.to_nat j)
  else
    let d := pretty q in
    let frac := Z.to_nat (- j) in
    if (String.length d <=? frac)%nat
    then "0." +:+ zeros (frac - String.length d) +:+ d
    else String.substring 0 (String.length d - frac) d +:+ "." +:+
         String.substring (String.length d - frac) frac d.

(** With an exponent, of two digits at least unless it is negative. *)
Definition fmt_e (q j : Z) : string :=
  let d := pretty q in
  let x := (j + Z.of_nat (String.length d) - 1)%Z in
  String.substring 0 1 d +:+
  (if (String.length d <=? 1)%nat then "" else "." +:+ String.substring 1 (String.length d - 1) d)
  +:+ "e" +:+
  (if (x <? 0)%Z then "-" +:+ pretty (- x)%Z
   else "+" +:+ (if (x <? 10)%Z then "0" else "") +:+ pretty x).

Definition marshal_float (x : float64) : option string :=
  match x with
  | S754_nan | S754_infinity _ => None
  | S754_zero s => Some (if s then "-0" else "0")
  | S754_finite s m e =>
      let '(q, j) := shortest 17 1 m e (decimal_exp m e) in
      let '(q, j) := strip_zeros 20 q j in
      let big := fleb (of_int (10 ^ 21)) (math_Abs x) in
      let small := fltb (math_Abs x) (lit 1 1000000) in
      Some ((if s then "-" else "") +:+ (if big || small then fmt_e q j else fmt_f q j))
  end.

(** ** Strings *)

Definition in_range (lo hi : N) (a : ascii) : bool :=
  (lo <=? N_of_ascii a)%N && (N_of_ascii a <=? hi)%N.

(** The UTF-8 sequences of one to four bytes. *)
Definition one_byte : ascii → bool := in_range 0 127.
Definition two_bytes (a b : ascii) : bool := in_range 194 223 a && in_range 128 191 b.
Definition three_bytes (a b c : ascii) : bool :=
  in_range 224 239 a &&
  in_range (if (N_of_ascii a =? 224)%N then 160 else 128)%N (if (N_of_ascii a =? 237)%N then 159 else 191)%N b &&
  in_range 128 191 c.
Definition four_bytes (a b c d : ascii) : bool :=
  in_range 240 244 a &&
  in_range (if (N_of_ascii a =? 240)%N then 144 else 128)%N (if (N_of_ascii a =? 244)%N then 143 else 191)%N b &&
  in_range 128 191 c && in_range 128 191 d.

(** The number of bytes of the UTF-8 sequence a string starts with. *)
Definition utf8_len (s : string) : option nat :=
  match s with
  | "" => None
  | String a s =>
      if one_byte a then Some 1
      else match s with
      | "" => None
      | String b s =>
          if two_bytes a b then Some 2
          else match s with
          | "" => None
          | String c s =>
              if three_bytes a b c then Some 3
              else match s with
              | "" => None
              | String d _ => if four_bytes a b c d then Some 4 else None
              end
          end
      end
  end.

Definition hex_digit (n : N) : string :=
  String (ascii_of_N (if (n <? 10)%N then 48 + n else 87 + n)) "".

Definition quote_mark : string := String (ascii_of_N 34) "".

(** The characters escaped because of HTML. *)
Definition html_char (a : ascii) : bool :=
  let n := N_of_ascii a in (n =? 60)%N || (n =? 62)%N || (n =? 38)%N.

(** The escape of one ASCII character, if it needs one. *)
Definition escape (a : ascii) : string :=
  let n := N_of_ascii a in
  if (n =? 34)%N then "\" +:+ quote_mark
  else if (n =? 92)%N then "\\"
  else if (n =? 8)%N then "\b"
  else if (n =? 12)%N then "\f"
  else if (n =? 10)%N then "\n"
  else if (n =? 13)%N then "\r"
  else if (n =? 9)%N then "\t"
  else if (n <? 32)%N || html_char a
  then "\u00" +:+ hex_digit (n / 16) +:+ hex_digit (n mod 16)
  else String a "".

(** U+2028 and U+2029. *)
Definition line_separator (a b c : ascii) : bool :=
  (N_of_ascii a =? 226)%N && (N_of_ascii b =? 128)%N &&
  ((N_of_ascii c =? 168)%N || (N_of_ascii c =? 169)%N).
Definition escape_separator (c : ascii) : string :=
  if (N_of_ascii c =? 168)%N then "\u2028" else "\u2029".

(** The body of a string literal. *)
Fixpoint escape_all (s : string) : string :=
  match s with
  | "" => ""
  | String a s1 =>
      match utf8_len s, s1 with
      | Some 1, _ => escape a +:+ escape_all s1
      | Some 2, String b s2 => String a (String b (escape_all s2))
      | Some 3, String b (String c s3) =>
          if line_separator a b c then escape_separator c +:+ escape_all s3
          else String a (String b (String c (escape_all s3)))
      | Some 4, String b (String c (String d s4)) =>
          String a (String b (String c (String d (escape_all s4))))
      | _, _ => "\ufffd" +:+ escape_all s1
      end
  end.

Definition marshal_string (s : string) : string :=
  quote_mark +:+ escape_all s +:+ quote_mark.

(** ** Values *)

Definition concat_sep (sep : string) (l : list string) : string :=
  match l with [] => "" | x :: l' => foldl (λ s y, s +:+ sep +:+ y) x l' end.

Fixpoint Marshal (v : json) : option string :=
  match v with
  | JNull => Some "null"
  | JBool b => Some (if b then "true" else "false")
  | JNum x => marshal_float x
  | JStr s => Some (marshal_string s)
  | JArr l =>
      parts ← (fix go (l : list json) : option (list string) :=
        match l with
        | [] => Some []
        | x :: l' => p ← Marshal x; ps ← go l'; Some (p :: ps)
        end) l;
      Some ("[" +:+ concat_sep "," parts +:+ "]")
  | JObj l =>
      parts ← (fix go (l : list (string * json)) : option (list string) :=
        match l with
        | [] => Some []
        | (k, x) :: l' => p ← Marshal x; ps ← go l'; Some ((marshal_string k +:+ ":" +:+ p) :: ps)
        end) l;
      Some ("{" +:+ concat_sep "," parts +:+ "}")
  end.

(** A map is printed with its keys in increasing order. *)
Definition json_of_map (m : gmap string json) : json :=
  JObj (sort_slice (λ a b, String.ltb a.1 b.1) (map_to_list m)).

(** An object of strings always prints. *)
Lemma Marshal_obj l :
  Forall (λ kv : string * json, is_Some (Marshal kv.2)) l → is_Some (Marshal (JObj l)).
Proof.
  intros Hl. simpl. match goal with |- is_Some (?go l ≫= _) => set (g := go) end.
  assert (Hg : is_Some (g l)).
  { induction Hl as [|[k x] l [p Hx] Hl [ps IH]]; [by eexists|]. simpl in *. rewrite Hx. simpl.
    rewrite IH. by eexists. }
  destruct Hg as [ps ->]. by eexists.
Qed.

Lemma Marshal_strings (m : gmap string json) :
  map_Forall (λ _ v, ∃ s, v = JStr s) m → is_Some (Marshal (json_of_map m)).
Proof.
  intros Hm. apply Marshal_obj. rewrite sort_slice_perm. apply Forall_forall.
  intros [k v] [s ->]%elem_of_map_to_list%Hm. by eexists.
Qed.
