(* ===== verification/JsonString.v ===== *)
(** * Package encoding/json: string literals

    A string literal is kept as its body, the text between its quotes.
    [scan_body] is the scanner, [unquote] reads the bytes of a Go string off a
    body, [escape_all] (Json) writes a Go string as a body, and [html] is what
    [compact] does to the bodies of a [json.RawMessage].  Reading back what was
    written gives the string, when it is UTF-8 ([unquote_escape]); what is read
    always is ([unquote_utf8]). *)
From Stdlib Require Import Ascii.
From S2P Require Import Prelude GoStrings Json.

(** ** Scanning *)

Definition dquote : ascii := "034"%char.
Definition backslash : ascii := "\"%char.

Definition is_digit : ascii → bool := in_range 48 57.
Definition is_hex (a : ascii) : bool := is_digit a || in_range 97 102 a || in_range 65 70 a.

(** The escapes of one letter and what they stand for. *)
Definition unescape (a : ascii) : option ascii :=
  let n := N_of_ascii a in
  if (n =? 34)%N || (n =? 92)%N || (n =? 47)%N then Some a
  else if (n =? 98)%N then Some (ascii_of_N 8)
  else if (n =? 102)%N then Some (ascii_of_N 12)
  else if (n =? 110)%N then Some (ascii_of_N 10)
  else if (n =? 114)%N then Some (ascii_of_N 13)
  else if (n =? 116)%N then Some (ascii_of_N 9)
  else None.

Definition body_char (a : ascii) : bool :=
  negb (bool_decide (a = dquote)) && negb (bool_decide (a = backslash)) && (32 <=? N_of_ascii a)%N.

(** The rest of a string literal after its opening quote: the text up to the
    closing one, and what follows. *)
Fixpoint scan_body (s : string) : option (string * string) :=
  match s with
  | "" => None
  | String a s1 =>
      if decide (a = dquote) then Some ("", s1)
      else if decide (a = backslash) then
        match s1 with
        | "" => None
        | String b s2 =>
            if decide (b = "u"%char) then
              match s2 with
              | String h1 (String h2 (String h3 (String h4 s6))) =>
                  if is_hex h1 && is_hex h2 && is_hex h3 && is_hex h4 then
                    '(v, r) ← scan_body s6;
                    Some (String a (String b (String h1 (String h2 (String h3 (String h4 v))))), r)
                  else None
              | _ => None
              end
            else match unescape b with
            | Some _ => '(v, r) ← scan_body s2; Some (String a (String b v), r)
            | None => None
            end
        end
      else if body_char a then '(v, r) ← scan_body s1; Some (String a v, r)
      else None
  end.

(** ** Reading *)

Definition hex_value (a : ascii) : N :=
  let n := N_of_ascii a in
  if is_digit a then n - 48 else if in_range 97 102 a then n - 87 else n - 55.
Definition code_unit (h1 h2 h3 h4 : ascii) : N :=
  (((hex_value h1 * 16 + hex_value h2) * 16 + hex_value h3) * 16 + hex_value h4)%N.

Definition string_of (l : list N) : string :=
  foldr (λ n, String (ascii_of_N n)) "" l.

(** U+FFFD *)
Definition rune_error : string := string_of [239; 191; 189]%N.

Definition is_surrogate (r : N) : bool := (55296 <=? r)%N && (r <? 57344)%N.

(** [utf16.DecodeRune]. *)
Definition decode_pair (r1 r2 : N) : option N :=
  if (55296 <=? r1)%N && (r1 <? 56320)%N && (56320 <=? r2)%N && (r2 <? 57344)%N
  then Some ((r1 - 55296) * 1024 + (r2 - 56320) + 65536)%N else None.

(** [utf8.AppendRune]. *)
Definition encode_rune (r : N) : string :=
  if (r <? 128)%N then string_of [r]
  else if (r <? 2048)%N then string_of [192 + r / 64; 128 + r mod 64]%N
  else if is_surrogate r || (1114111 <? r)%N then rune_error
  else if (r <? 65536)%N then string_of [224 + r / 4096; 128 + r / 64 mod 64; 128 + r mod 64]%N
  else string_of [240 + r / 262144; 128 + r / 4096 mod 64; 128 + r / 64 mod 64; 128 + r mod 64]%N.

(** The code unit of an escape a text starts with, and the rest. *)
Definition getu4 (s : string) : option N :=
  match s with
  | String a (String b (String g1 (String g2 (String g3 (String g4 _))))) =>
      if bool_decide (a = backslash) && bool_decide (b = "u"%char) &&
         is_hex g1 && is_hex g2 && is_hex g3 && is_hex g4
      then Some (code_unit g1 g2 g3 g4) else None
  | _ => None
  end.

(** The Go string of a body. *)
Fixpoint unquote (s : string) : string :=
  match s with
  | "" => ""
  | String a s1 =>
      if decide (a = backslash) then
        match s1 with
        | "" => ""
        | String b s2 =>
            if decide (b = "u"%char) then
              match s2 with
              | String h1 (String h2 (String h3 (String h4 s6))) =>
                  let r := code_unit h1 h2 h3 h4 in
                  if is_surrogate r then
                    match getu4 s6 ≫= decode_pair r, s6 with
                    | Some x, String _ (String _ (String _ (String _ (String _ (String _ s12))))) =>
                        encode_rune x +:+ unquote s12
                    | _, _ => rune_error +:+ unquote s6
                    end
                  else encode_rune r +:+ unquote s6
              | _ => ""
              end
            else match unescape b with
            | Some c => String c (unquote s2)
            | None => ""
            end
        end
      else match utf8_len s, s1 with
      | Some 1, _ => String a (unquote s1)
      | Some 2, String b s2 => String a (String b (unquote s2))
      | Some 3, String b (String c s3) => String a (String b (String c (unquote s3)))
      | Some 4, String b (String c (String d s4)) =>
          String a (String b (String c (String d (unquote s4))))
      | _, _ => rune_error +:+ unquote s1
      end
  end.

(** The bodies of a [json.RawMessage] when it is encoded. *)
Fixpoint html (s : string) : string :=
  match s with
  | "" => ""
  | String a s1 =>
      if html_char a then escape a +:+ html s1
      else match s1 with
      | String b (String c s3) =>
          if line_separator a b c then escape_separator c +:+ html s3 else String a (html s1)
      | _ => String a (html s1)
      end
  end.

(** ** Well-formed bodies *)

Inductive body : string → Prop :=
| body_nil : body ""
| body_plain a s : body_char a = true → body s → body (String a s)
| body_letter b s : b ≠ "u"%char → is_Some (unescape b) → body s → body (String backslash (String b s))
| body_unicode h1 h2 h3 h4 s :
    is_hex h1 && is_hex h2 && is_hex h3 && is_hex h4 = true → body s →
    body (String backslash (String "u" (String h1 (String h2 (String h3 (String h4 s)))))).
#[export] Hint Constructors body : vpp.

Lemma body_char_neq a : body_char a = true → a ≠ dquote ∧ a ≠ backslash.
Proof. unfold body_char. intros [[?%negb_true_iff ?%negb_true_iff]%andb_true_iff _]%andb_true_iff.
  split; by eapply bool_decide_eq_false. Qed.

Lemma scan_body_complete b r : body b → scan_body (b +:+ String dquote r) = Some (b, r).
Proof.
  induction 1 as [|a s Ha _ IH|b s Hb [c Hc] _ IH|h1 h2 h3 h4 s Hh _ IH]; rewrite ?str_cons_app; simpl.
  - done.
  - destruct (body_char_neq a Ha). rewrite !decide_False by done. by rewrite Ha, IH.
  - rewrite (decide_False (P := b = "u"%char)) by done. by rewrite Hc, IH.
  - by rewrite Hh, IH.
Qed.

Lemma scan_body_sound s b r : scan_body s = Some (b, r) → body b ∧ s = b +:+ String dquote r.
Proof.
  revert b r. induction s as [s IH] using (induction_ltof1 _ String.length). intros b r.
  unfold ltof in IH. destruct s as [|a s1]; [done|]. simpl. case_decide as Ha.
  { intros [= <- <-]. subst. by split; [constructor|]. }
  case_decide as Hb.
  - destruct s1 as [|e s2]; [done|]. case_decide as He.
    + destruct s2 as [|h1 [|h2 [|h3 [|h4 s6]]]]; try done.
      destruct (is_hex h1 && _ && _ && _) eqn:Hh; [|done].
      intros ([v r'] & Hv & [= <- <-])%bind_Some. apply IH in Hv as [Hv ->]; [|simpl; lia].
      subst. split; [by constructor|done].
    + destruct (unescape e) eqn:Hu; [|done].
      intros ([v r'] & Hv & [= <- <-])%bind_Some. apply IH in Hv as [Hv ->]; [|simpl; lia].
      subst. split; [by constructor|done].
  - destruct (body_char a) eqn:Hc; [|done].
    intros ([v r'] & Hv & [= <- <-])%bind_Some. apply IH in Hv as [Hv ->]; [|simpl; lia].
    split; [by constructor|done].
Qed.

(** Induction along the UTF-8 sequences of a string. *)
Lemma utf8_sequences (P : string → Prop) :
  P "" →
  (∀ a s, utf8_len (String a s) = None → P s → P (String a s)) →
  (∀ a s, one_byte a = true → P s → P (String a s)) →
  (∀ a b s, two_bytes a b = true → P s → P (String a (String b s))) →
  (∀ a b c s, three_bytes a b c = true → P s → P (String a (String b (String c s)))) →
  (∀ a b c d s, four_bytes a b c d = true → P s → P (String a (String b (String c (String d s))))) →
  ∀ s, P s.
Proof.
  intros H0 Hbad H1 H2 H3 H4. apply (induction_ltof1 _ String.length). unfold ltof.
  intros [|a s1] IH; [done|].
  destruct (utf8_len (String a s1)) as [n|] eqn:Hn; [|apply Hbad, IH; simpl; auto].
  simpl in Hn. destruct (one_byte a) eqn:?; [apply H1, IH; simpl; auto|].
  destruct s1 as [|b s2]; [done|].
  destruct (two_bytes a b) eqn:?; [apply H2, IH; simpl; auto|].
  destruct s2 as [|c s3]; [done|].
  destruct (three_bytes a b c) eqn:?; [apply H3, IH; simpl; auto|].
  destruct s3 as [|d s4]; [done|].
  destruct (four_bytes a b c d) eqn:?; [apply H4, IH; simpl; auto|done].
Qed.

(** Turns tests of byte ranges into inequalities. *)
Ltac byte_ranges :=
  repeat match goal with
  | H : one_byte _ = true |- _ => unfold one_byte in H
  | H : two_bytes _ _ = true |- _ => unfold two_bytes in H
  | H : three_bytes _ _ _ = true |- _ => unfold three_bytes in H
  | H : four_bytes _ _ _ _ = true |- _ => unfold four_bytes in H
  | H : _ && _ = true |- _ => apply andb_true_iff in H as [? ?]
  | H : in_range _ _ _ = true |- _ => unfold in_range in H
  | H : (_ <=? _)%N = true |- _ => apply N.leb_le in H
  | H : context [if ?b then _ else _] |- _ => destruct b eqn:?
  | H : (_ =? _)%N = true |- _ => apply N.eqb_eq in H
  | H : (_ =? _)%N = false |- _ => apply N.eqb_neq in H
  end.

Lemma in_range_out lo hi a : (N_of_ascii a < lo ∨ hi < N_of_ascii a)%N → in_range lo hi a = false.
Proof. unfold in_range. intros. apply andb_false_iff. rewrite !N.leb_gt. lia. Qed.

Lemma utf8_len_2 a b s : two_bytes a b = true → utf8_len (String a (String b s)) = Some 2.
Proof. intros H. simpl. rewrite H. unfold one_byte. rewrite in_range_out; [done|byte_ranges; lia]. Qed.
Lemma utf8_len_3 a b c s :
  three_bytes a b c = true → utf8_len (String a (String b (String c s))) = Some 3.
Proof.
  intros H. simpl. rewrite H. unfold one_byte, two_bytes.
  by rewrite !(in_range_out _ _ a) by (byte_ranges; lia).
Qed.
Lemma utf8_len_4 a b c d s :
  four_bytes a b c d = true → utf8_len (String a (String b (String c (String d s)))) = Some 4.
Proof.
  intros H. simpl. rewrite H. unfold one_byte, two_bytes, three_bytes.
  by rewrite !(in_range_out _ _ a) by (byte_ranges; lia).
Qed.

(** Strings of complete UTF-8 sequences. *)
Inductive utf8 : string → Prop :=
| utf8_nil : utf8 ""
| utf8_1 a s : one_byte a = true → utf8 s → utf8 (String a s)
| utf8_2 a b s : two_bytes a b = true → utf8 s → utf8 (String a (String b s))
| utf8_3 a b c s : three_bytes a b c = true → utf8 s → utf8 (String a (String b (String c s)))
| utf8_4 a b c d s :
    four_bytes a b c d = true → utf8 s → utf8 (String a (String b (String c (String d s)))).
#[export] Hint Constructors utf8 : vpp.

Lemma utf8_app s1 s2 : utf8 s1 → utf8 s2 → utf8 (s1 +:+ s2).
Proof. induction 1; rewrite ?str_cons_app, ?str_nil_app; auto with vpp. Qed.

Lemma body_app s1 s2 : body s1 → body s2 → body (s1 +:+ s2).
Proof. induction 1; rewrite ?str_cons_app, ?str_nil_app; auto with vpp. Qed.

Lemma body_check s : scan_body (s +:+ String dquote "") = Some (s, "") → body s.
Proof. by intros [? _]%scan_body_sound. Qed.

(** A fact of every byte, by trying them all. *)
Ltac all_bytes a := destruct a as [[] [] [] [] [] [] [] []]; try done.

Definition high (a : ascii) : Prop := (128 ≤ N_of_ascii a)%N.

Lemma high_body a : high a → body_char a = true.
Proof. unfold high. by all_bytes a. Qed.
Lemma high_backslash a : high a → a ≠ backslash.
Proof. intros H ->. by vm_compute in H. Qed.
Lemma high_html a : high a → html_char a = false.
Proof. unfold high. by all_bytes a. Qed.
Lemma two_bytes_high a b : two_bytes a b = true → high a ∧ high b.
Proof. unfold high. intros. byte_ranges; lia. Qed.
Lemma three_bytes_high a b c : three_bytes a b c = true → high a ∧ high b ∧ high c.
Proof. unfold high. intros. byte_ranges; lia. Qed.
Lemma four_bytes_high a b c d : four_bytes a b c d = true → high a ∧ high b ∧ high c ∧ high d.
Proof. unfold high. intros. byte_ranges; lia. Qed.

(** The bytes of the complete sequences of the context are above 127. *)
Ltac highs :=
  repeat match goal with
  | H : two_bytes _ _ = true |- _ => pose proof (two_bytes_high _ _ H) as [? ?]; revert H
  | H : three_bytes _ _ _ = true |- _ => pose proof (three_bytes_high _ _ _ H) as (? & ? & ?); revert H
  | H : four_bytes _ _ _ _ = true |- _ => pose proof (four_bytes_high _ _ _ _ H) as (? & ? & ? & ?); revert H
  end; intros.
#[export] Hint Resolve high_body high_backslash high_html : vpp.

(** ** Equations *)

Section Equations.
Implicit Types s : string.

Lemma escape_all_bad a s :
  utf8_len (String a s) = None → escape_all (String a s) = "\ufffd" +:+ escape_all s.
Proof. intros H. cbn [escape_all]. by rewrite H. Qed.
Lemma escape_all_1 a s :
  one_byte a = true → escape_all (String a s) = escape a +:+ escape_all s.
Proof. intros H. simpl. by rewrite H. Qed.
Lemma escape_all_2 a b s :
  two_bytes a b = true → escape_all (String a (String b s)) = String a (String b (escape_all s)).
Proof. intros H. cbn [escape_all]. by rewrite (utf8_len_2 a b). Qed.
Lemma escape_all_3 a b c s :
  three_bytes a b c = true →
  escape_all (String a (String b (String c s))) =
    if line_separator a b c then escape_separator c +:+ escape_all s
    else String a (String b (String c (escape_all s))).
Proof. intros H. cbn [escape_all]. by rewrite (utf8_len_3 a b c). Qed.
Lemma escape_all_4 a b c d s :
  four_bytes a b c d = true →
  escape_all (String a (String b (String c (String d s)))) =
    String a (String b (String c (String d (escape_all s)))).
Proof. intros H. cbn [escape_all]. by rewrite (utf8_len_4 a b c d). Qed.

Lemma unquote_bad a s :
  a ≠ backslash → utf8_len (String a s) = None → unquote (String a s) = rune_error +:+ unquote s.
Proof. intros ? H. cbn [unquote]. rewrite decide_False by done. by rewrite H. Qed.
Lemma unquote_1 a s :
  a ≠ backslash → one_byte a = true → unquote (String a s) = String a (unquote s).
Proof. intros ? H. simpl. rewrite decide_False by done. by rewrite H. Qed.
Lemma unquote_2 a b s :
  two_bytes a b = true → unquote (String a (String b s)) = String a (String b (unquote s)).
Proof.
  intros H. highs. cbn [unquote]. rewrite decide_False by auto with vpp. by rewrite (utf8_len_2 a b).
Qed.
Lemma unquote_3 a b c s :
  three_bytes a b c = true →
  unquote (String a (String b (String c s))) = String a (String b (String c (unquote s))).
Proof.
  intros H. highs. cbn [unquote]. rewrite decide_False by auto with vpp. by rewrite (utf8_len_3 a b c).
Qed.
Lemma unquote_4 a b c d s :
  four_bytes a b c d = true →
  unquote (String a (String b (String c (String d s)))) =
    String a (String b (String c (String d (unquote s)))).
Proof.
  intros H. highs. cbn [unquote]. rewrite decide_False by auto with vpp. by rewrite (utf8_len_4 a b c d).
Qed.
Lemma unquote_escape_byte a s :
  one_byte a = true → unquote (escape a +:+ s) = String a (unquote s).
Proof. by all_bytes a. Qed.
Lemma unquote_separator a b c s :
  line_separator a b c = true →
  unquote (escape_separator c +:+ s) = String a (String b (String c (unquote s))).
Proof.
  unfold line_separator. rewrite !andb_true_iff, orb_true_iff, !N.eqb_eq. intros [[Ha Hb] Hc].
  rewrite <- (ascii_N_embedding a), <- (ascii_N_embedding b), <- (ascii_N_embedding c), Ha, Hb.
  by destruct Hc as [-> | ->].
Qed.

Lemma unquote_letter b c s :
  b ≠ "u"%char → unescape b = Some c → unquote (String backslash (String b s)) = String c (unquote s).
Proof. intros Hb Hc. simpl. rewrite decide_False by done. by rewrite Hc. Qed.
Lemma unquote_code h1 h2 h3 h4 s :
  let r := code_unit h1 h2 h3 h4 in
  unquote (String backslash (String "u" (String h1 (String h2 (String h3 (String h4 s)))))) =
    if is_surrogate r then
      match getu4 s ≫= decode_pair r with
      | Some x => encode_rune x +:+ unquote (drop_bytes 6 s)
      | None => rune_error +:+ unquote s
      end
    else encode_rune r +:+ unquote s.
Proof.
  intros r. simpl. fold r. case_if; [|done].
  destruct (getu4 s ≫= decode_pair r) eqn:Hg; [|done]. by do 6 (destruct s as [|? s]; [done|]).
Qed.

(** [html] leaves these bytes alone, whatever follows. *)
Fixpoint plain s : bool :=
  match s with
  | "" => true
  | String a s' => negb (html_char a) && negb (N_of_ascii a =? 226)%N && plain s'
  end.

Lemma html_plain a s : html_char a = false → N_of_ascii a ≠ 226%N → html (String a s) = String a (html s).
Proof.
  intros Ha Hn. simpl. rewrite Ha. destruct s as [|b [|c s]]; try done.
  unfold line_separator. by rewrite (proj2 (N.eqb_neq _ _) Hn).
Qed.
Lemma html_plain_app p s : plain p = true → html (p +:+ s) = p +:+ html s.
Proof.
  induction p as [|a p IH]; [done|]. cbn [plain].
  intros [[?%negb_true_iff ?%negb_true_iff%N.eqb_neq]%andb_true_iff ?]%andb_true_iff.
  rewrite !str_cons_app, html_plain by done. by rewrite IH.
Qed.

(** A line separator starts here. *)
Definition separator_at a s : bool :=
  match s with String b (String c _) => line_separator a b c | _ => false end.

Lemma html_step a s :
  html_char a = false → separator_at a s = false → html (String a s) = String a (html s).
Proof. intros Ha Hs. simpl. rewrite Ha. destruct s as [|b [|c s]]; try done. simpl in Hs. by rewrite Hs. Qed.

(** What [html] writes is its own escapes, which start with a backslash, and bytes it found. *)
Lemma html_uncons s b t :
  html s = String b t → b ≠ backslash → ∃ s', s = String b s' ∧ t = html s' ∧ separator_at b s' = false.
Proof.
  destruct s as [|a s1]; [done|]. simpl. destruct (html_char a) eqn:Ha.
  { intros H Hb. exfalso. apply Hb. revert H Ha. all_bytes a; by intros [= <-]. }
  assert (Hsep : ∀ c x, escape_separator c +:+ x = String b t → b = backslash).
  { unfold escape_separator. intros c x. by case_if; intros [= <-]. }
  destruct s1 as [|b1 [|c1 s3]]; [intros [= <- <-]; eauto..|].
  destruct (line_separator a b1 c1) eqn:Hl; [by intros ?%Hsep|]. intros [= <- <-]. eauto.
Qed.

Lemma separator_at_html a s : separator_at a s = false → separator_at a (html s) = false.
Proof.
  destruct (separator_at a (html s)) eqn:H; [|done]. intros Hs.
  destruct (html s) as [|b [|c t]] eqn:E; try done. simpl in H. exfalso. revert Hs.
  unfold line_separator in H. rewrite !andb_true_iff, orb_true_iff, !N.eqb_eq in H. destruct H as [[? Hb] Hc].
  apply html_uncons in E as (s' & -> & E & _); [|intros ->; by vm_compute in Hb].
  symmetry in E. apply html_uncons in E as (s'' & -> & _); [|intros ->; by destruct Hc as [Hc|Hc]; vm_compute in Hc].
  simpl. unfold line_separator. rewrite (proj2 (N.eqb_eq (N_of_ascii a) 226)), (proj2 (N.eqb_eq (N_of_ascii b) 128)) by done.
  by destruct Hc as [-> | ->].
Qed.
End Equations.

(** ** Round trips *)

Lemma body_escape_byte a : one_byte a = true → body (escape a).
Proof. intros H. apply body_check. revert H. by all_bytes a. Qed.
Lemma body_escape_separator c : body (escape_separator c).
Proof. apply body_check. unfold escape_separator. by case_if. Qed.

(** The text of an encoded string is a body. *)
Lemma body_escape_all s : body (escape_all s).
Proof.
  induction s as [|a s H IH|a s H IH|a b s H IH|a b c s H IH|a b c d s H IH] using utf8_sequences.
  - constructor.
  - rewrite escape_all_bad by done. by apply body_app, IH; apply body_check.
  - rewrite escape_all_1 by done. by apply body_app, IH; apply body_escape_byte.
  - rewrite escape_all_2 by done. highs. auto with vpp.
  - rewrite escape_all_3 by done. highs. case_if; [apply body_app, IH; apply body_escape_separator|auto 7 with vpp].
  - rewrite escape_all_4 by done. highs. auto 7 with vpp.
Qed.

Lemma plain_hex h s : is_hex h = true → plain (String h s) = plain s.
Proof. by all_bytes h. Qed.
Lemma plain_unicode h1 h2 h3 h4 :
  is_hex h1 && is_hex h2 && is_hex h3 && is_hex h4 = true →
  plain (String backslash (String "u" (String h1 (String h2 (String h3 (String h4 "")))))) = true.
Proof.
  rewrite !andb_true_iff. intros [[[? ?] ?] ?].
  change (plain (String h1 (String h2 (String h3 (String h4 "")))) = true). by rewrite !plain_hex.
Qed.

Lemma body_html s : body s → body (html s).
Proof.
  induction s as [s IH] using (induction_ltof1 _ String.length). unfold ltof in IH.
  destruct 1 as [|a s Ha Hs|b s Hb Hu Hs|h1 h2 h3 h4 s Hh Hs].
  - constructor.
  - assert (Hi : body (html s)) by (apply IH; [simpl; lia|done]). simpl.
    destruct (html_char a) eqn:Hc; [apply body_app, Hi; apply body_escape_byte; revert Hc; by all_bytes a|].
    destruct s as [|b [|c s3]]; [by constructor..|]. destruct (line_separator a b c) eqn:Hl; [|by constructor].
    apply body_app; [apply body_escape_separator|]. apply IH; [simpl; lia|].
    unfold line_separator in Hl. rewrite !andb_true_iff, orb_true_iff, !N.eqb_eq in Hl.
    destruct Hl as [[_ Hb] Hc']. inversion Hs as [|? ? _ Hs'|? ? ? ? ?|? ? ? ? ? ? ?]; subst; try done.
    inversion Hs' as [|? ? _ Hs''|? ? ? ? ?|? ? ? ? ? ? ?]; subst; [done|by destruct Hc'..].
  - change (String backslash (String b s)) with (String backslash (String b "") +:+ s).
    rewrite html_plain_app by (destruct Hu as [? Hu]; revert Hu; by all_bytes b).
    apply body_app; [by auto with vpp|]. apply IH; [simpl; lia|done].
  - change (String backslash (String "u" (String h1 (String h2 (String h3 (String h4 s))))))
      with (String backslash (String "u" (String h1 (String h2 (String h3 (String h4 ""))))) +:+ s).
    rewrite html_plain_app.
    + apply body_app; [by auto with vpp|]. apply IH; [simpl; lia|done].
    + by apply plain_unicode.
Qed.

(** Encoding again changes nothing. *)
Lemma html_idem s : html (html s) = html s.
Proof.
  induction s as [s IH] using (induction_ltof1 _ String.length). unfold ltof in IH.
  destruct s as [|a s]; [done|]. destruct (html_char a) eqn:Ha.
  { simpl. rewrite Ha, html_plain_app, IH by (simpl; lia || (revert Ha; by all_bytes a)). done. }
  destruct (separator_at a s) eqn:Hs.
  - destruct s as [|b [|c s]]; try done. simpl in *. rewrite Ha, Hs, html_plain_app, IH by
      (simpl; lia || (unfold escape_separator; by case_if)). done.
  - rewrite (html_step a s), html_step, IH by (done || (simpl; lia) || by apply separator_at_html). done.
Qed.

Lemma html_escape_all s : html (escape_all s) = escape_all s.
Proof.
  induction s as [|a s H IH|a s H IH|a b s H IH|a b c s H IH|a b c d s H IH] using utf8_sequences.
  - done.
  - rewrite escape_all_bad by done. by rewrite html_plain_app, IH.
  - rewrite escape_all_1 by done. rewrite html_plain_app, IH; [done|]. revert H. by all_bytes a.
  - rewrite escape_all_2 by done. highs.
    rewrite !html_plain, IH by (auto with vpp || (byte_ranges; lia)). done.
  - rewrite escape_all_3 by done. highs. destruct (line_separator a b c) eqn:Hl.
    + rewrite html_plain_app, IH; [done|]. unfold escape_separator. by case_if.
    + rewrite html_step by auto with vpp.
      rewrite !html_plain, IH by (auto with vpp || (byte_ranges; lia)). done.
  - rewrite escape_all_4 by done. highs.
    rewrite !html_plain, IH by (auto with vpp || (byte_ranges; lia)). done.
Qed.

(** Reading back a string that was encoded. *)
Lemma unquote_escape s : utf8 s → unquote (escape_all s) = s.
Proof.
  induction 1 as [|a s H _ IH|a b s H _ IH|a b c s H _ IH|a b c d s H _ IH].
  - done.
  - by rewrite escape_all_1, unquote_escape_byte, IH.
  - by rewrite escape_all_2, unquote_2, IH.
  - rewrite escape_all_3 by done. destruct (line_separator a b c) eqn:Hl.
    + by rewrite (unquote_separator a b), IH.
    + by rewrite unquote_3, IH.
  - by rewrite escape_all_4, unquote_4, IH.
Qed.

(** ** What is read is UTF-8 *)

Lemma N_of_string_of n : (n < 256)%N → N_of_ascii (ascii_of_N n) = n.
Proof. apply N_ascii_embedding. Qed.

Lemma in_range_of lo hi n : (lo <= n <= hi ∧ n < 256)%N → in_range lo hi (ascii_of_N n) = true.
Proof. intros. unfold in_range. rewrite N_of_string_of by lia. rewrite andb_true_iff, !N.leb_le. lia. Qed.

Lemma utf8_rune_error s : utf8 s → utf8 (rune_error +:+ s).
Proof. intros. by apply utf8_3. Qed.

Lemma utf8_encode_rune r s : utf8 s → utf8 (encode_rune r +:+ s).
Proof.
  intros Hs. unfold encode_rune. case_if.
  { apply N.ltb_lt in E. apply utf8_1; [|done]. apply in_range_of. lia. }
  apply N.ltb_ge in E. case_if.
  { apply N.ltb_lt in E0. apply utf8_2; [|done]. unfold two_bytes.
    rewrite !in_range_of by (zify; zlia). done. }
  apply N.ltb_ge in E0. unfold is_surrogate. case_if; [by apply utf8_rune_error|].
  rewrite orb_false_iff, andb_false_iff, N.leb_gt, !N.ltb_ge in E1. case_if.
  { apply N.ltb_lt in E2. apply utf8_3; [|done]. unfold three_bytes.
    rewrite N_of_string_of by (zify; zlia).
    rewrite !in_range_of; [done|zify; zlia| |zify; zlia].
    destruct (_ =? 224)%N eqn:?, (_ =? 237)%N eqn:?; rewrite ?N.eqb_eq, ?N.eqb_neq in *; zify; zlia. }
  apply N.ltb_ge in E2. apply utf8_4; [|done]. unfold four_bytes.
  rewrite N_of_string_of by (zify; zlia). rewrite !in_range_of; [done|zify; zlia..| |zify; zlia].
  destruct (_ =? 240)%N eqn:?, (_ =? 244)%N eqn:?; rewrite ?N.eqb_eq, ?N.eqb_neq in *; zify; zlia.
Qed.

Lemma unescape_ascii b c : unescape b = Some c → one_byte c = true.
Proof. all_bytes b; by intros [= <-]. Qed.

Lemma unquote_utf8 s : utf8 (unquote s).
Proof.
  induction s as [s IH] using (induction_ltof1 _ String.length). unfold ltof in IH.
  destruct s as [|a s1]; [constructor|]. destruct (decide (a = backslash)) as [->|Ha].
  - cbn [unquote]. rewrite decide_True by done. destruct s1 as [|b s2]; [constructor|]. case_decide.
    + destruct s2 as [|h1 [|h2 [|h3 [|h4 s6]]]]; try constructor.
      case_if; [|apply utf8_encode_rune, IH; simpl; lia].
      assert (Hr : utf8 (rune_error +:+ unquote s6)) by (apply utf8_rune_error, IH; simpl; lia).
      destruct (getu4 s6 ≫= _); [|done]. do 6 (destruct s6 as [|? s6]; [done|]).
      apply utf8_encode_rune, IH. simpl. lia.
    + destruct (unescape b) eqn:Hu; [|constructor]. apply utf8_1; [by eapply unescape_ascii|].
      apply IH. simpl. lia.
  - destruct (utf8_len (String a s1)) as [n|] eqn:Hn.
    2:{ rewrite unquote_bad by done. apply utf8_rune_error, IH. simpl. lia. }
    simpl in Hn. destruct (one_byte a) eqn:H1.
    { rewrite unquote_1 by done. apply utf8_1, IH; [done|simpl; lia]. }
    destruct s1 as [|b s1]; [done|]. destruct (two_bytes a b) eqn:H2.
    { rewrite unquote_2 by done. apply utf8_2, IH; [done|simpl; lia]. }
    destruct s1 as [|c s1]; [done|]. destruct (three_bytes a b c) eqn:H3.
    { rewrite unquote_3 by done. apply utf8_3, IH; [done|simpl; lia]. }
    destruct s1 as [|d s1]; [done|]. destruct (four_bytes a b c d) eqn:H4; [|done].
    rewrite unquote_4 by done. apply utf8_4, IH; [done|simpl; lia].
Qed.

(** ** Encoding does not change what is read *)

Lemma html_high_inv s b t :
  html s = String b t → high b → ∃ s', s = String b s' ∧ t = html s'.
Proof. intros H Hb. apply html_uncons in H as (s' & ? & ? & _); eauto using high_backslash. Qed.

Lemma utf8_len_html a s : utf8_len (String a s) = None → utf8_len (String a (html s)) = None.
Proof.
  simpl. destruct (one_byte a); [done|].
  destruct (html s) as [|b t] eqn:Hb; [done|]. intros Hs.
  destruct (two_bytes a b) eqn:H2.
  { highs. apply html_high_inv in Hb as (s1 & -> & ->); [|done]. by rewrite H2 in Hs. }
  destruct t as [|c t]; [done|]. destruct (three_bytes a b c) eqn:H3.
  { highs. apply html_high_inv in Hb as (s1 & -> & Hc); [|done].
    symmetry in Hc. apply html_high_inv in Hc as (s2 & -> & _); [|done]. by rewrite H2, H3 in Hs. }
  destruct t as [|d t]; [done|]. destruct (four_bytes a b c d) eqn:H4; [|done].
  highs. apply html_high_inv in Hb as (s1 & -> & Hc); [|done].
  symmetry in Hc. apply html_high_inv in Hc as (s2 & -> & Hd); [|done].
  symmetry in Hd. apply html_high_inv in Hd as (s3 & -> & _); [|done]. by rewrite H2, H3, H4 in Hs.
Qed.

(** A low surrogate is never what [html] escapes. *)
Lemma getu4_html r s : body s → getu4 (html s) ≫= decode_pair r = getu4 s ≫= decode_pair r.
Proof.
  assert (Hpair : ∀ n, (n < 56320 ∨ 57344 <= n)%N → decode_pair r n = None).
  { intros n Hn. unfold decode_pair. case_if; [|done].
    rewrite !andb_true_iff, !N.ltb_lt, !N.leb_le in E. lia. }
  destruct 1 as [|a s Ha Hs|b s Hb Hu Hs|h1 h2 h3 h4 s Hh Hs].
  - done.
  - destruct (body_char_neq a Ha) as [_ Hb].
    assert (Hgeta : ∀ x, getu4 (String a x) ≫= decode_pair r = None).
    { intros x. do 5 (destruct x as [|? x]; [done|]). simpl. by rewrite (bool_decide_eq_false_2 _ Hb). }
    rewrite Hgeta. destruct (html_char a) eqn:Hc.
    + simpl. rewrite Hc. revert Hc. all_bytes a; intros _; apply Hpair; vm_compute; auto.
    + destruct (separator_at a s) eqn:Hl.
      * destruct s as [|b [|c s]]; try done. simpl in *. rewrite Hc, Hl. unfold escape_separator.
        case_if; apply Hpair; vm_compute; auto.
      * by rewrite html_step.
  - change (String backslash (String b s)) with (String backslash (String b "") +:+ s).
    rewrite html_plain_app by (destruct Hu as [? Hu]; revert Hu; by all_bytes b).
    assert (Hget : ∀ x, getu4 (String backslash (String b x)) = None).
    { intros x. do 4 (destruct x as [|? x]; [done|]). simpl. by rewrite (bool_decide_eq_false_2 _ Hb). }
    rewrite !str_cons_app, !str_nil_app, !Hget. done.
  - change (String backslash (String "u" (String h1 (String h2 (String h3 (String h4 s))))))
      with (String backslash (String "u" (String h1 (String h2 (String h3 (String h4 ""))))) +:+ s).
    rewrite html_plain_app by by apply plain_unicode. by rewrite !str_cons_app, !str_nil_app.
Qed.

Lemma getu4_inv s n :
  body s → getu4 s = Some n →
  ∃ h1 h2 h3 h4 s', s = String backslash (String "u" (String h1 (String h2 (String h3 (String h4 s'))))) ∧
    is_hex h1 && is_hex h2 && is_hex h3 && is_hex h4 = true ∧ body s'.
Proof.
  destruct 1 as [|a s Ha Hs|b s Hb Hu Hs|h1 h2 h3 h4 s Hh Hs]; [done|..].
  - destruct (body_char_neq a Ha) as [_ Hb]. do 5 (destruct s as [|? s]; [done|]). simpl.
    by rewrite (bool_decide_eq_false_2 _ Hb).
  - do 4 (destruct s as [|? s]; [done|]). simpl. by rewrite (bool_decide_eq_false_2 _ Hb).
  - intros _. by eexists _, _, _, _, _.
Qed.

Lemma body_tail a s : body (String a s) → a ≠ backslash → body s.
Proof. by inversion 1. Qed.

(** The case of a byte that is no escape. *)
Lemma unquote_html_plain a s :
  a ≠ backslash → body s →
  (∀ s', String.length s' <= String.length s → body s' → unquote (html s') = unquote s') →
  unquote (html (String a s)) = unquote (String a s).
Proof.
  intros Hn Hs IH. destruct (html_char a) eqn:Hc.
  { assert (one_byte a = true) by (revert Hc; by all_bytes a). simpl (html _). rewrite Hc.
    by rewrite unquote_escape_byte, unquote_1, IH. }
  destruct (separator_at a s) eqn:Hsep.
  { destruct s as [|b [|c s]]; try done. simpl in Hsep.
    assert (three_bytes a b c = true ∧ high b ∧ high c) as (H3 & Hb & Hc').
    { unfold line_separator, three_bytes, in_range, high in *.
      rewrite !andb_true_iff, orb_true_iff, !N.eqb_eq in Hsep. destruct Hsep as [[-> ->] [-> | ->]]; by vm_compute. }
    simpl (html _). rewrite Hc, Hsep, (unquote_separator a b), unquote_3, IH; try done; [simpl; lia|].
    apply body_tail, body_tail in Hs; auto with vpp. }
  rewrite html_step by done.
  destruct (utf8_len (String a s)) as [n|] eqn:Hlen.
  2:{ rewrite !unquote_bad by (try apply utf8_len_html; done). by rewrite IH. }
  simpl in Hlen. destruct (one_byte a) eqn:H1; [by rewrite !unquote_1, IH|].
  assert (Hstep : ∀ b x, high b → N_of_ascii b ≠ 226%N → html (String b x) = String b (html x)).
  { intros. apply html_plain; auto with vpp. }
  destruct s as [|b s]; [done|]. destruct (two_bytes a b) eqn:H2.
  { highs. apply body_tail in Hs; [|auto with vpp].
    rewrite Hstep by (done || byte_ranges; lia). rewrite !unquote_2, IH by (done || simpl; lia). done. }
  destruct s as [|c s]; [done|]. destruct (three_bytes a b c) eqn:H3.
  { highs. apply body_tail, body_tail in Hs; [|auto with vpp..].
    rewrite !Hstep by (done || byte_ranges; lia). rewrite !unquote_3, IH by (done || simpl; lia). done. }
  destruct s as [|d s]; [done|]. destruct (four_bytes a b c d) eqn:H4; [|done].
  highs. do 3 (apply body_tail in Hs; [|auto with vpp]).
  rewrite !Hstep by (done || byte_ranges; lia). rewrite !unquote_4, IH by (done || simpl; lia). done.
Qed.

Lemma unquote_html s : body s → unquote (html s) = unquote s.
Proof.
  induction s as [s IH] using (induction_ltof1 _ String.length). unfold ltof in IH.
  destruct 1 as [|a s Ha Hs|b s Hb Hu Hs|h1 h2 h3 h4 s Hh Hs].
  - done.
  - destruct (body_char_neq a Ha) as [_ Hn]. apply unquote_html_plain; [done..|].
    intros. apply IH; [simpl; lia|done].
  - assert (Hi : unquote (html s) = unquote s) by (apply IH; [simpl; lia|done]).
    change (String backslash (String b s)) with (String backslash (String b "") +:+ s).
    rewrite html_plain_app by (destruct Hu as [? Hu]; revert Hu; by all_bytes b).
    rewrite !str_cons_app, !str_nil_app. destruct Hu as [c Hu]. by rewrite !(unquote_letter b c), Hi.
  - assert (Hi : unquote (html s) = unquote s) by (apply IH; [simpl; lia|done]).
    change (String backslash (String "u" (String h1 (String h2 (String h3 (String h4 s))))))
      with (String backslash (String "u" (String h1 (String h2 (String h3 (String h4 ""))))) +:+ s).
    rewrite html_plain_app by by apply plain_unicode. rewrite !str_cons_app, !str_nil_app.
    rewrite !unquote_code, Hi. cbv zeta. case_if; [|done].
    rewrite getu4_html by done. destruct (getu4 s ≫= decode_pair _) as [x|] eqn:Hx; [|done].
    apply bind_Some in Hx as (n & Hx & _). apply getu4_inv in Hx as (g1 & g2 & g3 & g4 & s' & -> & Hg & Hs'); [|done].
    change (String backslash (String "u" (String g1 (String g2 (String g3 (String g4 s'))))))
      with (String backslash (String "u" (String g1 (String g2 (String g3 (String g4 ""))))) +:+ s').
    rewrite html_plain_app by by apply plain_unicode. rewrite !str_cons_app, !str_nil_app. cbn [drop_bytes].
    rewrite IH by (done || simpl; lia). done.
Qed.
