(* ===== verification/JsonText.v ===== *)
(** * Package encoding/json: the text

    [parse] is the scanner of encoding/json and keeps the text of every literal:
    a [jtext] is a JSON text up to the white space between its tokens.
    [print] is [compact] with HTML escaping, which encodes a [json.RawMessage].
    The scanner's limit of 10000 nested values is [max_depth]; its recursion
    runs on fuel, and twice the length of the text is enough ([parse_fuel]).
    Printing and parsing again gives the text with its literals escaped
    ([parse_print]). *)
From Stdlib Require Import Ascii.
From S2P Require Import Prelude GoStrings Json JsonString.

(** ** Numbers *)

(** The digits a text starts with, and the rest. *)
Fixpoint span_digits (s : string) : string * string :=
  match s with
  | String a s' =>
      if is_digit a then let '(d, r) := span_digits s' in (String a d, r) else ("", s)
  | "" => ("", "")
  end.

(** At least one digit. *)
Definition scan_digits (s : string) : option (string * string) :=
  let '(d, r) := span_digits s in if decide (d = "") then None else Some (d, r).

(** The rest of a text after one byte. *)
Definition after (a : ascii) (s : string) : option string :=
  match s with String b s' => if decide (b = a) then Some s' else None | "" => None end.

Definition scan_sign (s : string) : string * string :=
  match after "-" s with Some s' => ("-", s') | None => ("", s) end.

Definition scan_int (s : string) : option (string * string) :=
  match after "0" s with Some s' => Some ("0", s') | None => scan_digits s end.

Definition scan_frac (s : string) : option (string * string) :=
  match after "." s with
  | Some s' => '(d, r) ← scan_digits s'; Some (String "." d, r)
  | None => Some ("", s)
  end.

Definition scan_exp (s : string) : option (string * string) :=
  match s with
  | String c s' =>
      if bool_decide (c = "e"%char) || bool_decide (c = "E"%char) then
        match s' with
        | String x s'' =>
            if bool_decide (x = "+"%char) || bool_decide (x = "-"%char)
            then '(d, r) ← scan_digits s''; Some (String c (String x d), r)
            else '(d, r) ← scan_digits s'; Some (String c d, r)
        | "" => None
        end
      else Some ("", s)
  | "" => Some ("", "")
  end.

(** A number: its literal and the rest. *)
Definition scan_number (s : string) : option (string * string) :=
  let '(sg, s) := scan_sign s in
  '(i, s) ← scan_int s;
  '(f, s) ← scan_frac s;
  '(e, s) ← scan_exp s;
  Some (sg +:+ i +:+ f +:+ e, s).

(** ** Values *)

#[local] Unset Elimination Schemes.
Inductive jtext :=
| TNull
| TBool (b : bool)
| TNum (lit : string)
| TStr (body : string)
| TArr (l : list jtext)
| TObj (l : list (string * jtext)).
#[local] Set Elimination Schemes.

Section Induction.
Context (P : jtext → Prop).
Context (Hnull : P TNull) (Hbool : ∀ b, P (TBool b)) (Hnum : ∀ l, P (TNum l)) (Hstr : ∀ b, P (TStr b)).
Context (Harr : ∀ l, Forall P l → P (TArr l)).
Context (Hobj : ∀ l, Forall (λ kt, P kt.2) l → P (TObj l)).

Fixpoint jtext_ind (t : jtext) : P t :=
  match t with
  | TNull => Hnull
  | TBool b => Hbool b
  | TNum l => Hnum l
  | TStr b => Hstr b
  | TArr l => Harr l ((fix go (l : list jtext) : Forall P l :=
      match l with
      | [] => Forall_nil_2 P
      | x :: l' => Forall_cons_2 P x l' (jtext_ind x) (go l')
      end) l)
  | TObj l => Hobj l ((fix go (l : list (string * jtext)) : Forall (λ kt, P kt.2) l :=
      match l with
      | [] => Forall_nil_2 _
      | x :: l' => Forall_cons_2 (λ kt, P kt.2) x l' (jtext_ind x.2) (go l')
      end) l)
  end.
End Induction.

Definition max_depth : Z := 10000.

Definition is_space (a : ascii) : bool :=
  let n := N_of_ascii a in (n =? 32)%N || (n =? 9)%N || (n =? 10)%N || (n =? 13)%N.

Fixpoint skip_space (s : string) : string :=
  match s with
  | String a s' => if is_space a then skip_space s' else s
  | "" => ""
  end.

(** The rest after white space and one byte. *)
Definition eat (a : ascii) (s : string) : option string := after a (skip_space s).

(** A literal word. *)
Definition scan_word (w : string) (t : jtext) (s : string) : option (jtext * string) :=
  if HasPrefix s w then Some (t, drop_bytes (String.length w) s) else None.

(** The three functions read a value, the elements of an array and the members of
    an object, these up to and with the closing bracket; [d] is the number of
    brackets that may still be opened. *)
Fixpoint parse_value (n : nat) (d : Z) (s : string) {struct n} : option (jtext * string) :=
  match n with
  | O => None
  | S n' =>
      match skip_space s with
      | "" => None
      | String a s' as s =>
          if decide (a = dquote) then '(b, r) ← scan_body s'; Some (TStr b, r)
          else if decide (a = "["%char) then
            if (d <=? 0)%Z then None else
            match eat "]" s' with
            | Some r => Some (TArr [], r)
            | None => '(l, r) ← parse_elems n' (d - 1) s'; Some (TArr l, r)
            end
          else if decide (a = "{"%char) then
            if (d <=? 0)%Z then None else
            match eat "}" s' with
            | Some r => Some (TObj [], r)
            | None => '(l, r) ← parse_members n' (d - 1) s'; Some (TObj l, r)
            end
          else if decide (a = "n"%char) then scan_word "null" TNull s
          else if decide (a = "t"%char) then scan_word "true" (TBool true) s
          else if decide (a = "f"%char) then scan_word "false" (TBool false) s
          else '(lit, r) ← scan_number s; Some (TNum lit, r)
      end
  end
with parse_elems (n : nat) (d : Z) (s : string) {struct n} : option (list jtext * string) :=
  match n with
  | O => None
  | S n' =>
      '(v, r) ← parse_value n' d s;
      match eat "]" r with
      | Some r => Some ([v], r)
      | None => r ← eat "," r; '(l, r) ← parse_elems n' d r; Some (v :: l, r)
      end
  end
with parse_members (n : nat) (d : Z) (s : string) {struct n} :
    option (list (string * jtext) * string) :=
  match n with
  | O => None
  | S n' =>
      r ← eat dquote s;
      '(k, r) ← scan_body r;
      r ← eat ":" r;
      '(v, r) ← parse_value n' d r;
      match eat "}" r with
      | Some r => Some ([(k, v)], r)
      | None => r ← eat "," r; '(l, r) ← parse_members n' d r; Some ((k, v) :: l, r)
      end
  end.

(** [checkValid]: one value and nothing else. *)
Definition parse (s : string) : option jtext :=
  '(t, r) ← parse_value (S (2 * String.length s)) max_depth s;
  if decide (skip_space r = "") then Some t else None.

(** ** Printing *)

Definition quoted (b : string) : string := String dquote (b +:+ String dquote "").
Definition print_member (k v : string) : string := quoted k +:+ ":" +:+ v.

(** [compact] with HTML escaping. *)
Fixpoint print (t : jtext) : string :=
  match t with
  | TNull => "null"
  | TBool b => if b then "true" else "false"
  | TNum lit => lit
  | TStr b => quoted (html b)
  | TArr l => "[" +:+ Join (print <$> l) "," +:+ "]"
  | TObj l => "{" +:+ Join ((λ kt, print_member (html kt.1) (print kt.2)) <$> l) "," +:+ "}"
  end.

(** What is left after printing and parsing. *)
Fixpoint escaped (t : jtext) : jtext :=
  match t with
  | TStr b => TStr (html b)
  | TArr l => TArr (escaped <$> l)
  | TObj l => TObj ((λ kt, (html kt.1, escaped kt.2)) <$> l)
  | t => t
  end.

(** ** Well-formed texts *)

Fixpoint all_digits (s : string) : bool :=
  match s with "" => true | String a s' => is_digit a && all_digits s' end.
Definition digits (s : string) : Prop := s ≠ "" ∧ all_digits s = true.

Inductive number_frac : string → Prop :=
| frac_none : number_frac ""
| frac_some d : digits d → number_frac (String "." d).
Inductive number_exp : string → Prop :=
| exp_none : number_exp ""
| exp_plain c d : c = "e"%char ∨ c = "E"%char → digits d → number_exp (String c d)
| exp_signed c x d :
    c = "e"%char ∨ c = "E"%char → x = "+"%char ∨ x = "-"%char → digits d → number_exp (String c (String x d)).
Definition number_int (s : string) : Prop := s = "0" ∨ digits s ∧ after "0" s = None.

(** The literals of numbers. *)
Inductive number : string → Prop :=
| MkNumber sg i f e :
    sg = "" ∨ sg = "-" → number_int i → number_frac f → number_exp e → number (sg +:+ i +:+ f +:+ e).

#[local] Unset Elimination Schemes.
(** Every literal is one, and at most [d] brackets are nested. *)
Inductive wf_text : Z → jtext → Prop :=
| wf_null d : wf_text d TNull
| wf_bool d b : wf_text d (TBool b)
| wf_num d lit : number lit → wf_text d (TNum lit)
| wf_str d b : body b → wf_text d (TStr b)
| wf_arr d l : (0 < d)%Z → Forall (wf_text (d - 1)) l → wf_text d (TArr l)
| wf_obj d l :
    (0 < d)%Z → Forall (λ kt, body kt.1 ∧ wf_text (d - 1) kt.2) l → wf_text d (TObj l).
#[local] Set Elimination Schemes.
#[export] Hint Constructors wf_text : vpp.

(** ** Lemmas on numbers *)

Lemma after_inv a s r : after a s = Some r → s = String a r.
Proof. destruct s as [|b s]; simpl; [done|]. case_decide; [by intros [= <-]; subst|done]. Qed.

Lemma after_cons a s : after a (String a s) = Some s.
Proof. simpl. by rewrite decide_True. Qed.
Lemma after_neq a b s : b ≠ a → after a (String b s) = None.
Proof. intros. simpl. by rewrite decide_False. Qed.

(** Nothing a number could go on with. *)
Definition ends (r : string) : Prop :=
  match r with
  | "" => True
  | String a _ => is_digit a = false ∧ a ≠ "."%char ∧ a ≠ "e"%char ∧ a ≠ "E"%char
  end.

Definition no_digit (r : string) : Prop :=
  match r with "" => True | String a _ => is_digit a = false end.

Lemma ends_no_digit r : ends r → no_digit r.
Proof. destruct r; [done|]. by intros []. Qed.
#[local] Hint Resolve ends_no_digit : vpp.

Lemma span_digits_sound s d r : span_digits s = (d, r) → s = d +:+ r ∧ all_digits d = true.
Proof.
  revert d r. induction s as [|a s IH]; intros d r; simpl; [by intros [= <- <-]|].
  destruct (is_digit a) eqn:Ha; [|by intros [= <- <-]].
  destruct (span_digits s) as [d' r']. destruct (IH _ _ eq_refl) as [-> Hd]. intros [= <- <-].
  simpl. by rewrite Ha, Hd.
Qed.

Lemma span_digits_complete d r : all_digits d = true → no_digit r → span_digits (d +:+ r) = (d, r).
Proof.
  induction d as [|a d IH]; rewrite ?str_cons_app, ?str_nil_app; simpl.
  - intros _. destruct r; simpl; [done|]. by intros ->.
  - intros [-> ?]%andb_true_iff ?. by rewrite IH.
Qed.

Lemma scan_digits_sound s d r : scan_digits s = Some (d, r) → s = d +:+ r ∧ digits d.
Proof.
  unfold scan_digits. destruct (span_digits s) as [d' r'] eqn:H. case_decide; [done|].
  intros [= <- <-]. apply span_digits_sound in H as [-> ?]. done.
Qed.

Lemma scan_digits_complete d r : digits d → no_digit r → scan_digits (d +:+ r) = Some (d, r).
Proof.
  intros [Hd Ha] Hr. unfold scan_digits. rewrite span_digits_complete by done. by rewrite decide_False.
Qed.

Lemma digits_head d r : digits d → ∃ a s, d +:+ r = String a s ∧ is_digit a = true.
Proof. intros [Hd Ha]. destruct d as [|a d]; [done|]. simpl in Ha. apply andb_true_iff in Ha as [? _]. eauto. Qed.

Lemma scan_frac_sound s f r : scan_frac s = Some (f, r) → s = f +:+ r ∧ number_frac f.
Proof.
  unfold scan_frac. destruct (after "." s) as [s'|] eqn:H.
  - apply after_inv in H as ->. intros ([d r'] & (-> & ?)%scan_digits_sound & [= <- <-])%bind_Some.
    by split; [|constructor].
  - intros [= <- <-]. by split; [|constructor].
Qed.

Lemma scan_frac_complete f r :
  number_frac f → no_digit r → after "." r = None → scan_frac (f +:+ r) = Some (f, r).
Proof.
  intros [|d Hd] Hr Hdot; rewrite ?str_nil_app, ?str_cons_app; unfold scan_frac; [by rewrite Hdot|].
  rewrite after_cons. by rewrite scan_digits_complete.
Qed.

Lemma scan_exp_sound s e r : scan_exp s = Some (e, r) → s = e +:+ r ∧ number_exp e.
Proof.
  unfold scan_exp. destruct s as [|c s]; [intros [= <- <-]; by split; [|constructor]|].
  destruct (bool_decide _ || bool_decide _) eqn:Hc; [|intros [= <- <-]; by split; [|constructor]].
  rewrite orb_true_iff, !bool_decide_eq_true in Hc. destruct s as [|x s]; [done|].
  destruct (bool_decide (x = _) || bool_decide _) eqn:Hx;
    intros ([d r'] & (Hs & ?)%scan_digits_sound & [= <- <-])%bind_Some.
  - rewrite orb_true_iff, !bool_decide_eq_true in Hx. subst s. by split; [|constructor].
  - rewrite Hs. by split; [|constructor].
Qed.

Lemma scan_exp_complete e r : number_exp e → ends r → scan_exp (e +:+ r) = Some (e, r).
Proof.
  intros He Hr. destruct He as [|c d Hc Hd|c x d Hc Hx Hd]; rewrite ?str_nil_app, ?str_cons_app.
  - destruct r as [|a r]; [done|]. destruct Hr as (_ & _ & H1 & H2). simpl.
    by rewrite !bool_decide_eq_false_2 by done.
  - destruct (digits_head d r Hd) as (a & s & Hs & Ha). simpl.
    rewrite (proj2 (orb_true_iff _ _)) by (rewrite !bool_decide_eq_true; tauto). rewrite Hs.
    rewrite !(bool_decide_eq_false_2 (a = _)) by (intros ->; done). simpl. rewrite <- Hs.
    rewrite scan_digits_complete by auto with vpp. done.
  - simpl. rewrite (proj2 (orb_true_iff _ _)) by (rewrite !bool_decide_eq_true; tauto).
    rewrite (proj2 (orb_true_iff _ _)) by (rewrite !bool_decide_eq_true; tauto).
    rewrite scan_digits_complete by auto with vpp. done.
Qed.

Lemma scan_int_sound s i r : scan_int s = Some (i, r) → s = i +:+ r ∧ number_int i.
Proof.
  unfold scan_int. destruct (after "0" s) eqn:H.
  - apply after_inv in H as ->. intros [= <- <-]. by split; [|left].
  - intros [-> Hd]%scan_digits_sound. split; [done|]. right. split; [done|].
    destruct Hd as [Hd _]. destruct i; [done|]. rewrite str_cons_app in H. revert H. simpl. by case_decide.
Qed.

Lemma scan_int_complete i r : number_int i → no_digit r → scan_int (i +:+ r) = Some (i, r).
Proof.
  intros [->|[Hd H0]] Hr; unfold scan_int; [by rewrite str_cons_app, after_cons|].
  destruct Hd as [Hne Hall]. destruct i as [|a i]; [done|].
  replace (after "0" (String a i +:+ r)) with (@None string) by (revert H0; simpl; by case_decide).
  by apply scan_digits_complete.
Qed.

Lemma scan_number_sound s lit r : scan_number s = Some (lit, r) → s = lit +:+ r ∧ number lit.
Proof.
  unfold scan_number. destruct (scan_sign s) as [sg s0] eqn:Hs.
  intros ([i s1] & Hi & ([f s2] & Hf & ([e s3] & He & [= <- <-])%bind_Some)%bind_Some)%bind_Some.
  apply scan_int_sound in Hi as [-> Hi]. apply scan_frac_sound in Hf as [-> Hf].
  apply scan_exp_sound in He as [-> He]. rewrite !str_app_assoc.
  assert (s = sg +:+ i +:+ f +:+ e +:+ s3 ∧ (sg = "" ∨ sg = "-")) as [-> Hsg].
  { revert Hs. unfold scan_sign. destruct (after "-" s) eqn:Ha; intros [= <- ?]; subst; [|by auto].
    apply after_inv in Ha. auto. }
  split; [done|]. by constructor.
Qed.

Lemma number_exp_head e r : number_exp e → ends r → no_digit (e +:+ r) ∧ after "." (e +:+ r) = None.
Proof.
  intros [|c d Hc ?|c x d Hc Hx ?] Hr; rewrite ?str_nil_app, ?str_cons_app.
  - split; [by auto with vpp|]. destruct r; [done|]. destruct Hr as (_ & ? & _). by rewrite after_neq.
  - by destruct Hc as [-> | ->].
  - by destruct Hc as [-> | ->].
Qed.

Lemma scan_number_complete lit r : number lit → ends r → scan_number (lit +:+ r) = Some (lit, r).
Proof.
  intros [sg i f e Hsg Hi Hf He] Hr. destruct (number_exp_head e r He Hr) as [He1 He2].
  assert (Hs : scan_sign ((sg +:+ i +:+ f +:+ e) +:+ r) = (sg, i +:+ f +:+ e +:+ r)).
  { rewrite !str_app_assoc. destruct Hsg as [-> | ->]; [|done]. rewrite str_nil_app. unfold scan_sign.
    assert (after "-" (i +:+ f +:+ e +:+ r) = None) as ->; [|done].
    destruct Hi as [->|[[Hne Hall] _]]; [done|]. destruct i as [|a i]; [done|].
    rewrite str_cons_app. apply after_neq. intros ->. done. }
  unfold scan_number. rewrite Hs. rewrite scan_int_complete; simpl; [|done|].
  2:{ destruct Hf as [|d ?]; [by rewrite str_nil_app|done]. }
  rewrite scan_frac_complete by done. simpl. by rewrite scan_exp_complete.
Qed.

(** ** What is parsed is well formed and shorter *)

Lemma skip_space_length s : String.length (skip_space s) <= String.length s.
Proof. induction s as [|a s IH]; simpl; [done|]. case_if; simpl; lia. Qed.

Lemma eat_length a s r : eat a s = Some r → String.length r < String.length s.
Proof.
  unfold eat. intros H%after_inv. pose proof (skip_space_length s) as Hl. rewrite H in Hl. simpl in Hl. lia.
Qed.

Lemma drop_bytes_length n s : String.length (drop_bytes n s) = String.length s - n.
Proof. revert s. induction n as [|n IH]; intros [|a s]; simpl; auto. Qed.

Lemma scan_word_sound w t s t' r :
  w ≠ "" → s ≠ "" → scan_word w t s = Some (t', r) → String.length r < String.length s ∧ t' = t.
Proof.
  unfold scan_word. intros Hw Hs. case_if; [|done]. intros [= <- <-]. rewrite drop_bytes_length.
  destruct w, s; simpl in *; try done. split; [lia|done].
Qed.

Lemma scan_body_length s b r : scan_body s = Some (b, r) → String.length r < String.length s.
Proof. intros [_ ->]%scan_body_sound. rewrite length_str_app. simpl. lia. Qed.

Lemma number_nonempty lit : number lit → 0 < String.length lit.
Proof.
  intros [sg i f e _ Hi _ _]. rewrite !length_str_app.
  assert (0 < String.length i); [|lia]. destruct Hi as [->|[[Hd _] _]]; [simpl; lia|destruct i; [done|simpl; lia]].
Qed.

Lemma scan_number_length s lit r :
  scan_number s = Some (lit, r) → String.length r < String.length s ∧ number lit.
Proof.
  intros [-> Hn]%scan_number_sound. rewrite length_str_app. apply number_nonempty in Hn as ?. split; [lia|done].
Qed.

Lemma parse_sound n :
  (∀ d s t r, parse_value n d s = Some (t, r) → String.length r < String.length s ∧ wf_text d t) ∧
  (∀ d s l r, parse_elems n d s = Some (l, r) → String.length r < String.length s ∧ Forall (wf_text d) l) ∧
  (∀ d s l r, parse_members n d s = Some (l, r) →
    String.length r < String.length s ∧ Forall (λ kt, body kt.1 ∧ wf_text d kt.2) l).
Proof.
  induction n as [|n (IHv & IHe & IHm)]; [done|]. split_and!; intros d s v r.
  - simpl. pose proof (skip_space_length s) as Hl. destruct (skip_space s) as [|a s']; [done|]. simpl in Hl.
    repeat case_decide.
    + intros ([b r'] & Hb & [= <- <-])%bind_Some. apply scan_body_length in Hb as ?.
      apply scan_body_sound in Hb as [? _]. split; [lia|auto with vpp].
    + destruct (d <=? 0)%Z eqn:Hd; [done|]. apply Z.leb_gt in Hd. destruct (eat _ s') eqn:He.
      * intros [= <- <-]. apply eat_length in He. split; [lia|auto with vpp].
      * intros ([l r'] & [? ?]%IHe & [= <- <-])%bind_Some. split; [lia|auto with vpp].
    + destruct (d <=? 0)%Z eqn:Hd; [done|]. apply Z.leb_gt in Hd. destruct (eat _ s') eqn:He.
      * intros [= <- <-]. apply eat_length in He. split; [lia|auto with vpp].
      * intros ([l r'] & [? ?]%IHm & [= <- <-])%bind_Some. split; [lia|auto with vpp].
    + intros [? ->]%scan_word_sound; [|done..]. simpl in *. split; [lia|auto with vpp].
    + intros [? ->]%scan_word_sound; [|done..]. simpl in *. split; [lia|auto with vpp].
    + intros [? ->]%scan_word_sound; [|done..]. simpl in *. split; [lia|auto with vpp].
    + intros ([b r'] & [? ?]%scan_number_length & [= <- <-])%bind_Some. simpl in *. split; [lia|auto with vpp].
  - simpl. intros ([x r'] & [Hlx Hx]%IHv & H)%bind_Some. destruct (eat "]" r') eqn:He.
    + injection H as <- <-. apply eat_length in He. split; [lia|auto].
    + apply bind_Some in H as (r2 & ?%eat_length & ([l r3] & [? ?]%IHe & [= <- <-])%bind_Some).
      split; [lia|auto].
  - simpl. intros (r1 & ?%eat_length & ([k r2] & Hk & (r3 & ?%eat_length & ([x r4] & [Hlx Hx]%IHv & H)%bind_Some)%bind_Some)%bind_Some)%bind_Some.
    apply scan_body_length in Hk as ?. apply scan_body_sound in Hk as [Hk _].
    destruct (eat "}" r4) eqn:He.
    + injection H as <- <-. apply eat_length in He. split; [lia|auto].
    + apply bind_Some in H as (r5 & ?%eat_length & ([l r6] & [? ?]%IHm & [= <- <-])%bind_Some).
      split; [lia|auto].
Qed.

Lemma parse_wf s t : parse s = Some t → wf_text max_depth t.
Proof.
  unfold parse. intros ([t' r] & Ht & H)%bind_Some. case_decide; [|done]. injection H as <-.
  by apply parse_sound in Ht as [_ ?].
Qed.

(** ** Enough fuel *)

Lemma parse_fuel_ind n :
  (∀ m d s, 2 * String.length s < n → 2 * String.length s < m → parse_value n d s = parse_value m d s) ∧
  (∀ m d s, S (2 * String.length s) < n → S (2 * String.length s) < m → parse_elems n d s = parse_elems m d s) ∧
  (∀ m d s, S (2 * String.length s) < n → S (2 * String.length s) < m → parse_members n d s = parse_members m d s).
Proof.
  induction n as [|n (IHv & IHe & IHm)]; [split_and!; lia|]. split_and!; intros [|m] d s Hn Hm; try lia.
  - simpl. pose proof (skip_space_length s) as Hl. destruct (skip_space s) as [|a s']; [done|]. simpl in Hl.
    repeat case_decide; try done; (destruct (d <=? 0)%Z; [done|]).
    + destruct (eat "]" s'); [done|]. rewrite (IHe m) by lia. done.
    + destruct (eat "}" s'); [done|]. rewrite (IHm m) by lia. done.
  - simpl. rewrite (IHv m) by lia. destruct (parse_value m d s) as [[x r]|] eqn:Hx; [|done]. simpl.
    apply parse_sound in Hx as [? _]. destruct (eat "]" r); [done|]. destruct (eat "," r) as [r'|] eqn:Hr; [|done].
    simpl. apply eat_length in Hr. rewrite (IHe m) by lia. done.
  - simpl. destruct (eat dquote s) as [r1|] eqn:H1; [|done]. simpl. destruct (scan_body r1) as [[k r2]|] eqn:H2; [|done].
    simpl. destruct (eat ":" r2) as [r3|] eqn:H3; [|done]. simpl.
    apply eat_length in H1, H3. apply scan_body_length in H2. rewrite (IHv m) by lia.
    destruct (parse_value m d r3) as [[x r4]|] eqn:Hx; [|done]. simpl.
    apply parse_sound in Hx as [? _]. destruct (eat "}" r4); [done|]. destruct (eat "," r4) as [r'|] eqn:Hr; [|done].
    simpl. apply eat_length in Hr. rewrite (IHm m) by lia. done.
Qed.

(** More fuel never changes the result of the scanner. *)
Lemma parse_fuel n d s :
  2 * String.length s < n → parse_value n d s = parse_value (S (2 * String.length s)) d s.
Proof. intros. apply (parse_fuel_ind n); lia. Qed.

(** ** Parsing what was printed *)

Lemma skip_space_cons a s : is_space a = false → skip_space (String a s) = String a s.
Proof. simpl. by intros ->. Qed.
Lemma eat_here a s : is_space a = false → eat a (String a s) = Some s.
Proof. intros Ha. unfold eat. simpl. rewrite Ha. apply after_cons. Qed.
Lemma eat_other a b s : is_space b = false → b ≠ a → eat a (String b s) = None.
Proof. intros Hb ?. unfold eat. simpl. rewrite Hb. by apply after_neq. Qed.

Lemma number_head lit : number lit → ∃ a s, lit = String a s ∧ (a = "-"%char ∨ is_digit a = true).
Proof.
  intros [sg i f e [-> | ->] Hi _ _]; [|by eexists _, _; split; [|left]].
  rewrite str_nil_app. destruct Hi as [->|[Hd _]]; [by eexists _, _; split; [|right]|].
  destruct (digits_head i (f +:+ e) Hd) as (a & s & -> & ?). eauto.
Qed.

Lemma number_head_other a :
  a = "-"%char ∨ is_digit a = true →
  is_space a = false ∧ a ≠ dquote ∧ a ≠ "["%char ∧ a ≠ "{"%char ∧ a ≠ "n"%char ∧ a ≠ "t"%char ∧
  a ≠ "f"%char ∧ a ≠ "]"%char ∧ a ≠ "}"%char.
Proof. intros [->|H]; [done|]. revert H. by all_bytes a. Qed.

Lemma print_head d t :
  wf_text d t → ∃ a s, print t = String a s ∧ is_space a = false ∧ a ≠ "]"%char ∧ a ≠ "}"%char.
Proof.
  destruct 1 as [|d []|d lit Hl| | |]; try by eexists _, _; split.
  apply number_head in Hl as (a & s & -> & Ha). apply number_head_other in Ha. exists a, s. simpl. tauto.
Qed.

Lemma scan_quoted b r : body b → scan_body (b +:+ String dquote "" +:+ r) = Some (b, r).
Proof. rewrite str_cons_app, str_nil_app. apply scan_body_complete. Qed.

(** Printing and parsing one value, after enough fuel, before [r]. *)
Definition reads_as (d : Z) (t : jtext) : Prop :=
  ∃ N, ∀ n r, N <= n → ends r → parse_value n d (print t +:+ r) = Some (escaped t, r).

Lemma elems_read d l :
  l ≠ [] → Forall (reads_as d) l →
  ∃ N, ∀ n r, N <= n → parse_elems n d (Join (print <$> l) "," +:+ "]" +:+ r) = Some (escaped <$> l, r).
Proof.
  intros Hne Hl. induction Hl as [|t l [N HN] Hl IH]; [done|]. clear Hne. destruct l as [|t' l].
  - exists (S N). intros [|n] r Hn; [lia|]. cbn [Join fmap list_fmap parse_elems].
    by rewrite HN by (done || lia).
  - destruct IH as [N' HN']; [done|]. exists (S (N + N')). intros [|n] r Hn; [lia|].
    change (Join (print <$> t :: t' :: l) ",") with (print t +:+ "," +:+ Join (print <$> t' :: l) ",").
    rewrite !str_app_assoc. cbn [parse_elems]. rewrite HN by (done || lia). cbn [mbind option_bind].
    rewrite str_cons_app, str_nil_app, eat_other, eat_here by done. cbn [mbind option_bind].
    rewrite HN' by lia. done.
Qed.

Lemma members_read d l :
  l ≠ [] → Forall (λ kt : string * jtext, body kt.1 ∧ reads_as d kt.2) l →
  ∃ N, ∀ n r, N <= n →
    parse_members n d (Join ((λ kt, print_member (html kt.1) (print kt.2)) <$> l) "," +:+ "}" +:+ r) =
    Some ((λ kt, (html kt.1, escaped kt.2)) <$> l, r).
Proof.
  intros Hne Hl. induction Hl as [|[k t] l [Hk [N HN]] Hl IH]; [done|]. clear Hne.
  assert (Hmember : ∀ n x, N <= n → ends x →
    parse_members (S n) d (print_member (html k) (print t) +:+ x) =
    match eat "}" x with
    | Some r => Some ([(html k, escaped t)], r)
    | None => r ← eat "," x; '(l, r) ← parse_members n d r; Some ((html k, escaped t) :: l, r)
    end).
  { intros n x Hn Hx. unfold print_member, quoted. rewrite !str_app_assoc, !str_cons_app.
    cbn [parse_members]. rewrite eat_here by done. cbn [mbind option_bind].
    rewrite !str_app_assoc, scan_quoted by by apply body_html. cbn [mbind option_bind].
    rewrite ?str_cons_app, ?str_nil_app, eat_here by done. cbn [mbind option_bind].
    by rewrite HN by done. }
  destruct l as [|kt' l].
  - exists (S N). intros [|n] r Hn; [lia|].
    change (Join ((λ kt, print_member (html kt.1) (print kt.2)) <$> [(k, t)]) ",")
      with (print_member (html k) (print t)).
    rewrite Hmember by (done || lia). rewrite str_cons_app, str_nil_app, eat_here by done. done.
  - destruct IH as [N' HN']; [done|]. exists (S (N + N')). intros [|n] r Hn; [lia|].
    change (Join ((λ kt, print_member (html kt.1) (print kt.2)) <$> (k, t) :: kt' :: l) ",")
      with (print_member (html k) (print t) +:+ "," +:+
        Join ((λ kt, print_member (html kt.1) (print kt.2)) <$> kt' :: l) ",").
    rewrite !str_app_assoc. rewrite Hmember by (done || lia).
    rewrite str_cons_app, str_nil_app, eat_other, eat_here by done. cbn [mbind option_bind].
    rewrite HN' by lia. done.
Qed.

Lemma scan_word_app w t r : scan_word w t (w +:+ r) = Some (t, r).
Proof. unfold scan_word. by rewrite HasPrefix_app, drop_bytes_app. Qed.

Lemma Join_head a s l sep : ∃ x, Join (String a s :: l) sep = String a x.
Proof. destruct l; eexists; done. Qed.

Lemma value_reads t : ∀ d, wf_text d t → reads_as d t.
Proof.
  induction t as [|b|lit|b|l IH|l IH] using jtext_ind; intros d Hwf.
  - exists 1. intros [|n] r Hn _; [lia|]. apply (scan_word_app "null").
  - exists 1. intros [|n] r Hn _; [lia|]. destruct b; [apply (scan_word_app "true")|apply (scan_word_app "false")].
  - exists 1. intros [|n] r Hn Hr; [lia|]. inversion Hwf as [| |? ? Hl| | |]; subst.
    pose proof (scan_number_complete lit r Hl Hr) as Hs.
    apply number_head in Hl as (a & s & -> & Ha). apply number_head_other in Ha as (Hsp & ?).
    cbn [parse_value print]. rewrite str_cons_app in *. rewrite skip_space_cons by done.
    rewrite !decide_False by tauto. rewrite Hs. done.
  - exists 1. intros [|n] r Hn _; [lia|]. inversion Hwf as [| | |? ? Hb| |]; subst.
    cbn [print]. unfold quoted. rewrite str_cons_app, str_app_assoc. cbn [parse_value]. rewrite skip_space_cons by done.
    rewrite decide_True by done. rewrite scan_quoted by by apply body_html. done.
  - inversion Hwf as [| | | |? ? Hd Hl|]; subst.
    destruct l as [|t l].
    { exists 1. intros [|n] r Hn _; [lia|]. simpl. by rewrite (proj2 (Z.leb_gt _ _)). }
    destruct (elems_read (d - 1) (t :: l)) as [N HN]; [done| |].
    { rewrite Forall_forall in IH, Hl |- *. naive_solver. }
    exists (S N). intros [|n] r Hn _; [lia|].
    cbn [print]. rewrite !str_app_assoc, str_cons_app, str_nil_app. cbn [parse_value]. rewrite skip_space_cons by done.
    rewrite decide_False, decide_True by done. rewrite (proj2 (Z.leb_gt _ _)) by done.
    assert (eat "]" (Join (print <$> t :: l) "," +:+ "]" +:+ r) = None) as ->; [|by rewrite HN by lia].
    apply Forall_cons in Hl as [Ht _]. apply print_head in Ht as (a & s & Ht & ? & ? & ?).
    rewrite fmap_cons, Ht. destruct (Join_head a s (print <$> l) ",") as [x ->]. by apply eat_other.
  - inversion Hwf as [| | | | |? ? Hd Hl]; subst.
    destruct l as [|kt l].
    { exists 1. intros [|n] r Hn _; [lia|]. simpl. by rewrite (proj2 (Z.leb_gt _ _)). }
    destruct (members_read (d - 1) (kt :: l)) as [N HN]; [done| |].
    { rewrite Forall_forall in IH, Hl |- *. intros x Hx. destruct (Hl x Hx). auto. }
    exists (S N). intros [|n] r Hn _; [lia|].
    cbn [print]. rewrite !str_app_assoc, str_cons_app, str_nil_app. cbn [parse_value]. rewrite skip_space_cons by done.
    rewrite decide_False, decide_False, decide_True by done. rewrite (proj2 (Z.leb_gt _ _)) by done.
    assert (eat "}" (Join ((λ kt, print_member (html kt.1) (print kt.2)) <$> kt :: l) "," +:+ "}" +:+ r) = None)
      as ->; [|by rewrite HN by lia].
    rewrite fmap_cons. unfold print_member at 1, quoted. rewrite str_cons_app.
    destruct (Join_head dquote ((html kt.1 +:+ String dquote "") +:+ ":" +:+ print kt.2)
      ((λ kt, print_member (html kt.1) (print kt.2)) <$> l) ",") as [x ->]. by apply eat_other.
Qed.

Lemma parse_print t : wf_text max_depth t → parse (print t) = Some (escaped t).
Proof.
  intros [N HN]%value_reads. unfold parse.
  rewrite <- (parse_fuel (S (N + 2 * String.length (print t)))) by lia.
  rewrite <- (str_app_nil (print t)) at 2. rewrite HN by (done || lia). done.
Qed.

(** Printing escapes once. *)
Lemma print_escaped t : print (escaped t) = print t.
Proof.
  induction t as [|b|lit|b|l IH|l IH] using jtext_ind; try done.
  - cbn [print escaped]. by rewrite html_idem.
  - cbn [print escaped]. do 3 f_equal. induction IH as [|t l Ht _ IH]; [done|].
    rewrite !fmap_cons. by rewrite Ht, IH.
  - cbn [print escaped]. do 3 f_equal. induction IH as [|[k t] l Ht _ IH]; [done|].
    rewrite !fmap_cons. simpl in *. by rewrite html_idem, Ht, IH.
Qed.

Lemma escaped_wf d t : wf_text d t → wf_text d (escaped t).
Proof.
  revert d. induction t as [|b|lit|b|l IH|l IH] using jtext_ind; intros d Hwf; try done.
  - inversion Hwf as [| | |? ? Hb| |]; subst. constructor. by apply body_html.
  - inversion Hwf as [| | | |? ? Hd Hl|]; subst. constructor; [done|]. apply Forall_fmap.
    rewrite Forall_forall in IH, Hl |- *. simpl. eauto.
  - inversion Hwf as [| | | | |? ? Hd Hl]; subst. constructor; [done|]. apply Forall_fmap.
    rewrite Forall_forall in IH, Hl |- *. simpl. intros [k t] H. destruct (Hl _ H). split; [by apply body_html|].
    by apply (IH (k, t)).
Qed.

(** ** No control characters *)

(** No byte below 32: in particular, no line break. *)
Fixpoint no_control (s : string) : bool :=
  match s with "" => true | String a s' => (32 <=? N_of_ascii a)%N && no_control s' end.

Lemma no_control_app s1 s2 : no_control (s1 +:+ s2) = no_control s1 && no_control s2.
Proof. induction s1 as [|a s1 IH]; [done|]. rewrite str_cons_app. simpl. by rewrite IH, andb_assoc. Qed.

Lemma no_control_body b : body b → no_control b = true.
Proof.
  induction 1 as [|a s Ha _ IH|b s _ [c Hc] _ IH|h1 h2 h3 h4 s Hh _ IH]; simpl; [done|..].
  - rewrite IH. unfold body_char in Ha. apply andb_true_iff in Ha as [_ ->]. done.
  - rewrite IH. revert Hc. by all_bytes b.
  - rewrite IH. rewrite !andb_true_iff in Hh. destruct Hh as [[[H1 H2] H3] H4].
    assert (∀ h, is_hex h = true → (32 <=? N_of_ascii h)%N = true) as Hhex by (intros h; by all_bytes h).
    by rewrite !Hhex.
Qed.

Lemma no_control_digits s : all_digits s = true → no_control s = true.
Proof.
  induction s as [|a s IH]; simpl; [done|]. intros [Ha ?]%andb_true_iff. rewrite IH by done.
  revert Ha. by all_bytes a.
Qed.

Lemma no_control_number lit : number lit → no_control lit = true.
Proof.
  intros [sg i f e Hsg Hi Hf He]. rewrite !no_control_app.
  replace (no_control sg) with true by by destruct Hsg as [-> | ->].
  replace (no_control i) with true by by destruct Hi as [->|[[_ ?%no_control_digits] _]].
  replace (no_control f) with true by by destruct Hf as [|d [_ ?%no_control_digits]].
  destruct He as [|c d Hc [_ Hd%no_control_digits]|c x d Hc Hx [_ Hd%no_control_digits]]; [done|..];
    simpl; rewrite Hd; [by destruct Hc as [-> | ->]|by destruct Hc as [-> | ->], Hx as [-> | ->]].
Qed.

Lemma no_control_join l sep :
  no_control sep = true → Forall (λ s, no_control s = true) l → no_control (Join l sep) = true.
Proof.
  intros Hsep. induction 1 as [|s l Hs Hl IH]; [done|]. destruct l; [done|].
  change (Join (s :: s0 :: l) sep) with (s +:+ sep +:+ Join (s0 :: l) sep).
  by rewrite !no_control_app, Hs, Hsep, IH.
Qed.

Lemma no_control_quoted b : body b → no_control (quoted b) = true.
Proof. intros ?%no_control_body. unfold quoted. simpl. by rewrite no_control_app, H. Qed.

Lemma no_control_print d t : wf_text d t → no_control (print t) = true.
Proof.
  revert d. induction t as [|b|lit|b|l IH|l IH] using jtext_ind; intros d Hwf; try done.
  - by destruct b.
  - inversion Hwf; subst. by apply no_control_number.
  - inversion Hwf; subst. by apply no_control_quoted, body_html.
  - inversion Hwf as [| | | |? ? Hd Hl|]; subst. cbn [print]. rewrite !no_control_app, no_control_join; [done..|].
    apply Forall_fmap. rewrite Forall_forall in IH, Hl |- *. simpl. eauto.
  - inversion Hwf as [| | | | |? ? Hd Hl]; subst. cbn [print]. rewrite !no_control_app, no_control_join; [done..|].
    apply Forall_fmap. rewrite Forall_forall in IH, Hl |- *. intros [k t] H. destruct (Hl _ H) as [Hk Ht].
    unfold print_member, compose. rewrite !no_control_app, no_control_quoted by by apply body_html.
    pose proof (IH (k, t) H _ Ht) as Hp. cbn [fst snd] in *. by rewrite Hp.
Qed.

Lemma no_control_line s : no_control s = true → has_byte "010" s = false.
Proof.
  induction s as [|a s IH]; simpl; [done|]. intros [Ha ?]%andb_true_iff. rewrite IH by done.
  rewrite bool_decide_eq_false_2; [done|]. by intros ->.
Qed.
