(* ===== verification/JsonDecode.v ===== *)
(** * Package encoding/json: decoding into typed values

    How [json.Unmarshal] fills a struct from a JSON text: members are assigned to
    the field with their name, or else to the field whose name is the same up to
    case; [null] leaves a field alone; a member of the wrong type is an error of
    the whole call.  A decoder of a field takes the text of the member and the
    value so far. *)
From Stdlib Require Import Ascii.
From S2P Require Import Prelude GoStrings Json JsonString JsonText.

(** ** Names of fields *)

Definition to_upper (a : ascii) : ascii :=
  if in_range 97 122 a then ascii_of_N (N_of_ascii a - 32) else a.

(** [foldName]: letters in upper case.  Of the other characters only U+017F and
    U+212A fold to a letter; the rest are left alone, since the names of fields
    are ASCII. *)
Fixpoint fold_name (s : string) : string :=
  match s with
  | "" => ""
  | String a s1 =>
      match s1 with
      | String b s2 =>
          if (N_of_ascii a =? 197)%N && (N_of_ascii b =? 191)%N then String "S" (fold_name s2)
          else match s2 with
          | String c s3 =>
              if (N_of_ascii a =? 226)%N && (N_of_ascii b =? 132)%N && (N_of_ascii c =? 170)%N
              then String "K" (fold_name s3)
              else String (to_upper a) (fold_name s1)
          | "" => String (to_upper a) (fold_name s1)
          end
      | "" => String (to_upper a) ""
      end
  end.

(** The field of a member. *)
Definition match_field (names : list string) (key : string) : option string :=
  if decide (key ∈ names) then Some key
  else head (filter (λ n, fold_name n = fold_name key) names).

(** ** Values *)

(** A decoder: the value so far, and [None] for a type error. *)
Definition decoder (A : Type) : Type := jtext → A → option A.

Definition decode_string : decoder string := λ t old,
  match t with TNull => Some old | TStr b => Some (unquote b) | _ => None end.

Definition decode_bool : decoder bool := λ t old,
  match t with TNull => Some old | TBool b => Some b | _ => None end.

Fixpoint decimal (acc : Z) (s : string) : Z :=
  match s with
  | "" => acc
  | String a s' => decimal (10 * acc + (Z.of_N (N_of_ascii a) - 48)) s'
  end.

(** [strconv.ParseInt(lit, 10, 64)] of a number literal. *)
Definition parse_int64 (lit : string) : option Z :=
  let '(sg, d) := scan_sign lit in
  if bool_decide (d ≠ "") && all_digits d then
    let z := if decide (sg = "") then decimal 0 d else (- decimal 0 d)%Z in
    if (min_int64 <=? z)%Z && (z <=? max_int64)%Z then Some z else None
  else None.

Definition decode_int64 : decoder Z := λ t old,
  match t with TNull => Some old | TNum lit => parse_int64 lit | _ => None end.

(** The members of an object, one after the other, into a struct: [set n v] assigns
    the text [v] to the field named [n]. *)
Definition decode_members {A} (names : list string) (set : string → decoder A)
    (l : list (string * jtext)) (old : A) : option A :=
  foldl (λ acc kv, r ← acc;
    match match_field names (unquote kv.1) with
    | Some n => set n kv.2 r
    | None => Some r
    end) (Some old) l.

Definition decode_struct {A} (names : list string) (set : string → decoder A) : decoder A := λ t old,
  match t with
  | TNull => Some old
  | TObj l => decode_members names set l old
  | _ => None
  end.

(** A map: members with the same key replace each other. *)
Definition members (l : list (string * jtext)) : gmap string jtext :=
  foldl (λ m kv, <[unquote kv.1 := kv.2]> m) ∅ l.

(** ** Integers that were printed *)

Lemma decimal_app acc d s : decimal acc (d +:+ s) = decimal (decimal acc d) s.
Proof. revert acc. induction d as [|a d IH]; intros acc; [done|]. rewrite str_cons_app. simpl. apply IH. Qed.

Lemma all_digits_app s1 s2 : all_digits (s1 +:+ s2) = all_digits s1 && all_digits s2.
Proof. induction s1 as [|a s1 IH]; [done|]. rewrite str_cons_app. simpl. by rewrite IH, andb_assoc. Qed.

Lemma pretty_digit n :
  (n < 10)%N → is_digit (pretty_N_char n) = true ∧ Z.of_N (N_of_ascii (pretty_N_char n)) = (48 + Z.of_N n)%Z ∧
    (n ≠ 0%N → pretty_N_char n ≠ "0"%char).
Proof.
  intros H. assert (n ∈ [0; 1; 2; 3; 4; 5; 6; 7; 8; 9]%N) as Hn by (rewrite !elem_of_cons, elem_of_nil; lia).
  repeat (apply elem_of_cons in Hn as [->|Hn]; [by split_and!|]). by apply elem_of_nil in Hn.
Qed.

Lemma pretty_N_go_digits x s :
  (0 < x)%N → ∃ d, pretty_N_go x s = d +:+ s ∧ digits d ∧ after "0" d = None ∧ decimal 0 d = Z.of_N x.
Proof.
  revert s. induction (N.lt_wf_0 x) as [x _ IH]; intros s Hx. rewrite pretty_N_go_step by done.
  destruct (pretty_digit (x mod 10)%N) as (Hd & Hv & Hz); [by apply N.mod_lt|].
  destruct (decide (x / 10 = 0)%N) as [H0|H0].
  - assert (x < 10)%N by (by apply N.div_small_iff). rewrite (N.mod_small x 10) in * by done.
    rewrite H0, pretty_N_go_0.
    exists (String (pretty_N_char x) ""). split_and!; [done|split; [done|by simpl; rewrite Hd]| |].
    + apply after_neq, Hz. lia.
    + simpl. lia.
  - destruct (IH (x / 10)%N) with (String (pretty_N_char (x mod 10)) s) as (d & Hg & [Hne Hall] & Hf & Hdec).
    { by apply N.div_lt. } { by apply N.neq_0_lt_0. }
    exists (d +:+ String (pretty_N_char (x mod 10)) "").
    rewrite Hg, str_app_assoc. split_and!; [done| | |].
    + split; [by destruct d|]. rewrite all_digits_app, Hall. simpl. by rewrite Hd.
    + destruct d; [done|]. revert Hf. rewrite str_cons_app. simpl. by case_decide.
    + rewrite decimal_app, Hdec. cbn [decimal]. rewrite Hv.
      pose proof (N.div_mod x 10 ltac:(done)) as Hx10. revert Hx10.
      generalize (x / 10)%N (x mod 10)%N. lia.
Qed.

Lemma pretty_N_digits (n : N) : digits (pretty n) ∧ number_int (pretty n) ∧ decimal 0 (pretty n) = Z.of_N n.
Proof.
  unfold pretty, pretty_N. case_decide as Hn; [subst; split_and!; [done|by left|done]|].
  destruct (pretty_N_go_digits n "") as (d & -> & ? & ? & ?); [lia|]. rewrite str_app_nil.
  split_and!; [done|by right|done].
Qed.

Lemma pretty_Z_cases (z : Z) :
  ∃ sg n, pretty z = sg +:+ pretty n ∧ (sg = "" ∧ z = Z.of_N n ∨ sg = "-" ∧ z = (- Z.of_N n)%Z).
Proof.
  destruct z as [|p|p]; unfold pretty at 1; simpl.
  - exists "", 0%N. split; [done|by left].
  - exists "", (Npos p). split; [by rewrite str_nil_app|by left].
  - exists "-", (Npos p). split; [done|by right].
Qed.

Lemma number_pretty (z : Z) : number (pretty z).
Proof.
  destruct (pretty_Z_cases z) as (sg & n & -> & Hsg). destruct (pretty_N_digits n) as (_ & Hi & _).
  rewrite <- (str_app_nil (pretty n)), <- (str_app_nil ""). constructor; [|done|constructor..].
  destruct Hsg as [[-> _]|[-> _]]; auto.
Qed.

Lemma parse_int64_pretty (z : Z) : in_int64 z → parse_int64 (pretty z) = Some z.
Proof.
  intros Hz. destruct (pretty_Z_cases z) as (sg & n & -> & Hsg).
  destruct (pretty_N_digits n) as ([Hne Hall] & _ & Hv). unfold parse_int64, scan_sign.
  assert (after "-" (pretty n) = None) as Hdash.
  { destruct (pretty n) as [|a s]; [done|]. apply after_neq. intros ->. done. }
  unfold in_int64 in Hz. destruct Hsg as [[-> ->]|[-> ->]].
  - rewrite str_nil_app, Hdash, Hall, bool_decide_eq_true_2 by done. simpl. rewrite Hv.
    by rewrite !(proj2 (Z.leb_le _ _)) by lia.
  - rewrite str_cons_app, str_nil_app, after_cons, Hall, bool_decide_eq_true_2 by done. simpl. rewrite Hv.
    by rewrite !(proj2 (Z.leb_le _ _)) by lia.
Qed.

(** ** Members *)

Lemma members_list_to_map l :
  NoDup ((λ kv, unquote kv.1) <$> l) → members l = list_to_map ((λ kv, (unquote kv.1, kv.2)) <$> l).
Proof.
  intros Hl. unfold members.
  assert (∀ m, foldl (λ m kv, <[unquote kv.1 := kv.2]> m) m l =
    list_to_map ((λ kv, (unquote kv.1, kv.2)) <$> l) ∪ m) as ->; [|by rewrite (right_id_L ∅ (∪))].
  induction l as [|[k v] l IH]; intros m; simpl; [by rewrite (left_id_L ∅ (∪))|].
  rewrite fmap_cons in Hl. apply NoDup_cons in Hl as [Hk Hl]. rewrite IH by done. cbn [fst snd] in *.
  rewrite <- insert_union_r; [by rewrite insert_union_l|].
  apply not_elem_of_list_to_map_1. by rewrite <- list_fmap_compose.
Qed.

Lemma members_Forall (P : string → jtext → Prop) l :
  Forall (λ kv, P (unquote kv.1) kv.2) l → map_Forall P (members l).
Proof.
  intros Hl. unfold members. assert (map_Forall P ∅) as Hm by apply map_Forall_empty.
  revert Hm. generalize (∅ : gmap string jtext). induction Hl as [|kv l Hkv Hl IH]; intros m Hm; simpl; [done|].
  apply IH. by apply map_Forall_insert_2.
Qed.

(** What every assignment keeps, decoding a struct keeps. *)
Lemma decode_struct_inv {A} (P : A → Prop) names set t (old r : A) :
  (∀ n v x y, P x → set n v x = Some y → P y) → P old → decode_struct names set t old = Some r → P r.
Proof.
  intros Hset Hold. destruct t as [| | | | |l]; simpl; try done; [by intros [= <-]|].
  unfold decode_members. revert old Hold. induction l as [|[k v] l IH]; intros old Hold; simpl; [by intros [= <-]|].
  assert (Hnone : foldl (λ acc kv, r ← acc; match match_field names (unquote kv.1) with
    | Some n => set n kv.2 r | None => Some r end) (@None A) l = None) by by clear; induction l.
  destruct (match_field _ _) as [n|]; [|by apply IH].
  destruct (set n v old) as [y|] eqn:Hy; [apply IH; by eapply Hset|by rewrite Hnone].
Qed.

Lemma parse_int64_range lit z : parse_int64 lit = Some z → in_int64 z.
Proof.
  unfold parse_int64. destruct (scan_sign lit) as [sg d]. case_if; [|done]. cbv zeta. case_if; [|done].
  intros [= <-]. unfold in_int64. rewrite andb_true_iff, !Z.leb_le in *. done.
Qed.

Lemma decode_int64_range t old z : in_int64 old → decode_int64 t old = Some z → in_int64 z.
Proof. destruct t; simpl; try done; [by intros ? [= <-]|intros _; apply parse_int64_range]. Qed.
