(* ===== verification/Sha256.v ===== *)
(** * Packages crypto/sha256, crypto/hmac and encoding/hex

    SHA-256 (FIPS 180-4) on 32-bit words, HMAC (RFC 2104) over it, and the
    hexadecimal encoding of the digest.  The published test vectors evaluate to
    their digests. *)
From Stdlib Require Import Ascii.
From S2P Require Import Prelude GoStrings.
#[local] Open Scope Z_scope.

(** ** Words of 32 bits *)

Definition mask32 : Z := 2 ^ 32 - 1.
Definition add32 (x y : Z) : Z := Z.land (x + y) mask32.
Definition rotr (n x : Z) : Z := Z.land (Z.lor (Z.shiftr x n) (Z.shiftl x (32 - n))) mask32.
Definition not32 (x : Z) : Z := Z.lxor x mask32.

Definition Ch (x y z : Z) : Z := Z.lxor (Z.land x y) (Z.land (not32 x) z).
Definition Maj (x y z : Z) : Z := Z.lxor (Z.lxor (Z.land x y) (Z.land x z)) (Z.land y z).
Definition Sigma0 (x : Z) : Z := Z.lxor (Z.lxor (rotr 2 x) (rotr 13 x)) (rotr 22 x).
Definition Sigma1 (x : Z) : Z := Z.lxor (Z.lxor (rotr 6 x) (rotr 11 x)) (rotr 25 x).
Definition sigma0 (x : Z) : Z := Z.lxor (Z.lxor (rotr 7 x) (rotr 18 x)) (Z.shiftr x 3).
Definition sigma1 (x : Z) : Z := Z.lxor (Z.lxor (rotr 17 x) (rotr 19 x)) (Z.shiftr x 10).

(** The first 64 primes. *)
Definition primes : list Z :=
  let numbers := Z.of_nat <$> seq 2 310 in
  filter (λ p, forallb (λ d, (d * d >? p) || negb (p mod d =? 0)) numbers = true) numbers.

(** The greatest number of [bits] bits whose [k]-th power is at most [n]. *)
Definition root (k bits n : Z) : Z :=
  foldl (λ r b, if (r + 2 ^ b) ^ k <=? n then r + 2 ^ b else r) 0 (reverse (Z.of_nat <$> seq 0 (Z.to_nat bits))).

(** The first 32 bits of the fractional part of the [k]-th root. *)
Definition root_fraction (k n : Z) : Z := Z.land (root k 40 (n * 2 ^ (32 * k))) mask32.

(** Cube roots of the primes. *)
Definition round_constants : list Z := Eval vm_compute in root_fraction 3 <$> primes.

(** The eight words of the hash. *)
Record hash := MkHash { h_a : Z; h_b : Z; h_c : Z; h_d : Z; h_e : Z; h_f : Z; h_g : Z; h_h : Z }.

(** Square roots of the first eight primes. *)
Definition initial : hash :=
  Eval vm_compute in
  match root_fraction 2 <$> primes with
  | a :: b :: c :: d :: e :: f :: g :: h :: _ => MkHash a b c d e f g h
  | _ => MkHash 0 0 0 0 0 0 0 0
  end.

(** ** The message schedule *)

(** [n] further words; the words so far, the last one first. *)
Fixpoint extend (n : nat) (w : list Z) : list Z :=
  match n with
  | O => w
  | S n' =>
      let at_ i := nth i w 0 in
      extend n' (add32 (add32 (sigma1 (at_ 1%nat)) (at_ 6%nat)) (add32 (sigma0 (at_ 14%nat)) (at_ 15%nat)) :: w)
  end.
Definition schedule (block : list Z) : list Z := reverse (extend 48 (reverse block)).

Definition round (h : hash) (kw : Z * Z) : hash :=
  let '(MkHash a b c d e f g h') := h in
  let t1 := add32 (add32 h' (Sigma1 e)) (add32 (Ch e f g) (add32 kw.1 kw.2)) in
  let t2 := add32 (Sigma0 a) (Maj a b c) in
  MkHash (add32 t1 t2) a b c (add32 d t1) e f g.

Definition compress (h : hash) (block : list Z) : hash :=
  let h' := foldl round h (zip round_constants (schedule block)) in
  MkHash (add32 (h_a h) (h_a h')) (add32 (h_b h) (h_b h')) (add32 (h_c h) (h_c h')) (add32 (h_d h) (h_d h'))
    (add32 (h_e h) (h_e h')) (add32 (h_f h) (h_f h')) (add32 (h_g h) (h_g h')) (add32 (h_h h) (h_h h')).

(** ** Messages *)

(** The [n] low bytes of a number, the highest first. *)
Fixpoint big_endian (n : nat) (x : Z) : list Z :=
  match n with O => [] | S n' => Z.land (Z.shiftr x (8 * Z.of_nat n')) 255 :: big_endian n' x end.

(** A one bit, zeros up to 56 bytes modulo 64, and the length in bits. *)
Definition pad (m : list Z) : list Z :=
  let n := Z.of_nat (length m) in
  m ++ [128] ++ replicate (Z.to_nat ((55 - n) `mod` 64)) 0 ++ big_endian 8 (8 * n).

Fixpoint words (m : list Z) : list Z :=
  match m with
  | a :: b :: c :: d :: m' =>
      Z.lor (Z.lor (Z.shiftl a 24) (Z.shiftl b 16)) (Z.lor (Z.shiftl c 8) d) :: words m'
  | _ => []
  end.

(** Blocks of 16 words; [n] is their number. *)
Fixpoint hash_blocks (n : nat) (h : hash) (w : list Z) : hash :=
  match n with O => h | S n' => hash_blocks n' (compress h (take 16 w)) (drop 16 w) end.

Definition sha256 (m : list Z) : list Z :=
  let w := words (pad m) in
  let h := hash_blocks (length w / 16) initial w in
  mjoin (big_endian 4 <$> [h_a h; h_b h; h_c h; h_d h; h_e h; h_f h; h_g h; h_h h]).

Definition block_size : nat := 64.

Definition hmac (key m : list Z) : list Z :=
  let key := if (block_size <? length key)%nat then sha256 key else key in
  let key := key ++ replicate (block_size - length key) 0 in
  sha256 ((Z.lxor 0x5c <$> key) ++ sha256 ((Z.lxor 0x36 <$> key) ++ m)).

(** ** Strings *)

Fixpoint bytes_of (s : string) : list Z :=
  match s with "" => [] | String a s' => Z.of_N (N_of_ascii a) :: bytes_of s' end.

Definition hex_char (x : Z) : ascii := ascii_of_N (Z.to_N (if x <? 10 then 48 + x else 87 + x)).

(** [hex.EncodeToString]. *)
Fixpoint EncodeToString (l : list Z) : string :=
  match l with
  | [] => ""
  | x :: l' => String (hex_char (Z.shiftr x 4)) (String (hex_char (Z.land x 15)) (EncodeToString l'))
  end.

Definition hmac_hex (key m : string) : string := EncodeToString (hmac (bytes_of key) (bytes_of m)).

(** FIPS 180-4 and RFC 4231. *)
Example sha256_abc :
  EncodeToString (sha256 (bytes_of "abc")) =
  "ba7816bf8f01cfea414140de5dae2223b00361a396177a9cb410ff61f20015ad".
Proof. by vm_compute. Qed.
Example sha256_two_blocks :
  EncodeToString (sha256 (bytes_of "abcdbcdecdefdefgefghfghighijhijkijkljklmklmnlmnomnopnopq")) =
  "248d6a61d20638b8e5c026930c3e6039a33ce45964ff2167f6ecedd419db06c1".
Proof. by vm_compute. Qed.
Example hmac_jefe :
  hmac_hex "Jefe" "what do ya want for nothing?" =
  "5bdcc146bf60754e6a042426089575c75a003f089d2739839dec58b964ec3843".
Proof. by vm_compute. Qed.
Example hmac_long_key :
  EncodeToString (hmac (replicate 131 0xaa) (bytes_of "Test Using Larger Than Block-Size Key - Hash Key First")) =
  "60e431591ee0b67f0d8a26aacbf5b77f8e0bc6213728c5140546040f0ee37f54".
Proof. by vm_compute. Qed.

(** ** The digest is 64 hexadecimal digits *)

Definition is_byte (x : Z) : Prop := 0 <= x < 256.

Lemma big_endian_bytes n x : Forall is_byte (big_endian n x) ∧ length (big_endian n x) = n.
Proof.
  induction n as [|n [IH1 IH2]]; simpl; [done|]. split; [|lia]. constructor; [|done].
  change 255 with (Z.ones 8). rewrite Z.land_ones by lia. apply Z.mod_pos_bound. lia.
Qed.

Lemma sha256_bytes m : Forall is_byte (sha256 m) ∧ length (sha256 m) = 32%nat.
Proof.
  unfold sha256. generalize (hash_blocks (length (words (pad m)) / 16) initial (words (pad m))). intros h.
  cbn [fmap list_fmap mjoin list_join]. split.
  - repeat apply Forall_app_2; try apply big_endian_bytes. constructor.
  - rewrite !length_app, !(proj2 (big_endian_bytes _ _)). done.
Qed.

Fixpoint hex_text (s : string) : bool :=
  match s with
  | "" => true
  | String a s' =>
      let n := N_of_ascii a in
      ((48 <=? n)%N && (n <=? 57)%N || (97 <=? n)%N && (n <=? 102)%N) && hex_text s'
  end.

Lemma hex_char_text x s : 0 <= x < 16 → hex_text (String (hex_char x) s) = hex_text s.
Proof.
  intros Hx. assert (x ∈ [0; 1; 2; 3; 4; 5; 6; 7; 8; 9; 10; 11; 12; 13; 14; 15]) as H
    by (rewrite !elem_of_cons, elem_of_nil; lia).
  repeat (apply elem_of_cons in H as [->|H]; [done|]). by apply elem_of_nil in H.
Qed.

Lemma EncodeToString_hex l :
  Forall is_byte l → hex_text (EncodeToString l) = true ∧ String.length (EncodeToString l) = (2 * length l)%nat.
Proof.
  induction 1 as [|x l Hx Hl [IH1 IH2]]; [done|]. cbn [EncodeToString]. rewrite !hex_char_text.
  - split; [done|]. simpl in *. lia.
  - change 15 with (Z.ones 4). rewrite Z.land_ones by lia. apply Z.mod_pos_bound. lia.
  - unfold is_byte in Hx. rewrite Z.shiftr_div_pow2 by lia. zlia.
Qed.

Lemma hmac_digest key m : ∃ x, hmac key m = sha256 x.
Proof. unfold hmac. by eexists. Qed.

Lemma hmac_hex_text key m : hex_text (hmac_hex key m) = true ∧ String.length (hmac_hex key m) = 64%nat.
Proof.
  unfold hmac_hex. destruct (hmac_digest (bytes_of key) (bytes_of m)) as [x ->].
  destruct (sha256_bytes x) as [Hs Hn]. destruct (EncodeToString_hex _ Hs) as [H1 H2].
  split; [exact H1|]. by rewrite H2, Hn.
Qed.
