(* ===== verification/DeviceAuth.v ===== *)
(** * Package internal/deviceauth

    Shared secrets of devices, and signatures over the topic and the content of
    a message.  A payload is a JSON object; the signature covers its canonical
    text, with the members sorted and the signature itself taken out. *)
From Stdlib Require Import Ascii.
From S2P Require Import Prelude GoStrings GoTime Json JsonString JsonText JsonDecode Sha256.

Definition Field : string := "auth".

Record Auth := MkAuth { au_Timestamp : Z; au_Signature : string }.

Abbreviation Keys := (gmap string string).

(** The errors of the package. *)
Inductive AuthError :=
| KeySyntax (part : string)
| KeyEmpty (part : string)
| MissingKey (deviceID : string)
| BadPayload
| NotAnObject
| MissingAuth
| BadAuth
| IncompleteAuth
| OutsideSkew
| BadSignature.

(** ** Keys *)

(** The loop of [ParseKeys]. *)
Fixpoint parse_parts (parts : list string) (keys : Keys) : AuthError + Keys :=
  match parts with
  | [] => inr keys
  | part :: parts' =>
      let part := TrimSpace part in
      if decide (part = "") then parse_parts parts' keys
      else match Cut part "=" with
      | None => inl (KeySyntax part)
      | Some (id, secret) =>
          let id := TrimSpace id in
          let secret := TrimSpace secret in
          if decide (id = "" ∨ secret = "") then inl (KeyEmpty part)
          else parse_parts parts' (<[id := secret]> keys)
      end
  end.
Definition ParseKeys (raw : string) : AuthError + Keys := parse_parts (Split raw ",") ∅.

Definition Enabled (k : Keys) : bool := (0 <? size k)%nat.

(** ** Payloads *)

(** A JSON object as a map from its keys to the texts of their values. *)
Definition payloadMap (payload : string) : AuthError + gmap string jtext :=
  match parse payload with
  | Some TNull => inl NotAnObject
  | Some (TObj l) => inr (members l)
  | _ => inl BadPayload
  end.

(** [json.Marshal] of the map, whose keys it sorts. *)
Definition marshal_map (msg : gmap string jtext) : string :=
  "{" +:+ Join ((λ kv, marshal_string kv.1 +:+ ":" +:+ print kv.2) <$>
    by_key (map_to_list msg)) "," +:+ "}".

(** [mustJSON] of an [Auth]; an empty signature is omitted. *)
Definition mustJSON (auth : Auth) : jtext :=
  TObj (("timestamp", TNum (pretty (au_Timestamp auth))) ::
    (if decide (au_Signature auth = "") then []
     else [("signature", TStr (escape_all (au_Signature auth)))])).

Definition signature (topic canonical secret : string) : string :=
  hmac_hex secret (topic +:+ String "010" canonical).

(** ** Signing *)

Definition SignPayload (topic payload secret : string) (now : Time) : AuthError + string :=
  match payloadMap payload with
  | inl err => inl err
  | inr msg =>
      let auth := MkAuth (Unix now) "" in
      let msg := <[Field := mustJSON auth]> msg in
      let canonical := marshal_map msg in
      let auth := MkAuth (au_Timestamp auth) (signature topic canonical secret) in
      let msg := <[Field := mustJSON auth]> msg in
      inr (marshal_map msg)
  end.

(** ** Verifying *)

(** [json.Unmarshal] into an [Auth]. *)
Definition decode_auth (raw : jtext) : option Auth :=
  decode_struct ["timestamp"; "signature"] (λ n v a,
    if decide (n = "timestamp")
    then z ← decode_int64 v (au_Timestamp a); Some (MkAuth z (au_Signature a))
    else s ← decode_string v (au_Signature a); Some (MkAuth (au_Timestamp a) s))
    raw (MkAuth 0 "").

(** The timestamp is too far from now. *)
Definition outside_skew (auth : Auth) (now : Time) (maxSkew : Z) : bool :=
  let ts := time_Unix (au_Timestamp auth) in
  (0 <? maxSkew)%Z && ((maxSkew <? Sub now ts)%Z || (maxSkew <? Sub ts now)%Z).

Definition VerifyPayload (topic deviceID payload : string) (keys : Keys) (now : Time) (maxSkew : Z) :
    option AuthError :=
  if negb (Enabled keys) then None
  else match keys !! deviceID with
  | None => Some (MissingKey deviceID)
  | Some secret =>
      match payloadMap payload with
      | inl err => Some err
      | inr msg =>
          match msg !! Field with
          | None => Some MissingAuth
          | Some rawAuth =>
              match decode_auth rawAuth with
              | None => Some BadAuth
              | Some auth =>
                  if (au_Timestamp auth =? 0)%Z || bool_decide (au_Signature auth = "")
                  then Some IncompleteAuth
                  else if outside_skew auth now maxSkew then Some OutsideSkew
                  else
                    let expectedAuth := MkAuth (au_Timestamp auth) "" in
                    let canonical := marshal_map (<[Field := mustJSON expectedAuth]> msg) in
                    if decide (signature topic canonical secret = au_Signature auth)
                    then None else Some BadSignature
              end
          end
      end
  end.

(** ** The text of a payload *)

(** A content that may come from a payload. *)
Definition wf_message (msg : gmap string jtext) : Prop :=
  map_Forall (λ k v, utf8 k ∧ wf_text (max_depth - 1) v) msg.

Lemma payloadMap_wf payload msg : payloadMap payload = inr msg → wf_message msg.
Proof.
  unfold payloadMap. destruct (parse payload) as [[| | | | |l]|] eqn:Hp; try done. intros [= <-].
  apply parse_wf in Hp. inversion Hp as [| | | | |? ? Hd Hl]; subst.
  apply members_Forall. eapply Forall_impl; [exact Hl|]. intros [k v] [Hk Hv]. split; [apply unquote_utf8|done].
Qed.


(** The printed members. *)
Definition member_texts (msg : gmap string jtext) : list (string * jtext) :=
  (λ kv, (escape_all kv.1, kv.2)) <$> by_key (map_to_list msg).

Lemma marshal_map_print msg : marshal_map msg = print (TObj (member_texts msg)).
Proof.
  unfold marshal_map, member_texts. cbn [print]. rewrite <- list_fmap_compose. do 3 f_equal.
  apply list_fmap_ext. intros _ [k v] _. unfold compose. cbn [fst snd]. rewrite html_escape_all.
  unfold marshal_string, print_member, quoted, quote_mark. by rewrite !str_cons_app, !str_app_assoc.
Qed.

Lemma member_texts_wf msg : wf_message msg → wf_text max_depth (TObj (member_texts msg)).
Proof.
  intros Hm. constructor; [done|]. apply Forall_fmap. rewrite by_key_perm. apply Forall_forall.
  intros [k v] [Hk Hv]%elem_of_map_to_list%Hm. split; [apply body_escape_all|done].
Qed.

Lemma member_texts_keys msg :
  wf_message msg →
  (λ kv, (unquote kv.1, kv.2)) <$> ((λ kv, (html kv.1, escaped kv.2)) <$> member_texts msg) =
  prod_map id escaped <$> by_key (map_to_list msg).
Proof.
  intros Hm. unfold member_texts. rewrite <- !list_fmap_compose. apply list_fmap_ext.
  intros i [k v] Hi. unfold compose, prod_map. cbn [fst snd]. rewrite html_escape_all, unquote_escape; [done|].
  apply list_elem_of_lookup_2 in Hi. rewrite by_key_perm in Hi. by apply elem_of_map_to_list, Hm in Hi as [? _].
Qed.

(** What is printed is read back, with its literals escaped. *)
Lemma payloadMap_marshal msg : wf_message msg → payloadMap (marshal_map msg) = inr (escaped <$> msg).
Proof.
  intros Hm. unfold payloadMap. rewrite marshal_map_print, parse_print by by apply member_texts_wf.
  cbn [escaped]. pose proof (member_texts_keys msg Hm) as Hk. f_equal.
  assert (Hnd : NoDup ((prod_map id escaped <$> by_key (map_to_list msg)).*1)).
  { rewrite <- list_fmap_compose, by_key_perm. unfold compose, prod_map. apply NoDup_fst_map_to_list. }
  rewrite members_list_to_map.
  - rewrite Hk, list_to_map_fmap. f_equal. rewrite <- (list_to_map_to_list msg) at 2.
    apply list_to_map_proper; [|apply by_key_perm]. rewrite by_key_perm. apply NoDup_fst_map_to_list.
  - rewrite <- Hk, <- !list_fmap_compose in Hnd. by rewrite <- list_fmap_compose.
Qed.

Lemma marshal_map_escaped msg : marshal_map (escaped <$> msg) = marshal_map msg.
Proof.
  unfold marshal_map. do 3 f_equal.
  rewrite map_to_list_fmap, by_key_fmap, <- list_fmap_compose. apply list_fmap_ext. intros _ [k v] _. unfold compose. simpl.
  by rewrite print_escaped.
Qed.

Lemma wf_message_insert msg k v :
  wf_message msg → utf8 k → wf_text (max_depth - 1) v → wf_message (<[k := v]> msg).
Proof. intros. by apply map_Forall_insert_2. Qed.

Lemma wf_message_escaped msg : wf_message msg → wf_message (escaped <$> msg).
Proof.
  intros Hm k v. rewrite lookup_fmap, fmap_Some. intros (v' & [Hk Hv]%Hm & ->). split; [done|by apply escaped_wf].
Qed.

(** ** The member that holds the signature *)

Lemma hex_utf8 s : hex_text s = true → utf8 s.
Proof.
  induction s as [|a s IH]; simpl; [constructor|]. intros [Ha Hs]%andb_true_iff. apply utf8_1; [|auto].
  revert Ha. by all_bytes a.
Qed.

(** An [Auth] that can be written and read back. *)
Definition wf_auth (auth : Auth) : Prop := in_int64 (au_Timestamp auth) ∧ utf8 (au_Signature auth).

Lemma mustJSON_wf auth d : (0 < d)%Z → wf_text d (mustJSON auth).
Proof.
  intros Hd. unfold mustJSON. constructor; [done|].
  constructor; [split; [by apply body_check|constructor; apply number_pretty]|].
  case_decide; [by constructor|]. constructor; [|by constructor].
  split; [by apply body_check|constructor; apply body_escape_all].
Qed.

Lemma mustJSON_escaped auth : escaped (mustJSON auth) = mustJSON auth.
Proof.
  unfold mustJSON. cbn [escaped]. rewrite fmap_cons. case_decide; [done|].
  cbn [fmap list_fmap fst snd escaped]. by rewrite html_escape_all.
Qed.

Lemma field_timestamp : match_field ["timestamp"; "signature"] (unquote "timestamp") = Some "timestamp".
Proof. by vm_compute. Qed.
Lemma field_signature : match_field ["timestamp"; "signature"] (unquote "signature") = Some "signature".
Proof. by vm_compute. Qed.

Lemma decode_mustJSON auth : wf_auth auth → decode_auth (mustJSON auth) = Some auth.
Proof.
  destruct auth as [ts sig]. intros [Ht Hs]. cbn [au_Timestamp au_Signature] in *.
  unfold mustJSON, decode_auth. cbn [decode_struct decode_members foldl mbind option_bind fst snd au_Timestamp au_Signature].
  rewrite field_timestamp, decide_True by done. cbn [decode_int64]. rewrite parse_int64_pretty by done.
  cbn [mbind option_bind au_Signature]. case_decide as Hsig; [by subst|].
  cbn [foldl mbind option_bind fst snd]. rewrite field_signature, decide_False by done.
  cbn [decode_string]. by rewrite unquote_escape by done.
Qed.

(** ** Signing, then reading *)

Lemma signature_hex topic canonical secret :
  utf8 (signature topic canonical secret) ∧ signature topic canonical secret ≠ "".
Proof.
  unfold signature. destruct (hmac_hex_text secret (topic +:+ String "010" canonical)) as [Hh Hl].
  split; [by apply hex_utf8|]. intros H. by rewrite H in Hl.
Qed.

Lemma utf8_Field : utf8 Field.
Proof. repeat (apply utf8_1; [done|]). constructor. Qed.

(** The content of a signed payload. *)
Lemma signed_content topic payload secret now signed :
  SignPayload topic payload secret now = inr signed →
  ∃ msg, payloadMap payload = inr msg ∧ wf_message msg ∧
    let sign := signature topic (marshal_map (<[Field := mustJSON (MkAuth (Unix now) "")]> msg)) secret in
    payloadMap signed = inr (<[Field := mustJSON (MkAuth (Unix now) sign)]> (escaped <$> msg)).
Proof.
  unfold SignPayload. destruct (payloadMap payload) as [|msg] eqn:Hp; [done|]. intros [= <-].
  exists msg. apply payloadMap_wf in Hp as Hm. split_and!; [done..|].
  rewrite insert_insert, decide_True by done. cbn [au_Timestamp].
  rewrite payloadMap_marshal; [by rewrite fmap_insert, mustJSON_escaped|].
  apply wf_message_insert; [done|apply utf8_Field|by apply mustJSON_wf].
Qed.

(** Taking the signature out again gives the text that was signed. *)
Lemma canonical_again auth a msg :
  marshal_map (<[Field := mustJSON auth]> (<[Field := a]> (escaped <$> msg))) =
  marshal_map (<[Field := mustJSON auth]> msg).
Proof.
  rewrite insert_insert, decide_True by done.
  by rewrite <- marshal_map_escaped, <- (mustJSON_escaped auth), <- fmap_insert, !marshal_map_escaped, mustJSON_escaped.
Qed.

(** ** Freshness *)

(** A clock between the zero time and the year 146 billion. *)
Definition plausible (now : Time) : Prop := (0 <= t_wall now <= 2 ^ 62 * Second)%Z.

Lemma sat64_le z m : (m < max_int64)%Z → (min_int64 <= m)%Z → (sat64 z <= m ↔ z <= m)%Z.
Proof. unfold sat64. lia. Qed.

Lemma outside_skew_spec auth now maxSkew :
  plausible now → in_int64 (au_Timestamp auth) → (maxSkew < max_int64)%Z →
  outside_skew auth now maxSkew = false ↔
  (maxSkew <= 0 ∨ Z.abs (t_wall now - (au_Timestamp auth + unix_epoch) * Second) <= maxSkew)%Z.
Proof.
  intros Hnow Hts Hmax. unfold outside_skew.
  destruct (Z.ltb_spec 0 maxSkew) as [Hpos|]; simpl; [|split; [intros; left; lia|done]].
  rewrite orb_false_iff, !Z.ltb_ge. unfold Sub, on_clock. cbn [t_mono time_Unix t_wall].
  assert (Hw : ∀ (m : option Z) a b, match m with Some a' => match @None Z with Some b' => sat64 (a' - b') | None => sat64 (a - b) end
    | None => sat64 (a - b) end = sat64 (a - b)) by (by intros []).
  rewrite Hw. change min_int64 with (- 2 ^ 63)%Z in *.
  rewrite !sat64_le by (unfold max_int64, min_int64 in *; lia).
  unfold plausible, in_int64, max_int64, min_int64, unix_epoch, Second in *.
  destruct (Z.leb_spec (au_Timestamp auth + 62135596800) (2 ^ 63 - 1)) as [Hin|Hout].
  - rewrite wrap64_id by (unfold in_int64, max_int64, min_int64; lia). lia.
  - assert (wrap64 (au_Timestamp auth + 62135596800) = au_Timestamp auth + 62135596800 - 2 ^ 64)%Z as ->; [|lia].
    unfold wrap64. rewrite <- (Z.mod_add _ (-1)) by lia. rewrite Z.mod_small; lia.
Qed.

Lemma Unix_plausible now : plausible now → Unix now = (t_wall now / Second - unix_epoch)%Z ∧ in_int64 (Unix now).
Proof.
  intros Hnow. split; [|apply wrap64_range]. unfold Unix. apply wrap64_id.
  unfold plausible, in_int64, min_int64, max_int64, Second, unix_epoch in *. zlia.
Qed.

Lemma decode_auth_range raw auth : decode_auth raw = Some auth → in_int64 (au_Timestamp auth).
Proof.
  apply (decode_struct_inv (λ a, in_int64 (au_Timestamp a))); [|done].
  intros n v x y Hx. case_decide.
  - intros (z & Hz & [= <-])%bind_Some. by eapply decode_int64_range.
  - by intros (s & _ & [= <-])%bind_Some.
Qed.

(** ** Accepted messages *)

Record accepted (topic deviceID payload : string) (keys : Keys) (now : Time) (maxSkew : Z)
    (secret : string) (msg : gmap string jtext) (auth : Auth) : Prop := {
  acc_secret : keys !! deviceID = Some secret;
  acc_msg : payloadMap payload = inr msg;
  acc_auth : msg !! Field ≫= decode_auth = Some auth;
  acc_timestamp : au_Timestamp auth ≠ 0%Z;
  acc_present : au_Signature auth ≠ "";
  acc_fresh : outside_skew auth now maxSkew = false;
  acc_signature :
    signature topic (marshal_map (<[Field := mustJSON (MkAuth (au_Timestamp auth) "")]> msg)) secret =
      au_Signature auth
}.

Lemma VerifyPayload_accepted topic deviceID payload keys now maxSkew :
  Enabled keys = true →
  VerifyPayload topic deviceID payload keys now maxSkew = None ↔
  ∃ secret msg auth, accepted topic deviceID payload keys now maxSkew secret msg auth.
Proof.
  intros Hk. unfold VerifyPayload. rewrite Hk. simpl. split.
  - destruct (keys !! deviceID) as [secret|] eqn:Hs; [|done].
    destruct (payloadMap payload) as [|msg] eqn:Hm; [done|].
    destruct (msg !! Field) as [raw|] eqn:Hr; [|done].
    destruct (decode_auth raw) as [auth|] eqn:Ha; [|done].
    destruct (_ || _) eqn:Hi; [done|]. apply orb_false_iff in Hi as [?%Z.eqb_neq ?%bool_decide_eq_false].
    destruct (outside_skew _ _ _) eqn:Ho; [done|]. case_decide; [|done]. intros _.
    exists secret, msg, auth. split; try done. by rewrite Hr.
  - intros (secret & msg & auth & [Hs Hm Ha Ht Hp Hf Hsig]). rewrite Hs, Hm.
    destruct (msg !! Field) as [raw|]; [|done]. simpl in Ha. rewrite Ha.
    rewrite (proj2 (Z.eqb_neq _ _)), bool_decide_eq_false_2 by done. simpl. rewrite Hf.
    by rewrite decide_True.
Qed.

Lemma lookup_Enabled (keys : Keys) id secret : keys !! id = Some secret → Enabled keys = true.
Proof.
  intros H. unfold Enabled. apply Nat.ltb_lt. destruct (size keys) eqn:Hs; [|lia].
  apply map_size_empty_inv in Hs. by subst.
Qed.

(** ** The text that is signed *)

Lemma canonical_wf auth msg : wf_message msg → wf_message (<[Field := mustJSON auth]> msg).
Proof. intros. apply wf_message_insert; [done|apply utf8_Field|by apply mustJSON_wf]. Qed.

(** It is one line. *)
Lemma canonical_line auth msg :
  wf_message msg → has_byte "010" (marshal_map (<[Field := mustJSON auth]> msg)) = false.
Proof.
  intros Hm. rewrite marshal_map_print. by eapply no_control_line, no_control_print, member_texts_wf, canonical_wf.
Qed.

(** It determines the content. *)
Lemma content_inj auth1 auth2 msg1 msg2 :
  wf_message msg1 → wf_message msg2 →
  marshal_map (<[Field := mustJSON auth1]> msg1) = marshal_map (<[Field := mustJSON auth2]> msg2) →
  escaped <$> <[Field := mustJSON auth1]> msg1 = escaped <$> <[Field := mustJSON auth2]> msg2.
Proof.
  intros H1 H2 Heq. apply (f_equal payloadMap) in Heq.
  rewrite !payloadMap_marshal in Heq by by apply canonical_wf. congruence.
Qed.

(** A signed payload is accepted, in time and on its topic. *)
Lemma signed_accepted topic deviceID payload secret keys now now' maxSkew signed :
  keys !! deviceID = Some secret →
  SignPayload topic payload secret now = inr signed →
  plausible now → plausible now' → Unix now ≠ 0%Z → (maxSkew < max_int64)%Z →
  (maxSkew <= 0 ∨ Z.abs (t_wall now' - t_wall now) <= maxSkew - Second)%Z →
  VerifyPayload topic deviceID signed keys now' maxSkew = None.
Proof.
  intros Hkey Hsign Hnow Hnow' Hunix Hmax Hskew.
  apply signed_content in Hsign as (msg & Hmsg & _ & Hsigned). cbv zeta in Hsigned.
  set (sign := signature _ _ _) in Hsigned. destruct (Unix_plausible now Hnow) as [Hu Hin].
  apply VerifyPayload_accepted; [by eapply lookup_Enabled|].
  eexists secret, _, (MkAuth (Unix now) sign). split; [done|exact Hsigned| | | | |].
  - rewrite lookup_insert, decide_True by done. apply decode_mustJSON. split; [done|apply signature_hex].
  - done.
  - apply signature_hex.
  - apply outside_skew_spec; [done..|]. cbn [au_Timestamp]. rewrite Hu.
    unfold plausible, Second, unix_epoch in *. zlia.
  - by rewrite canonical_again.
Qed.

(** A signed payload is refused once it is older than the limit and the second its time
    is cut off to. *)
Lemma signed_outdated topic deviceID payload secret keys now now' maxSkew signed :
  keys !! deviceID = Some secret →
  SignPayload topic payload secret now = inr signed →
  plausible now → plausible now' → (0 < maxSkew < max_int64)%Z →
  (maxSkew < t_wall now' - t_wall now)%Z →
  VerifyPayload topic deviceID signed keys now' maxSkew ≠ None.
Proof.
  intros Hkey Hsign Hnow Hnow' Hmax Hlate Hv.
  apply VerifyPayload_accepted in Hv as (secret' & msg' & auth & [_ Hm Ha _ _ Hf _]); [|by eapply lookup_Enabled].
  apply signed_content in Hsign as (msg & _ & _ & Hsigned). cbv zeta in Hsigned. rewrite Hsigned in Hm.
  injection Hm as <-. rewrite lookup_insert_eq in Ha. cbn [mbind option_bind] in Ha.
  destruct (Unix_plausible now Hnow) as [Hu Hin].
  rewrite decode_mustJSON in Ha; [|by split; [|apply signature_hex]]. injection Ha as <-.
  apply outside_skew_spec in Hf; cbn [au_Timestamp] in *; [|done..|lia].
  rewrite Hu in Hf. unfold plausible, Second, unix_epoch in *. zlia.
Qed.

(** ** Keys of a configuration *)

(** The identifier and the secret of one part. *)
Definition key_of (part : string) : option (string * string) :=
  '(id, secret) ← Cut part "=";
  if decide (TrimSpace id = "" ∨ TrimSpace secret = "") then None else Some (TrimSpace id, TrimSpace secret).

(** The parts that are not blank. *)
Definition key_parts (raw : string) : list string :=
  filter (λ p, p ≠ "") (TrimSpace <$> Split raw ",").

Lemma parse_parts_spec parts keys :
  match parse_parts parts keys with
  | inr keys' =>
      ∃ pairs, Forall2 (λ p kv, key_of p = Some kv) (filter (λ p, p ≠ "") (TrimSpace <$> parts)) pairs ∧
        keys' = foldl (λ m kv, <[kv.1 := kv.2]> m) keys pairs
  | inl _ => ∃ p, p ∈ filter (λ p, p ≠ "") (TrimSpace <$> parts) ∧ key_of p = None
  end.
Proof.
  revert keys. induction parts as [|p parts IH]; intros keys; [by exists []|].
  cbn [parse_parts]. rewrite fmap_cons. cbv zeta. destruct (decide (TrimSpace p = "")) as [Hp|Hp].
  { rewrite filter_cons_False by tauto. apply IH. }
  rewrite filter_cons_True by done. destruct (Cut (TrimSpace p) "=") as [[id secret]|] eqn:Hc.
  2:{ exists (TrimSpace p). split; [by left|]. unfold key_of. by rewrite Hc. }
  assert (Hkey : key_of (TrimSpace p) = if decide (TrimSpace id = "" ∨ TrimSpace secret = "") then None
    else Some (TrimSpace id, TrimSpace secret)) by (unfold key_of; by rewrite Hc).
  case_decide; [exists (TrimSpace p); split; [by left|done]|].
  specialize (IH (<[TrimSpace id := TrimSpace secret]> keys)). destruct (parse_parts _ _) as [err|keys'].
  - destruct IH as (p' & ? & ?). exists p'. split; [by right|done].
  - destruct IH as (pairs & ? & ->). exists ((TrimSpace id, TrimSpace secret) :: pairs). split; [by constructor|done].
Qed.

(** Among pairs the last one of a key counts. *)
Lemma foldl_insert_last (m : Keys) pairs id :
  foldl (λ m kv, <[kv.1 := kv.2]> m) m pairs !! id =
  match last (filter (λ kv, kv.1 = id) pairs) with Some kv => Some kv.2 | None => m !! id end.
Proof.
  revert m. induction pairs as [|[k v] pairs IH]; intros m; [done|]. simpl. rewrite IH.
  destruct (decide (k = id)) as [<-|Hk].
  - rewrite filter_cons_True, last_cons by done. destruct (last _); [done|].
    by rewrite lookup_insert, decide_True.
  - rewrite filter_cons_False by done. destruct (last _); [done|]. by rewrite lookup_insert_ne.
Qed.

(** ** Properties *)

(** A signed message is accepted: whatever object a device signs with its
    secret, the platform that knows the secret accepts the result, on the same
    topic and as long as it arrives within the allowed skew less the second
    that the timestamp is cut off by; and apart from the member [auth] it has
    the content of the object. *)
Lemma sign_verify topic deviceID payload secret keys now now' maxSkew signed :
  keys !! deviceID = Some secret →
  SignPayload topic payload secret now = inr signed →
  plausible now → plausible now' → Unix now ≠ 0%Z → (maxSkew < max_int64)%Z →
  (maxSkew <= 0 ∨ Z.abs (t_wall now' - t_wall now) <= maxSkew - Second)%Z →
  VerifyPayload topic deviceID signed keys now' maxSkew = None ∧
  ∃ msg msg', payloadMap payload = inr msg ∧ payloadMap signed = inr msg' ∧
    delete Field msg' = delete Field (escaped <$> msg).
Proof.
  intros. split; [by eapply signed_accepted|].
  match goal with Hs : SignPayload _ _ _ _ = _ |- _ => apply signed_content in Hs as (msg & ? & _ & Hsigned) end.
  cbv zeta in Hsigned. eexists _, _. split_and!; [done..|]. by rewrite delete_insert_eq.
Qed.

(** ** What a signature covers *)

(** The text that is signed: the topic, a line feed, and the members of the
    message in order, [auth] holding nothing but the timestamp. *)
Definition signed_text (topic : string) (timestamp : Z) (msg : gmap string jtext) : string :=
  topic +:+ String "010" (marshal_map (<["auth" := TObj [("timestamp", TNum (pretty timestamp))]]> msg)).

(** A payload with its members and its signature. *)
Definition carries (payload : string) (msg : gmap string jtext) (auth : Auth) : Prop :=
  payloadMap payload = inr msg ∧ msg !! Field ≫= decode_auth = Some auth.

(** A signature that is accepted is the one of that text. *)
Lemma verified_text topic id payload keys now skew secret msg auth :
  keys !! id = Some secret → carries payload msg auth →
  VerifyPayload topic id payload keys now skew = None →
  au_Signature auth = hmac_hex secret (signed_text topic (au_Timestamp auth) msg).
Proof.
  intros Hk [Hm Ha] (secret' & msg' & auth' & [Hk' Hm' Ha' _ _ _ Hs])%VerifyPayload_accepted; [|by eapply lookup_Enabled].
  assert (msg' = msg) as -> by congruence. assert (auth' = auth) as -> by congruence.
  assert (secret' = secret) as -> by congruence. symmetry. exact Hs.
Qed.

Lemma signed_text_inj topic1 topic2 payload1 payload2 msg1 msg2 auth1 auth2 :
  carries payload1 msg1 auth1 → carries payload2 msg2 auth2 →
  signed_text topic1 (au_Timestamp auth1) msg1 = signed_text topic2 (au_Timestamp auth2) msg2 →
  topic1 = topic2 ∧ au_Timestamp auth1 = au_Timestamp auth2 ∧
  delete Field (escaped <$> msg1) = delete Field (escaped <$> msg2).
Proof.
  intros [Hm1%payloadMap_wf Ha1] [Hm2%payloadMap_wf Ha2] Htext.
  apply bind_Some in Ha1 as (r1 & _ & Ht1%decode_auth_range), Ha2 as (r2 & _ & Ht2%decode_auth_range).
  change (signed_text topic1 (au_Timestamp auth1) msg1)
    with (topic1 +:+ String "010" (marshal_map (<[Field := mustJSON (MkAuth (au_Timestamp auth1) "")]> msg1))) in Htext.
  change (signed_text topic2 (au_Timestamp auth2) msg2)
    with (topic2 +:+ String "010" (marshal_map (<[Field := mustJSON (MkAuth (au_Timestamp auth2) "")]> msg2))) in Htext.
  apply last_sep_inj in Htext as [-> Hc]; [|by apply canonical_line..].
  apply content_inj in Hc; [|done..]. rewrite !fmap_insert, !mustJSON_escaped in Hc. split_and!; [done| |].
  - apply (f_equal (λ m, m !! Field ≫= decode_auth)) in Hc. rewrite !lookup_insert, !decide_True in Hc by done.
    cbn [mbind option_bind] in Hc. rewrite !decode_mustJSON in Hc by (split; [done|constructor]). congruence.
  - apply (f_equal (delete Field)) in Hc. by rewrite !delete_insert_eq in Hc.
Qed.

(** C23: Accepted messages are fresh: with keys and a skew limit configured, the
    timestamp of an accepted message, read as whole seconds, is no further
    than the limit from the clock, in exact arithmetic: no timestamp a 64-bit
    integer can hold passes by wrapping around or by the saturation of
    durations. *)
Theorem accepted_fresh topic deviceID payload keys now maxSkew :
  Enabled keys = true → plausible now → (0 < maxSkew < max_int64)%Z →
  VerifyPayload topic deviceID payload keys now maxSkew = None →
  ∃ msg auth, payloadMap payload = inr msg ∧ msg !! Field ≫= decode_auth = Some auth ∧
    (Z.abs (t_wall now - (au_Timestamp auth + unix_epoch) * Second) <= maxSkew)%Z.
Proof.
  intros Hk Hnow Hskew (secret & msg & auth & Hacc)%VerifyPayload_accepted; [|done].
  destruct Hacc as [_ Hm Ha _ _ Hf _]. exists msg, auth. split_and!; [done..|].
  apply bind_Some in Ha as Hr. destruct Hr as (raw & _ & Hr%decode_auth_range).
  apply outside_skew_spec in Hf; [|done..|lia]. lia.
Qed.

(** C24: A signature binds what it signs: when [VerifyPayload] accepts two
    messages under the same secret with the same signature, then either they
    have the same topic, the same timestamp and the same content, or their two
    signed texts (topic, line feed, members with the timestamp alone as [auth])
    differ and yet have the same HMAC-SHA256 under that secret: an attacker who
    moves a signature to another topic or content exhibits such a pair. *)
Theorem signature_binds topic1 topic2 id1 id2 payload1 payload2 keys1 keys2 now1 now2 skew1 skew2
    secret msg1 msg2 auth1 auth2 :
  keys1 !! id1 = Some secret → keys2 !! id2 = Some secret →
  carries payload1 msg1 auth1 → carries payload2 msg2 auth2 →
  VerifyPayload topic1 id1 payload1 keys1 now1 skew1 = None →
  VerifyPayload topic2 id2 payload2 keys2 now2 skew2 = None →
  au_Signature auth1 = au_Signature auth2 →
  let text1 := signed_text topic1 (au_Timestamp auth1) msg1 in
  let text2 := signed_text topic2 (au_Timestamp auth2) msg2 in
  (topic1 = topic2 ∧ au_Timestamp auth1 = au_Timestamp auth2 ∧
   delete Field (escaped <$> msg1) = delete Field (escaped <$> msg2)) ∨
  (text1 ≠ text2 ∧ hmac_hex secret text1 = hmac_hex secret text2).
Proof.
  intros Hk1 Hk2 Hc1 Hc2 Hv1 Hv2 Heq text1 text2.
  rewrite (verified_text _ _ _ _ _ _ _ _ _ Hk1 Hc1 Hv1), (verified_text _ _ _ _ _ _ _ _ _ Hk2 Hc2 Hv2) in Heq.
  fold text1 text2 in Heq. destruct (decide (text1 = text2)) as [Ht|]; [left|by right].
  by apply (signed_text_inj _ _ payload1 payload2).
Qed.

(** Parsing keys reads every part that is not blank as an identifier and a
    secret, the last part of an identifier counting, or fails on a part that is
    none; a configuration with any such part never leaves verification
    disabled. *)
Lemma ParseKeys_spec raw :
  match ParseKeys raw with
  | inr keys =>
      (∃ pairs, Forall2 (λ part kv, key_of part = Some kv) (key_parts raw) pairs ∧
        ∀ id, keys !! id = snd <$> last (filter (λ kv, kv.1 = id) pairs)) ∧
      (Enabled keys = true ↔ key_parts raw ≠ [])
  | inl _ => ∃ part, part ∈ key_parts raw ∧ key_of part = None
  end.
Proof.
  unfold ParseKeys. pose proof (parse_parts_spec (Split raw ",") ∅) as Hp.
  destruct (parse_parts _ _) as [err|keys]; [exact Hp|]. fold (key_parts raw) in Hp.
  destruct Hp as (pairs & Hpairs & ->). split.
  - exists pairs. split; [done|]. intros id. rewrite foldl_insert_last. by destruct (last _).
  - assert (Hlast : ∀ id, foldl (λ m kv, <[kv.1 := kv.2]> m) (∅ : Keys) pairs !! id =
      snd <$> last (filter (λ kv, kv.1 = id) pairs)) by (intros id; rewrite foldl_insert_last; by destruct (last _)).
    inversion Hpairs as [|part [id secret] parts pairs' _ _]; subst; [by split|]. split; [done|]. intros _.
    destruct (last (filter (λ kv : string * string, kv.1 = id) ((id, secret) :: pairs'))) as [kv|] eqn:Hl.
    + eapply (lookup_Enabled _ id). by rewrite Hlast, Hl.
    + apply last_None in Hl. by rewrite filter_cons_True in Hl.
Qed.

(** ** Concrete instances *)

(** Double quotes for single ones. *)
Definition unprime (s : string) : string := ReplaceAll s "'" quote_mark.

Definition ex_topic : string := "vpp/home-lab/load/load_01/telemetry".
Definition ex_payload : string := unprime "{'device_id':'load_01','timestamp':1000,'seq':1}".
Definition ex_keys : Keys := {["load_01" := "secret"]}.
Definition ex_signed_at : Time := time_Unix 1000.
(** The signature was computed outside of this model. *)
Definition ex_signed : string :=
  unprime ("{'auth':{'timestamp':1000,'signature':" +:+
    "'f1b619be826dff4e98b139aa9b60b527adc085b513c3ab6460b7506a287f1481'}," +:+
    "'device_id':'load_01','seq':1,'timestamp':1000}").

Example SignPayload_test : SignPayload ex_topic ex_payload "secret" ex_signed_at = inr ex_signed.
Proof. by vm_compute. Qed.
Example stale_test :
  VerifyPayload ex_topic "load_01" ex_signed ex_keys (time_Unix 2000) (60 * Second) = Some OutsideSkew.
Proof. by vm_compute. Qed.
Example tampered_test :
  VerifyPayload ex_topic "load_01" (ReplaceAll ex_signed "1" "2") ex_keys (time_Unix 2000) 0 = Some BadSignature.
Proof. by vm_compute. Qed.
Example ParseKeys_test :
  match ParseKeys "load_01=secret, battery_01 = battery-secret," with
  | inr keys => keys !! "load_01" = Some "secret" ∧ keys !! "battery_01" = Some "battery-secret" ∧ size keys = 2
  | inl _ => False
  end ∧ ParseKeys "bad" = inl (KeySyntax "bad").
Proof. by vm_compute. Qed.

Lemma accepted_fresh_witness :
  ∃ msg auth, payloadMap ex_signed = inr msg ∧ msg !! Field ≫= decode_auth = Some auth ∧
    (Z.abs (t_wall (time_Unix 1030) - (au_Timestamp auth + unix_epoch) * Second) <= 60 * Second)%Z.
Proof.
  apply (accepted_fresh ex_topic "load_01" ex_signed ex_keys (time_Unix 1030) (60 * Second)); by vm_compute.
Defined.

Definition ex_content (payload : string) : gmap string jtext :=
  match payloadMap payload with inr msg => msg | inl _ => ∅ end.
Definition ex_auth : Auth :=
  MkAuth 1000 "f1b619be826dff4e98b139aa9b60b527adc085b513c3ab6460b7506a287f1481".

(** The same message with spaces. *)
Definition ex_spaced : string := ReplaceAll ex_signed "," " , ".

Lemma ex_carries :
  carries ex_signed (ex_content ex_signed) ex_auth ∧ carries ex_spaced (ex_content ex_spaced) ex_auth.
Proof.
  assert (Hok : ∀ payload, match payloadMap payload with inr _ => true | inl _ => false end = true →
    payloadMap payload = inr (ex_content payload)) by (intros payload; unfold ex_content; by destruct (payloadMap payload)).
  split; split; try apply Hok; by vm_compute.
Qed.

Lemma signature_binds_witness :
  let text1 := signed_text ex_topic 1000 (ex_content ex_signed) in
  let text2 := signed_text ex_topic 1000 (ex_content ex_spaced) in
  (ex_topic = ex_topic ∧ 1000%Z = 1000%Z ∧
   delete Field (escaped <$> ex_content ex_signed) = delete Field (escaped <$> ex_content ex_spaced)) ∨
  (text1 ≠ text2 ∧ hmac_hex "secret" text1 = hmac_hex "secret" text2).
Proof.
  destruct ex_carries as [H1 H2].
  apply (signature_binds ex_topic ex_topic "load_01" "load_01" ex_signed ex_spaced ex_keys ex_keys
    ex_signed_at ex_signed_at 0 0 "secret" _ _ ex_auth ex_auth); try done; by vm_compute.
Defined.
