(* ===== verification/Strconv.v ===== *)
(** * Package strconv and [time.ParseDuration]

    The readers of numbers, booleans and durations the code applies to its
    settings and to JSON numbers.  [None] is an error. *)
From Stdlib Require Import Ascii Floats.SpecFloat.
From S2P Require Import Prelude GoStrings Float64 FloatFacts Json JsonString JsonText JsonDecode GoTime.
#[local] Open Scope Z_scope.

(** ** Integers and booleans *)

(** The sign a number may start with. *)
Definition scan_plus_minus (s : string) : bool * string :=
  match s with
  | String a s' =>
      if decide (a = "-"%char) then (true, s')
      else if decide (a = "+"%char) then (false, s') else (false, s)
  | "" => (false, s)
  end.

Definition signed (neg : bool) (z : Z) : Z := if neg then - z else z.

(** [strconv.Atoi]: decimal digits, an [int]. *)
Definition Atoi (s : string) : option Z :=
  let '(neg, d) := scan_plus_minus s in
  if bool_decide (d ≠ "") && all_digits d then
    let z := signed neg (decimal 0 d) in
    if (min_int64 <=? z) && (z <=? max_int64) then Some z else None
  else None.

Definition ParseBool (s : string) : option bool :=
  if decide (s ∈ ["1"; "t"; "T"; "TRUE"; "true"; "True"]) then Some true
  else if decide (s ∈ ["0"; "f"; "F"; "FALSE"; "false"; "False"]) then Some false
  else None.

(** ** Floating-point numbers *)

Definition to_lower (a : ascii) : ascii :=
  if in_range 65 90 a then ascii_of_N (N_of_ascii a + 32) else a.
Fixpoint lower (s : string) : string :=
  match s with "" => "" | String a s' => String (to_lower a) (lower s') end.

(** The digits of a number: their value, their count and the count after the
    point.  Underscores are skipped. *)
Record mantissa := MkMantissa { mt_value : Z; mt_any : bool; mt_dot : bool; mt_frac : Z }.

Fixpoint scan_mantissa (hex : bool) (acc : mantissa) (s : string) : mantissa * string :=
  match s with
  | "" => (acc, "")
  | String a s' =>
      if decide (a = "_"%char) then scan_mantissa hex acc s'
      else if decide (a = "."%char) then
        if mt_dot acc then (acc, s)
        else scan_mantissa hex (MkMantissa (mt_value acc) (mt_any acc) true (mt_frac acc)) s'
      else if is_digit a || hex && is_hex a then
        scan_mantissa hex
          (MkMantissa ((if hex then 16 else 10) * mt_value acc + Z.of_N (hex_value a)) true (mt_dot acc)
             (if mt_dot acc then mt_frac acc + 1 else mt_frac acc)) s'
      else (acc, s)
  end.

(** The digits of an exponent, which stops growing at 10000. *)
Fixpoint scan_exponent (e : Z) (s : string) : Z * string :=
  match s with
  | "" => (e, "")
  | String a s' =>
      if decide (a = "_"%char) then scan_exponent e s'
      else if is_digit a
      then scan_exponent (if e <? 10000 then 10 * e + Z.of_N (hex_value a) else e) s'
      else (e, s)
  end.

(** [underscoreOK]: underscores only between digits, or after the prefix of a base. *)
Fixpoint underscores_ok (hex : bool) (last : ascii) (s : string) : bool :=
  match s with
  | "" => negb (bool_decide (last = "_"%char))
  | String a s' =>
      if is_digit a || hex && is_hex a then underscores_ok hex "0" s'
      else if decide (a = "_"%char) then bool_decide (last = "0"%char) && underscores_ok hex "_" s'
      else negb (bool_decide (last = "_"%char)) && underscores_ok hex "!" s'
  end.

Definition underscoreOK (s : string) : bool :=
  let s := (scan_plus_minus s).2 in
  match s with
  | String z (String b s') =>
      if bool_decide (z = "0"%char) && bool_decide (to_lower b ∈ ["b"; "o"; "x"]%char)
      then underscores_ok (bool_decide (to_lower b = "x"%char)) "0" s'
      else underscores_ok false "^" s
  | _ => underscores_ok false "^" s
  end.

(** [n / d], rounded to nearest even. *)
Definition round_ratio (s : bool) (n d : positive) : float64 :=
  fdiv (S754_finite s n 0) (S754_finite false d 0).

(** [v * b^e] for a base [b], rounded; [None] when it overflows. *)
Definition scale_float (neg : bool) (v : Z) (b e : Z) : option float64 :=
  match v with
  | Zpos n =>
      let x := round_ratio neg (Z.to_pos (Zpos n * b ^ Z.max 0 e)) (Z.to_pos (b ^ Z.max 0 (- e))) in
      match x with S754_infinity _ => None | _ => Some x end
  | _ => Some (S754_zero neg)
  end.

Definition special (s : string) : option float64 :=
  let '(neg, w) := scan_plus_minus s in
  if decide (lower w ∈ ["inf"; "infinity"]) then Some (S754_infinity neg)
  else if decide (lower s = "nan") then Some S754_nan
  else None.

(** The exponent after the letter, with its sign, and what follows. *)
Definition read_exponent (s : string) : option (Z * string) :=
  let '(neg, d) := scan_plus_minus s in
  match d with
  | String a _ => if is_digit a then let '(e, r) := scan_exponent 0 d in Some (signed neg e, r) else None
  | "" => None
  end.

(** [strconv.ParseFloat(s, 64)]. *)
Definition ParseFloat (s : string) : option float64 :=
  match special s with
  | Some x => Some x
  | None =>
      let '(neg, w) := scan_plus_minus s in
      let '(hex, w) :=
        match w with
        | String z (String x (String _ _ as w')) =>
            if bool_decide (z = "0"%char) && bool_decide (to_lower x = "x"%char) then (true, w') else (false, w)
        | _ => (false, w)
        end in
      let '(m, r) := scan_mantissa hex (MkMantissa 0 false false 0) w in
      if negb (mt_any m) then None
      else
        '(e, r) ← match r with
          | String c r' =>
              if decide (to_lower c = (if hex then "p"%char else "e"%char)) then read_exponent r'
              else if hex then None else Some (0, r)
          | "" => if hex then None else Some (0, "")
          end;
        if decide (r ≠ "") then None
        else if has_byte "_" s && negb (underscoreOK s) then None
        else if hex then scale_float neg (mt_value m) 2 (e - 4 * mt_frac m)
        else scale_float neg (mt_value m) 10 (e - mt_frac m)
  end.

(** ** Durations *)

(** The digits a text starts with; [None] beyond 2^63. *)
Definition leadingInt (s : string) : option (Z * string) :=
  let '(d, r) := span_digits s in
  let x := decimal 0 d in
  if x <=? 2 ^ 63 then Some (x, r) else None.

(** The digits of a fraction as [f / scale]: those that would exceed the range are
    skipped. *)
Fixpoint leadingFraction (x scale : Z) (overflow : bool) (s : string) : Z * Z * string :=
  match s with
  | "" => (x, scale, "")
  | String a s' =>
      if is_digit a then
        if overflow || (max_int64 / 10 <? x) then leadingFraction x scale true s'
        else
          let y := 10 * x + Z.of_N (hex_value a) in
          if 2 ^ 63 <? y then leadingFraction x scale true s'
          else leadingFraction y (scale * 10) false s'
      else (x, scale, s)
  end.

(** The text of a unit: up to the next digit or point. *)
Fixpoint span_unit (s : string) : string * string :=
  match s with
  | "" => ("", "")
  | String a s' =>
      if is_digit a || bool_decide (a = "."%char) then ("", s)
      else let '(u, r) := span_unit s' in (String a u, r)
  end.

Definition unit_of (u : string) : option Z :=
  if decide (u = "ns") then Some Nanosecond
  else if decide (u ∈ ["us"; string_of [194; 181; 115]%N; string_of [206; 188; 115]%N]) then Some (1000 * Nanosecond)
  else if decide (u = "ms") then Some (1000000 * Nanosecond)
  else if decide (u = "s") then Some Second
  else if decide (u = "m") then Some Minute
  else if decide (u = "h") then Some Hour_
  else None.

(** [uint64(float64(f) * (float64(unit) / scale))]; [scale] is a product of tens. *)
Definition fraction_part (f scale unit : Z) : Z :=
  to_int (of_int f * (of_int unit / of_int scale))%f64.

(** One number with its unit, in nanoseconds, and the rest. *)
Definition duration_part (s : string) : option (Z * string) :=
  match s with
  | String a _ =>
      if negb (is_digit a || bool_decide (a = "."%char)) then None
      else
        '(v, r) ← leadingInt s;
        let pre := negb (bool_decide (r = s)) in
        let '(f, scale, r', post) :=
          match after "." r with
          | Some r1 => let '(f, scale, r2) := leadingFraction 0 1 false r1 in (f, scale, r2, negb (bool_decide (r2 = r1)))
          | None => (0, 1, r, false)
          end in
        if negb pre && negb post then None
        else
          let '(u, rest) := span_unit r' in
          unit ← unit_of u;
          if 2 ^ 63 / unit <? v then None
          else
            let v := v * unit + (if 0 <? f then fraction_part f scale unit else 0) in
            if 2 ^ 63 <? v then None else Some (v, rest)
  | "" => None
  end.

(** The parts of a duration; each consumes a byte, so the length is enough fuel. *)
Fixpoint duration_parts (fuel : nat) (d : Z) (s : string) : option Z :=
  match s, fuel with
  | "", _ => Some d
  | _, O => None
  | _, S n =>
      '(v, r) ← duration_part s;
      let d := (d + v) mod 2 ^ 64 in
      if 2 ^ 63 <? d then None else duration_parts n d r
  end.

(** [time.ParseDuration], in nanoseconds. *)
Definition ParseDuration (s : string) : option Z :=
  let '(neg, w) := scan_plus_minus s in
  if decide (w = "0") then Some 0
  else if decide (w = "") then None
  else
    d ← duration_parts (String.length w) 0 w;
    if neg then Some (wrap64 (- d))
    else if max_int64 <? d then None else Some d.

Example ParseFloat_test :
  ParseFloat "0.25" = Some (lit 1 4) ∧ ParseFloat "1_0.5e+1" = Some (of_int 105) ∧
  ParseFloat "0x1p-2" = Some (lit 1 4) ∧ ParseFloat "-Inf" = Some (S754_infinity true) ∧
  ParseFloat "1e400" = None ∧ ParseFloat "4.9e-324" = Some (S754_finite false 1 (-1074)) ∧
  ParseFloat "1__0" = None ∧ ParseFloat "." = None ∧ ParseFloat "0.1" = Some (lit 1 10).
Proof. by vm_compute. Qed.
Example ParseDuration_test :
  ParseDuration "1h15m30.5s" = Some (4530500 * 10 ^ 6) ∧ ParseDuration "-1.5h" = Some (- 5400 * 10 ^ 9) ∧
  ParseDuration "300" = None ∧ ParseDuration "0" = Some 0 ∧ ParseDuration ".s" = None ∧
  ParseDuration "9223372036854775807ns" = Some max_int64 ∧ ParseDuration "9223372036854775808ns" = None ∧
  ParseDuration "-9223372036854775808ns" = Some min_int64.
Proof. by vm_compute. Qed.

(** ** What is read is in range *)

Lemma Atoi_range s z : Atoi s = Some z → in_int64 z.
Proof.
  unfold Atoi. destruct (scan_plus_minus s) as [neg d]. case_if; [|done]. cbv zeta. case_if; [|done].
  intros [= <-]. unfold in_int64. rewrite andb_true_iff, !Z.leb_le in *. done.
Qed.

Lemma duration_parts_range fuel d s z : 0 <= d <= 2 ^ 63 → duration_parts fuel d s = Some z → 0 <= z <= 2 ^ 63.
Proof.
  revert d s. induction fuel as [|n IH]; intros d [|a s] Hd; cbn [duration_parts]; try by intros [= <-].
  intros ([v r] & _ & H)%bind_Some. revert H. case_if; [done|]. apply IH.
  apply Z.ltb_ge in E. pose proof (Z.mod_pos_bound (d + v) (2 ^ 64)). lia.
Qed.

Lemma ParseDuration_range s z : ParseDuration s = Some z → in_int64 z.
Proof.
  unfold ParseDuration. destruct (scan_plus_minus s) as [neg w].
  case_decide; [by intros [= <-]|]. case_decide; [done|].
  intros (d & Hd%duration_parts_range & Hz)%bind_Some; [|lia].
  destruct neg; [injection Hz as <-; apply wrap64_range|].
  revert Hz. case_if; [done|]. intros [= <-]. apply Z.ltb_ge in E. unfold in_int64, min_int64. lia.
Qed.

Lemma round_ratio_valid s n d : valid (round_ratio s n d).
Proof.
  unfold round_ratio, fdiv, SFdiv. pose proof (fdiv_core_exponent n 0 d 0) as H.
  destruct (SFdiv_core_binary 53 1024 (Zpos n) 0 (Zpos d) 0) as [[[|q|q] e] l]; [| |done].
  - by apply round_aux_zero_valid.
  - by apply round_aux_valid.
Qed.

Lemma scale_float_valid neg v b e x : scale_float neg v b e = Some x → valid x.
Proof.
  unfold scale_float. destruct v as [|n|n]; [by intros [= <-]| |by intros [= <-]].
  match goal with |- context [round_ratio ?s ?n ?d] => pose proof (round_ratio_valid s n d) as Hv; destruct (round_ratio s n d) end;
    by intros [= <-].
Qed.

Lemma ParseFloat_valid s x : ParseFloat s = Some x → valid x.
Proof.
  unfold ParseFloat. destruct (special s) as [y|] eqn:Hs.
  { intros [= <-]. revert Hs. unfold special. destruct (scan_plus_minus s).
    case_decide; [by intros [= <-]|]. case_decide; [by intros [= <-]|done]. }
  destruct (scan_plus_minus s) as [neg w]. destruct (match w with "" => _ | String _ _ => _ end) as [hex w'].
  destruct (scan_mantissa hex _ w') as [m r]. case_if; [done|].
  intros ([e r'] & _ & H)%bind_Some. case_decide; [done|]. revert H. case_if; [done|].
  destruct hex; apply scale_float_valid.
Qed.
