(* ===== verification/FloatNearest.v ===== *)
(** * Rounding to nearest

    The division of SpecFloat rounds an exact quotient to the nearest value, to
    the even one of two.  [round_ratio_nearest]: whatever lies in the rounding
    interval of a value is rounded to it. *)
From Stdlib Require Import Floats.SpecFloat.
From S2P Require Import Prelude Float64 FloatFacts Strconv.
#[local] Open Scope Z_scope.

(** ** Locations *)

(** [V / D] lies at [m], or between [m] and its successor as the location says. *)
Definition located (m : Z) (l : location) (V D : Z) : Prop :=
  match l with
  | loc_Exact => V = m * D
  | loc_Inexact c => m * D < V < (m + 1) * D ∧ (2 * V ?= (2 * m + 1) * D) = c
  end.

Lemma located_range m l V D : 0 < D → located m l V D → m * D <= V < (m + 1) * D.
Proof. intros HD. destruct l as [|c]; simpl; lia. Qed.

Lemma shr_1_located mrs V D :
  0 < D → 0 <= shr_m mrs → located (shr_m mrs) (loc_of_shr_record mrs) V D →
  located (shr_m (shr_1 mrs)) (loc_of_shr_record (shr_1 mrs)) V (2 * D).
Proof.
  intros HD Hm. destruct mrs as [m r s]. cbn [shr_m] in *.
  assert (Hodd : ∀ p, shr_m (shr_1 (Build_shr_record m r s)) = p → m = 2 * p + 1 →
    loc_of_shr_record (shr_1 (Build_shr_record m r s)) = loc_of_shr_record (Build_shr_record p true (r || s)) →
    located m (loc_of_shr_record (Build_shr_record m r s)) V D →
    located p (loc_of_shr_record (Build_shr_record p true (r || s))) V (2 * D)).
  { intros p _ -> _. destruct r, s; simpl; rewrite ?Z.compare_eq_iff, ?Z.compare_lt_iff, ?Z.compare_gt_iff; nia. }
  assert (Heven : ∀ p, shr_m (shr_1 (Build_shr_record m r s)) = p → m = 2 * p →
    loc_of_shr_record (shr_1 (Build_shr_record m r s)) = loc_of_shr_record (Build_shr_record p false (r || s)) →
    located m (loc_of_shr_record (Build_shr_record m r s)) V D →
    located p (loc_of_shr_record (Build_shr_record p false (r || s))) V (2 * D)).
  { intros p _ -> _. destruct r, s; simpl; rewrite ?Z.compare_eq_iff, ?Z.compare_lt_iff, ?Z.compare_gt_iff; nia. }
  destruct m as [|[p|p|]|p]; cbn [shr_1 shr_m]; intros H.
  - by apply Heven.
  - apply Hodd; [done|lia|done|done].
  - apply Heven; [done|lia|done|done].
  - by apply Hodd.
  - lia.
Qed.

Lemma shr_pos_located mrs p V D :
  0 < D → 0 <= shr_m mrs → located (shr_m mrs) (loc_of_shr_record mrs) V D →
  let mrs' := SpecFloat.iter_pos shr_1 p mrs in
  located (shr_m mrs') (loc_of_shr_record mrs') V (D * 2 ^ Zpos p).
Proof.
  intros HD Hm Hl. cbv zeta. rewrite iter_pos_iter. induction p as [|p IH] using Pos.peano_ind.
  - cbn [Pos.iter]. rewrite Z.mul_comm. by apply shr_1_located.
  - rewrite Pos.iter_succ, Pos2Z.inj_succ, Z.pow_succ_r by lia.
    replace (D * (2 * 2 ^ Zpos p)) with (2 * (D * 2 ^ Zpos p)) by ring.
    apply shr_1_located; [lia| |done]. rewrite <- iter_pos_iter.
    destruct (shr_pos_spec mrs p Hm) as [-> _]. apply Z.div_pos; lia.
Qed.

(** ** Rounding *)

(** [M] is a nearest integer to [V / D], the even one of two. *)
Definition nearest (M V D : Z) : Prop :=
  (2 * M - 1) * D <= 2 * V <= (2 * M + 1) * D ∧
  (2 * V = (2 * M - 1) * D ∨ 2 * V = (2 * M + 1) * D → Z.even M = true).

Lemma rne_nearest m l V D : 0 < D → located m l V D → nearest (round_nearest_even m l) V D.
Proof.
  intros HD. unfold nearest. destruct l as [|[]]; cbn [located round_nearest_even].
  - intros ->. split; [nia|]. intros [?|?]; nia.
  - rewrite Z.compare_eq_iff. intros [? ?]. destruct (Z.even m) eqn:He.
    + split; [nia|done].
    + split; [nia|]. intros _. by rewrite Z.even_add, He.
  - rewrite Z.compare_lt_iff. intros [? ?]. split; [nia|]. intros [?|?]; nia.
  - rewrite Z.compare_gt_iff. intros [? ?]. split; [nia|]. intros [?|?]; nia.
Qed.

(** The quotient that is rounded, in units of [2^E]. *)
Lemma shr_fexp_located m e l V D :
  0 <= m → 0 < D → located m l V D → e <= fexp64 (Zdigits2 m + e) →
  let E := fexp64 (Zdigits2 m + e) in
  ∃ mrs, shr_fexp 53 1024 m e l = (mrs, E) ∧ 0 <= shr_m mrs < 2 ^ 53 ∧ (-1074 < E → 0 < m → 2 ^ 52 <= shr_m mrs) ∧
    located (shr_m mrs) (loc_of_shr_record mrs) V (D * 2 ^ (E - e)).
Proof.
  intros Hm HD Hl He E. assert (Hrec : ∀ q, shr_m (shr_record_of_loc q l) = q) by (intros; apply shr_record_of_loc_m).
  unfold shr_fexp. fold E. unfold shr.
  assert (Hq : ∀ mrs, shr_m mrs = m / 2 ^ (E - e) → 0 <= shr_m mrs < 2 ^ 53 ∧ (-1074 < E → 0 < m → 2 ^ 52 <= shr_m mrs)).
  { intros mrs ->. destruct m as [|m|m]; [|exact (let H := round_quotient m e He in conj (proj1 H) (λ H1 _, proj1 (proj2 H) H1))|lia].
    rewrite Z.div_0_l by (apply Z.pow_nonzero; lia). lia. }
  destruct (E - e) as [|p|p] eqn:Ee; [| |lia].
  - exists (shr_record_of_loc m l). replace E with e by lia.
    split; [done|]. destruct (Hq (shr_record_of_loc m l)) as [? ?]; [by rewrite Hrec, Z.div_1_r|].
    split; [done|]. split; [by replace e with E by lia|].
    by rewrite Hrec, loc_of_shr_record_of_loc, Z.mul_1_r.
  - eexists. split; [f_equal; lia|].
    destruct (shr_pos_spec (shr_record_of_loc m l) p) as [Hsm _]; [by rewrite Hrec|]. rewrite Hrec in Hsm.
    destruct (Hq _ Hsm) as [? ?]. split; [done|]. split; [done|].
    apply shr_pos_located; [done|by rewrite Hrec|by rewrite Hrec, loc_of_shr_record_of_loc].
Qed.

(** The rounded value of [V / D * 2^e], with the integer it was built from. *)
Lemma binary_round_aux_nearest s m e l V D :
  0 <= m → 0 < D → located m l V D → e <= fexp64 (Zdigits2 m + e) →
  let E := fexp64 (Zdigits2 m + e) in
  ∃ M, nearest M V (D * 2 ^ (E - e)) ∧ (-1074 < E → 0 < m → 2 ^ 52 * (D * 2 ^ (E - e)) <= V) ∧
    V < 2 ^ 53 * (D * 2 ^ (E - e)) ∧
    (M = 0 ∧ binary_round_aux 53 1024 s m e l = S754_zero s ∨
     ∃ M' E', binary_round_aux 53 1024 s m e l = pack s M' E' ∧ canonical M' E' ∧
       (Zpos M' = M ∧ E' = E ∨ M = 2 ^ 53 ∧ Zpos M' = 2 ^ 52 ∧ E' = E + 1)).
Proof.
  intros Hm HD Hl He E. destruct (shr_fexp_located m e l V D Hm HD Hl He) as (mrs & Hs & Hr & Hlow & Hloc).
  fold E in Hs, Hlow, Hloc. set (U := D * 2 ^ (E - e)) in *.
  assert (HU : 0 < U) by (apply Z.mul_pos_pos; [done|apply Z.pow_pos_nonneg; lia]).
  pose proof (rne_nearest _ _ _ _ HU Hloc) as Hn.
  pose proof (located_range _ _ _ _ HU Hloc) as Hv.
  pose proof (rne_range (shr_m mrs) (loc_of_shr_record mrs)) as [Hrne _].
  unfold binary_round_aux. rewrite Hs.
  set (M := round_nearest_even (shr_m mrs) (loc_of_shr_record mrs)) in *.
  exists M. split; [done|]. split; [intros; specialize (Hlow ltac:(done) ltac:(done)); nia|]. split; [nia|].
  destruct M as [|M|M]; [left|right|lia].
  - split; [done|]. unfold shr_fexp, shr. cbn [Zdigits2].
    destruct (fexp64 (0 + E) - E) as [|p|p] eqn:Ez; [done| |done].
    rewrite fexp_unfold in Ez. exfalso. unfold E in Ez. rewrite fexp_unfold in Ez. lia.
  - destruct (shr_fexp_final M E) as (M' & E' & HM & Hc & Hd).
    + unfold E. rewrite fexp_unfold. lia.
    + intros HE. destruct (decide (m = 0)) as [->|]; [|specialize (Hlow HE ltac:(lia)); lia].
      exfalso. unfold E in HE. rewrite fexp_unfold in HE. cbn [Zdigits2] in HE.
      unfold E in He. rewrite fexp_unfold in He. cbn [Zdigits2] in He. lia.
    + lia.
    + exists M', E'. rewrite HM. cbn [shr_m]. split; [done|]. split; [done|].
      destruct Hd as [[-> ->]|?]; [by left|by right].
Qed.

(** ** Rounding intervals *)

(** [A / B], in units of [2^(e-2)], lies in the rounding interval of [m * 2^e]. *)
Definition rounds_to (m : positive) (e A B : Z) : Prop :=
  let lo := 4 * Zpos m - (if (Zpos m =? 2 ^ 52) && (-1074 <? e) then 1 else 2) in
  let hi := 4 * Zpos m + 2 in
  if Z.even (Zpos m) then lo * B <= A <= hi * B else lo * B < A < hi * B.

Lemma rounds_to_bounds m e A B :
  0 < B → rounds_to m e A B →
  (4 * Zpos m - 2) * B <= A <= (4 * Zpos m + 2) * B ∧
  (A = (4 * Zpos m - 2) * B ∨ A = (4 * Zpos m + 2) * B → Z.even (Zpos m) = true) ∧
  (-1074 < e → Zpos m = 2 ^ 52 → (4 * Zpos m - 1) * B <= A).
Proof.
  intros HB. unfold rounds_to.
  destruct ((Zpos m =? 2 ^ 52) && (-1074 <? e)) eqn:Hb.
  - apply andb_true_iff in Hb as [Hm%Z.eqb_eq He%Z.ltb_lt]. rewrite Hm. simpl Z.even. cbv iota. intros ?.
    change (2 ^ 52) with 4503599627370496 in *. split; [lia|]. split; [done|lia].
  - assert (¬ (-1074 < e ∧ Zpos m = 2 ^ 52)) as Hn.
    { intros [He Hm]. rewrite Hm, (proj2 (Z.ltb_lt _ _) He) in Hb. done. }
    destruct (Z.even (Zpos m)); intros ?; (split; [lia|]; split; [by intros []; lia|tauto]).
Qed.

(** Nearest integers to one value in one unit. *)
Lemma nearest_unique M m V U A B :
  0 < B → 0 < U → 4 * V * B = A * U → nearest M V U →
  (4 * m - 2) * B <= A <= (4 * m + 2) * B →
  (A = (4 * m - 2) * B ∨ A = (4 * m + 2) * B → Z.even m = true) → M = m.
Proof.
  intros HB HU Heq [Hn Htie] Hr Hedge.
  assert (H1 : (2 * m - 1) * U <= 2 * V).
  { apply (Z.mul_le_mono_pos_r _ _ (2 * B)); [lia|]. nia. }
  assert (H2 : 2 * V <= (2 * m + 1) * U).
  { apply (Z.mul_le_mono_pos_r _ _ (2 * B)); [lia|]. nia. }
  assert (M <= m + 1) by nia. assert (m <= M + 1) by nia.
  destruct (decide (M = m)) as [|Hne]; [done|]. exfalso.
  assert (M = m + 1 ∨ M = m - 1) as [-> | ->] by lia.
  - assert (HV : 2 * V = (2 * m + 1) * U) by nia.
    assert (Z.even m = true) as He.
    { apply Hedge. right. apply (Z.mul_cancel_r _ _ U); [lia|]. nia. }
    assert (Z.even (m + 1) = true) as He' by (apply Htie; left; lia).
    rewrite Z.even_add, He in He'. done.
  - assert (HV : 2 * V = (2 * m - 1) * U) by nia.
    assert (Z.even m = true) as He.
    { apply Hedge. left. apply (Z.mul_cancel_r _ _ U); [lia|]. nia. }
    assert (Z.even (m - 1) = true) as He' by (apply Htie; right; lia).
    rewrite Z.even_sub, He in He'. done.
Qed.

(** The unit of the quotient is that of the interval, or the one below it for the
    least significand. *)
Lemma unit_above m P W AU k :
  0 < W → Zpos m < 2 ^ 53 → AU <= (4 * Zpos m + 2) * W → 2 ^ 52 * W <= P → 8 <= k → P * k <> AU.
Proof.
  intros HW Hm HAU HP Hk Heq.
  assert (P * 8 <= P * k) by (apply Z.mul_le_mono_nonneg_l; lia).
  assert ((4 * Zpos m + 2) * W <= (8 * 2 ^ 52 - 2) * W) by (apply Z.mul_le_mono_nonneg_r; lia). lia.
Qed.

Lemma unit_below m P W AU k :
  0 < W → 2 ^ 52 <= Zpos m → (4 * Zpos m - 2) * W <= AU → P < 2 ^ 53 * W → 2 <= k → AU * k = 4 * P →
  k < 4 ∧ (k = 2 → Zpos m = 2 ^ 52).
Proof.
  intros HW Hm HAU HP Hk Heq.
  assert ((4 * 2 ^ 52 - 2) * W <= (4 * Zpos m - 2) * W) by (apply Z.mul_le_mono_nonneg_r; lia).
  split.
  - destruct (Z.lt_ge_cases k 4) as [|Hge]; [done|]. exfalso.
    assert (AU * 4 <= AU * k) by (apply Z.mul_le_mono_nonneg_l; lia). lia.
  - intros ->. destruct (Z.le_gt_cases (Zpos m) (2 ^ 52)) as [|Hgt]; [lia|]. exfalso.
    assert ((4 * (2 ^ 52 + 1) - 2) * W <= (4 * Zpos m - 2) * W) by (apply Z.mul_le_mono_nonneg_r; lia). lia.
Qed.

(** At the least significand, from below. *)
Lemma nearest_binade M V U A B :
  0 < B → 0 < U → 2 * V * B = A * U → nearest M V U →
  (4 * 2 ^ 52 - 1) * B <= A → V < 2 ^ 53 * U → M = 2 ^ 53.
Proof.
  intros HB HU Heq [Hn Htie] Hlow HV.
  assert (H1 : (2 ^ 54 - 1) * U <= 2 * V).
  { apply (Z.mul_le_mono_pos_r _ _ B); [lia|].
    assert ((4 * 2 ^ 52 - 1) * B * U <= A * U) by (apply Z.mul_le_mono_nonneg_r; lia). lia. }
  assert (M <= 2 ^ 53).
  { destruct (Z.le_gt_cases M (2 ^ 53)) as [|Hgt]; [done|]. exfalso.
    assert ((2 * (2 ^ 53 + 1) - 1) * U <= (2 * M - 1) * U) by (apply Z.mul_le_mono_nonneg_r; lia). lia. }
  destruct (decide (M = 2 ^ 53)) as [|Hne]; [done|]. exfalso.
  assert ((2 * M + 1) * U <= (2 ^ 54 - 1) * U) by (apply Z.mul_le_mono_nonneg_r; lia).
  assert (M = 2 ^ 53 - 1) as ->.
  { destruct (Z.le_gt_cases (2 ^ 53 - 1) M) as [|Hlt]; [lia|].
    assert ((2 * M + 1) * U <= (2 ^ 54 - 3) * U) by (apply Z.mul_le_mono_nonneg_r; lia). lia. }
  assert (Z.even (2 ^ 53 - 1) = true) as He by (apply Htie; right; lia). done.
Qed.

(** The relation of the values in the units of the quotient and of the interval. *)
Lemma unit_cancel a b x y t : t <= x → t <= y → a * 2 ^ (x - t) = b * 2 ^ (y - t) →
  (x <= y → a = b * 2 ^ (y - x)) ∧ (y <= x → a * 2 ^ (x - y) = b).
Proof.
  intros Hx Hy Heq. split; intros Hxy.
  - apply (Z.mul_cancel_r _ _ (2 ^ (x - t))); [apply Z.pow_nonzero; lia|].
    rewrite <- Z.mul_assoc, <- Z.pow_add_r by lia. by replace (y - x + (x - t)) with (y - t) by lia.
  - apply (Z.mul_cancel_r _ _ (2 ^ (y - t))); [apply Z.pow_nonzero; lia|].
    rewrite <- Z.mul_assoc, <- Z.pow_add_r by lia. by replace (x - y + (y - t)) with (x - t) by lia.
Qed.

(** A target above the exponent of the quotient is the first of the next binade. *)
Lemma binade_gap m E e VB BU AU :
  E < e → 0 < BU → 2 ^ 52 <= Zpos m → (4 * Zpos m - 2) * BU <= AU → VB < 2 ^ 53 * BU →
  (E <= e - 2 → VB = AU * 2 ^ (e - 2 - E)) → (e - 2 <= E → VB * 2 ^ (E - (e - 2)) = AU) →
  e - E = 1 ∧ Zpos m = 2 ^ 52.
Proof.
  intros HE HBU Hm52 HB1 HV53 Hge Hle.
  assert (Hk : AU * 2 ^ (e - E) = 4 * VB).
  { destruct (Z.le_gt_cases E (e - 2)) as [Hcase|Hcase].
    - rewrite (Hge Hcase). rewrite (Z.mul_comm 4), <- (Z.mul_assoc _ _ 4). change 4 with (2 ^ 2).
      rewrite <- Z.pow_add_r by lia. by replace (e - 2 - E + 2) with (e - E) by lia.
    - assert (e - E = 1) as -> by lia. rewrite <- (Hle ltac:(lia)).
      replace (E - (e - 2)) with 1 by lia. ring. }
  destruct (unit_below m VB BU AU (2 ^ (e - E))) as [Hk4 Hk2];
    [done|done|done|done|apply (Z.pow_le_mono_r 2 1); lia|done|].
  assert (e - E = 1) as HeE.
  { change 4 with (2 ^ 2) in Hk4. apply Z.pow_lt_mono_r_iff in Hk4; lia. }
  split; [done|]. apply Hk2. by rewrite HeE.
Qed.

Lemma round_target s q e0 l V D m e A B t :
  0 <= q → 0 < D → located q l V D → e0 <= fexp64 (Zdigits2 q + e0) →
  canonical m e → e <= 971 → 0 < B → t <= e0 → t <= e - 2 →
  V * B * 2 ^ (e0 - t) = A * D * 2 ^ (e - 2 - t) → rounds_to m e A B →
  binary_round_aux 53 1024 s q e0 l = S754_finite s m e.
Proof.
  intros Hq HD Hl He0 Hc He HB Ht0 Ht Heq Hr.
  destruct (canonical_range m e Hc) as (Hm & Hemin & Hm52).
  destruct (rounds_to_bounds m e A B HB Hr) as (Hb & Hedge & Hlow).
  destruct (binary_round_aux_nearest s q e0 l V D Hq HD Hl He0) as (M & HM & HV52 & HV & Hres).
  set (E := fexp64 (Zdigits2 q + e0)) in *. set (U := D * 2 ^ (E - e0)) in *.
  assert (HEmin : -1074 <= E) by (unfold E; rewrite fexp_unfold; lia).
  assert (HU : 0 < U) by (apply Z.mul_pos_pos; [done|apply Z.pow_pos_nonneg; lia]).
  assert (HeqU : V * B * 2 ^ (E - t) = A * U * 2 ^ (e - 2 - t)).
  { replace (E - t) with ((e0 - t) + (E - e0)) by lia. rewrite Z.pow_add_r by lia. unfold U.
    rewrite (Z.mul_assoc (V * B)), Heq. ring. }
  assert (HB1 : (4 * Zpos m - 2) * (B * U) <= A * U).
  { rewrite (Z.mul_assoc _ B). apply Z.mul_le_mono_nonneg_r; lia. }
  assert (HB2 : A * U <= (4 * Zpos m + 2) * (B * U)).
  { rewrite (Z.mul_assoc _ B). apply Z.mul_le_mono_nonneg_r; lia. }
  assert (HV53 : V * B < 2 ^ 53 * (B * U)).
  { rewrite (Z.mul_comm B), (Z.mul_assoc _ U). apply Z.mul_lt_mono_pos_r; lia. }
  destruct (unit_cancel _ _ _ _ _ (Z.le_trans _ _ _ Ht0 He0) Ht HeqU) as [Hge Hle].
  destruct (Z.lt_trichotomy E e) as [HE|[HE|HE]].
  - specialize (Hm52 ltac:(lia)).
    destruct (binade_gap m E e (V * B) (B * U) (A * U)) as [HEe Hm52']; [done|by apply Z.mul_pos_pos|done..|].
    assert (M = 2 ^ 53) as HMm.
    { apply (nearest_binade M V U A B); [done..| |done| |done].
      - rewrite <- (Hle ltac:(lia)). replace (E - (e - 2)) with 1 by lia. ring.
      - rewrite <- Hm52'. apply Hlow; [lia|done]. }
    destruct Hres as [[? _]|(M' & E' & -> & Hc' & [[HM' ->]|(_ & HM' & ->)])]; [lia| |].
    + destruct (canonical_range _ _ Hc') as (? & _). lia.
    + assert (M' = m) as -> by lia. replace (E + 1) with e by lia. unfold pack. by rewrite (proj2 (Z.leb_le _ _)).
  - assert (M = Zpos m) as HMm.
    { apply (nearest_unique M (Zpos m) V U A B); [done..| |done|done|done].
      rewrite <- (Hle ltac:(lia)). replace (E - (e - 2)) with 2 by lia. change (2 ^ 2) with 4. ring. }
    destruct Hres as [[? _]|(M' & E' & -> & _ & [[HM' ->]|(? & _)])]; [lia| |lia].
    assert (M' = m) as -> by lia. rewrite HE. unfold pack. by rewrite (proj2 (Z.leb_le _ _)).
  - exfalso. assert (0 < q) as Hq0.
    { destruct (decide (q = 0)) as [->|]; [|lia]. unfold E in HE, He0. rewrite fexp_unfold in HE, He0. cbn [Zdigits2] in *. lia. }
    specialize (HV52 ltac:(lia) Hq0).
    apply (unit_above m (V * B) (B * U) (A * U) (2 ^ (E - (e - 2)))); [apply Z.mul_pos_pos; lia|done|done| | |].
    + rewrite (Z.mul_comm B), (Z.mul_assoc _ U). apply Z.mul_le_mono_nonneg_r; lia.
    + change 8 with (2 ^ 3). apply Z.pow_le_mono_r; lia.
    + apply Hle. lia.
Qed.

(** ** Division *)

Lemma new_location_located q r d : 0 <= r < Zpos d → located q (new_location (Zpos d) r) (Zpos d * q + r) (Zpos d).
Proof.
  intros Hr. unfold new_location.
  assert (Hd : Z.even (Zpos d) = true → ∃ k, Zpos d = 2 * k) by by intros [k ?]%Z.even_spec; eauto.
  assert (Hd' : Z.even (Zpos d) = false → ∃ k, Zpos d = 2 * k + 1).
  { rewrite <- Z.negb_odd, negb_false_iff. intros [k ?]%Z.odd_spec; eauto. }
  destruct (Z.even (Zpos d)).
  - unfold new_location_even. destruct (Z.eqb_spec r 0); cbn [located]; [lia|].
    split; [lia|]. destruct (Z.compare_spec (2 * r) (Zpos d));
      [apply Z.compare_eq_iff|apply Z.compare_lt_iff|apply Z.compare_gt_iff]; lia.
  - destruct Hd' as [k Hk]; [done|]. unfold new_location_odd. destruct (Z.eqb_spec r 0); cbn [located]; [lia|].
    split; [lia|]. destruct (Z.compare_spec (2 * r + 1) (Zpos d));
      [apply Z.compare_lt_iff|apply Z.compare_lt_iff|apply Z.compare_gt_iff]; lia.
Qed.

Lemma div_core_located n d :
  let '(q, e, l) := SFdiv_core_binary 53 1024 (Zpos n) 0 (Zpos d) 0 in
  0 <= q ∧ e <= 0 ∧ e <= fexp64 (Zdigits2 q + e) ∧ located q l (Zpos n * 2 ^ (- e)) (Zpos d).
Proof.
  pose proof (fdiv_core_exponent n 0 d 0) as Hexp. pose proof (SFdiv_core_nonneg n 0 d 0) as Hq.
  destruct (SFdiv_core_binary 53 1024 (Zpos n) 0 (Zpos d) 0) as [[q e] l] eqn:Hcore. cbn [fst] in Hq.
  unfold SFdiv_core_binary in Hcore. cbn [Zdigits2] in Hcore.
  set (e' := Z.min _ _) in Hcore. assert (He' : e' <= 0) by (unfold e'; lia). set (m' := match _ with Z0 => _ | Zpos _ => _ | Zneg _ => _ end) in Hcore.
  assert (Hm' : m' = Zpos n * 2 ^ (- e')).
  { unfold m'. destruct (0 - 0 - e') eqn:Es; [replace (- e') with 0 by lia; lia| |lia]. rewrite Z.shiftl_mul_pow2 by lia. f_equal. f_equal. lia. }
  pose proof (Z_div_mod m' (Zpos d) ltac:(lia)) as Hdiv. destruct (Z.div_eucl m' (Zpos d)) as [q' r].
  injection Hcore as <- <- <-. destruct Hdiv as [Hdiv Hr].
  split; [done|]. split; [lia|]. split.
  - destruct q' as [|p|p]; [|done|done]. rewrite fexp_unfold. cbn [Zdigits2]. lia.
  - rewrite <- Hm', Hdiv. by apply new_location_located.
Qed.

(** A quotient in the rounding interval of a value is rounded to it. *)
Lemma round_ratio_nearest s n d m e :
  canonical m e → e <= 971 →
  rounds_to m e (Zpos n * 2 ^ Z.max 0 (2 - e)) (Zpos d * 2 ^ Z.max 0 (e - 2)) →
  round_ratio s n d = S754_finite s m e.
Proof.
  intros Hc He Hr. unfold round_ratio, fdiv, SFdiv. rewrite xorb_false_r.
  pose proof (div_core_located n d) as Hcore.
  destruct (SFdiv_core_binary 53 1024 (Zpos n) 0 (Zpos d) 0) as [[q e0] l]. destruct Hcore as (Hq & He0 & Hexp & Hl).
  apply (round_target s q e0 l (Zpos n * 2 ^ (- e0)) (Zpos d) m e
    (Zpos n * 2 ^ Z.max 0 (2 - e)) (Zpos d * 2 ^ Z.max 0 (e - 2)) (Z.min e0 (e - 2)) Hq (Pos2Z.is_pos d) Hl); [done..| | | | |exact Hr].
  - apply Z.mul_pos_pos; [done|apply Z.pow_pos_nonneg; lia].
  - lia.
  - lia.
  - set (t := Z.min e0 (e - 2)).
    transitivity (Zpos n * Zpos d * 2 ^ (Z.max 0 (e - 2) - t)).
    + replace (Z.max 0 (e - 2) - t) with (- e0 + (Z.max 0 (e - 2) + (e0 - t))) by lia.
      rewrite !Z.pow_add_r by lia. ring.
    + replace (Z.max 0 (e - 2) - t) with (Z.max 0 (2 - e) + (e - 2 - t)) by lia.
      rewrite !Z.pow_add_r by lia. ring.
Qed.
