(* ===== verification/FloatText.v ===== *)
(** * Numbers as text

    [marshal_float] (Json) writes the shortest decimal that reads back; this file
    proves that it does: [ParseFloat] of what is written for a finite number is
    that number ([parse_marshal_float]).  At most 17 digits are tried, because
    with 17 the nearer of the two decimals around a number always lies in its
    rounding interval. *)
From Stdlib Require Import Ascii Floats.SpecFloat.
From S2P Require Import Prelude GoStrings Float64 FloatFacts Json JsonString JsonText JsonDecode Strconv FloatNearest.
#[local] Open Scope Z_scope.

Lemma pow_max_pos b x : 0 < b → 0 < b ^ Z.max 0 x.
Proof. intros. apply Z.pow_pos_nonneg; lia. Qed.
#[local] Hint Resolve pow_max_pos : core.

(** ** Decimals in the rounding interval *)

(** [q * 10^j] lies in the rounding interval of [m * 2^e]. *)
Definition reads (m : positive) (e q j : Z) : Prop :=
  rounds_to m e (q * 10 ^ Z.max 0 j * 2 ^ Z.max 0 (2 - e)) (10 ^ Z.max 0 (- j) * 2 ^ Z.max 0 (e - 2)).

Lemma rounds_to_scale m e A B c : 0 < c → rounds_to m e (A * c) (B * c) ↔ rounds_to m e A B.
Proof.
  intros Hc. unfold rounds_to. rewrite !Z.mul_assoc.
  destruct (Z.even (Zpos m)); [by rewrite <- !Z.mul_le_mono_pos_r|by rewrite <- !Z.mul_lt_mono_pos_r].
Qed.

Lemma reads_times_ten m e q j : reads m e (10 * q) j ↔ reads m e q (j + 1).
Proof.
  unfold reads. destruct (Z.le_gt_cases 0 j).
  - rewrite !(Z.max_r 0 j), !(Z.max_r 0 (j + 1)), !(Z.max_l 0 (- j)), !(Z.max_l 0 (- (j + 1))) by lia.
    rewrite Z.pow_add_r by lia. replace (10 * q * 10 ^ j) with (q * (10 ^ j * 10 ^ 1)) by ring. done.
  - rewrite !(Z.max_l 0 j), !(Z.max_l 0 (j + 1)), !(Z.max_r 0 (- j)), !(Z.max_r 0 (- (j + 1))) by lia.
    rewrite <- (rounds_to_scale m e (q * _ * _) _ 10) by lia.
    replace (- j) with (1 + - (j + 1)) by lia. rewrite Z.pow_add_r by lia.
    match goal with |- rounds_to _ _ ?a ?b ↔ rounds_to _ _ ?c ?d => replace a with c by ring; by replace b with d by ring end.
Qed.

(** Scaling the exponent of two by two. *)
Lemma interval_scale a b e :
  a * 2 ^ Z.max 0 e <= 4 * b * 2 ^ Z.max 0 (- e) ↔ a * 2 ^ Z.max 0 (e - 2) <= b * 2 ^ Z.max 0 (2 - e).
Proof.
  destruct (Z.le_gt_cases e 0); [|destruct (decide (e = 1)) as [->|]].
  - rewrite !(Z.max_l 0 e), !(Z.max_l 0 (e - 2)), !(Z.max_r 0 (- e)), !(Z.max_r 0 (2 - e)) by lia.
    replace (2 - e) with (2 + - e) by lia. rewrite (Z.pow_add_r 2 2) by lia.
    replace (b * (2 ^ 2 * 2 ^ (- e))) with (4 * b * 2 ^ (- e)) by ring. done.
  - change (2 ^ Z.max 0 1) with 2. change (2 ^ Z.max 0 (- (1))) with 1.
    change (2 ^ Z.max 0 (1 - 2)) with 1. change (2 ^ Z.max 0 (2 - 1)) with 2. lia.
  - rewrite !(Z.max_r 0 e), !(Z.max_r 0 (e - 2)), !(Z.max_l 0 (- e)), !(Z.max_l 0 (2 - e)) by lia.
    replace e with (2 + (e - 2)) at 1 by lia. rewrite Z.pow_add_r by lia.
    rewrite (Z.mul_le_mono_pos_r _ (b * 2 ^ 0) 4) by lia.
    replace (a * (2 ^ 2 * 2 ^ (e - 2))) with (a * 2 ^ (e - 2) * 4) by ring.
    by replace (4 * b * 2 ^ 0) with (b * 2 ^ 0 * 4) by ring.
Qed.

Lemma interval_scale_l a b e :
  4 * a * 2 ^ Z.max 0 (- e) <= b * 2 ^ Z.max 0 e ↔ a * 2 ^ Z.max 0 (2 - e) <= b * 2 ^ Z.max 0 (e - 2).
Proof.
  destruct (Z.le_gt_cases e 0); [|destruct (decide (e = 1)) as [->|]].
  - rewrite !(Z.max_l 0 e), !(Z.max_l 0 (e - 2)), !(Z.max_r 0 (- e)), !(Z.max_r 0 (2 - e)) by lia.
    replace (2 - e) with (2 + - e) by lia. rewrite (Z.pow_add_r 2 2) by lia.
    replace (a * (2 ^ 2 * 2 ^ (- e))) with (4 * a * 2 ^ (- e)) by ring. done.
  - change (2 ^ Z.max 0 1) with 2. change (2 ^ Z.max 0 (- (1))) with 1.
    change (2 ^ Z.max 0 (1 - 2)) with 1. change (2 ^ Z.max 0 (2 - 1)) with 2. lia.
  - rewrite !(Z.max_r 0 e), !(Z.max_r 0 (e - 2)), !(Z.max_l 0 (- e)), !(Z.max_l 0 (2 - e)) by lia.
    replace e with (2 + (e - 2)) at 1 by lia. rewrite Z.pow_add_r by lia.
    rewrite (Z.mul_le_mono_pos_r (a * 2 ^ 0) _ 4) by lia.
    replace (b * (2 ^ 2 * 2 ^ (e - 2))) with (b * 2 ^ (e - 2) * 4) by ring.
    by replace (4 * a * 2 ^ 0) with (a * 2 ^ 0 * 4) by ring.
Qed.

Lemma reads_back_reads m e q j : reads_back m e q j = true ↔ reads m e q j.
Proof.
  unfold reads_back, reads, rounds_to. set (lo := 4 * Zpos m - _). set (hi := 4 * Zpos m + 2).
  set (P := 10 ^ Z.max 0 j). set (N := 10 ^ Z.max 0 (- j)).
  assert (H1 : ∀ a, scaled_leb a e 0 (4 * q) 0 j = true ↔ a * (N * 2 ^ Z.max 0 (e - 2)) <= q * P * 2 ^ Z.max 0 (2 - e)).
  { intros a. unfold scaled_leb. rewrite Z.leb_le. change (- 0) with 0. rewrite !Z.max_id, !Z.pow_0_r, !Z.mul_1_r.
    fold P N. rewrite (Z.mul_assoc a N), <- interval_scale.
    replace (a * 2 ^ Z.max 0 e * N) with (a * N * 2 ^ Z.max 0 e) by ring.
    by replace (4 * q * P * 2 ^ Z.max 0 (- e)) with (4 * (q * P) * 2 ^ Z.max 0 (- e)) by ring. }
  assert (H2 : ∀ b, scaled_leb (4 * q) 0 j b e 0 = true ↔ q * P * 2 ^ Z.max 0 (2 - e) <= b * (N * 2 ^ Z.max 0 (e - 2))).
  { intros b. unfold scaled_leb. rewrite Z.leb_le. change (- 0) with 0. rewrite !Z.max_id, !Z.pow_0_r, !Z.mul_1_r.
    fold P N. rewrite (Z.mul_assoc b N), <- interval_scale_l.
    replace (4 * q * P * 2 ^ Z.max 0 (- e)) with (4 * (q * P) * 2 ^ Z.max 0 (- e)) by ring.
    by replace (b * 2 ^ Z.max 0 e * N) with (b * N * 2 ^ Z.max 0 e) by ring. }
  destruct (Z.even (Zpos m)).
  - rewrite andb_true_iff, H1, H2. lia.
  - rewrite andb_true_iff, !negb_true_iff, <- !not_true_iff_false, H1, H2. lia.
Qed.

(** What lies in the interval is read as the number. *)
Lemma reads_scale_float s m e q j :
  canonical m e → e <= 971 → 0 < q → reads m e q j → scale_float s q 10 j = Some (S754_finite s m e).
Proof.
  intros Hc He Hq Hr. unfold scale_float. destruct q as [|n|n]; try lia.
  rewrite (round_ratio_nearest s _ _ m e); [done..|].
  rewrite !Z2Pos.id; [exact Hr|apply pow_max_pos; lia|apply Z.mul_pos_pos; [done|apply pow_max_pos; lia]].
Qed.

(** ** The decimals around a number *)

(** [m * 2^e / 10^j] as a quotient. *)
Definition numerator (m : positive) (e j : Z) : Z := Zpos m * 2 ^ Z.max 0 e * 10 ^ Z.max 0 (- j).
Definition denominator (e j : Z) : Z := 2 ^ Z.max 0 (- e) * 10 ^ Z.max 0 j.

Lemma numerator_pos m e j : 0 < numerator m e j.
Proof. unfold numerator. repeat apply Z.mul_pos_pos; auto with lia. Qed.
Lemma denominator_pos e j : 0 < denominator e j.
Proof. unfold denominator. apply Z.mul_pos_pos; auto with lia. Qed.

Lemma scaled_floor_spec m e j :
  scaled_floor m e j * denominator e j <= numerator m e j < (scaled_floor m e j + 1) * denominator e j.
Proof.
  unfold scaled_floor. fold (numerator m e j). fold (denominator e j). pose proof (denominator_pos e j) as HY.
  pose proof (Z.mod_pos_bound (numerator m e j) (denominator e j) HY).
  pose proof (Z.div_mod (numerator m e j) (denominator e j) ltac:(lia)) as Hdm. revert Hdm.
  rewrite (Z.mul_comm (denominator e j)), Z.mul_add_distr_r, Z.mul_1_l. lia.
Qed.

Lemma rounds_to_strict m e A B :
  (4 * Zpos m - 2) * B < A < (4 * Zpos m + 2) * B → (Zpos m = 2 ^ 52 → (4 * Zpos m - 1) * B < A) → rounds_to m e A B.
Proof.
  intros H1 H2. unfold rounds_to. destruct ((Zpos m =? 2 ^ 52) && (-1074 <? e)) eqn:Hc; cbv zeta iota.
  - apply andb_true_iff in Hc as [Hm%Z.eqb_eq _]. specialize (H2 Hm). destruct (Z.even (Zpos m)); lia.
  - destruct (Z.even (Zpos m)); lia.
Qed.

(** A decimal compared with the number. *)
Lemma reads_strict m e q j :
  let X := numerator m e j in
  let Y := denominator e j in
  (4 * Zpos m - 2) * X < 4 * q * Zpos m * Y < (4 * Zpos m + 2) * X →
  (Zpos m = 2 ^ 52 → (4 * Zpos m - 1) * X < 4 * q * Zpos m * Y) → reads m e q j.
Proof.
  intros X Y H1 H2. unfold reads. set (A := q * _ * _). set (B := 10 ^ _ * _).
  assert (HX : 0 < X) by apply numerator_pos.
  assert (HB : 0 < B) by (apply Z.mul_pos_pos; auto with lia).
  assert (HA : A * X = 4 * q * Zpos m * Y * B).
  { unfold A, B, X, Y, numerator, denominator.
    assert (Hp : 2 ^ Z.max 0 (2 - e) * 2 ^ Z.max 0 e = 4 * (2 ^ Z.max 0 (- e) * 2 ^ Z.max 0 (e - 2))).
    { change 4 with (2 ^ 2). rewrite <- !Z.pow_add_r by lia. f_equal. lia. }
    transitivity (q * 10 ^ Z.max 0 j * Zpos m * 10 ^ Z.max 0 (- j) * (2 ^ Z.max 0 (2 - e) * 2 ^ Z.max 0 e)); [ring|].
    rewrite Hp. ring. }
  assert (Hlt : ∀ c, c * X < 4 * q * Zpos m * Y → c * B < A).
  { intros c Hc. apply (Z.mul_lt_mono_pos_r X); [done|]. rewrite HA. rewrite <- Z.mul_assoc, (Z.mul_comm B), Z.mul_assoc.
    by apply Z.mul_lt_mono_pos_r. }
  assert (Hgt : ∀ c, 4 * q * Zpos m * Y < c * X → A < c * B).
  { intros c Hc. apply (Z.mul_lt_mono_pos_r X); [done|]. rewrite HA. rewrite <- (Z.mul_assoc c), (Z.mul_comm B X), Z.mul_assoc.
    by apply Z.mul_lt_mono_pos_r. }
  apply rounds_to_strict; [split; [apply Hlt|apply Hgt]; lia|]. intros Hm. apply Hlt. auto.
Qed.

(** With at least 10^16 units, the nearer decimal is in the interval. *)
Lemma nearer_below m e q j :
  let X := numerator m e j in
  let Y := denominator e j in
  Zpos m < 2 ^ 53 → 10 ^ 16 <= q → q * Y <= X → 2 * X <= (2 * q + 1) * Y → reads m e q j.
Proof.
  intros X Y Hm Hq Hlo Hhi. assert (HY : 0 < Y) by apply denominator_pos. assert (HX : 0 < X) by apply numerator_pos.
  assert (H53 : 2 ^ 53 < 10 ^ 16) by done.
  set (R := X - q * Y). assert (HR : 0 <= 2 * R <= Y) by lia.
  assert (Heq : 4 * q * Zpos m * Y = 4 * Zpos m * X - 4 * Zpos m * R) by (unfold R; ring).
  assert (HmR : 2 * Zpos m * (2 * R) <= 2 * Zpos m * Y) by (apply Z.mul_le_mono_nonneg_l; lia).
  assert (HmY : Zpos m * Y < q * Y) by (apply Z.mul_lt_mono_pos_r; lia).
  assert (HmR0 : 0 <= Zpos m * R) by (apply Z.mul_nonneg_nonneg; lia).
  apply reads_strict; fold X Y; rewrite Heq.
  - assert (2 * q * Y <= 2 * X) by lia. split; [|lia]. lia.
  - intros Hm52. assert (2 * Zpos m * Y < q * Y) by (apply Z.mul_lt_mono_pos_r; [done|]; rewrite Hm52; lia). lia.
Qed.

Lemma nearer_above m e q j :
  let X := numerator m e j in
  let Y := denominator e j in
  Zpos m < 2 ^ 53 → 10 ^ 16 <= q → X < (q + 1) * Y → (2 * q + 1) * Y < 2 * X → reads m e (q + 1) j.
Proof.
  intros X Y Hm Hq Hhi Hlo. assert (HY : 0 < Y) by apply denominator_pos. assert (HX : 0 < X) by apply numerator_pos.
  assert (H53 : 2 ^ 53 < 10 ^ 16) by done.
  set (R := (q + 1) * Y - X). assert (HR : 0 < 2 * R < Y) by lia.
  assert (Heq : 4 * (q + 1) * Zpos m * Y = 4 * Zpos m * X + 4 * Zpos m * R) by (unfold R; ring).
  assert (HmR : 2 * Zpos m * (2 * R) < 2 * Zpos m * Y) by (apply Z.mul_lt_mono_pos_l; lia).
  assert (HmY : Zpos m * Y < q * Y) by (apply Z.mul_lt_mono_pos_r; lia).
  assert (HmR0 : 0 < Zpos m * R) by (apply Z.mul_pos_pos; lia).
  apply reads_strict; fold X Y; rewrite Heq; [|intros _; lia].
  assert (q * Y <= X) by lia. split; lia.
Qed.

(** ** The shortest decimal *)

(** [10^k] is at most [m * 2^e]. *)
Definition at_least (m : positive) (e k : Z) : Prop := denominator e k <= numerator m e k.

Lemma shift_ten m e j k :
  j <= k → numerator m e j * denominator e k = numerator m e k * denominator e j * 10 ^ (k - j).
Proof.
  intros Hjk. unfold numerator, denominator.
  transitivity (Zpos m * 2 ^ Z.max 0 e * 2 ^ Z.max 0 (- e) * (10 ^ Z.max 0 (- j) * 10 ^ Z.max 0 k)); [ring|].
  rewrite <- Z.pow_add_r by lia. replace (Z.max 0 (- j) + Z.max 0 k) with (Z.max 0 (- k) + Z.max 0 j + (k - j)) by lia.
  rewrite !Z.pow_add_r by lia. ring.
Qed.

Lemma scaled_floor_ge m e k j : j <= k → at_least m e k → 10 ^ (k - j) <= scaled_floor m e j.
Proof.
  intros Hjk Hk. unfold at_least in Hk. unfold scaled_floor. fold (numerator m e j). fold (denominator e j).
  apply Z.div_le_lower_bound; [apply denominator_pos|].
  apply (Z.mul_le_mono_pos_r _ _ (denominator e k)); [apply denominator_pos|]. rewrite (shift_ten m e j k) by done.
  rewrite <- !Z.mul_assoc, (Z.mul_comm (10 ^ (k - j))), (Z.mul_assoc (denominator e j)), (Z.mul_comm (denominator e j)).
  rewrite <- (Z.mul_assoc (denominator e k)). apply Z.mul_le_mono_nonneg_r; [|done].
  apply Z.mul_nonneg_nonneg; [pose proof (denominator_pos e j); lia|apply Z.pow_nonneg; lia].
Qed.

Lemma at_least_floor m e j c : 0 <= c → 10 ^ c <= scaled_floor m e j → at_least m e (j + c).
Proof.
  intros Hc Hf. unfold at_least. pose proof (scaled_floor_spec m e j) as [Hle _]. pose proof (denominator_pos e j) as Hd.
  assert (10 ^ c * denominator e j <= numerator m e j).
  { transitivity (scaled_floor m e j * denominator e j); [apply Z.mul_le_mono_nonneg_r; lia|done]. }
  assert (Hp : 0 < 10 ^ c) by (apply Z.pow_pos_nonneg; lia).
  pose proof (shift_ten m e j (j + c) ltac:(lia)) as Hs. replace (j + c - j) with c in Hs by lia.
  apply (Z.mul_le_mono_pos_r _ _ (denominator e j * 10 ^ c)); [by apply Z.mul_pos_pos|].
  rewrite (Z.mul_assoc (numerator m e (j + c))), <- Hs, (Z.mul_comm (numerator m e j)).
  apply Z.mul_le_mono_nonneg_l; [pose proof (denominator_pos e (j + c)); lia|lia].
Qed.

Lemma count_digits_spec fuel n : 0 < n → 0 <= count_digits fuel n ∧ 10 ^ count_digits fuel n <= 10 * n.
Proof.
  revert n. induction fuel as [|f IH]; intros n Hn; cbn [count_digits]; [simpl; lia|].
  rewrite (proj2 (Z.leb_gt _ _)) by done. destruct (Z.eq_dec (n / 10) 0) as [H0|H0].
  - rewrite H0. assert (count_digits f 0 = 0) as -> by by destruct f. simpl. lia.
  - destruct (IH (n / 10)) as [H1 H2]; [pose proof (Z.div_pos n 10); lia|]. split; [lia|].
    rewrite Z.pow_add_r by lia. change (10 ^ 1) with 10. pose proof (Z.mul_div_le n 10). lia.
Qed.

Lemma count_digits_pos f n : 0 < n → 1 <= count_digits (S f) n.
Proof.
  intros Hn. cbn [count_digits]. rewrite (proj2 (Z.leb_gt _ _)) by done.
  assert (0 <= count_digits f (n / 10)); [|lia]. destruct (Z.eq_dec (n / 10) 0) as [->|H0]; [by destruct f|].
  apply count_digits_spec. pose proof (Z.div_pos n 10). lia.
Qed.

(** The decimal exponent of a number, from below. *)
Lemma at_least_digits m e j f : 0 < scaled_floor m e j → at_least m e (j + (count_digits (S f) (scaled_floor m e j) - 1)).
Proof.
  intros Hf. pose proof (count_digits_pos f _ Hf) as H1. destruct (count_digits_spec (S f) _ Hf) as [_ H2].
  apply at_least_floor; [lia|]. apply (Z.mul_le_mono_pos_l _ _ 10); [lia|].
  change 10 with (10 ^ 1) at 1. rewrite <- Z.pow_add_r by lia. by rewrite Z.add_sub_assoc, Z.add_simpl_l.
Qed.

Lemma decimal_exp_spec m e : -1074 <= e → at_least m e (decimal_exp m e).
Proof.
  intros He. unfold decimal_exp. cbv zeta. destruct (Z.ltb_spec 0 (scaled_floor m e 0)) as [Hi|Hi].
  - pose proof (at_least_digits m e 0 399 Hi) as H. by rewrite Z.add_0_l in H.
  - assert (Hpos : 0 < scaled_floor m e (-400)).
    { apply Z.div_str_pos. split; [apply denominator_pos|].
      change (10 ^ Z.max 0 (-400)) with 1. change (10 ^ Z.max 0 (- -400)) with (10 ^ 400). rewrite Z.mul_1_r.
      transitivity (2 ^ 1074); [apply Z.pow_le_mono_r; lia|]. transitivity (10 ^ 400); [by apply Z.leb_le|].
      rewrite <- (Z.mul_1_l (10 ^ 400)) at 1. apply Z.mul_le_mono_nonneg_r; [by apply Z.leb_le|].
      pose proof (pow_max_pos 2 e). lia. }
    pose proof (at_least_digits m e (-400) 399 Hpos) as H.
    change (S 399) with 400%nat in H. by replace (-400 + (count_digits 400 (scaled_floor m e (-400)) - 1))
      with (count_digits 400 (scaled_floor m e (-400)) - 401) in H by lia.
Qed.

(** With 17 digits one of the two decimals around the number reads back. *)
Lemma seventeen_digits m e j :
  let q := scaled_floor m e j in
  Zpos m < 2 ^ 53 → 10 ^ 16 <= q →
  (if scaled_leb (2 * Zpos m) e 0 (2 * q + 1) 0 j then reads_back m e q j else reads_back m e (q + 1) j) = true.
Proof.
  intros q Hm Hq. pose proof (scaled_floor_spec m e j) as [Hlo Hhi]. fold q in Hlo, Hhi.
  assert (Hnear : scaled_leb (2 * Zpos m) e 0 (2 * q + 1) 0 j = true ↔
    2 * numerator m e j <= (2 * q + 1) * denominator e j).
  { unfold scaled_leb, numerator, denominator. rewrite Z.leb_le. change (- 0) with 0. rewrite !Z.max_id, !Z.pow_0_r, !Z.mul_1_r.
    rewrite !Z.mul_assoc. by rewrite <- (Z.mul_assoc (2 * q + 1) (10 ^ _)), (Z.mul_comm (10 ^ Z.max 0 j)), Z.mul_assoc. }
  destruct (scaled_leb _ _ _ _ _ _); apply reads_back_reads.
  - apply nearer_below; [done..|]. by apply Hnear.
  - apply nearer_above; [done..|]. apply Z.nle_gt. intros H. by apply Hnear in H.
Qed.

Lemma shortest_reads fuel n m e k :
  Zpos m < 2 ^ 53 → at_least m e k → 1 <= n <= 17 → 17 <= n + Z.of_nat fuel →
  reads m e (shortest fuel n m e k).1 (shortest fuel n m e k).2 ∧ 0 < (shortest fuel n m e k).1.
Proof.
  intros Hm Hk. revert n. induction fuel as [|f IH]; intros n Hn Hfuel.
  all: assert (Hq : 10 ^ (n - 1) <= scaled_floor m e (k - n + 1)) by
    (replace (n - 1) with (k - (k - n + 1)) by lia; apply scaled_floor_ge; [lia|done]).
  all: assert (0 < 10 ^ (n - 1)) by (apply Z.pow_pos_nonneg; lia).
  all: assert (H17 : n = 17 → 10 ^ 16 <= scaled_floor m e (k - n + 1)) by (by intros ->).
  all: pose proof (seventeen_digits m e (k - n + 1) Hm) as Hlast.
  all: cbn [shortest]; set (j := k - n + 1) in *; set (q := scaled_floor m e j) in *.
  all: destruct (reads_back m e q j) eqn:Hb; destruct (reads_back m e (q + 1) j) eqn:Ha;
    destruct (scaled_leb (2 * Zpos m) e 0 (2 * q + 1) 0 j) eqn:Hnear; cbn [andb orb negb fst snd];
    try (split; [by apply reads_back_reads|lia]).
  all: destruct (decide (n = 17)) as [H'|]; [by specialize (Hlast (H17 H'))|].
  all: try (apply IH; lia). all: lia.
Qed.

Lemma shortest_range fuel n m e k :
  let r := shortest fuel n m e k in
  k - n - Z.of_nat fuel + 1 <= r.2 <= k - n + 1 ∧ r.1 <= scaled_floor m e r.2 + 1.
Proof.
  revert n. induction fuel as [|f IH]; intros n; cbn [shortest].
  all: destruct (_ && _); [cbn [fst snd]; lia|]; destruct (reads_back m e _ _); [cbn [fst snd]; lia|].
  - cbn [fst snd]. lia.
  - destruct (IH (n + 1)). cbv zeta. lia.
Qed.

Lemma strip_zeros_reads fuel m e q j :
  reads m e q j → 0 < q → reads m e (strip_zeros fuel q j).1 (strip_zeros fuel q j).2 ∧ 0 < (strip_zeros fuel q j).1 ∧
    j <= (strip_zeros fuel q j).2 <= j + Z.of_nat fuel ∧ (strip_zeros fuel q j).1 <= q.
Proof.
  revert q j. induction fuel as [|f IH]; intros q j Hr Hq; cbn [strip_zeros]; [simpl; split; [done|lia]|].
  destruct ((q mod 10 =? 0) && (0 <? q)) eqn:Hc; [|cbn [fst snd]; split; [done|lia]].
  apply andb_true_iff in Hc as [Hz%Z.eqb_eq _].
  assert (Hdiv : q = 10 * (q / 10)) by (pose proof (Z.div_mod q 10); lia).
  destruct (IH (q / 10) (j + 1)) as (H1 & H2 & H3 & H4); [rewrite Hdiv in Hr; by apply reads_times_ten|lia|].
  split; [done|]. lia.
Qed.

Lemma count_digits_le f n : 0 <= count_digits f n <= Z.of_nat f.
Proof.
  revert n. induction f as [|f IH]; intros n; cbn [count_digits]; [lia|]. specialize (IH (n / 10)).
  destruct (n <=? 0); lia.
Qed.

Lemma decimal_exp_range m e : -401 <= decimal_exp m e <= 399.
Proof.
  unfold decimal_exp. cbv zeta. pose proof (count_digits_le 400 (scaled_floor m e 0)).
  pose proof (count_digits_le 400 (scaled_floor m e (-400))). destruct (_ <? _); lia.
Qed.

(** ** Reading the texts *)

Lemma decimal_zeros acc n : decimal acc (zeros n) = acc * 10 ^ Z.of_nat n.
Proof.
  revert acc. induction n as [|n IH]; intros acc; [simpl; lia|].
  change (zeros (S n)) with (String "0" (zeros n)). cbn [decimal]. rewrite IH.
  rewrite Nat2Z.inj_succ, Z.pow_succ_r by lia. change (Z.of_N (N_of_ascii "0") - 48) with 0. ring.
Qed.
Lemma all_digits_zeros n : all_digits (zeros n) = true.
Proof. induction n as [|n IH]; [done|]. exact IH. Qed.
Lemma length_zeros n : String.length (zeros n) = n.
Proof. induction n as [|n IH]; [done|]. change (S (String.length (zeros n)) = S n). by rewrite IH. Qed.

Lemma digit_value a : is_digit a = true → Z.of_N (hex_value a) = Z.of_N (N_of_ascii a) - 48.
Proof. by all_bytes a. Qed.

Lemma digit_neq a : is_digit a = true → a ≠ "_"%char ∧ a ≠ "."%char ∧ a ≠ "-"%char ∧ a ≠ "+"%char.
Proof. by all_bytes a. Qed.

(** The mantissa after more digits. *)
Definition add_digits (acc : mantissa) (d : string) : mantissa :=
  MkMantissa (decimal (mt_value acc) d) (mt_any acc || negb (bool_decide (d = ""))) (mt_dot acc)
    (if mt_dot acc then mt_frac acc + Z.of_nat (String.length d) else mt_frac acc).

Lemma scan_mantissa_digits acc d r :
  all_digits d = true → scan_mantissa false acc (d +:+ r) = scan_mantissa false (add_digits acc d) r.
Proof.
  revert acc. induction d as [|a d IH]; intros acc.
  - intros _. rewrite str_nil_app. unfold add_digits. destruct acc as [v any dot frac]. simpl.
    by rewrite orb_false_r, Z.add_0_r; destruct dot.
  - cbn [all_digits]. intros [Ha Hd]%andb_true_iff. destruct (digit_neq a Ha) as (? & ? & _).
    rewrite str_cons_app. cbn [scan_mantissa]. rewrite !decide_False by done. rewrite Ha. cbn [orb].
    rewrite IH by done. f_equal. unfold add_digits. cbn [mt_value mt_any mt_dot mt_frac decimal].
    rewrite (digit_value a Ha). destruct (mt_any acc), (mt_dot acc); cbn [orb negb String.length]; f_equal; try lia;
      by rewrite bool_decide_eq_false_2.
Qed.

Lemma decimal_ge acc d : 0 <= acc → all_digits d = true → acc <= decimal acc d.
Proof.
  revert acc. induction d as [|a d IH]; intros acc Hacc; simpl; [lia|]. intros [Ha Hd]%andb_true_iff.
  assert (0 <= Z.of_N (N_of_ascii a) - 48).
  { revert Ha. clear. all_bytes a; intros _; vm_compute; discriminate. }
  specialize (IH (10 * acc + (Z.of_N (N_of_ascii a) - 48)) ltac:(lia) Hd). lia.
Qed.

Lemma scan_exponent_digits acc d :
  0 <= acc → all_digits d = true → decimal acc d < 10000 → scan_exponent acc d = (decimal acc d, "").
Proof.
  revert acc. induction d as [|a d IH]; intros acc Hacc Hd Hlt; [done|].
  pose proof (decimal_ge acc (String a d) Hacc Hd) as Hge.
  cbn [all_digits] in Hd. apply andb_true_iff in Hd as [Ha Hd]. destruct (digit_neq a Ha) as (? & _).
  cbn [scan_exponent decimal] in *. rewrite decide_False by done. rewrite Ha.
  rewrite (proj2 (Z.ltb_lt _ _)) by lia. rewrite (digit_value a Ha). apply IH; [|done|done].
  revert Ha. clear -Hacc. all_bytes a; intros _; cbn; lia.
Qed.

(** The characters of a printed number. *)
Definition number_char (a : ascii) : bool := is_digit a || bool_decide (a ∈ ["."; "e"; "+"; "-"]%char).
Fixpoint number_chars (s : string) : bool :=
  match s with "" => true | String a s' => number_char a && number_chars s' end.

Lemma number_chars_app s1 s2 : number_chars (s1 +:+ s2) = number_chars s1 && number_chars s2.
Proof. induction s1 as [|a s1 IH]; [done|]. rewrite str_cons_app. simpl. by rewrite IH, andb_assoc. Qed.
Lemma number_chars_digits d : all_digits d = true → number_chars d = true.
Proof.
  induction d as [|a d IH]; simpl; [done|]. intros [Ha Hd]%andb_true_iff. unfold number_char. by rewrite Ha, IH.
Qed.
Lemma number_chars_plain s : number_chars s = true → has_byte "_" s = false.
Proof.
  induction s as [|a s IH]; simpl; [done|]. intros [Ha Hs]%andb_true_iff. rewrite IH by done.
  rewrite bool_decide_eq_false_2; [done|]. by intros ->.
Qed.
Lemma number_char_x a : number_char a = true → to_lower a ≠ "x"%char.
Proof. by all_bytes a. Qed.

Lemma special_number (s : bool) w :
  (∃ c w', w = String c w' ∧ is_digit c = true) →
  scan_plus_minus ((if s then "-" else "") +:+ w) = (s, w) ∧ special ((if s then "-" else "") +:+ w) = None.
Proof.
  intros (c & w' & -> & Hc). destruct (digit_neq c Hc) as (_ & _ & Hm & Hp).
  assert (Hs : scan_plus_minus ((if s then "-" else "") +:+ String c w') = (s, String c w')).
  { destruct s; [done|]. rewrite str_nil_app. simpl. by rewrite !decide_False. }
  split; [done|]. unfold special. rewrite Hs.
  assert (to_lower c ≠ "i"%char ∧ to_lower c ≠ "n"%char) as [Hi Hn] by (revert Hc; all_bytes c).
  rewrite !decide_False; [done| |].
  - destruct s; [done|]. rewrite str_nil_app. simpl. by intros [= ? ?].
  - cbn [lower]. rewrite !elem_of_cons, elem_of_nil. by intros [[= ? ?]|[[= ? ?]|[]]].
Qed.

(** The point and the digits after it. *)
Definition point (fr : string) : string := if decide (fr = "") then "" else String "." fr.

Lemma scan_point (a fr ex : string) :
  digits a → all_digits fr = true → (ex = "" ∨ ∃ y, ex = String "e" y) →
  scan_mantissa false (MkMantissa 0 false false 0) (a +:+ point fr +:+ ex) =
    (MkMantissa (decimal 0 (a +:+ fr)) true (negb (bool_decide (fr = ""))) (Z.of_nat (String.length fr)), ex).
Proof.
  intros [Hne Ha] Hfr Hex. rewrite scan_mantissa_digits by done. unfold add_digits. cbn [mt_value mt_any mt_dot mt_frac orb].
  rewrite bool_decide_eq_false_2 by done. cbn [negb].
  assert (Hstop : ∀ acc, scan_mantissa false acc ex = (acc, ex)) by (by intros acc; destruct Hex as [->|[y ->]]).
  unfold point. case_decide as Hf.
  - subst. by rewrite str_nil_app, Hstop, str_app_nil.
  - rewrite str_cons_app. cbn [scan_mantissa]. rewrite decide_False, decide_True by done. cbn [mt_dot mt_value mt_any mt_frac].
    rewrite scan_mantissa_digits, Hstop by done. unfold add_digits. cbn [mt_value mt_any mt_dot mt_frac orb].
    rewrite bool_decide_eq_false_2 by done. by rewrite decimal_app, Z.add_0_l.
Qed.

(** What [ParseFloat] makes of a printed number. *)
Lemma ParseFloat_shape (s : bool) (a fr ex : string) (e : Z) :
  digits a → all_digits fr = true →
  (ex = "" ∧ e = 0 ∨ ∃ y, ex = String "e" y ∧ number_chars y = true ∧ read_exponent y = Some (e, "")) →
  ParseFloat ((if s then "-" else "") +:+ a +:+ point fr +:+ ex) =
    scale_float s (decimal 0 (a +:+ fr)) 10 (e - Z.of_nat (String.length fr)).
Proof.
  intros Ha Hfr Hex. destruct Ha as [Hne Ha].
  assert (Hhead : ∃ c w', a +:+ point fr +:+ ex = String c w' ∧ is_digit c = true) by (by apply digits_head).
  assert (Hchars : number_chars (a +:+ point fr +:+ ex) = true).
  { rewrite !number_chars_app, number_chars_digits by done. unfold point.
    assert (number_chars ex = true) as -> by (destruct Hex as [[-> _]|(y & -> & Hy & _)]; [done|exact Hy]).
    case_decide; [done|]. simpl. by rewrite number_chars_digits. }
  destruct (special_number s _ Hhead) as [Hsign Hspecial]. unfold ParseFloat. rewrite Hspecial, Hsign.
  assert (Hhex : ∀ w : string, number_chars w = true →
    match w with
    | String z (String x (String _ _ as w')) =>
        if bool_decide (z = "0"%char) && bool_decide (to_lower x = "x"%char) then (true, w') else (false, w)
    | _ => (false, w)
    end = (false, w)).
  { intros w Hw. destruct w as [|z [|x [|y w]]]; try done. simpl in Hw. rewrite !andb_true_iff in Hw.
    destruct Hw as (_ & Hx & _). apply number_char_x in Hx. by rewrite (bool_decide_eq_false_2 (to_lower x = _)), andb_false_r. }
  rewrite Hhex by done. rewrite scan_point; [|done|done|destruct Hex as [[-> _]|(y & -> & _)]; eauto].
  cbn [mt_any negb mt_value mt_frac].
  assert (Hus : has_byte "_" ((if s then "-" else "") +:+ a +:+ point fr +:+ ex) = false).
  { rewrite has_byte_app, (number_chars_plain (a +:+ _)) by done. by destruct s. }
  destruct Hex as [[-> ->]|(y & -> & _ & Hy)].
  - cbn [mbind option_bind]. rewrite decide_False by tauto. by rewrite Hus.
  - rewrite decide_True by done. rewrite Hy. cbn [mbind option_bind]. rewrite decide_False by tauto. by rewrite Hus.
Qed.

Lemma substring_split n d :
  (n <= String.length d)%nat →
  String.substring 0 n d +:+ String.substring n (String.length d - n) d = d ∧
  String.length (String.substring 0 n d) = n ∧ String.length (String.substring n (String.length d - n) d) = (String.length d - n)%nat.
Proof.
  revert n. induction d as [|a d IH]; intros n Hn; [by destruct n; [|simpl in Hn; lia]|].
  destruct n as [|n].
  - destruct (IH 0%nat) as (H1 & _ & H3); [lia|]. rewrite Nat.sub_0_r in *.
    assert (String.substring 0 (String.length d) d = d) as Hd by by destruct d.
    cbn [String.length String.substring]. rewrite Hd. done.
  - simpl in Hn. destruct (IH n) as (H1 & H2 & H3); [lia|]. cbn [String.length String.substring].
    change (S (String.length d) - S n)%nat with (String.length d - n)%nat.
    rewrite str_cons_app, H1. cbn [String.length]. auto.
Qed.

Lemma pretty_pos_digits q :
  0 < q → digits (pretty q) ∧ decimal 0 (pretty q) = q ∧ 10 ^ (Z.of_nat (String.length (pretty q)) - 1) <= q.
Proof.
  intros Hq. destruct (pretty_Z_cases q) as (sg & n & Hp & [[-> Hn]|[_ Hn]]); [|lia].
  rewrite Hp, str_nil_app. destruct (pretty_N_digits n) as (Hd & Hi & Hv). rewrite Hv. split; [done|]. split; [lia|].
  destruct Hi as [Hi|[_ Hi]]; [rewrite Hi; simpl; lia|].
  rewrite Hn, <- Hv. destruct Hd as [Hne Hall]. clear -Hne Hall Hi.
  destruct (pretty n) as [|a d]; [done|]. cbn [String.length]. rewrite Nat2Z.inj_succ, Z.sub_1_r, Z.pred_succ.
  cbn [all_digits] in Hall. apply andb_true_iff in Hall as [Ha Hd].
  assert (Hacc : ∀ acc, 1 <= acc → 10 ^ Z.of_nat (String.length d) * acc <= decimal acc d).
  { clear -Hd. induction d as [|b d IH]; intros acc Hacc; [simpl; lia|].
    cbn [all_digits] in Hd. apply andb_true_iff in Hd as [Hb Hd]. cbn [String.length decimal].
    rewrite Nat2Z.inj_succ, Z.pow_succ_r by lia.
    assert (0 <= Z.of_N (N_of_ascii b) - 48) by (revert Hb; clear; all_bytes b; intros _; vm_compute; discriminate).
    specialize (IH Hd (10 * acc + (Z.of_N (N_of_ascii b) - 48)) ltac:(lia)).
    assert (0 < 10 ^ Z.of_nat (String.length d)) by (apply Z.pow_pos_nonneg; lia). nia. }
  assert (H1 : 1 <= 10 * 0 + (Z.of_N (N_of_ascii a) - 48)).
  { assert (a ≠ "0"%char) as Hz by (intros ->; by rewrite after_cons in Hi).
    revert Ha Hz. clear. destruct a as [[] [] [] [] [] [] [] []]; intros Ha Hz; vm_compute; (discriminate || congruence). }
  cbn [decimal]. etransitivity; [|apply Hacc; exact H1].
  rewrite <- (Z.mul_1_r (10 ^ _)) at 1. apply Z.mul_le_mono_nonneg_l; [apply Z.pow_nonneg; lia|done].
Qed.

Lemma pretty_number_int q : 0 < q → number_int (pretty q).
Proof.
  intros Hq. destruct (pretty_Z_cases q) as (sg & n & -> & [[-> _]|[_ ?]]); [|lia].
  rewrite str_nil_app. by destruct (pretty_N_digits n) as (_ & ? & _).
Qed.

(** A text with a fraction, and what it stands for. *)
Record decimal_shape (text : string) (q j : Z) (a fr ex : string) (e : Z) : Prop := {
  ds_text : text = a +:+ point fr +:+ ex;
  ds_int : number_int a;
  ds_digits : digits a;
  ds_frac : all_digits fr = true;
  ds_exp : ex = "" ∧ e = 0 ∨
    ∃ y, ex = String "e" y ∧ number_chars y = true ∧ read_exponent y = Some (e, "") ∧ number_exp ex;
  ds_value : decimal 0 (a +:+ fr) = q;
  ds_scale : e - Z.of_nat (String.length fr) = j
}.

Lemma parse_shape (s : bool) text q j a fr ex e :
  decimal_shape text q j a fr ex e → ParseFloat ((if s then "-" else "") +:+ text) = scale_float s q 10 j.
Proof.
  intros [-> _ Ha Hfr Hex <- <-]. apply ParseFloat_shape; [done|done|].
  destruct Hex as [?|(y & ? & ? & ? & _)]; [by left|right; by exists y].
Qed.

Lemma number_shape (s : bool) text q j a fr ex e :
  decimal_shape text q j a fr ex e → number ((if s then "-" else "") +:+ text).
Proof.
  intros [-> Ha _ Hfr Hex _ _]. constructor.
  - by destruct s; [right|left].
  - done.
  - unfold point. case_decide; [constructor|by constructor].
  - destruct Hex as [[-> _]|(y & _ & _ & _ & ?)]; [constructor|done].
Qed.

(** The first [n] digits and the rest. *)
Lemma split_digits q n :
  let d := pretty q in
  0 < q → (0 < n <= String.length d)%nat →
  let a := String.substring 0 n d in
  let b := String.substring n (String.length d - n) d in
  a +:+ b = d ∧ String.length b = (String.length d - n)%nat ∧ number_int a ∧ digits a ∧ all_digits b = true.
Proof.
  intros d Hq Hn a b. destruct (pretty_pos_digits q Hq) as ([Hne Hall] & Hv & _).
  destruct (substring_split n d) as (Hsplit & H1 & H2); [lia|]. fold a b in Hsplit, H1, H2. fold d in Hne, Hall.
  pose proof (pretty_number_int q Hq) as Hint. fold d in Hint.
  rewrite <- Hsplit, all_digits_app in Hall. apply andb_true_iff in Hall as [Ha Hb].
  assert (Hane : a ≠ "") by (intros H0; rewrite H0 in H1; simpl in H1; lia).
  split_and!; [done|done| |done|done].
  destruct Hint as [Hint|[_ Hint]].
  - left. rewrite Hint in Hsplit, Hn. simpl in Hn. destruct a as [|x a]; [done|].
    rewrite str_cons_app in Hsplit. injection Hsplit as -> Hrest. by destruct a.
  - right. split; [done|]. destruct a as [|x a]; [done|].
    rewrite <- Hsplit, str_cons_app in Hint. revert Hint. simpl. by case_decide.
Qed.

Lemma point_nonempty fr : fr ≠ "" → point fr = "." +:+ fr.
Proof. intros. unfold point. by rewrite decide_False. Qed.

(** Without an exponent. *)
Lemma fmt_f_shape q j :
  0 < q → ∃ a fr, decimal_shape (fmt_f q j) (if 0 <=? j then q * 10 ^ j else q) (if 0 <=? j then 0 else j) a fr "" 0.
Proof.
  intros Hq. destruct (pretty_pos_digits q Hq) as ([Hne Hall] & Hv & _).
  pose proof (pretty_number_int q Hq) as Hint. unfold fmt_f.
  destruct (Z.leb_spec 0 j) as [Hj|Hj].
  - exists (pretty q +:+ zeros (Z.to_nat j)), "".
    assert (Hd : all_digits (pretty q +:+ zeros (Z.to_nat j)) = true) by by rewrite all_digits_app, Hall, all_digits_zeros.
    split; [by rewrite !str_app_nil| | |done|by left| |done].
    + right. split; [split; [by destruct (pretty q)|done]|].
      destruct Hint as [Hint|[_ Hint]]; [rewrite Hint in Hv; by simpl in Hv; lia|].
      destruct (pretty q); [done|]. revert Hint. rewrite str_cons_app. simpl. by case_decide.
    + split; [by destruct (pretty q)|done].
    + by rewrite str_app_nil, decimal_app, decimal_zeros, Hv, Z2Nat.id.
  - cbv zeta. set (d := pretty q) in *. set (frac := Z.to_nat (- j)). destruct (Nat.leb_spec (String.length d) frac) as [Hlen|Hlen].
    + exists "0", (zeros (frac - String.length d) +:+ d). split.
      * rewrite point_nonempty, str_app_nil; [done|]. by destruct (zeros _).
      * by left.
      * done.
      * by rewrite all_digits_app, all_digits_zeros.
      * by left.
      * rewrite !decimal_app, decimal_zeros. change (decimal 0 "0") with 0. by rewrite Z.mul_0_l, Hv.
      * rewrite length_str_app, length_zeros. lia.
    + destruct (split_digits q (String.length d - frac) Hq) as (Hsplit & H2 & Ha & Hda & Hb); [fold d; lia|].
      fold d in Hsplit, H2, Ha, Hda, Hb.
      replace (String.length d - (String.length d - frac))%nat with frac in Hsplit, H2, Hb by lia.
      eexists _, _. split; [|exact Ha|exact Hda|exact Hb|by left|by rewrite Hsplit|rewrite H2; lia].
      rewrite point_nonempty; [by rewrite str_app_nil|]. intros H0. rewrite H0 in H2. simpl in H2. lia.
Qed.

Lemma exponent_text (neg : bool) (w : string) z :
  digits w → decimal 0 w = z → z < 10000 →
  let y := String (if neg then "-" else "+") w in
  number_chars y = true ∧ read_exponent y = Some (signed neg z, "") ∧ number_exp (String "e" y).
Proof.
  intros [Hw Hwd] Hz Hlt y. split_and!; [destruct neg; exact (number_chars_digits w Hwd)| |].
  - unfold read_exponent, y. assert (scan_plus_minus (String (if neg then "-" else "+")%char w) = (neg, w)) as -> by by destruct neg.
    destruct w as [|c w]; [done|]. pose proof Hwd as Hwd'. cbn [all_digits] in Hwd'. apply andb_true_iff in Hwd' as [-> _].
    rewrite scan_exponent_digits; [by rewrite Hz|done|done|lia].
  - constructor; [by left|destruct neg; auto|by split].
Qed.

(** With an exponent. *)
Lemma fmt_e_shape q j :
  0 < q → Z.abs (j + Z.of_nat (String.length (pretty q)) - 1) < 10000 →
  ∃ a fr ex e, decimal_shape (fmt_e q j) q j a fr ex e.
Proof.
  intros Hq Hx. destruct (pretty_pos_digits q Hq) as ([Hne Hall] & Hv & _). unfold fmt_e. cbv zeta.
  set (d := pretty q) in *. set (x := j + Z.of_nat (String.length d) - 1) in *.
  destruct (split_digits q 1 Hq) as (Hsplit & H2 & Ha & Hda & Hb); [fold d; destruct d; [done|simpl; lia]|].
  fold d in Hsplit, H2, Ha, Hda, Hb. set (a := String.substring 0 1 d) in *. set (b := String.substring 1 (String.length d - 1) d) in *.
  assert (Hpoint : (if (String.length d <=? 1)%nat then "" else "." +:+ b) = point b).
  { destruct (Nat.leb_spec (String.length d) 1).
    - unfold point. rewrite decide_True; [done|]. destruct b; [done|simpl in H2; lia].
    - rewrite point_nonempty; [done|]. intros Hb0. rewrite Hb0 in H2. simpl in H2. lia. }
  rewrite Hpoint. set (y := if x <? 0 then _ else _).
  assert (Hexp : number_chars y = true ∧ read_exponent y = Some (x, "") ∧ number_exp (String "e" y)).
  { unfold y. destruct (Z.ltb_spec x 0) as [Hneg|Hpos].
    - destruct (pretty_pos_digits (- x)) as (Hd1 & Hd2 & _); [lia|].
      destruct (exponent_text true (pretty (- x)) (- x) Hd1 Hd2) as (Hr1 & Hr2 & Hr3); [lia|].
      cbn [signed] in Hr2. rewrite Z.opp_involutive in Hr2. done.
    - assert (Hd : digits (pretty x) ∧ decimal 0 (pretty x) = x).
      { destruct (decide (x = 0)) as [->|]; [done|]. destruct (pretty_pos_digits x) as (? & ? & _); [lia|done]. }
      destruct Hd as [[Hd1 Hd1'] Hd2]. destruct (x <? 10).
      + apply (exponent_text false (String "0" (pretty x)) x); [split; [done|exact Hd1']|exact Hd2|lia].
      + apply (exponent_text false (pretty x) x); [by split|done|lia]. }
  exists a, b, (String "e" y), x. destruct Hexp as (Hy1 & Hy2 & Hy3).
  split; [done|done|done|done|right; by exists y|by rewrite Hsplit|].
  rewrite H2. unfold x. destruct d; [done|simpl; lia].
Qed.

Lemma pretty_length_bound q n : 0 < q → q < 10 ^ n → 1 <= Z.of_nat (String.length (pretty q)) <= n.
Proof.
  intros Hq Hn. destruct (pretty_pos_digits q Hq) as ([Hne _] & _ & Hlen).
  assert (1 <= Z.of_nat (String.length (pretty q))) by (destruct (pretty q); [done|simpl; lia]).
  assert (Z.of_nat (String.length (pretty q)) - 1 < n); [|lia].
  apply (Z.pow_lt_mono_r_iff 10); [lia| |by eapply Z.le_lt_trans].
  destruct (Z.lt_ge_cases n 0); [|done]. rewrite Z.pow_neg_r in Hn by done. lia.
Qed.

(** ** The round trip *)

Lemma largest_magnitude : 2 ^ 53 * 2 ^ 971 * 10 ^ 450 + 1 < 10 ^ 1000.
Proof. apply Z.ltb_lt. vm_compute. reflexivity. Qed.

Lemma shortest_bound m e n :
  canonical m e → e <= 971 → 1 <= n <= 17 →
  let r := shortest 17 n m e (decimal_exp m e) in
  -450 <= r.2 <= 450 ∧ r.1 < 10 ^ 1000.
Proof.
  intros Hc He Hn r. destruct (canonical_range m e Hc) as (Hm & _).
  destruct (shortest_range 17 n m e (decimal_exp m e)) as [Hj Hq]. fold r in Hj, Hq.
  pose proof (decimal_exp_range m e). split; [lia|].
  pose proof (scaled_floor_spec m e r.2) as [Hf _]. pose proof (denominator_pos e r.2).
  assert (Hnum : numerator m e r.2 <= 2 ^ 53 * 2 ^ 971 * 10 ^ 450).
  { unfold numerator. apply Z.mul_le_mono_nonneg; [|apply Z.mul_le_mono_nonneg| |].
    - apply Z.mul_nonneg_nonneg; [lia|apply Z.pow_nonneg; lia].
    - lia.
    - lia.
    - apply Z.pow_nonneg; lia.
    - apply Z.pow_le_mono_r; lia.
    - apply Z.pow_nonneg; lia.
    - apply Z.pow_le_mono_r; lia. }
  pose proof largest_magnitude as Hbig. revert Hnum Hbig.
  generalize (2 ^ 53 * 2 ^ 971 * 10 ^ 450) (10 ^ 1000). intros top limit Hnum Hbig.
  assert (scaled_floor m e r.2 <= numerator m e r.2); [|lia].
  destruct (Z.le_gt_cases (scaled_floor m e r.2) 0); [pose proof (numerator_pos m e r.2); lia|].
  transitivity (scaled_floor m e r.2 * denominator e r.2); [|done].
  rewrite <- (Z.mul_1_r (scaled_floor m e r.2)) at 1. apply Z.mul_le_mono_nonneg_l; lia.
Qed.

(** What [json.Marshal] writes for a finite number is a literal, and is read as that
    number. *)
Lemma marshal_float_shape m e :
  canonical m e → e <= 971 →
  ∃ text q j a fr ex e', (∀ s, marshal_float (S754_finite s m e) = Some ((if s then "-" else "") +:+ text)) ∧
    reads m e q j ∧ 0 < q ∧ decimal_shape text q j a fr ex e'.
Proof.
  intros Hc He. destruct (canonical_range m e Hc) as (Hm & Hemin & _).
  destruct (shortest_reads 17 1 m e (decimal_exp m e)) as [Hr Hq]; [done|by apply decimal_exp_spec|lia|lia|].
  destruct (shortest_bound m e 1) as [Hj Hqb]; [done|done|lia|].
  unfold marshal_float. destruct (shortest 17 1 m e (decimal_exp m e)) as [q j]. cbn [fst snd] in *.
  destruct (strip_zeros_reads 20 m e q j Hr Hq) as (Hr' & Hq' & Hj' & Hqle).
  destruct (strip_zeros 20 q j) as [q' j']. cbn [fst snd] in *.
  assert (Habs : ∀ s, math_Abs (S754_finite s m e) = math_Abs (S754_finite false m e)) by by intros [].
  set (big := fleb (of_int (10 ^ 21)) (math_Abs (S754_finite false m e)) ||
    fltb (math_Abs (S754_finite false m e)) (lit 1 1000000)).
  destruct big eqn:Hb; subst big.
  - destruct (fmt_e_shape q' j') as (a & fr & ex & e' & Hs); [done| |].
    { pose proof (pretty_length_bound q' 1000 Hq' (Z.le_lt_trans _ _ _ Hqle Hqb)). clear Hqb. lia. }
    exists (fmt_e q' j'), q', j', a, fr, ex, e'. split_and!; [|done..]. intros s. rewrite Habs. by rewrite Hb.
  - destruct (fmt_f_shape q' j') as (a & fr & Hs); [done|].
    eexists (fmt_f q' j'), _, _, a, fr, "", 0. split_and!; [| | |exact Hs].
    + intros s. rewrite Habs. by rewrite Hb.
    + destruct (Z.leb_spec 0 j') as [Hpos|Hneg]; [|done].
      revert Hr'. unfold reads. rewrite (Z.max_r 0 j'), (Z.max_l 0 (- j')) by lia.
      change (10 ^ Z.max 0 0) with 1. by rewrite Z.mul_1_r.
    + destruct (Z.leb_spec 0 j'); [|done]. apply Z.mul_pos_pos; [done|by apply Z.pow_pos_nonneg].
Qed.

Lemma parse_marshal_float x s :
  valid x → marshal_float x = Some s → ParseFloat s = Some x ∧ number s.
Proof.
  intros Hv. destruct x as [[]|[]| |sg m e]; try done.
  - intros [= <-]. split; [done|]. apply (MkNumber "-" "0" "" ""); [by right|by left|constructor..].
  - intros [= <-]. split; [done|]. apply (MkNumber "" "0" "" ""); [by left|by left|constructor..].
  - destruct (valid_canonical _ _ _ Hv) as [Hc He].
    destruct (marshal_float_shape m e Hc He) as (text & q & j & a & fr & ex & e' & -> & Hr & Hq & Hs).
    intros Ht. apply (inj Some) in Ht. rewrite <- Ht. split; [|by eapply number_shape].
    erewrite parse_shape by done. by apply reads_scale_float.
Qed.

(** ** Literals of JSON *)

Lemma scale_float_finite s v b e x : scale_float s v b e = Some x → valid x ∧ is_finite x = true.
Proof.
  intros Hx. split; [by eapply scale_float_valid|]. revert Hx. unfold scale_float.
  destruct v as [|n|n]; [by intros [= <-]| |by intros [= <-]].
  set (y := round_ratio _ _ _). assert (Hn : is_nan y = false) by by apply fdiv_not_nan.
  destruct y; try done; by intros [= <-].
Qed.

Lemma number_finite lit x : number lit → ParseFloat lit = Some x → valid x ∧ is_finite x = true.
Proof.
  intros [sg i f e Hsg Hi _ _] Hx.
  destruct (special_number (bool_decide (sg = "-")) (i +:+ f +:+ e)) as [Hs Hsp].
  { destruct Hi as [->|[Hd _]]; [by eexists _, _|]. by apply digits_head. }
  assert (Heq : (if bool_decide (sg = "-") then "-" else "") = sg) by by destruct Hsg as [-> | ->].
  rewrite Heq in *. unfold ParseFloat in Hx. rewrite Hsp, Hs in Hx.
  revert Hx. destruct (match i +:+ f +:+ e with "" => _ | String _ _ => _ end) as [hex w'].
  destruct (scan_mantissa hex _ w') as [m r]. case_if; [done|].
  intros ([e' r'] & _ & H)%bind_Some. case_decide; [done|]. revert H. case_if; [done|].
  destruct hex; apply scale_float_finite.
Qed.
