(* ===== verification/Rfc3339.v ===== *)
(** * Package time: RFC 3339

    The text of a time in JSON: [MarshalJSON] of an instant in UTC, and
    [UnmarshalJSON], which accepts what [time.Parse] accepts: hours of one digit,
    fractions after a point or a comma, and any zone. *)
From Stdlib Require Import Ascii.
From S2P Require Import Prelude Float64 GoTime GoStrings Json JsonString JsonText JsonDecode.
Local Open Scope Z_scope.

(** ** Dates *)

(** The number of a day, counted from January 1, year 1. *)
Definition day_number (y m d : Z) : Z :=
  let y := if m <=? 2 then y - 1 else y in
  let doy := (153 * (if 2 <? m then m - 3 else m + 9) + 2) / 5 + d - 1 in
  let yoe := y `mod` 400 in
  y / 400 * 146097 + (yoe * 365 + yoe / 4 - yoe / 100 + doy) - 306.

Definition is_leap (y : Z) : bool :=
  (y `mod` 4 =? 0) && (negb (y `mod` 100 =? 0) || (y `mod` 400 =? 0)).

Definition daysIn (m y : Z) : Z :=
  if m =? 2 then if is_leap y then 29 else 28
  else if bool_decide (m ∈ [4; 6; 9; 11]) then 30 else 31.

(** ** Reading *)

(** One or two digits; exactly two when [fixed]. *)
Definition getnum (fixed : bool) (s : string) : option (Z * string) :=
  match s with
  | String a s1 =>
      if is_digit a then
        match s1 with
        | String b s2 =>
            if is_digit b then Some (decimal 0 (String a (String b "")), s2)
            else if fixed then None else Some (decimal 0 (String a ""), s1)
        | "" => if fixed then None else Some (decimal 0 (String a ""), s1)
        end
      else None
  | "" => None
  end.

Definition getyear (s : string) : option (Z * string) :=
  match s with
  | String a (String b (String c (String d s'))) =>
      let p := String a (String b (String c (String d ""))) in
      if all_digits p then Some (decimal 0 p, s') else None
  | _ => None
  end.

(** The nanoseconds of a fraction, of which nine digits count. *)
Definition getfrac (s : string) : Z * string :=
  match s with
  | String a s' =>
      if bool_decide (a = "."%char) || bool_decide (a = ","%char) then
        let '(d, r) := span_digits s' in
        if decide (d = "") then (0, s)
        else
          let d := String.substring 0 9 d in
          (decimal 0 d * 10 ^ (9 - Z.of_nat (String.length d)), r)
      else (0, s)
  | "" => (0, s)
  end.

(** The offset of the zone, in seconds. *)
Definition getzone (s : string) : option Z :=
  match s with
  | String a s' =>
      if decide (a = "Z"%char) then if decide (s' = "") then Some 0 else None
      else
        '(hr, s) ← getnum true s';
        s ← after ":" s;
        '(mm, s) ← getnum true s;
        if bool_decide (s ≠ "") || (24 <? hr) || (60 <? mm) then None
        else if decide (a = "+"%char) then Some ((hr * 60 + mm) * 60)
        else if decide (a = "-"%char) then Some (- ((hr * 60 + mm) * 60))
        else None
  | "" => None
  end.

(** [time.Parse(time.RFC3339, s)]. *)
Definition ParseRFC3339 (s : string) : option Time :=
  '(year, s) ← getyear s;
  s ← after "-" s;
  '(month, s) ← getnum true s;
  s ← after "-" s;
  '(day, s) ← getnum true s;
  s ← after "T" s;
  '(hour, s) ← getnum false s;
  s ← after ":" s;
  '(min, s) ← getnum true s;
  s ← after ":" s;
  '(sec, s) ← getnum true s;
  let '(nsec, s) := getfrac s in
  zone ← getzone s;
  if (1 <=? month) && (month <=? 12) && (1 <=? day) && (day <=? daysIn month year) &&
     (hour <? 24) && (min <? 60) && (sec <? 60)
  then
    let secs := day_number year month day * 86400 + hour * 3600 + min * 60 + sec - zone in
    Some (MkTime (secs * Second + nsec) None)
  else None.

(** [UnmarshalJSON]: the text between the quotes is read as it is. *)
Definition decode_time : decoder Time := λ t old,
  match t with TNull => Some old | TStr b => ParseRFC3339 b | _ => None end.

(** ** Writing *)

(** The digits of a fraction without the zeros at its end. *)
Fixpoint trim_zeros (s : string) : string :=
  match s with
  | "" => ""
  | String a s' =>
      let r := trim_zeros s' in
      if bool_decide (r = "") && bool_decide (a = "0"%char) then "" else String a r
  end.

(** The time in UTC, in the layout of RFC 3339 with nanoseconds. *)
Definition format_rfc3339 (t : Time) : string :=
  let secs := t_wall t / Second in
  let '(y, m, d) := civil (secs / 86400) in
  let n := secs `mod` 86400 in
  let frac := trim_zeros (digits_pad 9 (Z.to_N (t_wall t `mod` Second))) in
  digits_pad 4 (Z.to_N y) +:+ "-" +:+ digits_pad 2 (Z.to_N m) +:+ "-" +:+ digits_pad 2 (Z.to_N d) +:+
  "T" +:+ digits_pad 2 (Z.to_N (n / 3600)) +:+ ":" +:+ digits_pad 2 (Z.to_N (n `mod` 3600 / 60)) +:+
  ":" +:+ digits_pad 2 (Z.to_N (n `mod` 60)) +:+ (if decide (frac = "") then "" else "." +:+ frac) +:+ "Z".

(** Times of the years 0 to 9999 have a text. *)
Definition year_of (t : Time) : Z := (civil (t_wall t / Second / 86400)).1.1.
Definition encode_time (t : Time) : option jtext :=
  if (0 <=? year_of t) && (year_of t <=? 9999) then Some (TStr (format_rfc3339 t)) else None.

Example time_texts :
  format_rfc3339 zero_time = "0001-01-01T00:00:00Z" ∧
  format_rfc3339 (MkTime ((unix_epoch + 1709210096) * Second + 120000) None) = "2024-02-29T12:34:56.00012Z" ∧
  ParseRFC3339 "2024-02-29T12:34:56.00012Z" = Some (MkTime ((unix_epoch + 1709210096) * Second + 120000) None) ∧
  ParseRFC3339 "2024-02-29T20:34:56,00012+08:00" = ParseRFC3339 "2024-02-29T12:34:56.00012Z" ∧
  ParseRFC3339 "2023-02-29T12:34:56Z" = None ∧ ParseRFC3339 "2024-02-29T1:04:05Z" = ParseRFC3339 "2024-02-29T01:04:05Z".
Proof. vm_compute. by split_and!. Qed.

(** ** The bytes of a time *)

Definition time_char (a : ascii) : bool :=
  is_digit a || bool_decide (a ∈ ["-"; ":"; "T"; "Z"; "."; ","; "+"]%char).

Fixpoint time_text (s : string) : bool :=
  match s with "" => true | String a s' => time_char a && time_text s' end.

Lemma time_text_cons a s : time_char a = true → time_text s = true → time_text (String a s) = true.
Proof. simpl. by intros -> ->. Qed.

Lemma digit_time_char a : is_digit a = true → time_char a = true.
Proof. unfold time_char. by intros ->. Qed.

Lemma after_time_text a s r : time_char a = true → after a s = Some r → time_text r = true → time_text s = true.
Proof. intros Ha ->%after_inv. by apply time_text_cons. Qed.

Lemma getnum_time_text fixed s n r : getnum fixed s = Some (n, r) → time_text r = true → time_text s = true.
Proof.
  destruct s as [|a [|b s]]; simpl; [done| |]; destruct (is_digit a) eqn:Ha; try done.
  - destruct fixed; [done|]. intros [= _ <-] _. by rewrite digit_time_char.
  - destruct (is_digit b) eqn:Hb; [|destruct fixed; [done|]]; intros [= _ <-] Hr.
    + by rewrite !digit_time_char, Hr.
    + simpl in Hr. by rewrite digit_time_char.
Qed.

Lemma getyear_time_text s n r : getyear s = Some (n, r) → time_text r = true → time_text s = true.
Proof.
  destruct s as [|a [|b [|c [|d s]]]]; try done. cbn [getyear]. case_if; [|done]. intros [= _ <-] Hr.
  cbn [all_digits] in E. rewrite !andb_true_iff in E. destruct E as (? & ? & ? & ? & _).
  by repeat (apply time_text_cons; [by apply digit_time_char|]).
Qed.

Lemma getfrac_time_text s n r : getfrac s = (n, r) → time_text r = true → time_text s = true.
Proof.
  destruct s as [|a s]; [by intros [= _ <-]|]. cbn [getfrac]. case_if; [|by intros [= _ <-]].
  destruct (span_digits s) as [d r'] eqn:Hs. apply span_digits_sound in Hs as [-> Hd].
  destruct (decide (d = "")); [by intros [= _ <-]|]. intros [= _ <-] Hr. apply time_text_cons.
  - apply orb_true_iff in E. rewrite !bool_decide_eq_true in E. by destruct E as [-> | ->].
  - clear -Hd Hr. induction d as [|b d IH]; [by rewrite str_nil_app|]. rewrite str_cons_app.
    cbn [all_digits] in Hd. apply andb_true_iff in Hd as [? ?].
    apply time_text_cons; [by apply digit_time_char|by apply IH].
Qed.

Lemma getzone_time_text s z : getzone s = Some z → time_text s = true.
Proof.
  destruct s as [|a s]; [done|]. cbn [getzone]. case_decide; [subst; case_decide; [by subst|done]|].
  intros ([hr s1] & H1 & (s2 & H2 & ([mm s3] & H3 & H4)%bind_Some)%bind_Some)%bind_Some.
  destruct (bool_decide (s3 ≠ "")) eqn:E3; [done|]. apply bool_decide_eq_false, dec_stable in E3 as ->.
  assert (Hs : time_text s = true).
  { eapply getnum_time_text; [exact H1|]. eapply after_time_text; [|exact H2|]; [done|].
    by eapply getnum_time_text. }
  revert H4. case_if; [done|]. case_decide; [subst|case_decide; [subst|done]]; intros _; by apply time_text_cons.
Qed.

Lemma ParseRFC3339_text s t : ParseRFC3339 s = Some t → time_text s = true.
Proof.
  unfold ParseRFC3339.
  intros ([y s1] & H1 & (s2 & H2 & ([mo s3] & H3 & (s4 & H4 & ([d s5] & H5 & (s6 & H6 & ([h s7] & H7 &
    (s8 & H8 & ([mi s9] & H9 & (s10 & H10 & ([se s11] & H11 & H12)%bind_Some)%bind_Some)%bind_Some)%bind_Some)%bind_Some)%bind_Some)%bind_Some)%bind_Some)%bind_Some)%bind_Some)%bind_Some.
  destruct (getfrac s11) as [ns s12] eqn:Hf. apply bind_Some in H12 as (zone & Hz & _).
  eapply getyear_time_text; [exact H1|]. eapply after_time_text; [|exact H2|]; [done|].
  eapply getnum_time_text; [exact H3|]. eapply after_time_text; [|exact H4|]; [done|].
  eapply getnum_time_text; [exact H5|]. eapply after_time_text; [|exact H6|]; [done|].
  eapply getnum_time_text; [exact H7|]. eapply after_time_text; [|exact H8|]; [done|].
  eapply getnum_time_text; [exact H9|]. eapply after_time_text; [|exact H10|]; [done|].
  eapply getnum_time_text; [exact H11|]. eapply getfrac_time_text; [exact Hf|]. by eapply getzone_time_text.
Qed.

Lemma time_char_plain a : time_char a = true → a ≠ backslash ∧ html_char a = false ∧ N_of_ascii a ≠ 226%N.
Proof. by all_bytes a. Qed.

Lemma html_nonempty a s : html (String a s) ≠ "".
Proof.
  destruct s as [|b [|c s]]; simpl; destruct (html_char a) eqn:Ha; try done; try (revert Ha; by all_bytes a).
  unfold escape_separator. by repeat case_if.
Qed.

(** A time has nothing to escape. *)
Lemma time_text_html s : time_text s = true ∨ time_text (html s) = true → html s = s.
Proof.
  intros [Hs|Hs].
  - induction s as [|a s IH]; [done|]. simpl in Hs. apply andb_true_iff in Hs as [(_ & Ha & Hn)%time_char_plain Hs].
    rewrite html_plain by done. by rewrite IH.
  - revert Hs. remember (html s) as u eqn:Hu. revert s Hu. induction u as [|a u IH]; intros s Hu Hs.
    + destruct s as [|a s]; [done|]. by destruct (html_nonempty a s).
    + simpl in Hs. apply andb_true_iff in Hs as [(Hb & _ & _)%time_char_plain Hs]. symmetry in Hu.
      apply html_uncons in Hu as (s' & -> & -> & _); [|done]. f_equal. by apply IH.
Qed.

Lemma decode_time_escaped t old : decode_time (escaped t) old = decode_time t old.
Proof.
  destruct t as [| | |b| |]; try done. cbn [escaped decode_time].
  destruct (ParseRFC3339 (html b)) as [x|] eqn:H1.
  { apply ParseRFC3339_text in H1 as Ht. rewrite time_text_html in H1 by auto. done. }
  destruct (ParseRFC3339 b) as [x|] eqn:H2; [|done].
  apply ParseRFC3339_text in H2 as Ht. rewrite time_text_html in H1 by auto. congruence.
Qed.
