(* ===== verification/Decoders.v ===== *)
(** * Package encoding/json: typed values and their texts

    [Codec] is how a Go type is written and read: [encode] is [json.Marshal], up
    to the text it stands for, [decode] is [json.Unmarshal] into a variable that
    already holds a value.  [CodecLaws] states the round trip.  Instances are
    given for strings, numbers, booleans, [interface{}], maps and times; structs
    are put together from their fields. *)
From Stdlib Require Import Ascii Floats.SpecFloat.
From S2P Require Import Prelude Float64 FloatFacts GoTime GoStrings Model Json JsonString JsonText.
From S2P Require Import JsonDecode Strconv FloatText Rfc3339.

(** ** The interface *)

(** [faithful d x] are the values that survive the trip in [d] levels of nesting. *)
Class Codec (A : Type) := {
  zero : A;
  encode : A → option jtext;
  decode : decoder A;
  faithful : Z → A → Prop
}.

Class CodecLaws (A : Type) `{Codec A} := {
  decode_encode d x t : faithful d x → encode x = Some t → decode (escaped t) zero = Some x;
  encode_wf d x t : faithful d x → encode x = Some t → wf_text d t;
  decode_escaped d t x : wf_text d t → decode (escaped t) x = decode t x
}.

(** ** Plain values *)

#[export] Instance string_codec : Codec string := {|
  zero := "";
  encode s := Some (TStr (escape_all s));
  decode := decode_string;
  faithful _ s := utf8 s
|}.

#[export] Instance bool_codec : Codec bool := {|
  zero := false;
  encode b := Some (TBool b);
  decode := decode_bool;
  faithful _ _ := True
|}.

(** An [int64]. *)
#[export] Instance int64_codec : Codec Z := {|
  zero := 0%Z;
  encode z := Some (TNum (pretty z));
  decode := decode_int64;
  faithful _ z := in_int64 z
|}.

Definition decode_float : decoder float64 := λ t old,
  match t with TNull => Some old | TNum lit => ParseFloat lit | _ => None end.

#[export] Instance float64_codec : Codec float64 := {|
  zero := fzero;
  encode x := TNum <$> marshal_float x;
  decode := decode_float;
  faithful _ x := valid x
|}.

(** A time; of its texts only that of the zero time is shown to be read back. *)
#[export] Instance time_codec : Codec Time := {|
  zero := zero_time;
  encode := encode_time;
  decode := decode_time;
  faithful _ t := t = zero_time
|}.

(** ** Values of any type *)

Fixpoint encode_any (v : json) : option jtext :=
  match v with
  | JNull => Some TNull
  | JBool b => Some (TBool b)
  | JNum x => TNum <$> marshal_float x
  | JStr s => Some (TStr (escape_all s))
  | JArr l => TArr <$> mapM encode_any l
  | JObj l => TObj <$> mapM (λ kv, t ← encode_any kv.2; Some (escape_all kv.1, t)) l
  end.

(** Numbers become [float64], objects maps. *)
Fixpoint decode_any (t : jtext) : option json :=
  match t with
  | TNull => Some JNull
  | TBool b => Some (JBool b)
  | TNum lit => JNum <$> ParseFloat lit
  | TStr b => Some (JStr (unquote b))
  | TArr l => JArr <$> mapM decode_any l
  | TObj l => json_of_map <$>
      foldl (λ acc kv, m ← acc; v ← decode_any kv.2; Some (<[unquote kv.1 := v]> m)) (Some ∅) l
  end.

(** The values a map of values may hold: the members of an object have distinct
    keys, in increasing order, and brackets are nested at most [d] deep. *)
Fixpoint any_ok (d : Z) (v : json) : Prop :=
  match v with
  | JNull | JBool _ => True
  | JNum x => valid x
  | JStr s => utf8 s
  | JArr l => (0 < d)%Z ∧ foldr (λ v P, any_ok (d - 1) v ∧ P) True l
  | JObj l => (0 < d)%Z ∧ NoDup l.*1 ∧ by_key l = l ∧
      foldr (λ kv P, (utf8 kv.1 ∧ any_ok (d - 1) kv.2) ∧ P) True l
  end.

#[export] Instance any_codec : Codec json := {|
  zero := JNull;
  encode := encode_any;
  decode t _ := decode_any t;
  faithful := any_ok
|}.

(** ** Maps *)

Definition encode_map {A} `{Codec A} (m : gmap string A) : option jtext :=
  TObj <$> mapM (λ kv, t ← encode kv.2; Some (escape_all kv.1, t)) (by_key (map_to_list m)).

(** Members are added to the map there is; each value is read into a zero value. *)
Definition decode_map {A} `{Codec A} : decoder (gmap string A) := λ t old,
  match t with
  | TNull => Some ∅
  | TObj l => foldl (λ acc kv, m ← acc; v ← decode kv.2 zero; Some (<[unquote kv.1 := v]> m)) (Some old) l
  | _ => None
  end.

#[export] Instance map_codec {A} `{Codec A} : Codec (gmap string A) := {|
  zero := ∅;
  encode := encode_map;
  decode := decode_map;
  faithful d m := (0 < d)%Z ∧ map_Forall (λ k v, utf8 k ∧ faithful (d - 1) v) m
|}.

#[export] Instance map_zero_dec {A} `{Codec A} (m : gmap string A) : Decision (m = zero) :=
  decide (m = ∅).

(** ** Structs *)

(** The field read with [get] and written with [put], by a given decoder or by that
    of its type. *)
Definition field_with {A B} (dec : decoder B) (get : A → B) (put : B → A → A) : decoder A :=
  λ t a, b ← dec t (get a); Some (put b a).
Definition field_decoder {A B} `{Codec B} (get : A → B) (put : B → A → A) : decoder A :=
  λ t a, b ← decode t (get a); Some (put b a).

Fixpoint field_named {A} (fields : list (string * decoder A)) (n : string) : decoder A :=
  match fields with
  | [] => λ _ _, None
  | (m, dec) :: fields' => if String.eqb m n then dec else field_named fields' n
  end.

Definition decode_fields {A} (fields : list (string * decoder A)) : decoder A :=
  decode_struct fields.*1 (field_named fields).

(** A member, and one that is left out when it is empty. *)
Definition member {B} `{Codec B} (name : string) (x : B) : option (list (string * jtext)) :=
  t ← encode x; Some [(name, t)].
Definition omitempty {B} `{Codec B} (name : string) (x : B) `{Decision (x = zero)} :
    option (list (string * jtext)) :=
  if decide (x = zero) then Some [] else member name x.

Definition struct (parts : list (option (list (string * jtext)))) : option jtext :=
  l ← mapM id parts; Some (TObj (mjoin l)).

(** [json.Unmarshal] of a text into a zero value. *)
Definition Unmarshal {A} (z : A) (dec : decoder A) (payload : string) : option A :=
  t ← parse payload; dec t z.

(** ** Induction *)

Section Induction.
Variable P : json → Prop.
Hypothesis Hnull : P JNull.
Hypothesis Hbool : ∀ b, P (JBool b).
Hypothesis Hnum : ∀ x, P (JNum x).
Hypothesis Hstr : ∀ s, P (JStr s).
Hypothesis Harr : ∀ l, Forall P l → P (JArr l).
Hypothesis Hobj : ∀ l, Forall (λ kv, P kv.2) l → P (JObj l).
Fixpoint json_ind (v : json) : P v :=
  match v with
  | JNull => Hnull
  | JBool b => Hbool b
  | JNum x => Hnum x
  | JStr s => Hstr s
  | JArr l => Harr l ((fix go (l : list json) : Forall P l :=
      match l with
      | [] => Forall_nil_2 P
      | v :: l' => Forall_cons_2 P v l' (json_ind v) (go l')
      end) l)
  | JObj l => Hobj l ((fix go (l : list (string * json)) : Forall (λ kv, P kv.2) l :=
      match l with
      | [] => Forall_nil_2 (λ kv, P kv.2)
      | kv :: l' => Forall_cons_2 (λ kv, P kv.2) kv l' (json_ind kv.2) (go l')
      end) l)
  end.
End Induction.

Lemma all_any_ok d l : foldr (λ v P, any_ok d v ∧ P) True l ↔ Forall (any_ok d) l.
Proof. induction l as [|v l IH]; simpl; [by split|]. by rewrite IH, Forall_cons. Qed.
Lemma all_members_ok d l :
  foldr (λ kv P, (utf8 kv.1 ∧ any_ok d kv.2) ∧ P) True l ↔ Forall (λ kv, utf8 kv.1 ∧ any_ok d kv.2) l.
Proof. induction l as [|kv l IH]; simpl; [by split|]. by rewrite IH, Forall_cons. Qed.

(** ** Members of an object, added one after the other *)

Definition add_members {A} (f : jtext → option A) (l : list (string * jtext)) (m : option (gmap string A)) :
    option (gmap string A) :=
  foldl (λ acc kv, m ← acc; v ← f kv.2; Some (<[unquote kv.1 := v]> m)) m l.

Lemma add_members_none {A} (f : jtext → option A) l : add_members f l None = None.
Proof. by induction l. Qed.

Lemma add_members_ext {A} (f g : jtext → option A) l m :
  Forall (λ kv, body kv.1 ∧ f (escaped kv.2) = g kv.2) l →
  add_members f ((λ kv, (html kv.1, escaped kv.2)) <$> l) m = add_members g l m.
Proof.
  intros Hl. revert m. induction Hl as [|[k t] l [Hk Ht] Hl IH]; intros m; [done|]. rewrite fmap_cons. cbn [add_members foldl] in *.
  unfold add_members in IH. cbn [fst snd] in *. rewrite IH, Ht, unquote_html by done. done.
Qed.

(** The texts of the members of a map are read as that map. *)
Lemma add_members_encoded {A} (enc : A → option jtext) (f : jtext → option A) l l' m :
  Forall (λ kv, utf8 kv.1 ∧ ∀ t, enc kv.2 = Some t → f (escaped t) = Some kv.2) l →
  mapM (λ kv, t ← enc kv.2; Some (escape_all kv.1, t)) l = Some l' →
  NoDup l.*1 → 
  add_members f ((λ kv, (html kv.1, escaped kv.2)) <$> l') (Some m) = Some (list_to_map l ∪ m).
Proof.
  intros Hl. revert l' m. induction Hl as [|[k v] l [Hk Hv] Hl IH]; intros l' m.
  - intros [= <-] _. simpl. by rewrite (left_id_L ∅ (∪)).
  - cbn [fst snd] in *. rewrite fmap_cons. cbn [mapM]. intros ([k' t] & (t' & Ht & [= <- <-])%bind_Some & (l'' & Hl' & [= <-])%bind_Some)%bind_Some.
    intros [Hn Hnd]%NoDup_cons. rewrite fmap_cons. unfold add_members. cbn [foldl fst snd mbind option_bind].
    rewrite Hv, html_escape_all, unquote_escape by done. cbn [mbind option_bind]. fold (add_members f).
    pose proof (IH l'' (<[k := v]> m) Hl' Hnd) as IH'. unfold add_members in IH'. rewrite IH'. simpl.
    rewrite <- insert_union_r, insert_union_l; [done|]. by apply not_elem_of_list_to_map_1.
Qed.

Lemma encoded_wf {A} (enc : A → option jtext) d l l' :
  Forall (λ kv : string * A, ∀ t, enc kv.2 = Some t → wf_text d t) l →
  mapM (λ kv, t ← enc kv.2; Some (escape_all kv.1, t)) l = Some l' →
  Forall (λ kt, body kt.1 ∧ wf_text d kt.2) l'.
Proof.
  intros Hl. revert l'. induction Hl as [|[k v] l Hv Hl IH]; intros l'; [by intros [= <-]|].
  cbn [fst snd mapM] in *. intros ([k' t] & (t' & Ht & [= <- <-])%bind_Some & (l'' & Hl' & [= <-])%bind_Some)%bind_Some.
  constructor; [|by apply IH]. split; [apply body_escape_all|by apply Hv].
Qed.

Lemma by_key_map {A} (m : gmap string A) :
  NoDup (by_key (map_to_list m)).*1 ∧ list_to_map (by_key (map_to_list m)) = m.
Proof.
  assert (Hnd : NoDup (by_key (map_to_list m)).*1) by (rewrite by_key_perm; apply NoDup_fst_map_to_list).
  split; [done|]. rewrite <- (list_to_map_to_list m) at 2. apply list_to_map_proper; [done|apply by_key_perm].
Qed.

(** ** The laws *)

#[export] Instance string_laws : CodecLaws string.
Proof.
  split; cbn.
  - intros _ x t Hx [= <-]. cbn. by rewrite html_escape_all, unquote_escape.
  - intros d x t _ [= <-]. constructor. apply body_escape_all.
  - intros d t x Ht. destruct Ht; try done. cbn. by rewrite unquote_html.
Qed.

#[export] Instance bool_laws : CodecLaws bool.
Proof.
  split; cbn; [by intros _ x t _ [= <-]|intros d x t _ [= <-]; constructor|]. by intros d t x [].
Qed.

#[export] Instance int64_laws : CodecLaws Z.
Proof.
  split; cbn.
  - intros _ x t Hx [= <-]. by apply parse_int64_pretty.
  - intros d x t _ [= <-]. constructor. apply number_pretty.
  - by intros d t x [].
Qed.

#[export] Instance float64_laws : CodecLaws float64.
Proof.
  split; cbn.
  - intros _ x t Hx (s & Hs & ->)%fmap_Some. by apply parse_marshal_float.
  - intros d x t Hx (s & Hs & ->)%fmap_Some. constructor. by eapply parse_marshal_float.
  - by intros d t x [].
Qed.

#[export] Instance time_laws : CodecLaws Time.
Proof.
  split; cbn.
  - intros _ x t -> [= <-]. by vm_compute.
  - intros d x t -> [= <-]. constructor. apply body_check. by vm_compute.
  - intros d t x _. apply decode_time_escaped.
Qed.

Lemma decode_any_escaped d t : wf_text d t → decode_any (escaped t) = decode_any t.
Proof.
  revert d. induction t as [|b|lit|b|l IH|l IH] using jtext_ind; intros d Hwf; try done.
  - inversion Hwf; subst. cbn. by rewrite unquote_html.
  - inversion Hwf as [| | | |? ? _ Hl|]; subst. cbn [escaped decode_any]. f_equal.
    clear Hwf. induction Hl as [|t l Ht Hl IHl]; [done|]. apply Forall_cons in IH as [Hh IH].
    rewrite fmap_cons. cbn [mapM]. by rewrite (Hh (d - 1)%Z), IHl.
  - inversion Hwf as [| | | | |? ? _ Hl]; subst. cbn [escaped decode_any]. f_equal.
    apply (add_members_ext decode_any decode_any). apply Forall_forall. intros [k t] Hkt.
    rewrite Forall_forall in IH, Hl. destruct (Hl _ Hkt). split; [done|]. by eapply IH.
Qed.

Lemma encode_any_wf d v t : any_ok d v → encode_any v = Some t → wf_text d t.
Proof.
  revert d t. induction v as [|b|x|s|l IH|l IH] using json_ind; intros d t Hv.
  - intros [= <-]. constructor.
  - intros [= <-]. constructor.
  - cbn [encode_any]. intros (s & Hs & ->)%fmap_Some. constructor. by eapply parse_marshal_float.
  - intros [= <-]. constructor. apply body_escape_all.
  - destruct Hv as [Hd Hv%all_any_ok]. cbn [encode_any]. intros (l' & Hl' & ->)%fmap_Some. constructor; [done|].
    apply mapM_Some_1 in Hl'. clear Hd. induction Hl' as [|v t l l' Ht Hl' IHl]; [constructor|].
    apply Forall_cons in IH as [Hh IH], Hv as [? ?]. constructor; [by apply Hh|by apply IHl].
  - destruct Hv as (Hd & _ & _ & Hv%all_members_ok). cbn [encode_any]. intros (l' & Hl' & ->)%fmap_Some.
    constructor; [done|]. eapply encoded_wf; [|exact Hl'].
    rewrite Forall_forall in IH, Hv |- *. intros kv Hkv t. by apply IH; [|apply Hv].
Qed.

Lemma decode_any_encode d v t : any_ok d v → encode_any v = Some t → decode_any (escaped t) = Some v.
Proof.
  revert d t. induction v as [|b|x|s|l IH|l IH] using json_ind; intros d t Hv.
  - by intros [= <-].
  - by intros [= <-].
  - cbn [encode_any]. intros (s & Hs & ->)%fmap_Some. cbn. by destruct (parse_marshal_float x s Hv Hs) as [-> _].
  - intros [= <-]. cbn. by rewrite html_escape_all, unquote_escape.
  - destruct Hv as [Hd Hv%all_any_ok]. cbn [encode_any]. intros (l' & Hl' & ->)%fmap_Some.
    cbn [escaped decode_any]. apply mapM_Some_1 in Hl'. enough (mapM decode_any (escaped <$> l') = Some l) as -> by done.
    clear Hd. induction Hl' as [|v t l l' Ht Hl' IHl]; [done|].
    apply Forall_cons in IH as [Hh IH], Hv as [? ?]. rewrite fmap_cons. cbn [mapM].
    by rewrite (Hh (d - 1)%Z), IHl.
  - destruct Hv as (Hd & Hnd & Hk & Hv%all_members_ok). cbn [encode_any]. intros (l' & Hl' & ->)%fmap_Some.
    cbn [escaped decode_any]. fold (add_members decode_any). fold (@add_members json decode_any).
    pose proof (add_members_encoded encode_any decode_any l l' ∅) as Ha. unfold add_members in Ha.
    rewrite Ha; [|rewrite Forall_forall in IH, Hv |- *|exact Hl'|exact Hnd].
    + cbn [fmap option_fmap option_map]. rewrite (right_id_L ∅ (∪)). f_equal. unfold json_of_map. f_equal.
      rewrite <- Hk at 2. apply by_key_unique; [apply NoDup_fst_map_to_list|by rewrite map_to_list_to_map].
    + intros kv Hkv. split; [by apply Hv|]. intros t. by apply (IH kv Hkv (d - 1)%Z), Hv.
Qed.

#[export] Instance any_laws : CodecLaws json.
Proof.
  split; cbn.
  - apply decode_any_encode.
  - apply encode_any_wf.
  - intros d t _. apply decode_any_escaped.
Qed.

(** Reading a map into another adds its members to it. *)
Lemma decode_map_merge {A} `{CodecLaws A} d (m old : gmap string A) t :
  faithful d m → encode m = Some t → decode (escaped t) old = Some (m ∪ old).
Proof.
  intros [Hd Hm]. cbn. unfold encode_map. intros (l' & Hl' & ->)%fmap_Some. cbn [escaped decode_map].
  destruct (by_key_map m) as [Hnd Hlm].
  pose proof (add_members_encoded encode (λ t, decode t zero) (by_key (map_to_list m)) l' old) as Ha. unfold add_members in Ha.
  rewrite Ha; [by rewrite Hlm| |exact Hl'|done].
  rewrite by_key_perm. apply Forall_forall. intros [k v] [? ?]%elem_of_map_to_list%Hm. cbn.
  split; [done|]. intros x. by apply (decode_encode (d - 1)).
Qed.

#[export] Instance map_laws {A} `{CodecLaws A} : CodecLaws (gmap string A).
Proof.
  split; cbn.
  - intros d m t Hm Ht. pose proof (decode_map_merge d m ∅ t Hm Ht) as Hx. by rewrite (right_id_L ∅ (∪)) in Hx.
  - intros d m t [Hd Hm]. unfold encode_map. intros (l' & Hl' & ->)%fmap_Some. constructor; [done|].
    eapply encoded_wf; [|exact Hl']. rewrite by_key_perm. apply Forall_forall.
    intros [k v] [? ?]%elem_of_map_to_list%Hm. cbn. intros t. by apply encode_wf.
  - intros d t m Ht. destruct Ht as [| | | | |d l Hd Hl]; try done. cbn [escaped decode_map].
    apply (add_members_ext (λ t, decode t zero) (λ t, decode t zero)). eapply Forall_impl; [exact Hl|].
    intros [k t] [? ?]. split; [done|]. by apply (decode_escaped (d - 1)).
Qed.

(** ** Structs, member by member *)

Section Members.
Context {A : Type} (names : list string) (set : string → decoder A).

Definition field_of (kv : string * jtext) : option string := match_field names (unquote kv.1).

Definition assign (kv : string * jtext) (a : A) : option A :=
  match field_of kv with Some n => set n kv.2 a | None => Some a end.

Lemma decode_members_none l : foldl (λ acc kv, r ← acc; assign kv r) None l = None.
Proof. by induction l. Qed.

Lemma decode_members_cons kv l a :
  decode_members names set (kv :: l) a = assign kv a ≫= decode_members names set l.
Proof.
  change (decode_members names set (kv :: l) a) with (foldl (λ acc kv, r ← acc; assign kv r) (assign kv a) l).
  destruct (assign kv a); [done|]. apply decode_members_none.
Qed.

Lemma decode_members_app l l' a :
  decode_members names set (l ++ l') a = decode_members names set l a ≫= decode_members names set l'.
Proof.
  revert a. induction l as [|kv l IH]; intros a; [done|].
  rewrite <- app_comm_cons, !decode_members_cons. by destruct (assign kv a); simpl.
Qed.

(** Escaping a text does not change what its members say. *)
Lemma decode_members_escaped d l a :
  (∀ n t a, wf_text d t → set n (escaped t) a = set n t a) →
  Forall (λ kt, body kt.1 ∧ wf_text d kt.2) l →
  decode_members names set ((λ kt, (html kt.1, escaped kt.2)) <$> l) a = decode_members names set l a.
Proof.
  intros Hset Hl. revert a. induction Hl as [|[k t] l [Hk Ht] Hl IH]; intros a; [done|].
  rewrite fmap_cons, !decode_members_cons. unfold assign, field_of. cbn [fst snd] in *. rewrite unquote_html by done.
  destruct (match_field _ _); [rewrite Hset by done; by destruct (set _ _ _); simpl|apply IH].
Qed.

Definition independent (f g : decoder A) : Prop := ∀ t u a, (f t a ≫= g u) = (g u a ≫= f t).

(** Members of different fields may come in any order. *)
Lemma decode_members_perm l l' a :
  (∀ n m, n ≠ m → independent (set n) (set m)) →
  NoDup (omap field_of l) → l ≡ₚ l' → decode_members names set l a = decode_members names set l' a.
Proof.
  intros Hset Hnd Hp. revert Hnd a. induction Hp as [|kv l l' Hp IH|kv kv' l|l l' l'' Hp IH Hp' IH']; intros Hnd a.
  - done.
  - rewrite !decode_members_cons. assert (NoDup (omap field_of l)) by (revert Hnd; simpl; case_match; [by intros [_ ?]%NoDup_cons|done]).
    destruct (assign kv a); [simpl; by apply IH|done].
  - rewrite !decode_members_cons. assert (Hc : (assign kv' a ≫= assign kv) = (assign kv a ≫= assign kv')).
    { unfold assign. revert Hnd. cbn. destruct (field_of kv') as [n|], (field_of kv) as [m|]; cbn; try done.
      - intros [Hn _]%NoDup_cons. apply Hset. intros ->. apply Hn. by left.
      - intros _. by destruct (set n kv'.2 a).
      - intros _. by destruct (set m kv.2 a). }
    transitivity ((assign kv a ≫= assign kv') ≫= decode_members names set l).
    + rewrite <- Hc. destruct (assign kv' a); [simpl; by rewrite decode_members_cons|done].
    + destruct (assign kv a); [simpl; by rewrite decode_members_cons|done].
  - rewrite IH by done. apply IH'. by rewrite <- Hp.
Qed.

(** The member of a field may be read last. *)
Lemma decode_member_last l kv n a r :
  (∀ n m, n ≠ m → independent (set n) (set m)) →
  NoDup (omap field_of l) → kv ∈ l → field_of kv = Some n → decode_members names set l a = Some r →
  ∃ others b, Forall (λ kv', field_of kv' ≠ Some n) others ∧
    decode_members names set others a = Some b ∧ set n kv.2 b = Some r.
Proof.
  intros Hi Hnd Hin Hf. apply elem_of_Permutation in Hin as [others Hp].
  rewrite (decode_members_perm l (others ++ [kv])), decode_members_app; [|done|done|by rewrite Hp, Permutation_cons_append].
  intros (b & Hb & Hr)%bind_Some. exists others, b. split_and!; [|done|].
  - rewrite Hp in Hnd. cbn [omap list_omap] in Hnd. rewrite Hf in Hnd. apply NoDup_cons in Hnd as [Hn _].
    apply Forall_forall. intros kv' Hkv' Hf'. apply Hn. apply list_elem_of_omap. by exists kv'.
  - rewrite decode_members_cons in Hr. unfold assign in Hr. rewrite Hf in Hr. by destruct (set n kv.2 b).
Qed.

(** What the other fields keep. *)
Lemma decode_members_others (P : A → Prop) l n a r :
  (∀ m t x y, m ≠ n → P x → set m t x = Some y → P y) →
  Forall (λ kv, field_of kv ≠ Some n) l → P a → decode_members names set l a = Some r → P r.
Proof.
  intros Hset Hl. revert a. induction Hl as [|kv l Hkv _ IH]; intros a Ha; [by intros [= <-]|].
  rewrite decode_members_cons. unfold assign. intros (b & Hb & Hr)%bind_Some. apply (IH b); [|done].
  destruct (field_of kv) as [m|] eqn:Hf; [|by injection Hb as <-]. eapply Hset; [|exact Ha|exact Hb].
  intros ->. by apply Hkv.
Qed.

(** Members of no field do not matter. *)
Lemma decode_members_skip l a :
  decode_members names set l a = decode_members names set (filter (λ kv, is_Some (field_of kv)) l) a.
Proof.
  revert a. induction l as [|kv l IH]; intros a; [done|]. rewrite decode_members_cons, filter_cons. unfold assign at 1.
  case_decide as Hf.
  - rewrite decode_members_cons. unfold assign. destruct (field_of kv) as [n|]; [|by apply is_Some_None in Hf].
    by destruct (set n kv.2 a); simpl.
  - destruct (field_of kv); [by destruct Hf|]. simpl. apply IH.
Qed.
End Members.

(** Two fields that do not overlap. *)
Lemma field_with_independent {A B C} f g (get : A → B) (put : B → A → A) (get' : A → C) (put' : C → A → A) :
  (∀ b a, get' (put b a) = get' a) → (∀ c a, get (put' c a) = get a) →
  (∀ b c a, put' c (put b a) = put b (put' c a)) →
  independent (field_with f get put) (field_with g get' put').
Proof.
  intros H1 H2 H3 t u a. unfold field_with.
  destruct (f t (get a)) as [b|] eqn:Eb, (g u (get' a)) as [c|] eqn:Ec; simpl;
    rewrite ?H1, ?H2, ?Eb, ?Ec; simpl; [by rewrite H3|done..].
Qed.
Lemma field_independent {A B C} `{Codec B} `{Codec C} (get : A → B) (put : B → A → A) (get' : A → C) (put' : C → A → A) :
  (∀ b a, get' (put b a) = get' a) → (∀ c a, get (put' c a) = get a) →
  (∀ b c a, put' c (put b a) = put b (put' c a)) →
  independent (field_decoder get put) (field_decoder get' put').
Proof. apply field_with_independent. Qed.

Lemma independent_sym {A} (f g : decoder A) : independent f g → independent g f.
Proof. intros H t u a. symmetry. apply H. Qed.

Lemma fields_independent {A} (fields : list (string * decoder A)) :
  ForallOrdPairs independent fields.*2 →
  ∀ n m, n ≠ m → independent (field_named fields n) (field_named fields m).
Proof.
  assert (Hnone : ∀ f : decoder A, independent f (λ _ _, None)) by (intros f t u a; by destruct (f t a)).
  intros Hf n m Hne. induction fields as [|[k f] fields IH]; [apply Hnone|].
  rewrite fmap_cons in Hf. inversion Hf as [|? ? Hall Hf']; subst. cbn [field_named].
  assert (Hin : ∀ x, independent f (field_named fields x)).
  { intros x. clear -Hall Hnone. induction fields as [|[j g] fields IH]; [apply Hnone|].
    rewrite fmap_cons in Hall. apply Forall_cons in Hall as [? Hall]. cbn [field_named]. case_if; auto. }
  destruct (String.eqb_spec k n), (String.eqb_spec k m); subst; auto using independent_sym. done.
Qed.

(** Reading a member that was written. *)
Section Written.
Context {A B : Type} `{CodecLaws B} (names : list string) (set : string → decoder A).
Context (get : A → B) (put : B → A → A).

Definition written (l : list (string * jtext)) : list (string * jtext) :=
  (λ kt, (html kt.1, escaped kt.2)) <$> l.

(** The general case: what is read may depend on what there was. *)
Lemma member_reads d name x l a y :
  faithful d x → match_field names (unquote (html name)) = Some name →
  set name = field_decoder get put → (∀ t, encode x = Some t → decode (escaped t) (get a) = Some y) →
  member name x = Some l → decode_members names set (written l) a = Some (put y a).
Proof.
  intros Hx Hn Hs Hd. unfold member. intros (t & Ht & [= <-])%bind_Some. unfold written. cbn [fmap list_fmap].
  rewrite decode_members_cons. unfold assign, field_of. cbn [fst snd]. rewrite Hn, Hs. unfold field_decoder.
  by rewrite Hd.
Qed.

Lemma member_decodes d name x l a :
  faithful d x → match_field names (unquote (html name)) = Some name →
  set name = field_decoder get put → get a = zero → member name x = Some l →
  decode_members names set (written l) a = Some (put x a).
Proof.
  intros Hx Hn Hs Ha. apply (member_reads d); [done..|]. intros t. rewrite Ha. by apply (decode_encode d).
Qed.

Lemma omitempty_decodes d name x l a `{Decision (x = zero)} :
  faithful d x → match_field names (unquote (html name)) = Some name →
  set name = field_decoder get put → get a = zero → put zero a = a → omitempty name x = Some l →
  decode_members names set (written l) a = Some (put x a).
Proof.
  intros Hx Hn Hs Ha Hp. unfold omitempty. case_decide; [|by eapply member_decodes].
  intros [= <-]. subst x. by rewrite Hp.
Qed.
End Written.

Lemma member_wf {B} `{CodecLaws B} d name x l :
  faithful d x → body name → member name x = Some l → Forall (λ kt, body kt.1 ∧ wf_text d kt.2) l.
Proof.
  intros Hx Hn. unfold member. intros (t & Ht & [= <-])%bind_Some. constructor; [|done].
  split; [done|by eapply encode_wf].
Qed.
Lemma omitempty_wf {B} `{CodecLaws B} d name x l `{Decision (x = zero)} :
  faithful d x → body name → omitempty name x = Some l → Forall (λ kt, body kt.1 ∧ wf_text d kt.2) l.
Proof. intros Hx Hn. unfold omitempty. case_decide; [by intros [= <-]|by apply member_wf]. Qed.

(** ** Writing a struct, then reading it *)

Lemma struct_inv parts t :
  struct parts = Some t → ∃ ls, Forall2 (λ p l, p = Some l) parts ls ∧ t = TObj (mjoin ls).
Proof. unfold struct. intros (ls & Hls & [= <-])%bind_Some. exists ls. by apply mapM_Some in Hls. Qed.

Lemma written_join ls : written (mjoin ls) = mjoin (written <$> ls).
Proof. induction ls as [|l ls IH]; [done|]. simpl. unfold written in *. by rewrite fmap_app, IH. Qed.

(** The members [l], then the rest. *)
Lemma decode_then {A} names (set : string → decoder A) l ls a a' b :
  decode_members names set (written l) a = Some a' →
  decode_members names set (mjoin (written <$> ls)) a' = b →
  decode_members names set (mjoin (written <$> l :: ls)) a = b.
Proof. intros Hl <-. cbn [fmap list_fmap mjoin list_join]. by rewrite decode_members_app, Hl. Qed.

Lemma struct_wf ls :
  Forall (Forall (λ kt, body kt.1 ∧ wf_text (max_depth - 1) kt.2)) ls → wf_text max_depth (TObj (mjoin ls)).
Proof.
  intros Hwf. constructor; [done|]. induction Hwf as [|l ls Hl _ IH]; [constructor|]. by apply Forall_app.
Qed.

Lemma unmarshal_struct {A} (z a : A) fields ls :
  Forall (Forall (λ kt, body kt.1 ∧ wf_text (max_depth - 1) kt.2)) ls →
  decode_members fields.*1 (field_named fields) (mjoin (written <$> ls)) z = Some a →
  Unmarshal z (decode_fields fields) (print (TObj (mjoin ls))) = Some a.
Proof.
  intros Hwf Hd. unfold Unmarshal. rewrite parse_print.
  - cbn [mbind option_bind escaped]. fold (written (mjoin ls)). unfold decode_fields, decode_struct. by rewrite written_join.
  - by apply struct_wf.
Qed.

(** Splits a struct into its members, reads them one after the other, and leaves
    that each is faithful. *)
Ltac split_struct H :=
  apply struct_inv in H as (? & H & ->);
  repeat match goal with HF : Forall2 _ (_ :: _) _ |- _ =>
    let Hx := fresh "Hm" in apply Forall2_cons_inv_l in HF as (? & ? & Hx & HF & ->) end;
  match goal with HF : Forall2 _ [] _ |- _ => apply Forall2_nil_inv_l in HF as -> end.
Ltac read_member :=
  lazymatch goal with
  | Hm : @omitempty _ _ ?n ?x _ = Some ?l |- decode_members ?fs _ (written ?l) _ = _ =>
      eapply (omitempty_decodes fs _ _ _ (max_depth - 1) n x l); [|reflexivity|reflexivity|reflexivity|reflexivity|exact Hm]
  | Hm : @member _ _ ?n ?x = Some ?l |- decode_members ?fs _ (written ?l) _ = _ =>
      eapply (member_decodes fs _ _ _ (max_depth - 1) n x l); [|reflexivity|reflexivity|reflexivity|exact Hm]
  end.
Ltac member_texts_wf :=
  repeat first [apply Forall_cons; split | apply Forall_nil; exact I];
  lazymatch goal with
  | Hm : @omitempty _ _ ?n ?x _ = Some ?l |- Forall _ ?l =>
      apply (omitempty_wf (max_depth - 1) n x l); [|apply body_check; reflexivity|exact Hm]
  | Hm : @member _ _ ?n ?x = Some ?l |- Forall _ ?l =>
      apply (member_wf (max_depth - 1) n x l); [|apply body_check; reflexivity|exact Hm]
  end.
Ltac read_struct :=
  apply unmarshal_struct; [member_texts_wf|repeat (eapply decode_then; [read_member|])].

(** The names of the members a struct has. *)
Lemma member_name {B} `{Codec B} name (x : B) l : member name x = Some l → l.*1 = [name].
Proof. unfold member. by intros (t & _ & [= <-])%bind_Some. Qed.
Lemma omitempty_name {B} `{Codec B} name (x : B) `{Decision (x = zero)} l :
  omitempty name x = Some l → l.*1 = [] ∨ l.*1 = [name].
Proof. unfold omitempty. case_decide; [intros [= <-]; by left|intros ?%member_name; by right]. Qed.

Lemma names_sublist (ls : list (list (string * jtext))) names :
  Forall2 (λ l n, l.*1 = [] ∨ l.*1 = [n]) ls names → (mjoin ls).*1 `sublist_of` names.
Proof.
  induction 1 as [|l n ls names Hl _ IH]; [constructor|]. cbn [mjoin list_join]. rewrite fmap_app.
  destruct Hl as [-> | ->]; [by apply sublist_cons|by apply sublist_skip].
Qed.

Lemma omap_sublist {A B} (f : A → option B) l l' : l `sublist_of` l' → omap f l `sublist_of` omap f l'.
Proof.
  induction 1 as [|x l l' _ IH|x l l' _ IH]; simpl; [done| |]; destruct (f x); [by apply sublist_skip|done|by apply sublist_cons|done].
Qed.

Lemma fields_distinct names l all :
  l.*1 `sublist_of` all → NoDup (omap (λ n, match_field names (unquote n)) all) → NoDup (omap (field_of names) l).
Proof.
  intros Hl Hnd. assert (omap (field_of names) l = omap (λ n, match_field names (unquote n)) l.*1) as ->.
  { clear. induction l as [|[k t] l IH]; [done|]. simpl. unfold field_of at 1. cbn [fst].
    destruct (match_field names (unquote k)); [f_equal|]; exact IH. }
  by eapply sublist_NoDup, omap_sublist.
Qed.

(** ** What decoders keep *)

(** A property of values that reading a well-formed text does not break. *)
Definition keeps {A} (P : A → Prop) (f : decoder A) : Prop :=
  ∀ d t x y, wf_text d t → P x → f t x = Some y → P y.

Lemma field_keeps {A B} `{Codec B} (P : A → Prop) (Q : B → Prop) (get : A → B) (put : B → A → A) :
  keeps Q decode → (∀ a, P a → Q (get a)) → (∀ a b, P a → Q b → P (put b a)) → keeps P (field_decoder get put).
Proof.
  intros Hd Hg Hp d t x y Ht Hx. unfold field_decoder. intros (b & Hb & [= <-])%bind_Some.
  apply Hp; [done|]. by eapply Hd; [|by apply Hg|].
Qed.

Lemma fields_keep {A} (P : A → Prop) (fields : list (string * decoder A)) :
  Forall (keeps P) fields.*2 → keeps P (decode_fields fields).
Proof.
  intros Hf d t x y Ht Hx. unfold decode_fields.
  assert (Hn : ∀ n, keeps P (field_named fields n)).
  { intros n. clear -Hf. induction fields as [|[k f] fields IH]; [done|]. rewrite fmap_cons in Hf.
    apply Forall_cons in Hf as [? ?]. cbn [field_named]. case_if; auto. }
  clear Hf. destruct Ht as [| | | | |d l Hd Hl]; try done; [by intros [= <-]|]. cbn [decode_struct]. revert x Hx.
  induction Hl as [|[k v] l [_ Hv] _ IH]; intros x Hx; [by intros [= <-]|].
  rewrite decode_members_cons. unfold assign. intros (z & Hz & Hy)%bind_Some. apply (IH z); [|done].
  destruct (field_of _ _) as [n|]; [by eapply Hn|by injection Hz as <-].
Qed.

Lemma keeps_true {A} (f : decoder A) : keeps (λ _, True) f.
Proof. done. Qed.

Lemma int64_keeps : keeps in_int64 decode_int64.
Proof. intros d t x y _. apply decode_int64_range. Qed.
Lemma string_keeps : keeps utf8 decode_string.
Proof. intros d t x y Ht Hx. destruct t; try done; [by intros [= <-]|]. intros [= <-]. apply unquote_utf8. Qed.
Lemma float_keeps : keeps (λ x, valid x ∧ is_finite x = true) decode_float.
Proof.
  intros d t x y Ht Hx. destruct Ht; try done; cbn; [by intros [= <-]|]. intros Hy.
  by eapply number_finite.
Qed.

Lemma map_keeps {A} `{Codec A} (P : A → Prop) :
  P zero → keeps P decode → keeps (map_Forall (λ k v, utf8 k ∧ P v)) decode_map.
Proof.
  intros Hz Hk d t m m' Ht Hm. destruct Ht as [| | | | |d l _ Hl]; try done; [by intros [= <-]|].
  cbn [decode_map]. revert m Hm. induction Hl as [|[k v] l [_ Hv] _ IH]; intros m Hm; [by intros [= <-]|].
  cbn [foldl mbind option_bind fst snd]. destruct (decode v zero) as [x|] eqn:Ex; simpl.
  - apply IH. apply map_Forall_insert_2; [|done]. split; [apply unquote_utf8|by eapply Hk].
  - intros Hf. exfalso. clear -Hf. induction l as [|kv l IH]; [done|]. by apply IH.
Qed.

(** One goal for each field. *)
Ltac each_field :=
  apply fields_keep; rewrite ?fmap_cons, ?fmap_nil; cbn [snd];
  repeat first [apply Forall_nil; exact I | apply Forall_cons; split].
