(* ===== verification/Messages.v ===== *)
(** * The messages in JSON

    How the structs of internal/model that travel over MQTT, or are kept in
    Redis, are written ([json.Marshal]) and read ([json.Unmarshal]): one list of
    fields per struct, in the order of its declaration and with its tags. *)
From Stdlib Require Import Ascii Floats.SpecFloat.
From S2P Require Import Prelude Float64 FloatFacts GoTime GoStrings Model Json JsonString JsonText.
From S2P Require Import JsonDecode Rfc3339 Decoders.

(** ** Telemetry *)

Module Telemetry.
Definition zero_value : Model.Telemetry := MkTelemetry "" "" "" 0 ∅ "" 0.

Definition fields : list (string * decoder Model.Telemetry) := [
  ("device_id", field_decoder tel_DeviceID (λ x t,
     MkTelemetry x (tel_SiteID t) (tel_Type t) (tel_Timestamp t) (tel_Metrics t) (tel_State t) (tel_Seq t)));
  ("site_id", field_decoder tel_SiteID (λ x t,
     MkTelemetry (tel_DeviceID t) x (tel_Type t) (tel_Timestamp t) (tel_Metrics t) (tel_State t) (tel_Seq t)));
  ("device_type", field_decoder tel_Type (λ x t,
     MkTelemetry (tel_DeviceID t) (tel_SiteID t) x (tel_Timestamp t) (tel_Metrics t) (tel_State t) (tel_Seq t)));
  ("timestamp", field_decoder tel_Timestamp (λ x t,
     MkTelemetry (tel_DeviceID t) (tel_SiteID t) (tel_Type t) x (tel_Metrics t) (tel_State t) (tel_Seq t)));
  ("metrics", field_decoder tel_Metrics (λ x t,
     MkTelemetry (tel_DeviceID t) (tel_SiteID t) (tel_Type t) (tel_Timestamp t) x (tel_State t) (tel_Seq t)));
  ("state", field_decoder tel_State (λ x t,
     MkTelemetry (tel_DeviceID t) (tel_SiteID t) (tel_Type t) (tel_Timestamp t) (tel_Metrics t) x (tel_Seq t)));
  ("seq", field_decoder tel_Seq (λ x t,
     MkTelemetry (tel_DeviceID t) (tel_SiteID t) (tel_Type t) (tel_Timestamp t) (tel_Metrics t) (tel_State t) x))].

(** The metrics are a map that is not nil. *)
Definition text (t : Model.Telemetry) : option jtext := struct [
  member "device_id" (tel_DeviceID t);
  omitempty "site_id" (tel_SiteID t);
  omitempty "device_type" (tel_Type t);
  member "timestamp" (tel_Timestamp t);
  member "metrics" (tel_Metrics t);
  omitempty "state" (tel_State t);
  member "seq" (tel_Seq t)].
End Telemetry.

Definition marshal_telemetry (t : Model.Telemetry) : option string := print <$> Telemetry.text t.
Definition unmarshal_telemetry : string → option Model.Telemetry :=
  Unmarshal Telemetry.zero_value (decode_fields Telemetry.fields).

(** ** Commands *)

Module Command.
Definition zero_value : Model.Command := MkCommand "" "" ∅ 0 "".

Definition fields : list (string * decoder Model.Command) := [
  ("command_id", field_decoder cmd_CommandID (λ x c,
     MkCommand x (cmd_Action c) (cmd_Params c) (cmd_IssuedAt c) (cmd_Reason c)));
  ("action", field_decoder cmd_Action (λ x c,
     MkCommand (cmd_CommandID c) x (cmd_Params c) (cmd_IssuedAt c) (cmd_Reason c)));
  ("params", field_decoder cmd_Params (λ x c,
     MkCommand (cmd_CommandID c) (cmd_Action c) x (cmd_IssuedAt c) (cmd_Reason c)));
  ("issued_at", field_decoder cmd_IssuedAt (λ x c,
     MkCommand (cmd_CommandID c) (cmd_Action c) (cmd_Params c) x (cmd_Reason c)));
  ("reason", field_decoder cmd_Reason (λ x c,
     MkCommand (cmd_CommandID c) (cmd_Action c) (cmd_Params c) (cmd_IssuedAt c) x))].

Definition text (c : Model.Command) : option jtext := struct [
  member "command_id" (cmd_CommandID c);
  member "action" (cmd_Action c);
  omitempty "params" (cmd_Params c);
  member "issued_at" (cmd_IssuedAt c);
  omitempty "reason" (cmd_Reason c)].
End Command.

Definition marshal_command (c : Model.Command) : option string := print <$> Command.text c.
Definition unmarshal_command : string → option Model.Command :=
  Unmarshal Command.zero_value (decode_fields Command.fields).

(** ** Acknowledgements *)

Module Ack.
Definition zero_value : CommandAck := MkCommandAck "" false "" 0.

Definition fields : list (string * decoder CommandAck) := [
  ("command_id", field_decoder ack_CommandID (λ x a,
     MkCommandAck x (ack_OK a) (ack_Error a) (ack_Timestamp a)));
  ("ok", field_decoder ack_OK (λ x a,
     MkCommandAck (ack_CommandID a) x (ack_Error a) (ack_Timestamp a)));
  ("error", field_decoder ack_Error (λ x a,
     MkCommandAck (ack_CommandID a) (ack_OK a) x (ack_Timestamp a)));
  ("timestamp", field_decoder ack_Timestamp (λ x a,
     MkCommandAck (ack_CommandID a) (ack_OK a) (ack_Error a) x))].

Definition text (a : CommandAck) : option jtext := struct [
  member "command_id" (ack_CommandID a);
  member "ok" (ack_OK a);
  omitempty "error" (ack_Error a);
  member "timestamp" (ack_Timestamp a)].
End Ack.

Definition marshal_ack (a : CommandAck) : option string := print <$> Ack.text a.
Definition unmarshal_ack : string → option CommandAck :=
  Unmarshal Ack.zero_value (decode_fields Ack.fields).

(** ** Events *)

Module Event.
Definition zero_value : DeviceEvent := MkDeviceEvent "" "" "" "" "" "" "" ∅ 0 zero_time.

Definition set_id x e := MkDeviceEvent x (ev_SiteID e) (ev_DeviceID e) (ev_DeviceType e)
  (ev_Severity e) (ev_Code e) (ev_Message e) (ev_Details e) (ev_Timestamp e) (ev_CreatedAt e).
Definition set_site x e := MkDeviceEvent (ev_EventID e) x (ev_DeviceID e) (ev_DeviceType e)
  (ev_Severity e) (ev_Code e) (ev_Message e) (ev_Details e) (ev_Timestamp e) (ev_CreatedAt e).
Definition set_device x e := MkDeviceEvent (ev_EventID e) (ev_SiteID e) x (ev_DeviceType e)
  (ev_Severity e) (ev_Code e) (ev_Message e) (ev_Details e) (ev_Timestamp e) (ev_CreatedAt e).
Definition set_type x e := MkDeviceEvent (ev_EventID e) (ev_SiteID e) (ev_DeviceID e) x
  (ev_Severity e) (ev_Code e) (ev_Message e) (ev_Details e) (ev_Timestamp e) (ev_CreatedAt e).
Definition set_severity x e := MkDeviceEvent (ev_EventID e) (ev_SiteID e) (ev_DeviceID e)
  (ev_DeviceType e) x (ev_Code e) (ev_Message e) (ev_Details e) (ev_Timestamp e) (ev_CreatedAt e).
Definition set_code x e := MkDeviceEvent (ev_EventID e) (ev_SiteID e) (ev_DeviceID e)
  (ev_DeviceType e) (ev_Severity e) x (ev_Message e) (ev_Details e) (ev_Timestamp e) (ev_CreatedAt e).
Definition set_message x e := MkDeviceEvent (ev_EventID e) (ev_SiteID e) (ev_DeviceID e)
  (ev_DeviceType e) (ev_Severity e) (ev_Code e) x (ev_Details e) (ev_Timestamp e) (ev_CreatedAt e).
Definition set_details x e := MkDeviceEvent (ev_EventID e) (ev_SiteID e) (ev_DeviceID e)
  (ev_DeviceType e) (ev_Severity e) (ev_Code e) (ev_Message e) x (ev_Timestamp e) (ev_CreatedAt e).
Definition set_timestamp x e := MkDeviceEvent (ev_EventID e) (ev_SiteID e) (ev_DeviceID e)
  (ev_DeviceType e) (ev_Severity e) (ev_Code e) (ev_Message e) (ev_Details e) x (ev_CreatedAt e).
Definition set_created x e := MkDeviceEvent (ev_EventID e) (ev_SiteID e) (ev_DeviceID e)
  (ev_DeviceType e) (ev_Severity e) (ev_Code e) (ev_Message e) (ev_Details e) (ev_Timestamp e) x.

Definition fields : list (string * decoder DeviceEvent) := [
  ("event_id", field_decoder ev_EventID set_id);
  ("site_id", field_decoder ev_SiteID set_site);
  ("device_id", field_decoder ev_DeviceID set_device);
  ("device_type", field_decoder ev_DeviceType set_type);
  ("severity", field_decoder ev_Severity set_severity);
  ("code", field_decoder ev_Code set_code);
  ("message", field_decoder ev_Message set_message);
  ("details", field_decoder ev_Details set_details);
  ("timestamp", field_decoder ev_Timestamp set_timestamp);
  ("created_at", field_decoder ev_CreatedAt set_created)].

Definition text (e : DeviceEvent) : option jtext := struct [
  member "event_id" (ev_EventID e);
  member "site_id" (ev_SiteID e);
  member "device_id" (ev_DeviceID e);
  member "device_type" (ev_DeviceType e);
  member "severity" (ev_Severity e);
  member "code" (ev_Code e);
  member "message" (ev_Message e);
  omitempty "details" (ev_Details e);
  member "timestamp" (ev_Timestamp e);
  member "created_at" (ev_CreatedAt e)].
End Event.

Definition marshal_event (e : DeviceEvent) : option string := print <$> Event.text e.
Definition unmarshal_event : string → option DeviceEvent :=
  Unmarshal Event.zero_value (decode_fields Event.fields).


(** ** Reading what was written *)

(** The strings are UTF-8 texts, the integers have 64 bits, the maps hold such
    values and are not nested too deep. *)
Record telemetry_ok (t : Model.Telemetry) : Prop := {
  tok_device : utf8 (tel_DeviceID t);
  tok_site : utf8 (tel_SiteID t);
  tok_type : utf8 (tel_Type t);
  tok_timestamp : in_int64 (tel_Timestamp t);
  tok_metrics : map_Forall (λ k x, utf8 k ∧ valid x) (tel_Metrics t);
  tok_state : utf8 (tel_State t);
  tok_seq : in_int64 (tel_Seq t)
}.

Record command_ok (c : Model.Command) : Prop := {
  cok_id : utf8 (cmd_CommandID c);
  cok_action : utf8 (cmd_Action c);
  cok_params : map_Forall (λ k x, utf8 k ∧ any_ok (max_depth - 2) x) (cmd_Params c);
  cok_issued : in_int64 (cmd_IssuedAt c);
  cok_reason : utf8 (cmd_Reason c)
}.

Record ack_ok (a : CommandAck) : Prop := {
  aok_id : utf8 (ack_CommandID a);
  aok_error : utf8 (ack_Error a);
  aok_timestamp : in_int64 (ack_Timestamp a)
}.

Record event_ok (e : DeviceEvent) : Prop := {
  eok_id : utf8 (ev_EventID e);
  eok_site : utf8 (ev_SiteID e);
  eok_device : utf8 (ev_DeviceID e);
  eok_type : utf8 (ev_DeviceType e);
  eok_severity : utf8 (ev_Severity e);
  eok_code : utf8 (ev_Code e);
  eok_message : utf8 (ev_Message e);
  eok_details : map_Forall (λ k x, utf8 k ∧ any_ok (max_depth - 2) x) (ev_Details e);
  eok_timestamp : in_int64 (ev_Timestamp e);
  eok_created : ev_CreatedAt e = zero_time
}.

Ltac faithful_fields := try solve [assumption | exact I | split; [reflexivity|assumption]].

(** Projections are evaluated once, from the inside. *)
Ltac by_fields t :=
  cbv delta [tel_DeviceID tel_SiteID tel_Type tel_Timestamp tel_Metrics tel_State tel_Seq
    Telemetry.zero_value] beta iota; destruct t; reflexivity.

Lemma telemetry_round_trip t s :
  telemetry_ok t → marshal_telemetry t = Some s → unmarshal_telemetry s = Some t.
Proof.
  intros [] (x & Hx & ->)%fmap_Some. unfold Telemetry.text in Hx. split_struct Hx.
  read_struct; faithful_fields. by_fields t.
Qed.

(** Read into a telemetry that holds metrics, it keeps those of other names. *)
Definition add_metrics (m : gmap string float64) (t : Model.Telemetry) : Model.Telemetry :=
  MkTelemetry (tel_DeviceID t) (tel_SiteID t) (tel_Type t) (tel_Timestamp t) (tel_Metrics t ∪ m) (tel_State t) (tel_Seq t).

Lemma telemetry_merges t l m :
  telemetry_ok t → Telemetry.text t = Some (TObj l) →
  decode_members Telemetry.fields.*1 (field_named Telemetry.fields) (written l) (MkTelemetry "" "" "" 0 m "" 0) =
    Some (add_metrics m t).
Proof.
  intros [] Hx. unfold Telemetry.text in Hx. apply struct_inv in Hx as (ls & Hls & [= ->]).
  repeat match goal with HF : Forall2 _ (_ :: _) _ |- _ =>
    let Hx := fresh "Hm" in apply Forall2_cons_inv_l in HF as (? & ? & Hx & HF & ->) end.
  apply Forall2_nil_inv_l in Hls as ->. rewrite written_join.
  repeat (eapply decode_then; [read_member; faithful_fields|]).
  eapply decode_then.
  { lazymatch goal with Hm : @member _ _ "metrics" ?x = Some ?l |- _ =>
      eapply (member_reads Telemetry.fields.*1 _ _ _ (max_depth - 1) "metrics" x l);
        [split; [reflexivity|assumption]|reflexivity|reflexivity| |exact Hm] end.
    intros y Hy. eapply (decode_map_merge (max_depth - 1)); [split; [reflexivity|eassumption]|exact Hy]. }
  repeat (eapply decode_then; [read_member; faithful_fields|]).
  by_fields t.
Qed.

Lemma command_round_trip c s :
  command_ok c → marshal_command c = Some s → unmarshal_command s = Some c.
Proof.
  intros [] (x & Hx & ->)%fmap_Some. unfold Command.text in Hx. split_struct Hx.
  read_struct; faithful_fields. destruct c. reflexivity.
Qed.

Lemma ack_round_trip a s : ack_ok a → marshal_ack a = Some s → unmarshal_ack s = Some a.
Proof.
  intros [] (x & Hx & ->)%fmap_Some. unfold Ack.text in Hx. split_struct Hx.
  read_struct; faithful_fields. destruct a. reflexivity.
Qed.

Lemma event_round_trip e s : event_ok e → marshal_event e = Some s → unmarshal_event s = Some e.
Proof.
  intros [] (x & Hx & ->)%fmap_Some. unfold Event.text in Hx. split_struct Hx.
  read_struct; faithful_fields. destruct e. reflexivity.
Qed.

Lemma telemetry_wf t x : telemetry_ok t → Telemetry.text t = Some x → wf_text max_depth x.
Proof.
  intros [] Hx. unfold Telemetry.text in Hx. split_struct Hx. apply struct_wf. member_texts_wf; faithful_fields.
Qed.
Lemma ack_wf a x : ack_ok a → Ack.text a = Some x → wf_text max_depth x.
Proof. intros [] Hx. unfold Ack.text in Hx. split_struct Hx. apply struct_wf. member_texts_wf; faithful_fields. Qed.
Lemma event_wf e x : event_ok e → Event.text e = Some x → wf_text max_depth x.
Proof. intros [] Hx. unfold Event.text in Hx. split_struct Hx. apply struct_wf. member_texts_wf; faithful_fields. Qed.

(** Whatever is read from a text is well formed, and can be written again. *)
Lemma telemetry_keeps :
  keeps (λ t, telemetry_ok t ∧ map_Forall (λ _ x, is_finite x = true) (tel_Metrics t))
    (decode_fields Telemetry.fields).
Proof.
  unfold Telemetry.fields. each_field;
    lazymatch goal with
    | |- context [field_decoder tel_Metrics _] =>
        apply (field_keeps _ (map_Forall (λ k x, utf8 k ∧ valid x ∧ is_finite x = true)));
          [by apply map_keeps; [|apply float_keeps]
          |intros t [[] Hf] k x Hx; by split_and!; [eapply tok_metrics0|eapply tok_metrics0|eapply Hf]
          |intros t m [[] Hf] Hm; split; [split; try done|]; intros k x Hx; by apply (Hm k x) in Hx as (? & ? & ?)]
    | |- context [@field_decoder _ Z _ _ _] =>
        apply (field_keeps _ in_int64); [apply int64_keeps|by intros ? [[] ?]|by intros ? ? [[] ?] ?; split; [split|]]
    | |- _ => apply (field_keeps _ utf8); [apply string_keeps|by intros ? [[] ?]|by intros ? ? [[] ?] ?; split; [split|]]
    end.
Qed.

Definition finite_metrics (t : Model.Telemetry) : Prop := map_Forall (λ _ x, is_finite x = true) (tel_Metrics t).

Lemma unmarshal_telemetry_ok payload t :
  unmarshal_telemetry payload = Some t → telemetry_ok t ∧ finite_metrics t.
Proof.
  unfold unmarshal_telemetry, Unmarshal. intros (x & Hx%parse_wf & Ht)%bind_Some.
  eapply telemetry_keeps; [exact Hx| |exact Ht]. split; [|done]. by split; cbn; auto with vpp.
Qed.

(** Telemetry without infinities and NaN has a text, and so has every acknowledgement. *)
Lemma marshal_float_finite x : is_finite x = true → is_Some (marshal_float x).
Proof.
  destruct x as [s|s| |s m e]; try done. intros _. cbn [marshal_float].
  destruct (shortest _ _ _ _ _). by destruct (strip_zeros _ _ _).
Qed.

Lemma telemetry_text_some t :
  map_Forall (λ _ x, is_finite x = true) (tel_Metrics t) → is_Some (Telemetry.text t).
Proof.
  intros Hm. unfold Telemetry.text, struct.
  assert (Hmet : is_Some (member "metrics" (tel_Metrics t))).
  { unfold member. enough (is_Some (encode_map (tel_Metrics t))) as [x Hx] by (cbn; rewrite Hx; by eexists).
    unfold encode_map. enough (is_Some (mapM (λ kv, t ← encode kv.2; Some (escape_all kv.1, t)) (by_key (map_to_list (tel_Metrics t))))) as [x ->] by by eexists.
    apply mapM_is_Some_2. rewrite by_key_perm. apply Forall_forall. intros [k x] Hx%elem_of_map_to_list%Hm.
    cbn. apply marshal_float_finite in Hx as [s ->]. by eexists. }
  assert (Hopt : ∀ n (s : string), is_Some (omitempty n s)) by (intros n s; unfold omitempty; case_decide; by eexists).
  assert (is_Some (omitempty "device_type" (tel_Type t))) as [x3 ->] by apply Hopt.
  destruct Hmet as [x1 ->], (Hopt "site_id" (tel_SiteID t)) as [x2 ->],
    (Hopt "state" (tel_State t)) as [x4 ->]. by eexists.
Qed.

Lemma ack_text_some a : is_Some (Ack.text a).
Proof.
  unfold Ack.text, struct.
  assert (is_Some (omitempty "error" (ack_Error a))) as [x ->] by (unfold omitempty; case_decide; by eexists). by eexists.
Qed.

(** ** The fields of a struct do not interfere *)

(** Decoders that read a text and its escaped form alike. *)
Definition stable {A} (f : decoder A) : Prop := ∀ d t a, wf_text d t → f (escaped t) a = f t a.

Lemma field_stable {A B} `{CodecLaws B} (get : A → B) (put : B → A → A) : stable (field_decoder get put).
Proof. intros d t a Ht. unfold field_decoder. by rewrite (decode_escaped d). Qed.

Lemma fields_stable {A} (fields : list (string * decoder A)) n :
  Forall stable fields.*2 → stable (field_named fields n).
Proof.
  intros Hf. induction fields as [|[k f] fields IH]; [done|]. rewrite fmap_cons in Hf.
  apply Forall_cons in Hf as [? ?]. cbn [field_named]. case_if; auto.
Qed.

(** A struct whose fields can be read in any order. *)
Record orderly {A} (fields : list (string * decoder A)) : Prop := {
  or_independent : ∀ n m, n ≠ m → independent (field_named fields n) (field_named fields m);
  or_stable : ∀ n, stable (field_named fields n)
}.

Lemma orderly_fields {A} (fields : list (string * decoder A)) :
  ForallOrdPairs independent fields.*2 → Forall stable fields.*2 → orderly fields.
Proof. intros. split; [by apply fields_independent|intros; by apply fields_stable]. Qed.

Ltac solve_orderly :=
  apply orderly_fields; repeat constructor; first [apply field_stable | apply field_independent; by intros].

Lemma telemetry_orderly : orderly Telemetry.fields.
Proof. solve_orderly. Qed.
Lemma command_orderly : orderly Command.fields.
Proof. solve_orderly. Qed.
Lemma ack_orderly : orderly Ack.fields.
Proof. solve_orderly. Qed.
Lemma event_orderly : orderly Event.fields.
Proof. solve_orderly. Qed.

(** ** What is written has every field once *)

Ltac names_of_members :=
  repeat first [apply Forall2_cons; split | apply Forall2_nil; exact I];
  lazymatch goal with
  | Hm : @omitempty _ _ _ _ _ = Some ?l |- context [?l] => apply omitempty_name in Hm; exact Hm
  | Hm : @member _ _ _ _ = Some ?l |- context [?l] => apply member_name in Hm; right; exact Hm
  end.
Ltac distinct_fields H :=
  split_struct H; eexists; (split; [reflexivity|]);
  lazymatch goal with |- NoDup (omap (field_of ?names) _) => apply (fields_distinct names _ names) end;
  [apply names_sublist; names_of_members|apply (bool_decide_unpack _); by vm_compute].

Lemma telemetry_distinct t x :
  Telemetry.text t = Some x → ∃ l, x = TObj l ∧ NoDup (omap (field_of Telemetry.fields.*1) l).
Proof. unfold Telemetry.text. intros Hx. distinct_fields Hx. Qed.
Lemma telemetry_has_metrics t l : Telemetry.text t = Some (TObj l) → "metrics" ∈ l.*1.
Proof.
  unfold Telemetry.text. intros Hx. apply struct_inv in Hx as (ls & Hls & [= ->]).
  assert (∃ x, member "metrics" (tel_Metrics t) = Some x ∧ x ∈ ls) as (x & Hx%member_name & Hin).
  { destruct (Forall2_lookup_l _ _ _ 4 _ Hls eq_refl) as (x & Hl & Hx). exists x. split; [exact Hx|].
    by eapply list_elem_of_lookup_2. }
  clear Hls. induction ls as [|y ls IH]; [by apply not_elem_of_nil in Hin|]. cbn [mjoin list_join].
  rewrite fmap_app. apply elem_of_app. apply elem_of_cons in Hin as [<-|Hin]; [left; rewrite Hx; by left|right; auto].
Qed.

Lemma ack_distinct a x :
  Ack.text a = Some x → ∃ l, x = TObj l ∧ NoDup (omap (field_of Ack.fields.*1) l).
Proof. unfold Ack.text. intros Hx. distinct_fields Hx. Qed.
Lemma event_distinct e x :
  Event.text e = Some x → ∃ l, x = TObj l ∧ NoDup (omap (field_of Event.fields.*1) l).
Proof. unfold Event.text. intros Hx. distinct_fields Hx. Qed.

(** ** Properties *)

(** C25: What is written is read back: telemetry, commands, acknowledgements and
    events whose strings are UTF-8 and whose integers have 64 bits are read from
    their JSON text without any change, floating point numbers bit for bit and
    nested parameters included.  The [created_at] of an event is the zero time, as
    in every event a device sends: the platform sets it when it stores one. *)
Theorem messages_round_trip :
  (∀ t s, telemetry_ok t → marshal_telemetry t = Some s → unmarshal_telemetry s = Some t) ∧
  (∀ c s, command_ok c → marshal_command c = Some s → unmarshal_command s = Some c) ∧
  (∀ a s, ack_ok a → marshal_ack a = Some s → unmarshal_ack s = Some a) ∧
  (∀ e s, event_ok e → marshal_event e = Some s → unmarshal_event s = Some e).
Proof.
  split_and!; [apply telemetry_round_trip|apply command_round_trip|apply ack_round_trip|apply event_round_trip].
Qed.

(** ** Concrete instances *)

Definition ex_reading : Model.Telemetry :=
  MkTelemetry "load_01" "" "" 1000 {["power" := lit 3 10]} "on" 1.
Definition ex_order : Model.Command :=
  MkCommand "c-9" "set_mode" {["mode" := JStr "charging"]} 5 "test".

(** Plain texts are UTF-8. *)
Lemma utf8_check s : bool_decide (unquote (escape_all s) = s) = true → utf8 s.
Proof. intros H%bool_decide_eq_true. rewrite <- H. apply unquote_utf8. Qed.

Lemma ex_reading_ok : telemetry_ok ex_reading.
Proof.
  split; try (by apply utf8_check; vm_compute); [by vm_compute| |by vm_compute].
  apply map_Forall_singleton. split; [by apply utf8_check; vm_compute|by vm_compute].
Qed.
Lemma ex_order_ok : command_ok ex_order.
Proof.
  split; try (by apply utf8_check; vm_compute); [|by vm_compute].
  apply map_Forall_singleton. split; by apply utf8_check; vm_compute.
Qed.

Definition ex_reading_text : string := default "" (marshal_telemetry ex_reading).

Example ex_reading_text_test :
  ex_reading_text =
    ReplaceAll "{'device_id':'load_01','timestamp':1000,'metrics':{'power':0.3},'state':'on','seq':1}" "'" quote_mark.
Proof. by vm_compute. Qed.

Lemma messages_round_trip_witness : unmarshal_telemetry ex_reading_text = Some ex_reading.
Proof.
  destruct messages_round_trip as (H & _). apply H; [apply ex_reading_ok|]. by vm_compute.
Defined.
