(* ===== verification/SignedMessages.v ===== *)
(** * Signed messages of devices

    What a device writes, signs and publishes, and what the platform reads from
    it: signing re-orders the members of an object and adds one, which no reader
    of a message looks at. *)
From Stdlib Require Import Ascii Floats.SpecFloat.
From S2P Require Import Prelude Float64 FloatFacts GoTime GoStrings Model Json JsonString JsonText.
From S2P Require Import JsonDecode Rfc3339 Decoders Messages Sha256 DeviceAuth.

(** ** Members of fields *)

Section Relevant.
Context (names : list string).

Definition relevant (k : string) : Prop := is_Some (match_field names k).

(** The members with their keys as they are read. *)
Definition read_keys (l : list (string * jtext)) : list (string * jtext) :=
  (λ kv, (unquote kv.1, kv.2)) <$> l.

Lemma members_of_read l : members l = foldl (λ m kv, <[kv.1 := kv.2]> m) ∅ (read_keys l).
Proof.
  unfold members, read_keys. generalize (∅ : gmap string jtext). induction l as [|kv l IH]; intros m; [done|].
  rewrite fmap_cons. simpl. apply IH.
Qed.

Lemma filter_inserted (l : list (string * jtext)) (m : gmap string jtext) :
  filter (λ kv, relevant kv.1) (foldl (λ m kv, <[kv.1 := kv.2]> m) m l) =
  foldl (λ m kv, <[kv.1 := kv.2]> m) (filter (λ kv, relevant kv.1) m) (filter (λ kv, relevant kv.1) l).
Proof.
  revert m. induction l as [|[k v] l IH]; intros m; [done|]. simpl. rewrite IH, filter_cons. cbn [fst].
  case_decide as Hk.
  - simpl. by rewrite map_filter_insert_True.
  - by rewrite map_filter_insert_not by by intros y.
Qed.

Lemma inserted_distinct (l : list (string * jtext)) :
  NoDup l.*1 → foldl (λ (m : gmap string jtext) kv, <[kv.1 := kv.2]> m) ∅ l = list_to_map l.
Proof.
  assert (∀ m : gmap string jtext, NoDup l.*1 →
    foldl (λ m kv, <[kv.1 := kv.2]> m) m l = list_to_map l ∪ m) as H.
  { induction l as [|[k v] l IH]; intros m; [intros _; simpl; by rewrite (left_id_L ∅ (∪))|].
    intros [Hk Hl]%NoDup_cons. simpl. rewrite IH by done. rewrite <- insert_union_r; [by rewrite insert_union_l|].
    by apply not_elem_of_list_to_map_1. }
  intros Hl. rewrite H by done. by rewrite (right_id_L ∅ (∪)).
Qed.

Lemma relevant_distinct (l : list (string * jtext)) :
  NoDup (omap (λ kv, match_field names kv.1) l) → NoDup (filter (λ kv, relevant kv.1) l).*1.
Proof.
  induction l as [|[k v] l IH]; [constructor|]. simpl. rewrite filter_cons. cbn [fst].
  destruct (decide (relevant k)) as [[n Hk]|Hr].
  - rewrite Hk. intros [Hn Hl]%NoDup_cons. rewrite fmap_cons. apply NoDup_cons.
    split; [|by apply IH]. intros ([k' v'] & Hkk & [_ Hin]%list_elem_of_filter)%list_elem_of_fmap. simpl in Hkk. subst k'.
    apply Hn. apply list_elem_of_omap. by exists (k, v').
  - apply eq_None_not_Some in Hr. by rewrite Hr.
Qed.

Lemma NoDup_filter_fst (P : string → Prop) `{∀ k, Decision (P k)} (l : list (string * jtext)) :
  NoDup l.*1 → NoDup (filter (λ kv, P kv.1) l).*1.
Proof.
  induction l as [|[k v] l IH]; [done|]. intros [Hk Hl]%NoDup_cons. rewrite filter_cons. cbn [fst].
  case_decide; [|by apply IH]. rewrite fmap_cons. apply NoDup_cons. split; [|by apply IH].
  intros ([k' v'] & Hkk & [_ Hin]%list_elem_of_filter)%list_elem_of_fmap. simpl in Hkk. subst k'. apply Hk. by apply (list_elem_of_fmap_2 fst) in Hin.
Qed.

Lemma relevant_map (m : gmap string jtext) :
  filter (λ kv, relevant kv.1) (map_to_list m) ≡ₚ map_to_list (filter (λ kv, relevant kv.1) m).
Proof.
  rewrite map_filter_alt, map_to_list_to_map; [done|].
  apply (@NoDup_filter_fst relevant (λ k, is_Some_dec (match_field names k))), NoDup_fst_map_to_list.
Qed.

(** The members that matter are those of the map. *)
Lemma relevant_members l :
  NoDup (omap (field_of names) l) →
  filter (λ kv, relevant kv.1) (map_to_list (members l)) ≡ₚ filter (λ kv, relevant kv.1) (read_keys l).
Proof.
  intros Hl. assert (Hnd : NoDup (filter (λ kv, relevant kv.1) (read_keys l)).*1).
  { apply relevant_distinct. unfold read_keys.
    replace (omap _ _) with (omap (field_of names) l); [done|]. clear. induction l as [|kv l IH]; [done|].
    simpl. unfold field_of at 1. by destruct (match_field names (unquote kv.1)); [f_equal|]. }
  rewrite <- (map_to_list_to_map (M := gmap string) _ Hnd), <- inserted_distinct by done.
  rewrite <- (map_filter_empty (λ kv, relevant kv.1)). rewrite <- filter_inserted, <- members_of_read.
  apply relevant_map.
Qed.
End Relevant.

(** The keys of a map that was read, and a member that a later one replaces. *)
Lemma elem_of_dom_members l k : k ∈ dom (members l) ↔ k ∈ (λ kv, unquote kv.1) <$> l.
Proof.
  unfold members. assert (∀ m : gmap string jtext, k ∈ dom (foldl (λ m kv, <[unquote kv.1 := kv.2]> m) m l) ↔
    k ∈ dom m ∨ k ∈ (λ kv, unquote kv.1) <$> l) as ->; [|rewrite dom_empty, elem_of_empty; tauto].
  induction l as [|kv l IH]; intros m; [simpl; rewrite elem_of_nil; tauto|].
  rewrite fmap_cons. cbn [foldl]. rewrite IH, dom_insert, elem_of_union, elem_of_singleton, elem_of_cons. tauto.
Qed.

Lemma members_shadowed k v l : unquote k ∈ dom (members l) → members ((k, v) :: l) = members l.
Proof.
  intros Hk%elem_of_dom_members. unfold members. cbn [foldl fst snd]. generalize (∅ : gmap string jtext).
  induction l as [|kv l IH]; intros m; [by apply not_elem_of_nil in Hk|]. cbn [foldl].
  destruct (decide (unquote k = unquote kv.1)) as [->|Hne]; [by rewrite insert_insert, decide_True|].
  rewrite insert_insert_ne by done. apply IH. rewrite fmap_cons in Hk. by apply elem_of_cons in Hk as [?|?].
Qed.

(** ** Signing keeps what a message says *)

Lemma omap_fmap_same {A B} (f : A → option B) (g : A → A) l :
  Forall (λ x, f (g x) = f x) l → omap f (g <$> l) = omap f l.
Proof.
  induction 1 as [|x l Hx _ IH]; [done|]. rewrite fmap_cons. simpl. rewrite Hx.
  by destruct (f x); [f_equal|].
Qed.

(** A member again from the key that was read. *)
Definition rewritten (kv : string * jtext) : string * jtext := (escape_all (unquote kv.1), kv.2).

Lemma field_rewritten names kv : field_of names (rewritten kv) = field_of names kv.
Proof. unfold field_of, rewritten. cbn [fst]. by rewrite unquote_escape by apply unquote_utf8. Qed.

Lemma decode_rewritten {A} names (set : string → decoder A) l a :
  decode_members names set (rewritten <$> l) a = decode_members names set l a.
Proof.
  revert a. induction l as [|kv l IH]; intros a; [done|]. rewrite fmap_cons, !decode_members_cons.
  unfold assign. rewrite field_rewritten. destruct (field_of names kv); [|apply IH].
  cbn [rewritten snd]. by destruct (set _ _ _); simpl.
Qed.

Lemma rewritten_keys l : rewritten <$> l = (λ kv, (escape_all kv.1, kv.2)) <$> read_keys l.
Proof. unfold read_keys. by rewrite <- list_fmap_compose. Qed.

Lemma rewritten_filter names l :
  filter (λ kv, is_Some (field_of names kv)) (rewritten <$> l) =
  (λ kv, (escape_all kv.1, kv.2)) <$> filter (λ kv, relevant names kv.1) (read_keys l).
Proof.
  unfold read_keys. induction l as [|kv l IH]; [done|]. rewrite !fmap_cons, !filter_cons, IH, field_rewritten.
  unfold relevant, field_of. cbn [fst snd]. by case_decide.
Qed.

(** Objects with the same members of fields, in any order, read alike. *)
Lemma decode_members_relevant {A} (names : list string) (set : string → decoder A) l l' a :
  (∀ n m, n ≠ m → independent (set n) (set m)) →
  NoDup (omap (field_of names) l) →
  filter (λ kv, relevant names kv.1) (read_keys l) ≡ₚ filter (λ kv, relevant names kv.1) (read_keys l') →
  decode_members names set l a = decode_members names set l' a.
Proof.
  intros Hi Hl Hp.
  rewrite <- (decode_rewritten _ _ l), <- (decode_rewritten _ _ l'), decode_members_skip,
    (decode_members_skip _ _ (rewritten <$> l')), !rewritten_filter.
  apply decode_members_perm; [done| |by rewrite Hp]. rewrite <- rewritten_filter.
  eapply sublist_NoDup; [|apply omap_sublist, sublist_filter].
  rewrite omap_fmap_same; [done|]. apply Forall_true. intros kv. apply field_rewritten.
Qed.

Lemma read_member_texts msg : wf_message msg → read_keys (member_texts msg) = by_key (map_to_list msg).
Proof.
  intros Hm. unfold read_keys, member_texts. rewrite <- list_fmap_compose. etransitivity; [|apply list_fmap_id].
  apply list_fmap_ext. intros i [k v] Hi. unfold compose. cbn [fst snd]. rewrite unquote_escape; [done|].
  apply list_elem_of_lookup_2 in Hi. rewrite by_key_perm in Hi. by apply elem_of_map_to_list, Hm in Hi as [? _].
Qed.

Lemma read_names l : (λ kv, unquote kv.1) <$> l = (read_keys l).*1.
Proof. unfold read_keys. by rewrite <- list_fmap_compose. Qed.

Lemma elem_of_map_to_list_dom (m : gmap string jtext) k : k ∈ dom m → k ∈ (map_to_list m).*1.
Proof. intros [v Hv]%elem_of_dom. apply list_elem_of_fmap. exists (k, v). split; [done|]. by apply elem_of_map_to_list. Qed.

(** What a signed payload holds, for a reader that ignores the member [auth]. *)
Lemma sign_members {A} (fields : list (string * decoder A)) topic l secret now signed :
  orderly fields → match_field fields.*1 Field = None →
  wf_text max_depth (TObj l) → NoDup (omap (field_of fields.*1) l) →
  SignPayload topic (print (TObj l)) secret now = inr signed →
  ∃ L, signed = print (TObj L) ∧ wf_text max_depth (TObj L) ∧
    (∀ k, k ∈ dom (members l) → k ∈ dom (members L)) ∧
    ∀ a, decode_members fields.*1 (field_named fields) L a = decode_members fields.*1 (field_named fields) l a.
Proof.
  intros [Hi Hs] Hf Hwf Hl Hsign. unfold SignPayload, payloadMap in Hsign. rewrite parse_print in Hsign by done.
  cbn [escaped] in Hsign. fold (written l) in Hsign. injection Hsign as <-. cbn [au_Timestamp].
  rewrite insert_insert, decide_True by done. set (a := mustJSON _).
  set (msg := members (written l)).
  assert (Hm : wf_message (<[Field := a]> msg)).
  { apply wf_message_insert; [|apply utf8_Field|by apply mustJSON_wf].
    apply (payloadMap_wf (print (TObj l))). unfold payloadMap. by rewrite parse_print. }
  exists (member_texts (<[Field := a]> msg)). rewrite marshal_map_print.
  inversion Hwf as [| | | | |? ? _ Hb]; subst.
  split_and!; [done|by apply member_texts_wf| |intros x].
  { intros k Hk. apply elem_of_dom_members in Hk.
    rewrite elem_of_dom_members, read_names, read_member_texts, by_key_perm by done.
    apply elem_of_map_to_list_dom. rewrite dom_insert. apply elem_of_union_r.
    unfold msg. apply elem_of_dom_members. unfold written. rewrite <- list_fmap_compose.
    erewrite list_fmap_ext; [exact Hk|]. intros j kv Hj. unfold compose. cbn [fst].
    rewrite Forall_lookup in Hb. destruct (Hb _ _ Hj). by apply unquote_html. }
  rewrite <- (decode_members_escaped _ _ (max_depth - 1) l) by (done || (intros; by eapply Hs)).
  fold (written l). symmetry. 
  assert (Hw : NoDup (omap (field_of fields.*1) (written l))).
  { unfold written. rewrite omap_fmap_same; [done|]. eapply Forall_impl; [exact Hb|].
    intros [k t] [Hk _]. unfold field_of. cbn [fst] in *. by rewrite unquote_html. }
  apply decode_members_relevant; [done|done|].
  rewrite <- relevant_members by done. fold msg.
  rewrite read_member_texts by done. rewrite by_key_perm, !relevant_map.
  rewrite map_filter_insert_not; [done|]. intros y [n Hn]. cbn [fst] in Hn. congruence.
Qed.

Lemma unmarshal_object {A} (z : A) fields l :
  orderly fields → wf_text max_depth (TObj l) →
  Unmarshal z (decode_fields fields) (print (TObj l)) = decode_members fields.*1 (field_named fields) l z.
Proof.
  intros [_ Hs] Hwf. unfold Unmarshal. rewrite parse_print by done. cbn [mbind option_bind escaped].
  unfold decode_fields, decode_struct. inversion Hwf as [| | | | |? ? _ Hb]; subst.
  apply (decode_members_escaped _ _ (max_depth - 1)); [intros; by eapply Hs|done].
Qed.

(** What a device signs can be signed, and reads like before. *)
Lemma sign_object {A} (z : A) fields topic l secret now :
  orderly fields → match_field fields.*1 Field = None →
  wf_text max_depth (TObj l) → NoDup (omap (field_of fields.*1) l) →
  ∃ signed, SignPayload topic (print (TObj l)) secret now = inr signed ∧
    Unmarshal z (decode_fields fields) signed = Unmarshal z (decode_fields fields) (print (TObj l)).
Proof.
  intros Ho Hf Hwf Hl. destruct (SignPayload topic (print (TObj l)) secret now) as [|signed] eqn:Hs.
  { unfold SignPayload, payloadMap in Hs. by rewrite parse_print in Hs. }
  exists signed. split; [done|]. destruct (sign_members fields topic l secret now signed) as (L & -> & HL & _ & Hd); [done..|].
  by rewrite !unmarshal_object.
Qed.
