(* ===== verification/Bodies.v ===== *)
(** * The bodies of HTTP requests

    [json.NewDecoder(r.Body).Decode] into the types the handlers of the platform
    and of the edge gateway expect, among them the configuration of the
    optimizer with its own [UnmarshalJSON]. *)
From Stdlib Require Import Ascii Floats.SpecFloat.
From S2P Require Import Prelude Float64 FloatFacts GoTime GoStrings Model Json JsonString JsonText.
From S2P Require Import JsonDecode Strconv FloatText Rfc3339 Decoders Messages Optimizer Dispatch.

(** The first value of a text; what follows it is not looked at. *)
Definition Decode {A} (z : A) (dec : decoder A) (body : string) : option A :=
  '(t, _) ← parse_value (S (2 * String.length body)) max_depth body; dec t z.

(** ** Devices and policies *)

Module Device.
Definition zero_value : Model.Device := MkDevice "" "" "" "" fzero fzero false zero_time.

Definition fields : list (string * decoder Model.Device) := [
  ("id", field_decoder dev_ID (λ x d, MkDevice x (dev_SiteID d) (dev_Type d) (dev_Name d)
     (dev_RatedPowerW d) (dev_CapacityWh d) (dev_CriticalLoad d) (dev_CreatedAt d)));
  ("site_id", field_decoder dev_SiteID (λ x d, MkDevice (dev_ID d) x (dev_Type d) (dev_Name d)
     (dev_RatedPowerW d) (dev_CapacityWh d) (dev_CriticalLoad d) (dev_CreatedAt d)));
  ("type", field_decoder dev_Type (λ x d, MkDevice (dev_ID d) (dev_SiteID d) x (dev_Name d)
     (dev_RatedPowerW d) (dev_CapacityWh d) (dev_CriticalLoad d) (dev_CreatedAt d)));
  ("name", field_decoder dev_Name (λ x d, MkDevice (dev_ID d) (dev_SiteID d) (dev_Type d) x
     (dev_RatedPowerW d) (dev_CapacityWh d) (dev_CriticalLoad d) (dev_CreatedAt d)));
  ("rated_power_w", field_decoder dev_RatedPowerW (λ x d, MkDevice (dev_ID d) (dev_SiteID d) (dev_Type d)
     (dev_Name d) x (dev_CapacityWh d) (dev_CriticalLoad d) (dev_CreatedAt d)));
  ("capacity_wh", field_decoder dev_CapacityWh (λ x d, MkDevice (dev_ID d) (dev_SiteID d) (dev_Type d)
     (dev_Name d) (dev_RatedPowerW d) x (dev_CriticalLoad d) (dev_CreatedAt d)));
  ("critical_load", field_decoder dev_CriticalLoad (λ x d, MkDevice (dev_ID d) (dev_SiteID d) (dev_Type d)
     (dev_Name d) (dev_RatedPowerW d) (dev_CapacityWh d) x (dev_CreatedAt d)));
  ("created_at", field_decoder dev_CreatedAt (λ x d, MkDevice (dev_ID d) (dev_SiteID d) (dev_Type d)
     (dev_Name d) (dev_RatedPowerW d) (dev_CapacityWh d) (dev_CriticalLoad d) x))].
End Device.

Module Policy.
Definition zero_value : Model.Policy := MkPolicy fzero fzero fzero.

Definition fields : list (string * decoder Model.Policy) := [
  ("battery_min_soc", field_decoder pol_BatteryMinSOC (λ x p,
     MkPolicy x (pol_BatteryMaxSOC p) (pol_LoadShedThreshold p)));
  ("battery_max_soc", field_decoder pol_BatteryMaxSOC (λ x p,
     MkPolicy (pol_BatteryMinSOC p) x (pol_LoadShedThreshold p)));
  ("load_shed_threshold_w", field_decoder pol_LoadShedThreshold (λ x p,
     MkPolicy (pol_BatteryMinSOC p) (pol_BatteryMaxSOC p) x))].
End Policy.

(** ** The configuration of the optimizer *)

(** A pointer: [null] makes it nil, a value is stored where it points. *)
Definition decode_pointer {A} `{Codec A} : decoder (option A) := λ t old,
  match t with TNull => Some None | _ => Some <$> decode t (default zero old) end.

(** A slice and what its array holds beyond its length: elements are read into
    those that are there, and only new ones start from zero. *)
Definition decode_slice {A} (z : A) (dec : decoder A) : decoder (list A * list A) := λ t old,
  match t with
  | TNull => Some ([], [])
  | TArr [] => Some ([], [])
  | TArr l =>
      let array := old.1 ++ old.2 in
      live ← mapM (λ it, dec it.2 (default z (array !! it.1))) (imap (λ i t, (i, t)) l);
      Some (live, drop (length l) array)
  | _ => None
  end.

Module TariffBand.
Definition zero_value : Optimizer.TariffBand := MkTariffBand "" 0 0 fzero.

Definition fields : list (string * decoder Optimizer.TariffBand) := [
  ("name", field_decoder tb_Name (λ x b, MkTariffBand x (tb_StartHour b) (tb_EndHour b) (tb_Price b)));
  ("start_hour", field_decoder tb_StartHour (λ x b, MkTariffBand (tb_Name b) x (tb_EndHour b) (tb_Price b)));
  ("end_hour", field_decoder tb_EndHour (λ x b, MkTariffBand (tb_Name b) (tb_StartHour b) x (tb_Price b)));
  ("price", field_decoder tb_Price (λ x b, MkTariffBand (tb_Name b) (tb_StartHour b) (tb_EndHour b) x))].
End TariffBand.

Module PlanConfig.
(** A configuration, and the rest of the array of its tariffs. *)
Definition state : Type := Optimizer.Config * list Optimizer.TariffBand.
Definition zero_value : state := (MkConfig 0 0 fzero fzero fzero fzero [] false false, []).

(** [raw]: the configuration behind the embedded pointer, whose fields [min_soc]
    and [max_soc] are hidden by the two pointers. *)
Record raw := MkRaw {
  raw_config : Optimizer.Config;
  raw_rest : list Optimizer.TariffBand;
  raw_MinSOC : option float64;
  raw_MaxSOC : option float64
}.

Definition set_config (f : Optimizer.Config → Optimizer.Config) (r : raw) : raw :=
  MkRaw (f (raw_config r)) (raw_rest r) (raw_MinSOC r) (raw_MaxSOC r).

Definition fields : list (string * decoder raw) := [
  ("horizon_hours", field_decoder (λ r, cfg_HorizonHours (raw_config r)) (λ x, set_config (λ c,
     MkConfig x (cfg_SlotMinutes c) (cfg_BatteryCapacityWh c) (cfg_BatteryPowerLimitW c) (cfg_MinSOC c)
       (cfg_MaxSOC c) (cfg_Tariffs c) (cfg_minSOCSet c) (cfg_maxSOCSet c))));
  ("slot_minutes", field_decoder (λ r, cfg_SlotMinutes (raw_config r)) (λ x, set_config (λ c,
     MkConfig (cfg_HorizonHours c) x (cfg_BatteryCapacityWh c) (cfg_BatteryPowerLimitW c) (cfg_MinSOC c)
       (cfg_MaxSOC c) (cfg_Tariffs c) (cfg_minSOCSet c) (cfg_maxSOCSet c))));
  ("battery_capacity_wh", field_decoder (λ r, cfg_BatteryCapacityWh (raw_config r)) (λ x, set_config (λ c,
     MkConfig (cfg_HorizonHours c) (cfg_SlotMinutes c) x (cfg_BatteryPowerLimitW c) (cfg_MinSOC c)
       (cfg_MaxSOC c) (cfg_Tariffs c) (cfg_minSOCSet c) (cfg_maxSOCSet c))));
  ("battery_power_limit_w", field_decoder (λ r, cfg_BatteryPowerLimitW (raw_config r)) (λ x, set_config (λ c,
     MkConfig (cfg_HorizonHours c) (cfg_SlotMinutes c) (cfg_BatteryCapacityWh c) x (cfg_MinSOC c)
       (cfg_MaxSOC c) (cfg_Tariffs c) (cfg_minSOCSet c) (cfg_maxSOCSet c))));
  ("tariffs", field_with (decode_slice TariffBand.zero_value (decode_fields TariffBand.fields))
     (λ r, (cfg_Tariffs (raw_config r), raw_rest r))
     (λ x r, let c := raw_config r in
       MkRaw (MkConfig (cfg_HorizonHours c) (cfg_SlotMinutes c) (cfg_BatteryCapacityWh c)
         (cfg_BatteryPowerLimitW c) (cfg_MinSOC c) (cfg_MaxSOC c) x.1 (cfg_minSOCSet c) (cfg_maxSOCSet c))
         x.2 (raw_MinSOC r) (raw_MaxSOC r)));
  ("min_soc", field_with decode_pointer raw_MinSOC (λ x r,
     MkRaw (raw_config r) (raw_rest r) x (raw_MaxSOC r)));
  ("max_soc", field_with decode_pointer raw_MaxSOC (λ x r,
     MkRaw (raw_config r) (raw_rest r) (raw_MinSOC r) x))].

(** The bounds that are present are taken over, and marked as set. *)
Definition with_min (x : option float64) (c : Optimizer.Config) : Optimizer.Config :=
  match x with
  | None => c
  | Some m => MkConfig (cfg_HorizonHours c) (cfg_SlotMinutes c) (cfg_BatteryCapacityWh c)
      (cfg_BatteryPowerLimitW c) m (cfg_MaxSOC c) (cfg_Tariffs c) true (cfg_maxSOCSet c)
  end.
Definition with_max (x : option float64) (c : Optimizer.Config) : Optimizer.Config :=
  match x with
  | None => c
  | Some m => MkConfig (cfg_HorizonHours c) (cfg_SlotMinutes c) (cfg_BatteryCapacityWh c)
      (cfg_BatteryPowerLimitW c) (cfg_MinSOC c) m (cfg_Tariffs c) (cfg_minSOCSet c) true
  end.

(** [UnmarshalJSON]. *)
Definition UnmarshalJSON : decoder state := λ t c,
  r ← decode_fields fields t (MkRaw c.1 c.2 None None);
  Some (with_max (raw_MaxSOC r) (with_min (raw_MinSOC r) (raw_config r)), raw_rest r).
End PlanConfig.

(** ** Requests *)

Module Apply.
(** The request, and the rest of the array of the tariffs in it. *)
Definition state : Type := ApplyRequest * list Optimizer.TariffBand.
Definition zero_value : state := (MkApplyRequest false fzero PlanConfig.zero_value.1, PlanConfig.zero_value.2).

Definition fields : list (string * decoder state) := [
  ("confirm", field_decoder (λ s, req_Confirm s.1) (λ x s,
     (MkApplyRequest x (req_MaxAbsTrackingErrorW s.1) (req_Config s.1), s.2)));
  ("max_abs_tracking_error_w", field_decoder (λ s, req_MaxAbsTrackingErrorW s.1) (λ x s,
     (MkApplyRequest (req_Confirm s.1) x (req_Config s.1), s.2)));
  ("config", field_with PlanConfig.UnmarshalJSON (λ s, (req_Config s.1, s.2)) (λ x s,
     (MkApplyRequest (req_Confirm s.1) (req_MaxAbsTrackingErrorW s.1) x.1, x.2)))].
End Apply.

Definition decode_device_body : string → option Model.Device :=
  Decode Device.zero_value (decode_fields Device.fields).
Definition decode_policy_body : string → option Model.Policy :=
  Decode Policy.zero_value (decode_fields Policy.fields).
Definition decode_command_body : string → option Model.Command :=
  Decode Command.zero_value (decode_fields Command.fields).
Definition decode_config_body (body : string) : option Optimizer.Config :=
  fst <$> Decode PlanConfig.zero_value PlanConfig.UnmarshalJSON body.
Definition decode_apply_body (body : string) : option ApplyRequest :=
  fst <$> Decode Apply.zero_value (decode_fields Apply.fields) body.

(** ** What is decoded is well typed *)

Lemma Decode_keeps {A} (P : A → Prop) (z r : A) dec body : keeps P dec → P z → Decode z dec body = Some r → P r.
Proof.
  intros Hk Hz. unfold Decode. intros ([t s] & Ht & Hd)%bind_Some.
  apply parse_sound in Ht as [_ Ht]. by eapply Hk.
Qed.

Lemma field_with_keeps {A B} (P : A → Prop) (Q : B → Prop) dec (get : A → B) (put : B → A → A) :
  keeps Q dec → (∀ a, P a → Q (get a)) → (∀ a b, P a → Q b → P (put b a)) → keeps P (field_with dec get put).
Proof.
  intros Hd Hg Hp d t x y Ht Hx. unfold field_with. intros (b & Hb & [= <-])%bind_Some.
  apply Hp; [done|]. by eapply Hd; [|by apply Hg|].
Qed.

Lemma pointer_keeps : keeps (λ o : option float64, ∀ x, o = Some x → real x) decode_pointer.
Proof.
  intros d t old new Ht Hold.
  assert (t = TNull ∨ decode_pointer t old = Some <$> decode_float t (default fzero old)) as [-> | ->]
    by (destruct t; auto); [by intros [= <-]|].
  intros (v & Hv & ->)%fmap_Some x [= <-]. eapply float_keeps; [exact Ht| |exact Hv].
  destruct old as [y|]; [by apply Hold|by split].
Qed.

Lemma slice_keeps {A} (P : A → Prop) z (dec : decoder A) :
  keeps P dec → P z → keeps (λ s, Forall P s.1 ∧ Forall P s.2) (decode_slice z dec).
Proof.
  intros Hk Hz d t [l1 l2] y Ht [H1 H2]. cbn [fst snd] in *.
  destruct Ht as [| | | |d l Hd Hl|]; try done; [by intros [= <-]|]. destruct l as [|t l]; [by intros [= <-]|].
  unfold decode_slice. cbn [fst snd]. set (array := l1 ++ l2). set (ts := t :: l) in *.
  intros (live & Hlive & [= <-])%bind_Some.
  assert (Ha : Forall P array) by by apply Forall_app. cbn [fst snd]. split; [|by apply Forall_drop].
  apply mapM_Some_1 in Hlive. apply Forall_lookup. intros i v Hv.
  destruct (Forall2_lookup_r _ _ _ _ _ Hlive Hv) as (it & Hit & Hdec).
  apply list_lookup_imap_Some in Hit as (u & Hu & ->). cbn [fst snd] in Hdec.
  rewrite Forall_lookup in Hl. eapply Hk; [by eapply Hl| |exact Hdec].
  destruct (array !! i) as [a|] eqn:Ea; [|done]. rewrite Forall_lookup in Ha. by eapply Ha.
Qed.

Definition typed_band (b : Optimizer.TariffBand) : Prop :=
  in_int64 (tb_StartHour b) ∧ in_int64 (tb_EndHour b) ∧ real (tb_Price b).

(** A configuration with 64-bit integers and finite numbers, in which a bound that
    is not marked as set is 0. *)
Record typed_config (c : Optimizer.Config) : Prop := {
  ty_hours : in_int64 (cfg_HorizonHours c);
  ty_minutes : in_int64 (cfg_SlotMinutes c);
  ty_capacity : real (cfg_BatteryCapacityWh c);
  ty_limit : real (cfg_BatteryPowerLimitW c);
  ty_min : real (cfg_MinSOC c);
  ty_max : real (cfg_MaxSOC c);
  ty_tariffs : Forall typed_band (cfg_Tariffs c);
  ty_min_set : cfg_minSOCSet c = false → cfg_MinSOC c = fzero;
  ty_max_set : cfg_maxSOCSet c = false → cfg_MaxSOC c = fzero
}.

Lemma band_keeps : keeps typed_band (decode_fields TariffBand.fields).
Proof.
  unfold TariffBand.fields. each_field.
  - by apply (field_keeps _ (λ _, True)); [apply keeps_true| |intros ? ? []].
  - apply (field_keeps _ in_int64); [apply int64_keeps|by intros ? (? & ? & ?)|by intros ? ? (? & ? & ?)].
  - apply (field_keeps _ in_int64); [apply int64_keeps|by intros ? (? & ? & ?)|by intros ? ? (? & ? & ?)].
  - apply (field_keeps _ real); [apply float_keeps|by intros ? (? & ? & ?)|by intros ? ? (? & ? & ?)].
Qed.

(** The state between the fields. *)
Definition typed_raw (r : PlanConfig.raw) : Prop :=
  typed_config (PlanConfig.raw_config r) ∧ Forall typed_band (PlanConfig.raw_rest r) ∧
  (∀ x, PlanConfig.raw_MinSOC r = Some x → real x) ∧ (∀ x, PlanConfig.raw_MaxSOC r = Some x → real x).

Ltac keeps_field Q lem :=
  apply (field_keeps _ Q); [apply lem|by intros ? ([] & _)|intros ? ? ([] & ? & ? & ?) ?; by split].

Lemma raw_keeps : keeps typed_raw (decode_fields PlanConfig.fields).
Proof.
  unfold PlanConfig.fields. each_field.
  - keeps_field in_int64 int64_keeps.
  - keeps_field in_int64 int64_keeps.
  - keeps_field real float_keeps.
  - keeps_field real float_keeps.
  - apply (field_with_keeps _ (λ s, Forall typed_band s.1 ∧ Forall typed_band s.2)).
    + apply slice_keeps; [apply band_keeps|]. by split_and!.
    + by intros ? ([] & ? & _).
    + intros ? ? ([] & ? & ? & ?) [? ?]. split_and!; [by split|done..].
  - apply (field_with_keeps _ _ _ _ _ pointer_keeps); [by intros ? (_ & _ & ? & _)|intros ? ? (? & ? & ? & ?) ?; by split].
  - apply (field_with_keeps _ _ _ _ _ pointer_keeps); [by intros ? (_ & _ & _ & ?)|intros ? ? (? & ? & ? & ?) ?; by split].
Qed.

Lemma config_keeps : keeps (λ s, typed_config s.1 ∧ Forall typed_band s.2) PlanConfig.UnmarshalJSON.
Proof.
  intros d t [c rest] y Ht [Hc Hrest]. unfold PlanConfig.UnmarshalJSON. intros (r & Hr & [= <-])%bind_Some.
  apply (raw_keeps _ _ _ _ Ht) in Hr as (Hc' & Hrest' & Hmin & Hmax); [|by split].
  cbn [fst snd]. split; [|done]. destruct r as [c' rest' [m|] [M|]]; cbn in *; destruct Hc'; split; cbn; try done; auto.
Qed.

Lemma zero_typed : typed_config PlanConfig.zero_value.1.
Proof. split; cbn; try done; by split. Qed.

Lemma typed_finite c : typed_config c → finite_config c.
Proof. intros []. split; try done. eapply Forall_impl; [eassumption|]. by intros ? (? & ? & ?). Qed.

Lemma config_body_typed body c : decode_config_body body = Some c → typed_config c.
Proof.
  unfold decode_config_body. intros (s & Hs & ->)%fmap_Some.
  by apply (Decode_keeps _ _ _ _ _ config_keeps) in Hs as [Hc _]; [|split; [apply zero_typed|]].
Qed.
Lemma config_body_finite body c : decode_config_body body = Some c → finite_config c.
Proof. intros ?%config_body_typed. by apply typed_finite. Qed.

(** ** Bounds that are given explicitly *)

(** The number of a text. *)
Definition given (t : jtext) : option float64 := match t with TNum lit => ParseFloat lit | _ => None end.

Lemma pointer_spec d t (old new : option float64) :
  wf_text d t → decode_pointer t old = Some new → new = given t.
Proof. intros []; cbn; try done; [by intros [= <-]|]. by intros (x & -> & ->)%fmap_Some. Qed.

(** The last member of the field decides. *)
Definition explicit_in (n : string) (l : list (string * jtext)) (o : option float64) : option float64 :=
  foldl (λ o kv, if decide (field_of PlanConfig.fields.*1 kv = Some n) then given kv.2 else o) o l.

(** What the fields do with the bounds. *)
Definition bounds (r : PlanConfig.raw) : option float64 * option float64 :=
  (PlanConfig.raw_MinSOC r, PlanConfig.raw_MaxSOC r).
Definition no_bounds (c : Optimizer.Config) : Prop :=
  cfg_MinSOC c = fzero ∧ cfg_MaxSOC c = fzero ∧ cfg_minSOCSet c = false ∧ cfg_maxSOCSet c = false.

Lemma field_bounds d n t r r' :
  wf_text d t → no_bounds (PlanConfig.raw_config r) → field_named PlanConfig.fields n t r = Some r' →
  no_bounds (PlanConfig.raw_config r') ∧
  bounds r' = (if decide (n = "min_soc") then given t else (bounds r).1,
               if decide (n = "max_soc") then given t else (bounds r).2).
Proof.
  intros Ht Hr. unfold bounds. cbn [field_named PlanConfig.fields].
  repeat (case_if; [lazymatch goal with E : String.eqb _ _ = true |- _ => apply String.eqb_eq in E; subst n end; unfold field_decoder, field_with;
    intros (b & Hb & [= <-])%bind_Some; try apply (pointer_spec d) in Hb; [|done..]; subst; by split|]).
  done.
Qed.

Lemma members_bounds d l r r' :
  Forall (λ kv, wf_text d kv.2) l → no_bounds (PlanConfig.raw_config r) →
  decode_members PlanConfig.fields.*1 (field_named PlanConfig.fields) l r = Some r' →
  no_bounds (PlanConfig.raw_config r') ∧
  bounds r' = (explicit_in "min_soc" l (bounds r).1, explicit_in "max_soc" l (bounds r).2).
Proof.
  intros Hl. revert r. induction Hl as [|kv l Hkv _ IH]; intros r Hr; [intros [= <-]; by split|].
  rewrite decode_members_cons. unfold assign, explicit_in. intros (b & Hb & Hd)%bind_Some. cbn [foldl].
  destruct (field_of _ kv) as [n|] eqn:Ef; [|by injection Hb as <-; apply IH].
  destruct (field_bounds _ _ _ _ _ Hkv Hr Hb) as [Hb' Eb]. destruct (IH b Hb' Hd) as [? ->]. split; [done|].
  rewrite Eb. cbn [fst snd]. f_equal; f_equal; repeat case_decide; by simplify_eq.
Qed.

(** The members of the object a body starts with, and the number they give a bound. *)
Definition body_members (body : string) : list (string * jtext) :=
  match parse_value (S (2 * String.length body)) max_depth body with Some (TObj l, _) => l | _ => [] end.
Definition explicit (n body : string) : option float64 := explicit_in n (body_members body) None.

Lemma normalized_bounds c (m M : option float64) :
  no_bounds c →
  let n := normalizeConfig (PlanConfig.with_max M (PlanConfig.with_min m c)) in
  cfg_MinSOC n = default (cfg_MinSOC DefaultConfig) m ∧ cfg_MaxSOC n = default (cfg_MaxSOC DefaultConfig) M.
Proof.
  intros (H1 & H2 & H3 & H4). destruct c, m, M; cbn in *; subst; cbn; rewrite ?andb_false_r; by split.
Qed.

(** C30: the lower and the upper limit of the state of charge that a request gives for a plan
    are the ones the planner works with, also when they are 0; a limit that is absent or
    [null] is the default one.  When a member is repeated, the last one counts. *)
Theorem explicit_bounds body c :
  decode_config_body body = Some c →
  cfg_MinSOC (normalizeConfig c) = default (cfg_MinSOC DefaultConfig) (explicit "min_soc" body) ∧
  cfg_MaxSOC (normalizeConfig c) = default (cfg_MaxSOC DefaultConfig) (explicit "max_soc" body).
Proof.
  unfold decode_config_body, Decode, explicit, body_members. intros ([c' rest] & Hb & ->)%fmap_Some.
  apply bind_Some in Hb as ([t s] & Ht & Hd). rewrite Ht. apply parse_sound in Ht as [_ Ht].
  unfold PlanConfig.UnmarshalJSON in Hd. apply bind_Some in Hd as (r & Hr & [= <- <-]). cbn [fst snd] in *.
  destruct Ht as [| | | | |d l _ Hl]; try done.
  - injection Hr as <-. by apply normalized_bounds.
  - assert (Hl' : Forall (λ kv, wf_text (d - 1) kv.2) l) by (eapply Forall_impl; [exact Hl|by intros ? []]).
    apply (members_bounds _ _ _ _ Hl') in Hr as [Hn [= Hm HM]]; [|done].
    cbn [bounds fst snd PlanConfig.raw_MinSOC PlanConfig.raw_MaxSOC] in *. rewrite Hm, HM. by apply normalized_bounds.
Qed.

(** ** Examples *)

Definition ex_body : string := print (TObj [("min_soc", TNum "0"); ("Max_SOC", TNum "8e-1"); ("max_soc", TNull);
  ("tariffs", TArr [TObj [("price", TNum "0.5"); ("end_hour", TNum "24")]])]).
Definition ex_body_config : Optimizer.Config :=
  MkConfig 0 0 fzero fzero fzero fzero [MkTariffBand "" 0 24 (lit 5 10)] true false.

Lemma ex_body_decoded : decode_config_body ex_body = Some ex_body_config.
Proof. vm_compute. reflexivity. Qed.

Lemma explicit_bounds_witness :
  decode_config_body ex_body = Some ex_body_config ∧
  cfg_MinSOC (normalizeConfig ex_body_config) = fzero ∧ cfg_MaxSOC (normalizeConfig ex_body_config) = lit 90 100.
Proof.
  pose proof (explicit_bounds ex_body ex_body_config ex_body_decoded) as [H1 H2].
  split; [exact ex_body_decoded|]. rewrite H1, H2. split; vm_compute; reflexivity.
Defined.
