(* ===== verification/BodyFields.v ===== *)
(** * What the body of a request says

    Which member of a body each field of the decoded value comes from, told without the
    tables of fields in Bodies.v: the last member with the name of the field counts,
    [null] and absent members leave the zero value.  Objects and lists inside the
    body are told for members that occur once. *)
From Stdlib Require Import Ascii Floats.SpecFloat.
From S2P Require Import Prelude Float64 FloatFacts GoTime GoStrings Model Json JsonString JsonText.
From S2P Require Import JsonDecode Strconv FloatText Rfc3339 Decoders Messages Optimizer Dispatch Bodies.

(** ** Reading members *)

Definition text_string (t : jtext) : option string := match t with TStr b => Some (unquote b) | _ => None end.
Definition text_bool (t : jtext) : option bool := match t with TBool b => Some b | _ => None end.
Definition text_int (t : jtext) : option Z := match t with TNum lit => parse_int64 lit | _ => None end.
Definition text_number (t : jtext) : option float64 := match t with TNum lit => ParseFloat lit | _ => None end.
Definition text_time (t : jtext) : option Time := match t with TStr b => ParseRFC3339 b | _ => None end.
Definition is_null (t : jtext) : bool := match t with TNull => true | _ => false end.

(** The members for the field [n] of a struct whose fields have these names. *)
Definition members_of (names : list string) (n : string) (l : list (string * jtext)) : list (string * jtext) :=
  filter (λ kv, match_field names (unquote kv.1) = Some n) l.

(** The field [n] is [x]: what the last member that is not [null] says, or [z]. *)
Definition says {B} (value : jtext → option B) (z : B) (names : list string) (n : string)
    (l : list (string * jtext)) (x : B) : Prop :=
  match last (filter (λ kv, is_null kv.2 = false) (members_of names n l)) with
  | Some (_, t) => value t = Some x
  | None => x = z
  end.

(** The field [n] is [x] when it has no member, or one. *)
Definition says_once {B} (value : jtext → B → Prop) (z : B) (names : list string) (n : string)
    (l : list (string * jtext)) (x : B) : Prop :=
  match members_of names n l with
  | [] => x = z
  | [(_, TNull)] => x = z
  | [(_, t)] => value t x
  | _ => True
  end.

(** ** The values *)

Definition policy_names : list string := ["battery_min_soc"; "battery_max_soc"; "load_shed_threshold_w"].
Definition policy_says (l : list (string * jtext)) (p : Model.Policy) : Prop :=
  let number n := says text_number fzero policy_names n l in
  number "battery_min_soc" (pol_BatteryMinSOC p) ∧ number "battery_max_soc" (pol_BatteryMaxSOC p) ∧
  number "load_shed_threshold_w" (pol_LoadShedThreshold p).

Definition device_names : list string :=
  ["id"; "site_id"; "type"; "name"; "rated_power_w"; "capacity_wh"; "critical_load"; "created_at"].
Definition device_says (l : list (string * jtext)) (d : Model.Device) : Prop :=
  let string n := says text_string "" device_names n l in
  let number n := says text_number fzero device_names n l in
  string "id" (dev_ID d) ∧ string "site_id" (dev_SiteID d) ∧ string "type" (dev_Type d) ∧ string "name" (dev_Name d) ∧
  number "rated_power_w" (dev_RatedPowerW d) ∧ number "capacity_wh" (dev_CapacityWh d) ∧
  says text_bool false device_names "critical_load" l (dev_CriticalLoad d) ∧
  says text_time zero_time device_names "created_at" l (dev_CreatedAt d).

(** The parameters: the last member of each name. *)
Definition params_say (t : jtext) (params : gmap string json) : Prop :=
  ∃ m, t = TObj m ∧ ∀ key, params !! key = last (filter (λ kv, unquote kv.1 = key) m) ≫= (λ kv, decode_any kv.2).

Definition command_names : list string := ["command_id"; "action"; "params"; "issued_at"; "reason"].
Definition command_says (l : list (string * jtext)) (c : Model.Command) : Prop :=
  let string n := says text_string "" command_names n l in
  string "command_id" (cmd_CommandID c) ∧ string "action" (cmd_Action c) ∧ string "reason" (cmd_Reason c) ∧
  says text_int 0%Z command_names "issued_at" l (cmd_IssuedAt c) ∧
  says_once params_say ∅ command_names "params" l (cmd_Params c).

Definition band_names : list string := ["name"; "start_hour"; "end_hour"; "price"].
Definition band_says (t : jtext) (b : Optimizer.TariffBand) : Prop :=
  match t with
  | TNull => b = TariffBand.zero_value
  | TObj l => says text_string "" band_names "name" l (tb_Name b) ∧
      says text_int 0%Z band_names "start_hour" l (tb_StartHour b) ∧
      says text_int 0%Z band_names "end_hour" l (tb_EndHour b) ∧ says text_number fzero band_names "price" l (tb_Price b)
  | _ => False
  end.
Definition bands_say (t : jtext) (bands : list Optimizer.TariffBand) : Prop :=
  ∃ ts, t = TArr ts ∧ Forall2 band_says ts bands.

Definition config_names : list string :=
  ["horizon_hours"; "slot_minutes"; "battery_capacity_wh"; "battery_power_limit_w"; "tariffs"; "min_soc"; "max_soc"].
(** The two limits are [explicit_bounds]. *)
Definition config_says (l : list (string * jtext)) (c : Optimizer.Config) : Prop :=
  let int n := says text_int 0%Z config_names n l in
  let number n := says text_number fzero config_names n l in
  int "horizon_hours" (cfg_HorizonHours c) ∧ int "slot_minutes" (cfg_SlotMinutes c) ∧
  number "battery_capacity_wh" (cfg_BatteryCapacityWh c) ∧ number "battery_power_limit_w" (cfg_BatteryPowerLimitW c) ∧
  cfg_MinSOC c = default fzero (explicit_in "min_soc" l None) ∧ cfg_MaxSOC c = default fzero (explicit_in "max_soc" l None) ∧
  says_once bands_say [] config_names "tariffs" l (cfg_Tariffs c).

Definition apply_names : list string := ["confirm"; "max_abs_tracking_error_w"; "config"].
Definition apply_says (l : list (string * jtext)) (req : ApplyRequest) : Prop :=
  says text_bool false apply_names "confirm" l (req_Confirm req) ∧
  says text_number fzero apply_names "max_abs_tracking_error_w" l (req_MaxAbsTrackingErrorW req) ∧
  says_once (λ t c, ∃ m, t = TObj m ∧ config_says m c) (MkConfig 0 0 fzero fzero fzero fzero [] false false)
    apply_names "config" l (req_Config req).

(** ** Members and fields *)

Section Members.
Context {A B : Type} (fields : list (string * decoder A)) (n : string) (get : A → B).

(** No field but [n] touches what [get] reads, and [n] puts there what [told] says. *)
Definition tells (told : jtext → B → B → Prop) : Prop :=
  Forall (λ f, ∀ d t r r', wf_text d t → f.2 t r = Some r' →
    if String.eqb f.1 n then told t (get r) (get r') else get r' = get r) fields.

Lemma field_named_in m t r r' : field_named fields m t r = Some r' → ∃ f, f ∈ fields ∧ f.1 = m ∧ f.2 t r = Some r'.
Proof.
  induction fields as [|[m' dec] fs IH]; cbn [field_named]; [done|]. destruct (String.eqb m' m) eqn:E.
  - apply String.eqb_eq in E as ->. intros Hd. exists (m, dec). split_and!; [by left|done..].
  - intros (f & ? & ?)%IH. exists f. split; [by right|done].
Qed.

Lemma tells_named told d m t r r' :
  tells told → wf_text d t → field_named fields m t r = Some r' →
  if decide (m = n) then told t (get r) (get r') else get r' = get r.
Proof.
  intros Ht Hw (f & Hf & <- & Hd)%field_named_in. unfold tells in Ht. rewrite Forall_forall in Ht.
  specialize (Ht f Hf d t r r' Hw Hd). destruct (String.eqb_spec f.1 n); by case_decide.
Qed.

Lemma members_say (value : jtext → option B) d l r r' :
  tells (λ t x y, if is_null t then y = x else value t = Some y) →
  Forall (λ kv, wf_text d kv.2) l → decode_members fields.*1 (field_named fields) l r = Some r' →
  says value (get r) fields.*1 n l (get r').
Proof.
  intros Ht Hw. revert r. induction Hw as [|[k t] l Hkv _ IH]; intros r; [by intros [= <-]|].
  rewrite decode_members_cons. unfold assign, field_of. intros (r1 & Hr1 & Hd)%bind_Some. cbn [fst snd] in *.
  specialize (IH r1 Hd). unfold says, members_of in *. rewrite filter_cons. cbn [fst snd].
  destruct (match_field fields.*1 (unquote k)) as [m|] eqn:Em.
  - apply (tells_named _ d _ _ _ _ Ht Hkv) in Hr1. destruct (decide (m = n)) as [->|Hne].
    + rewrite decide_True by done. rewrite filter_cons. cbn [snd]. destruct (is_null t) eqn:En.
      * rewrite decide_False by done. destruct (last _) as [[]|]; [done|]. by rewrite IH.
      * rewrite decide_True by done. rewrite last_cons. destruct (last _) as [[]|]; [done|]. by rewrite IH.
    + rewrite decide_False by congruence. destruct (last _) as [[]|]; [done|]. by rewrite IH.
  - injection Hr1 as <-. by rewrite decide_False by done.
Qed.

Lemma members_absent (told : jtext → B → B → Prop) d l r r' :
  tells told → Forall (λ kv, wf_text d kv.2) l → members_of fields.*1 n l = [] →
  decode_members fields.*1 (field_named fields) l r = Some r' → get r' = get r.
Proof.
  intros Ht Hw. revert r. induction Hw as [|[k t] l Hkv _ IH]; intros r; [by intros _ [= <-]|].
  rewrite decode_members_cons. unfold members_of, assign, field_of. rewrite filter_cons. cbn [fst snd] in *.
  case_decide as Hn; [done|]. intros Hnil (r1 & Hr1 & Hd)%bind_Some. rewrite (IH r1 Hnil Hd).
  destruct (match_field _ _) as [m|]; [|by injection Hr1 as <-].
  apply (tells_named _ d _ _ _ _ Ht Hkv) in Hr1. by rewrite decide_False in Hr1 by congruence.
Qed.

Lemma members_once (told : jtext → B → B → Prop) d k t l r r' :
  tells told → Forall (λ kv, wf_text d kv.2) l → members_of fields.*1 n l = [(k, t)] →
  decode_members fields.*1 (field_named fields) l r = Some r' → wf_text d t ∧ told t (get r) (get r').
Proof.
  intros Ht Hw. revert r. induction Hw as [|[k' t'] l Hkv Hw IH]; intros r; [done|].
  rewrite decode_members_cons. unfold members_of, assign, field_of in *. rewrite filter_cons. cbn [fst snd] in *.
  case_decide as Hn.
  - intros [= -> -> Hnil] (r1 & Hr1 & Hd)%bind_Some. rewrite Hn in Hr1. apply (tells_named _ d _ _ _ _ Ht Hkv) in Hr1.
    rewrite decide_True in Hr1 by done. by rewrite (members_absent told d l r1 r').
  - intros Hone (r1 & Hr1 & Hd)%bind_Some. destruct (IH r1 Hone Hd) as [Hwt Hto]. split; [done|].
    destruct (match_field _ _) as [m|]; [|by injection Hr1 as <-].
    apply (tells_named _ d _ _ _ _ Ht Hkv) in Hr1. rewrite decide_False in Hr1 by congruence. by rewrite <- Hr1.
Qed.

Lemma members_say_once (value : jtext → B → Prop) (told : jtext → B → B → Prop) d l r r' :
  tells told → Forall (λ kv, wf_text d kv.2) l → (told TNull (get r) (get r') → get r' = get r) →
  (∀ t, wf_text d t → t ≠ TNull → told t (get r) (get r') → value t (get r')) →
  decode_members fields.*1 (field_named fields) l r = Some r' → says_once value (get r) fields.*1 n l (get r').
Proof.
  intros Ht Hw Hnull Hval Hd. unfold says_once. destruct (members_of _ _ _) as [|[k t] [|]] eqn:Em; [|..|by destruct t].
  - by eapply members_absent.
  - destruct (members_once told d k t l r r' Ht Hw Em Hd) as [Hwt Hto]. destruct t; [by apply Hnull|by apply Hval..].
Qed.
End Members.

(** The field is shown to be read from its members, the others not to touch it. *)
Ltac tells_field :=
  let one := (let txt := fresh "txt" in let x := fresh "x" in let Hx := fresh "Hx" in
    intros ? txt ? ? ?; cbn [fst snd String.eqb]; unfold field_decoder, field_with;
    intros (x & Hx & [= <-])%bind_Some; cbn;
    first [reflexivity | exact Hx | rewrite <- surjective_pairing; exact Hx | destruct txt; cbn in Hx |- *; by simplify_eq]) in
  repeat (apply Forall_cons_2; [one|]); apply Forall_nil_2.

(** The fields of [fs] one by one, for the decoded value [x] of the zero value [z]. *)
Ltac says_field fs z x value :=
  lazymatch goal with
  | |- says _ _ _ ?n _ (?get x) =>
      eapply (members_say fs n get value _ _ z x); [tells_field|eassumption|eassumption]
  end.

Lemma policy_read d l p :
  Forall (λ kv, wf_text d kv.2) l → decode_members Policy.fields.*1 (field_named Policy.fields) l Policy.zero_value = Some p →
  policy_says l p.
Proof. intros Hw Hd. split_and!; says_field Policy.fields Policy.zero_value p text_number. Qed.

Lemma device_read d l x :
  Forall (λ kv, wf_text d kv.2) l → decode_members Device.fields.*1 (field_named Device.fields) l Device.zero_value = Some x →
  device_says l x.
Proof.
  intros Hw Hd. split_and!;
    first [says_field Device.fields Device.zero_value x text_string | says_field Device.fields Device.zero_value x text_number
          |says_field Device.fields Device.zero_value x text_bool | says_field Device.fields Device.zero_value x text_time].
Qed.

(** ** Parameters *)

Lemma add_members_lookup (f : jtext → option json) l m m' key :
  add_members f l (Some m) = Some m' →
  m' !! key = match last (filter (λ kv, unquote kv.1 = key) l) with Some kv => f kv.2 | None => m !! key end.
Proof.
  revert m. induction l as [|[k t] l IH]; intros m; [by intros [= <-]|].
  unfold add_members in *. cbn [foldl fst snd mbind option_bind]. destruct (f t) as [v|] eqn:Ev; cbn [mbind option_bind].
  - intros Hm. rewrite (IH _ Hm), filter_cons. cbn [fst]. case_decide as Hk.
    + rewrite last_cons. destruct (last _) as [kv|]; [done|]. cbn [snd]. by rewrite <- Hk, lookup_insert_eq, Ev.
    + destruct (last _) as [kv|]; [done|]. by rewrite lookup_insert_ne.
  - intros Hm. change (add_members f l None = Some m') in Hm. by rewrite add_members_none in Hm.
Qed.

Lemma command_read d l c :
  Forall (λ kv, wf_text d kv.2) l →
  decode_members Command.fields.*1 (field_named Command.fields) l Command.zero_value = Some c → command_says l c.
Proof.
  intros Hw Hd. split_and!.
  - says_field Command.fields Command.zero_value c text_string.
  - says_field Command.fields Command.zero_value c text_string.
  - says_field Command.fields Command.zero_value c text_string.
  - says_field Command.fields Command.zero_value c text_int.
  - eapply (members_say_once Command.fields "params" cmd_Params params_say (λ t x y, decode_map t x = Some y) _ _
      Command.zero_value c); [tells_field|eassumption| | |eassumption].
    + by intros [= <-].
    + intros t _ Hn Ht. destruct t as [| | | | |m]; try done. exists m. split; [done|]. intros key.
      rewrite (add_members_lookup decode_any m ∅ (cmd_Params c) key Ht). by destruct (last _).
Qed.

(** ** The configuration *)

Lemma band_read d t b :
  wf_text d t → decode_fields TariffBand.fields t TariffBand.zero_value = Some b → band_says t b.
Proof.
  intros Hw. destruct Hw as [| | | | |d l _ Hl]; try done; [by intros [= <-]|].
  assert (Hl' : Forall (λ kv, wf_text (d - 1) kv.2) l) by (eapply Forall_impl; [exact Hl|by intros ? []]). intros Hd.
  split_and!; first [says_field TariffBand.fields TariffBand.zero_value b text_string
    |says_field TariffBand.fields TariffBand.zero_value b text_int|says_field TariffBand.fields TariffBand.zero_value b text_number].
Qed.

Lemma bands_read d t (bands rest : list Optimizer.TariffBand) :
  wf_text d t → t ≠ TNull →
  decode_slice TariffBand.zero_value (decode_fields TariffBand.fields) t ([], []) = Some (bands, rest) → bands_say t bands.
Proof.
  intros Hw Hn. destruct Hw as [| | | |d l _ Hl|]; try done. intros Hd. exists l. split; [done|]. destruct l as [|t l].
  { injection Hd as <- <-. constructor. }
  unfold decode_slice in Hd. cbn [fst snd app] in Hd. set (ts := t :: l) in *.
  apply bind_Some in Hd as (live & Hlive & [= -> _]). apply mapM_Some_1 in Hlive.
  apply Forall2_lookup. intros i. destruct (ts !! i) as [u|] eqn:Hu.
  - assert (Hi : imap (λ i t, (i, t)) ts !! i = Some (i, u)) by (by rewrite list_lookup_imap, Hu).
    destruct (Forall2_lookup_l _ _ _ _ _ Hlive Hi) as (b & -> & Hb). constructor. cbn [fst snd] in Hb.
    rewrite lookup_nil in Hb. rewrite Forall_lookup in Hl. by eapply band_read; [eapply Hl|].
  - destruct (bands !! i) as [b|] eqn:Eb; [|constructor].
    destruct (Forall2_lookup_r _ _ _ _ _ Hlive Eb) as (it & Hit & _).
    apply list_lookup_imap_Some in Hit as (v & Hv & _). congruence.
Qed.

Lemma tariffs_read d l r :
  Forall (λ kv, wf_text d kv.2) l →
  decode_members PlanConfig.fields.*1 (field_named PlanConfig.fields) l
    (PlanConfig.MkRaw PlanConfig.zero_value.1 [] None None) = Some r →
  says_once bands_say [] config_names "tariffs" l (cfg_Tariffs (PlanConfig.raw_config r)).
Proof.
  intros Hw Hd.
  assert (Ho : says_once (λ t s, bands_say t s.1) ([], []) config_names "tariffs" l
    (cfg_Tariffs (PlanConfig.raw_config r), PlanConfig.raw_rest r)).
  { eapply (members_say_once PlanConfig.fields "tariffs"
      (λ r, (cfg_Tariffs (PlanConfig.raw_config r), PlanConfig.raw_rest r)) (λ t s, bands_say t s.1)
      (λ t x y, decode_slice TariffBand.zero_value (decode_fields TariffBand.fields) t x = Some y) _ _
      (PlanConfig.MkRaw PlanConfig.zero_value.1 [] None None) r); [|eassumption| | |eassumption].
    - tells_field.
    - by intros [= <- <-].
    - intros t Ht Hn Hdec. by eapply bands_read. }
  unfold says_once in *. destruct (members_of _ _ _) as [|[k t] [|]]; [by injection Ho as -> _|..].
  - destruct t; try exact Ho. by injection Ho as -> _.
  - by destruct t.
Qed.

(** The configuration read from the members of an object, nothing being set before. *)
Lemma config_read d l c rest :
  Forall (λ kv, wf_text d kv.2) l →
  PlanConfig.UnmarshalJSON (TObj l) PlanConfig.zero_value = Some (c, rest) → config_says l c.
Proof.
  intros Hw. unfold PlanConfig.UnmarshalJSON. intros (r & Hd & [= <- _])%bind_Some. cbn [fst snd] in Hd.
  change (decode_members PlanConfig.fields.*1 (field_named PlanConfig.fields) l
    (PlanConfig.MkRaw PlanConfig.zero_value.1 [] None None) = Some r) in Hd.
  assert (Hint : ∀ n get, tells PlanConfig.fields n get (λ t x y, if is_null t then y = x else text_int t = Some y) →
    get (PlanConfig.MkRaw PlanConfig.zero_value.1 [] None None) = 0%Z → says text_int 0%Z config_names n l (get r)).
  { intros n get Ht <-. by eapply (members_say PlanConfig.fields n get text_int). }
  assert (Hnum : ∀ n get, tells PlanConfig.fields n get (λ t x y, if is_null t then y = x else text_number t = Some y) →
    get (PlanConfig.MkRaw PlanConfig.zero_value.1 [] None None) = fzero → says text_number fzero config_names n l (get r)).
  { intros n get Ht <-. by eapply (members_say PlanConfig.fields n get text_number). }
  pose proof (tariffs_read d l r Hw Hd) as Htar.
  pose proof (Hint "horizon_hours" (λ r, cfg_HorizonHours (PlanConfig.raw_config r)) ltac:(tells_field) eq_refl) as Hh.
  pose proof (Hint "slot_minutes" (λ r, cfg_SlotMinutes (PlanConfig.raw_config r)) ltac:(tells_field) eq_refl) as Hm.
  pose proof (Hnum "battery_capacity_wh" (λ r, cfg_BatteryCapacityWh (PlanConfig.raw_config r)) ltac:(tells_field) eq_refl) as Hc.
  pose proof (Hnum "battery_power_limit_w" (λ r, cfg_BatteryPowerLimitW (PlanConfig.raw_config r)) ltac:(tells_field) eq_refl) as Hp.
  clear Hint Hnum. apply (members_bounds d) in Hd as [(Hmin & Hmax & _ & _) Hb]; [|done|done].
  injection Hb as Emin Emax. unfold config_says.
  assert (explicit_in "min_soc" l None = PlanConfig.raw_MinSOC r) as -> by done.
  assert (explicit_in "max_soc" l None = PlanConfig.raw_MaxSOC r) as -> by done. clear Emin Emax.
  destruct r as [cfg rest' [m|] [M|]]; destruct cfg; cbn in *; subst; by split_and!.
Qed.

Lemma apply_read d l s :
  Forall (λ kv, wf_text d kv.2) l →
  decode_members Apply.fields.*1 (field_named Apply.fields) l Apply.zero_value = Some s → apply_says l s.1.
Proof.
  intros Hw Hd. split_and!.
  - eapply (members_say Apply.fields "confirm" (λ s, req_Confirm s.1) text_bool _ _ Apply.zero_value s);
      [tells_field|eassumption|eassumption].
  - eapply (members_say Apply.fields "max_abs_tracking_error_w" (λ s, req_MaxAbsTrackingErrorW s.1) text_number _ _
      Apply.zero_value s); [tells_field|eassumption|eassumption].
  - assert (Ho : says_once (λ t s, ∃ m, t = TObj m ∧ config_says m s.1) PlanConfig.zero_value apply_names "config" l
      (req_Config s.1, s.2)).
    { eapply (members_say_once Apply.fields "config" (λ s, (req_Config s.1, s.2)) (λ t s, ∃ m, t = TObj m ∧ config_says m s.1)
        (λ t x y, PlanConfig.UnmarshalJSON t x = Some y) _ _ Apply.zero_value s); [tells_field|eassumption| | |eassumption].
      - by intros [= <- <-].
      - intros t Ht Hn Hdec. destruct Ht as [| | | | |d' m _ Hm]; try done. exists m. split; [done|].
        eapply config_read; [|exact Hdec]. eapply Forall_impl; [exact Hm|by intros ? []]. }
    unfold says_once in *. destruct (members_of _ _ _) as [|[k t] [|]]; [by injection Ho as -> _|..].
    + destruct t; try exact Ho. by injection Ho as -> _.
    + by destruct t.
Qed.

(** ** Bodies *)

(** A body that is decoded starts with an object, or with [null], which has no members. *)
Lemma Decode_members {A} (fields : list (string * decoder A)) z body r :
  Decode z (decode_fields fields) body = Some r →
  ∃ d, Forall (λ kv, wf_text d kv.2) (body_members body) ∧
    decode_members fields.*1 (field_named fields) (body_members body) z = Some r.
Proof.
  unfold Decode, body_members. intros ([t s] & Ht & Hd)%bind_Some. rewrite Ht. apply parse_sound in Ht as [_ Ht].
  destruct Ht as [| | | | |d l _ Hl]; try done; [by exists 0%Z|]. exists (d - 1)%Z. split; [|done].
  eapply Forall_impl; [exact Hl|by intros ? []].
Qed.

Lemma config_body_read body c : decode_config_body body = Some c → config_says (body_members body) c.
Proof.
  unfold decode_config_body, Decode, body_members. intros ([c' rest] & Hb & ->)%fmap_Some.
  apply bind_Some in Hb as ([t s] & Ht & Hd). rewrite Ht. apply parse_sound in Ht as [_ Ht].
  assert (Hx : ∀ t, t = TNull → PlanConfig.UnmarshalJSON t PlanConfig.zero_value =
    PlanConfig.UnmarshalJSON (TObj []) PlanConfig.zero_value) by (by intros ? ->).
  destruct Ht as [| | | | |d l _ Hl]; try done.
  - rewrite Hx in Hd by done. by eapply (config_read 0).
  - eapply config_read; [|exact Hd]. eapply Forall_impl; [exact Hl|by intros ? []].
Qed.

(** ** Properties *)

(** C31: Every field of what the server decodes from the body of a request is what the
    body says under the name the API gives it.  The members are those of the object the body
    starts with, matched by name up to case.  A string, number, integer, boolean or time is the
    last such member that is not [null], and zero without one.  The parameters of a
    command are the members of the object [params], the configuration to be
    applied is told by the members of the object [config], and the tariffs are the
    elements of the list [tariffs], in order, when these occur once. *)
Theorem bodies_read body :
  (∀ p, decode_policy_body body = Some p → policy_says (body_members body) p) ∧
  (∀ d, decode_device_body body = Some d → device_says (body_members body) d) ∧
  (∀ c, decode_command_body body = Some c → command_says (body_members body) c) ∧
  (∀ c, decode_config_body body = Some c → config_says (body_members body) c) ∧
  (∀ req, decode_apply_body body = Some req → apply_says (body_members body) req).
Proof.
  split_and!.
  - intros p (d & Hw & Hd)%Decode_members. by eapply policy_read.
  - intros x (d & Hw & Hd)%Decode_members. by eapply device_read.
  - intros c (d & Hw & Hd)%Decode_members. by eapply command_read.
  - apply config_body_read.
  - unfold decode_apply_body. intros req (s & (d & Hw & Hd)%Decode_members & ->)%fmap_Some. by eapply apply_read.
Qed.

(** ** Examples *)

Definition ex_policy_body : string := print (TObj [("battery_max_soc", TNum "0.9"); ("Battery_Min_SOC", TNum "0.1");
  ("battery_min_soc", TNum "0.2"); ("battery_max_soc", TNull); ("load_shed", TNum "7")]).
Definition ex_command : string := print (TObj [("action", TStr "set_mode"); ("issued_at", TNum "12");
  ("params", TObj [("mode", TStr "idle"); ("limit", TNum "2.5"); ("mode", TStr "charging")])]).

Lemma bodies_read_witness :
  decode_policy_body ex_policy_body = Some (MkPolicy (lit 2 10) (lit 9 10) fzero) ∧
  (∀ p, decode_policy_body ex_policy_body = Some p → pol_BatteryMinSOC p = lit 2 10 ∧ pol_LoadShedThreshold p = fzero) ∧
  is_Some (decode_command_body ex_command) ∧
  (∀ c, decode_command_body ex_command = Some c → cmd_Action c = "set_mode" ∧ cmd_IssuedAt c = 12%Z ∧
     cmd_Params c !! "mode" = Some (JStr "charging") ∧ cmd_Params c !! "limit" = Some (JNum (lit 25 10))).
Proof.
  destruct (bodies_read ex_policy_body) as (Hp & _ & _ & _ & _). destruct (bodies_read ex_command) as (_ & _ & Hc & _ & _).
  split_and!; [by vm_compute| |by vm_compute; eexists|].
  - intros p (Hmin & _ & Hth)%Hp. vm_compute in Hmin. split; [vm_compute; congruence|exact Hth].
  - intros c (_ & Ha & _ & Hi & Hparams)%Hc. vm_compute in Ha, Hi. unfold says_once in Hparams.
    vm_compute (members_of _ _ _) in Hparams. destruct Hparams as (m & [= <-] & Hm).
    split; [vm_compute; congruence|]. split; [vm_compute; congruence|]. rewrite !Hm. by vm_compute.
Defined.
