(* ===== verification/Http.v ===== *)
(** * Requests and patterns of net/http

    What the HTTP servers of the platform and of the edge gateway share: a
    request as their handlers see it, the patterns of [http.ServeMux], and the
    text of decoding errors, which is a parameter. *)
From S2P Require Import Prelude GoStrings.

(** The text of the error of [encoding/json] for a body. *)
Class DecodeErrors := body_error : string → error.

(** [json.NewDecoder(r.Body).Decode] into the types the handlers expect. *)
Definition decoded `{DecodeErrors} {A} (dec : string → option A) (body : string) : error + A :=
  match dec body with Some x => inr x | None => inl (body_error body) end.

(** The path as the mux sees it: the decoded segments after the first slash, and
    whether the path is the one [cleanPath] makes of it. *)
Record Request := MkRequest {
  rq_Method : string;
  rq_segments : list string;
  rq_clean : bool;
  rq_Header : string → string;
  rq_Body : string;
  rq_RemoteAddr : string
}.

(** [r.URL.Path]. *)
Definition rq_Path (r : Request) : string := "/" +:+ Join (rq_segments r) "/".

(** ** Patterns *)

Inductive Seg := Lit (s : string) | Wild (name : string).

(** A pattern matches the method, where GET stands for HEAD too, and the segments;
    a wildcard takes one that is not empty.  The result is the path values. *)
Fixpoint match_path (pattern : list Seg) (path : list string) : option (gmap string string) :=
  match pattern, path with
  | [], [] => Some ∅
  | Lit a :: pattern', x :: path' => if decide (x = a) then match_path pattern' path' else None
  | Wild name :: pattern', x :: path' =>
      if decide (x = "") then None else <[name := x]> <$> match_path pattern' path'
  | _, _ => None
  end.

Definition match_method (pattern method : string) : bool :=
  bool_decide (method = pattern) || (bool_decide (pattern = "GET") && bool_decide (method = "HEAD")).

Fixpoint find_route {Route} (l : list (string * list Seg * Route)) (method : string)
    (path : list string) : option (Route * gmap string string) :=
  match l with
  | [] => None
  | (m, pattern, route) :: l' =>
      match (if match_method m method then match_path pattern path else None) with
      | Some values => Some (route, values)
      | None => find_route l' method path
      end
  end.

Lemma match_path_lit a pattern path values :
  match_path (Lit a :: pattern) path = Some values →
  ∃ path', path = a :: path' ∧ match_path pattern path' = Some values.
Proof. destruct path as [|x path]; simpl; [done|]. case_decide; [|done]. subst. eauto. Qed.

Lemma match_path_wild name pattern path values :
  match_path (Wild name :: pattern) path = Some values →
  ∃ x path' values', path = x :: path' ∧ match_path pattern path' = Some values'.
Proof.
  destruct path as [|x path]; simpl; [done|]. case_decide; [done|].
  destruct (match_path pattern path) eqn:E; [|done]. eauto.
Qed.

Lemma match_path_nil path values : match_path [] path = Some values → path = [].
Proof. by destruct path. Qed.

(** Takes a matched path apart, segment by segment. *)
Ltac match_segments :=
  repeat match goal with
  | Hm : match_path (Lit _ :: _) _ = Some _ |- _ =>
      apply match_path_lit in Hm as (? & -> & Hm)
  | Hm : match_path (Wild _ :: _) _ = Some _ |- _ =>
      apply match_path_wild in Hm as (? & ? & ? & -> & Hm)
  | Hm : match_path [] _ = Some _ |- _ => apply match_path_nil in Hm as ->
  end.

Lemma find_route_elem {Route} (l : list (string * list Seg * Route)) method path route values :
  find_route l method path = Some (route, values) →
  ∃ m pattern, (m, pattern, route) ∈ l ∧ match_method m method = true ∧
    match_path pattern path = Some values.
Proof.
  induction l as [|[[m pattern] rt] l IH]; simpl; [done|].
  destruct (match_method m method) eqn:Em.
  - destruct (match_path pattern path) eqn:Ep.
    + intros [= <- <-]. exists m, pattern. split_and!; [by left|done..].
    + intros Hf. destruct (IH Hf) as (? & ? & ? & ? & ?). eauto 10 using list_elem_of_further.
  - intros Hf. destruct (IH Hf) as (? & ? & ? & ? & ?). eauto 10 using list_elem_of_further.
Qed.
