(* ===== verification/Scheduler.v ===== *)
(** * internal/scheduler: the control loop

    Every tick compares the site's net power with the policy and publishes
    battery and load commands through a [Commander], at most one of a kind per
    device and cooldown.  The clock and the commander act on a world [W]: they
    are type classes, and the theorems hold for every instance. *)
From Stdlib Require Import Floats.SpecFloat.
From S2P Require Import Prelude Float64 FloatFacts GoTime World GoStrings Model Json State.

(** ** What the scheduler is given *)

(** [Commander.PublishCommand]: [None] is the nil error. *)
Class Commander (W : Type) :=
  PublishCommand : string → Device → Command → W → option error * W.

(** ** State *)

(** The fields the scheduler itself changes or reads; [store] and [commander]
    are part of the world. *)
Record Scheduler := MkScheduler {
  sch_siteID : string;
  sch_policy : Policy;
  sch_lastSent : gmap string Time;
  sch_cooldown : Z
}.

Definition New (siteID : string) (policy : Policy) : Scheduler :=
  MkScheduler siteID policy ∅ (30 * Second)%Z.

Definition Policy_ (s : Scheduler) : Policy := sch_policy s.

Definition SetPolicy (p : Policy) (s : Scheduler) : Scheduler :=
  MkScheduler (sch_siteID s) p (sch_lastSent s) (sch_cooldown s).

Definition set_lastSent (f : gmap string Time → gmap string Time) (s : Scheduler) : Scheduler :=
  MkScheduler (sch_siteID s) (sch_policy s) (f (sch_lastSent s)) (sch_cooldown s).

(** ** Operations *)

(** A payload that cannot be marshalled is empty. *)
Definition commandKey (deviceID action : string) (params : gmap string json) : string :=
  deviceID +:+ ":" +:+ action +:+ ":" +:+ default "" (Marshal (json_of_map params)).

Definition ValidatePolicy (p : Policy) : option error :=
  if (pol_BatteryMinSOC p <? fzero)%f64 || (pol_BatteryMinSOC p >? of_int 1)%f64
  then Some "battery_min_soc must be between 0 and 1" else
  if (pol_BatteryMaxSOC p <? fzero)%f64 || (pol_BatteryMaxSOC p >? of_int 1)%f64
  then Some "battery_max_soc must be between 0 and 1" else
  if (pol_BatteryMinSOC p >? pol_BatteryMaxSOC p)%f64
  then Some "battery_min_soc must be <= battery_max_soc" else
  if (pol_LoadShedThreshold p <? fzero)%f64
  then Some "load_shed_threshold_w must be >= 0" else None.

Definition mode_params (mode : string) : gmap string json := {["mode" := JStr mode]}.
Definition relay_off : gmap string json := {["on" := JBool false]}.

(** The batteries and the loads of the site, in the order of [devices]. *)
Definition of_type (siteID : string) (typ : DeviceType) (devices : list Device) : list Device :=
  filter (λ d, dev_SiteID d = siteID ∧ dev_Type d = typ) devices.

(** [telemetry[b.ID].Metrics["soc"]]: zero when either is missing. *)
Definition soc_of_device (telemetry : gmap string Telemetry) (b : Device) : float64 :=
  match telemetry !! dev_ID b with Some t => metric (tel_Metrics t) "soc" | None => fzero end.

Section Operations.
Context {W : Type} `{Clock W} `{Commander W}.

(** The part of [publish] after the cooldown check: note the time, send, and
    forget the time again if sending failed. *)
Definition deliver (key : string) (now : Time) (d : Device) (action reason : string)
    (params : gmap string json) (s : Scheduler) (w : W) : bool * Scheduler * W :=
  let s := set_lastSent <[key := now]> s in
  let cmd := MkCommand (dev_ID d +:+ "-" +:+ pretty (UnixNano now)) action params
               (Unix now) reason in
  let '(err, w) := PublishCommand (sch_siteID s) d cmd w in
  match err with
  | Some _ =>
      let last_ := default zero_time (sch_lastSent s !! key) in
      (false, if Equal last_ now then set_lastSent (delete key) s else s, w)
  | None => (true, s, w)
  end.

(** The result, the scheduler and the world after [publish].  [time.Since] reads
    the clock a second time, only when the key has an entry. *)
Definition publish (d : Device) (action reason : string) (params : gmap string json)
    (s : Scheduler) (w : W) : bool * Scheduler * W :=
  let key := commandKey (dev_ID d) action params in
  let '(now, w) := Now w in
  match sch_lastSent s !! key with
  | Some last_ =>
      let '(t, w) := Now w in
      if (Sub t last_ <? sch_cooldown s)%Z then (false, s, w)
      else deliver key now d action reason params s w
  | None => deliver key now d action reason params s w
  end.

Definition charge (b : Device) : Scheduler → W → bool * Scheduler * W :=
  publish b "set_mode" "pv surplus: charge battery" (mode_params "charging").
Definition discharge (b : Device) : Scheduler → W → bool * Scheduler * W :=
  publish b "set_mode" "load deficit: discharge battery" (mode_params "discharging").
Definition shed (load : Device) : Scheduler → W → bool * Scheduler * W :=
  publish load "set_relay" "load shed: non-critical load off" relay_off.

(** The first loop: charge every battery below the upper bound. *)
Fixpoint charge_loop (policy : Policy) (telemetry : gmap string Telemetry)
    (l : list Device) (s : Scheduler) (w : W) : Scheduler * W :=
  match l with
  | [] => (s, w)
  | b :: l' =>
      let '(s, w) :=
        if (soc_of_device telemetry b <? pol_BatteryMaxSOC policy)%f64
        then let '(_, s, w) := charge b s w in (s, w) else (s, w) in
      charge_loop policy telemetry l' s w
  end.

(** The second: discharge every battery above the lower bound; was any accepted? *)
Fixpoint discharge_loop (policy : Policy) (telemetry : gmap string Telemetry)
    (l : list Device) (dispatched : bool) (s : Scheduler) (w : W) : bool * Scheduler * W :=
  match l with
  | [] => (dispatched, s, w)
  | b :: l' =>
      let '(ok, s, w) :=
        if (soc_of_device telemetry b >? pol_BatteryMinSOC policy)%f64
        then discharge b s w else (false, s, w) in
      discharge_loop policy telemetry l' (ok || dispatched) s w
  end.

(** The third: switch off the first load that is not critical. *)
Fixpoint shed_loop (l : list Device) (s : Scheduler) (w : W) : Scheduler * W :=
  match l with
  | [] => (s, w)
  | load :: l' =>
      if negb (dev_CriticalLoad load) then let '(_, s, w) := shed load s w in (s, w)
      else shed_loop l' s w
  end.

(** The body of [Tick] on the values it reads from the store. *)
Definition tick (summary : SiteSummary) (devices : list Device)
    (telemetry : gmap string Telemetry) (s : Scheduler) (w : W) : Scheduler * W :=
  let policy := Policy_ s in
  let batteries := of_type (sch_siteID s) DeviceBattery devices in
  let loads := of_type (sch_siteID s) DeviceLoad devices in
  if (sum_NetPowerW summary <? of_int (-10))%f64 then charge_loop policy telemetry batteries s w
  else
    let '(dispatched, s, w) :=
      if (sum_NetPowerW summary >? of_int 10)%f64
      then discharge_loop policy telemetry batteries false s w else (false, s, w) in
    if dispatched then (s, w)
    else if (sum_NetPowerW summary >? pol_LoadShedThreshold policy)%f64
    then shed_loop loads s w else (s, w).

(** [Tick]: three reads of the store, each under its own lock and in some
    order of visiting the maps, then the body. *)
Definition Tick (s1 s2 s3 : Store) (ord1 : list (string * Telemetry))
    (ord2 : list (string * Device)) (ord3 : list (string * Telemetry))
    (s : Scheduler) (w : W) : Scheduler * W :=
  tick (Summary (sch_siteID s) ord1 s1) (Devices ord2)
    (TelemetryForSite (sch_siteID s) ord3) s w.

(** [Run]: a tick per tick of the timer, none when the interval is not positive.
    Each tick comes with what it reads. *)
Definition Run (interval : Z)
    (reads : list (SiteSummary * list Device * gmap string Telemetry))
    (s : Scheduler) (w : W) : Scheduler * W :=
  if (interval <=? 0)%Z then (s, w)
  else foldl (λ '(s, w) '(summary, devices, telemetry), tick summary devices telemetry s w)
         (s, w) reads.
End Operations.

(** ** What reaches the commander *)

(** One call of [PublishCommand] and whether it succeeded. *)
Record Attempt := MkAttempt {
  att_site : string;
  att_device : Device;
  att_command : Command;
  att_ok : bool
}.

Section Trace.
Context {W : Type} {C : Clock W} {K : Commander W}.

(** The same world with a record of the calls of the commander. *)
#[local] Existing Instance traced_clock.
#[local] Instance traced_commander : Commander (W * list Attempt) :=
  λ site d cmd '(w, l),
    let '(err, w) := PublishCommand site d cmd w in
    (err, (w, l ++ [MkAttempt site d cmd (bool_decide (err = None))])).

(** The fields that never change. *)
Definition same_config (s s' : Scheduler) : Prop :=
  sch_siteID s' = sch_siteID s ∧ sch_policy s' = sch_policy s ∧ sch_cooldown s' = sch_cooldown s.

Lemma same_config_trans s1 s2 s3 : same_config s1 s2 → same_config s2 s3 → same_config s1 s3.
Proof. unfold same_config. intros (? & ? & ?) (? & ? & ?). split_and!; congruence. Qed.

Lemma deliver_trace key now d action reason params s wl ok s' wl' :
  deliver key now d action reason params s wl = (ok, s', wl') →
  same_config s s' ∧
  ∃ cmd, cmd_Action cmd = action ∧ cmd_Params cmd = params ∧ cmd_Reason cmd = reason ∧
    wl'.2 = wl.2 ++ [MkAttempt (sch_siteID s) d cmd ok].
Proof.
  destruct wl as [w l]. unfold deliver, PublishCommand at 1, traced_commander.
  destruct (PublishCommand _ _ _ _) as [[e|] w4]; intros [= <- <- <-].
  - split; [by case_if|]. eexists. split_and!; [| | |reflexivity]; done.
  - split; [done|]. eexists. split_and!; [| | |reflexivity]; done.
Qed.

(** A call of [publish] reaches the commander at most once, with its device,
    action and parameters, and reports whether that succeeded. *)
Lemma publish_trace d action reason params s wl ok s' wl' :
  publish d action reason params s wl = (ok, s', wl') →
  same_config s s' ∧
  (ok = false ∧ wl'.2 = wl.2 ∨
   ∃ cmd, cmd_Action cmd = action ∧ cmd_Params cmd = params ∧ cmd_Reason cmd = reason ∧
     wl'.2 = wl.2 ++ [MkAttempt (sch_siteID s) d cmd ok]).
Proof.
  destruct wl as [w l]. unfold publish. cbn. destruct (Now w) as [now w1].
  destruct (sch_lastSent s !! _) as [t|]; cbn; [destruct (Now w1) as [u w2]; case_if|].
  - intros [= <- <- <-]. split; [done|by left].
  - intros Hp. apply deliver_trace in Hp as [? ?]. split; [done|by right].
  - intros Hp. apply deliver_trace in Hp as [? ?]. split; [done|by right].
Qed.

(** *** The loops *)

(** A battery of the site told to charge, below the upper bound. *)
Definition charge_ok (policy : Policy) (telemetry : gmap string Telemetry) (site : string)
    (batteries : list Device) (a : Attempt) : Prop :=
  att_site a = site ∧ att_device a ∈ batteries ∧
  fltb (soc_of_device telemetry (att_device a)) (pol_BatteryMaxSOC policy) = true ∧
  cmd_Action (att_command a) = "set_mode" ∧ cmd_Params (att_command a) = mode_params "charging".

(** A battery of the site told to discharge, above the lower bound. *)
Definition discharge_ok (policy : Policy) (telemetry : gmap string Telemetry) (site : string)
    (batteries : list Device) (a : Attempt) : Prop :=
  att_site a = site ∧ att_device a ∈ batteries ∧
  fltb (pol_BatteryMinSOC policy) (soc_of_device telemetry (att_device a)) = true ∧
  cmd_Action (att_command a) = "set_mode" ∧ cmd_Params (att_command a) = mode_params "discharging".

(** A load of the site that is not critical, switched off. *)
Definition shed_ok (site : string) (loads : list Device) (a : Attempt) : Prop :=
  att_site a = site ∧ att_device a ∈ loads ∧ dev_CriticalLoad (att_device a) = false ∧
  cmd_Action (att_command a) = "set_relay" ∧ cmd_Params (att_command a) = relay_off.

Lemma charge_loop_trace policy tele l all s wl s' wl' :
  l ⊆ all → charge_loop policy tele l s wl = (s', wl') →
  same_config s s' ∧
  ∃ t, wl'.2 = wl.2 ++ t ∧ Forall (charge_ok policy tele (sch_siteID s) all) t.
Proof.
  revert s wl. induction l as [|b l IH]; simpl; intros s wl Hl Hr.
  { injection Hr as <- <-. split; [done|]. exists []. by rewrite app_nil_r. }
  assert (Hb : b ∈ all) by (apply Hl; by left).
  assert (Hl' : l ⊆ all) by (intros x Hx; apply Hl; by right).
  destruct (soc_of_device tele b <? pol_BatteryMaxSOC policy)%f64 eqn:Es; [|by apply IH].
  destruct (charge b s wl) as [[ok s1] wl1] eqn:Ec.
  apply publish_trace in Ec as [Hsame Hc]. destruct (IH _ _ Hl' Hr) as [Hs' (t & Ht & Hall)].
  split; [by eapply same_config_trans|]. destruct Hsame as (Hsite & _). rewrite Hsite in Hall.
  destruct Hc as [[_ E]|(cmd & Ha & Hp & _ & E)].
  - exists t. by rewrite Ht, E.
  - exists (MkAttempt (sch_siteID s) b cmd ok :: t). rewrite Ht, E, <- app_assoc.
    split; [done|]. by constructor.
Qed.

(** [dispatched] is the disjunction of the successes. *)
Lemma discharge_loop_trace policy tele l all disp s wl disp' s' wl' :
  l ⊆ all → discharge_loop policy tele l disp s wl = (disp', s', wl') →
  same_config s s' ∧
  ∃ t, wl'.2 = wl.2 ++ t ∧ Forall (discharge_ok policy tele (sch_siteID s) all) t ∧
    (disp' = false → disp = false ∧ Forall (λ a, att_ok a = false) t).
Proof.
  revert disp s wl. induction l as [|b l IH]; simpl; intros disp s wl Hl Hr.
  { injection Hr as <- <- <-. split; [done|]. exists []. by rewrite app_nil_r. }
  assert (Hb : b ∈ all) by (apply Hl; by left).
  assert (Hl' : l ⊆ all) by (intros x Hx; apply Hl; by right).
  destruct (pol_BatteryMinSOC policy <? soc_of_device tele b)%f64 eqn:Es; [|by apply IH].
  destruct (discharge b s wl) as [[ok s1] wl1] eqn:Ec.
  apply publish_trace in Ec as [Hsame Hc].
  destruct (IH _ _ _ Hl' Hr) as [Hs' (t & Ht & Hall & Hd)].
  split; [by eapply same_config_trans|]. destruct Hsame as (Hsite & _). rewrite Hsite in Hall.
  destruct Hc as [[-> E]|(cmd & Ha & Hp & _ & E)].
  - exists t. by rewrite Ht, E.
  - exists (MkAttempt (sch_siteID s) b cmd ok :: t). rewrite Ht, E, <- app_assoc.
    split; [done|]. split; [by constructor|]. intros Hf. apply Hd in Hf as [Ho ?].
    apply orb_false_iff in Ho as [-> ->]. split; [done|by constructor].
Qed.

Lemma shed_loop_trace l all s wl s' wl' :
  l ⊆ all → shed_loop l s wl = (s', wl') →
  same_config s s' ∧
  ∃ t, wl'.2 = wl.2 ++ t ∧ length t ≤ 1 ∧ Forall (shed_ok (sch_siteID s) all) t.
Proof.
  induction l as [|d l IH]; simpl; intros Hl Hr.
  { injection Hr as <- <-. split; [done|]. exists []. rewrite app_nil_r. split_and!; [done|simpl; lia|done]. }
  assert (Hd : d ∈ all) by (apply Hl; by left).
  assert (Hl' : l ⊆ all) by (intros x Hx; apply Hl; by right).
  destruct (dev_CriticalLoad d) eqn:Ec; simpl in Hr; [by apply IH|].
  destruct (shed d s wl) as [[ok s1] wl1] eqn:Es. injection Hr as <- <-.
  apply publish_trace in Es as [Hsame Hc]. split; [done|].
  destruct Hc as [[_ E]|(cmd & Ha & Hp & _ & E)].
  - exists []. rewrite app_nil_r. split_and!; [done|simpl; lia|done].
  - exists [MkAttempt (sch_siteID s) d cmd ok]. split_and!; [done|simpl; lia|].
    by repeat constructor.
Qed.

(** What one tick may send.  With a surplus of more than 10 W: charges only.
    Otherwise discharges, if the deficit exceeds 10 W, and then at most one
    load shed, if the deficit exceeds the threshold and no discharge was
    accepted. *)
Definition tick_spec (policy : Policy) (summary : SiteSummary) (devices : list Device)
    (tele : gmap string Telemetry) (site : string) (t : list Attempt) : Prop :=
  let net := sum_NetPowerW summary in
  let batteries := of_type site DeviceBattery devices in
  let loads := of_type site DeviceLoad devices in
  fltb net (of_int (-10)) = true ∧ Forall (charge_ok policy tele site batteries) t ∨
  fltb net (of_int (-10)) = false ∧
  ∃ ds sh, t = ds ++ sh ∧
    Forall (discharge_ok policy tele site batteries) ds ∧ Forall (shed_ok site loads) sh ∧
    (ds ≠ [] → fltb (of_int 10) net = true) ∧
    (sh ≠ [] → fltb (pol_LoadShedThreshold policy) net = true ∧
               Forall (λ a, att_ok a = false) ds) ∧
    length sh ≤ 1.

Lemma tick_trace summary devices tele s wl s' wl' :
  tick summary devices tele s wl = (s', wl') →
  same_config s s' ∧
  ∃ t, wl'.2 = wl.2 ++ t ∧ tick_spec (sch_policy s) summary devices tele (sch_siteID s) t.
Proof.
  unfold tick, tick_spec, Policy_. set (bs := of_type _ DeviceBattery _).
  set (ls := of_type _ DeviceLoad _).
  destruct (fltb (sum_NetPowerW summary) (of_int (-10))).
  { intros (Hs & t & Ht & Hall)%(charge_loop_trace _ _ _ bs); [|done].
    split; [done|]. exists t. split; [done|by left]. }
  assert (Hd : ∃ dispatched s1 wl1 ds,
    (if (sum_NetPowerW summary >? of_int 10)%f64
     then discharge_loop (sch_policy s) tele bs false s wl else (false, s, wl)) =
      (dispatched, s1, wl1) ∧
    same_config s s1 ∧ wl1.2 = wl.2 ++ ds ∧
    Forall (discharge_ok (sch_policy s) tele (sch_siteID s) bs) ds ∧
    (ds ≠ [] → fltb (of_int 10) (sum_NetPowerW summary) = true) ∧
    (dispatched = false → Forall (λ a, att_ok a = false) ds)).
  { destruct (fltb (of_int 10) (sum_NetPowerW summary)).
    - destruct (discharge_loop _ _ _ _ _ _) as [[disp s1] wl1] eqn:Ed.
      apply (discharge_loop_trace _ _ _ bs) in Ed as (Hs & ds & ? & ? & Hf); [|done].
      exists disp, s1, wl1, ds. split_and!; try done. intros Hdisp. by apply Hf in Hdisp as [].
    - exists false, s, wl, []. rewrite app_nil_r. split_and!; try done; intros; constructor. }
  destruct Hd as (disp & s1 & wl1 & ds & -> & Hs1 & E1 & Hds & Hnet & Hfail).
  destruct disp.
  { intros [= <- <-]. split; [done|]. exists ds. split; [done|right]. split; [done|].
    exists ds, []. rewrite app_nil_r. split_and!; try done. simpl; lia. }
  destruct (fltb (pol_LoadShedThreshold (sch_policy s)) (sum_NetPowerW summary)) eqn:Eth.
  - intros (Hs2 & sh & E2 & Hlen & Hsh)%(shed_loop_trace _ ls); [|done].
    split; [by eapply same_config_trans|]. exists (ds ++ sh). rewrite E2, E1, app_assoc.
    split; [done|right]. split; [done|]. exists ds, sh.
    destruct Hs1 as (Hsite & _). rewrite Hsite in Hsh. split_and!; auto.
  - intros [= <- <-]. split; [done|]. exists ds. split; [done|right]. split; [done|].
    exists ds, []. rewrite app_nil_r. split_and!; try done. simpl; lia.
Qed.
End Trace.

(** ** What every command preserves, a run preserves *)

Section Preserved.
Context {W : Type} {C : Clock W} {K : Commander W} (P : Scheduler → W → Prop).
Context (Hpublish : ∀ d action reason params s w, P s w →
  let '(_, s', w') := publish d action reason params s w in P s' w').

Lemma charge_loop_preserves policy tele l s w :
  P s w → P (charge_loop policy tele l s w).1 (charge_loop policy tele l s w).2.
Proof using Hpublish.
  revert s w. induction l as [|b l IH]; intros s w Hw; cbn [charge_loop]; [done|].
  destruct (fltb _ _); [|by apply IH]. unfold charge.
  pose proof (Hpublish b "set_mode" "pv surplus: charge battery" (mode_params "charging") s w Hw) as Hp.
  destruct (publish _ _ _ _ _ _) as [[ok s1] w1]. by apply IH.
Qed.

Lemma discharge_loop_preserves policy tele l disp s w :
  P s w → let '(_, s', w') := discharge_loop policy tele l disp s w in P s' w'.
Proof using Hpublish.
  revert disp s w. induction l as [|b l IH]; intros disp s w Hw; cbn [discharge_loop]; [done|].
  destruct (fltb _ _); [|by apply IH]. unfold discharge.
  pose proof (Hpublish b "set_mode" "load deficit: discharge battery" (mode_params "discharging") s w Hw) as Hp.
  destruct (publish _ _ _ _ _ _) as [[ok s1] w1]. by apply IH.
Qed.

Lemma shed_loop_preserves l s w : P s w → P (shed_loop l s w).1 (shed_loop l s w).2.
Proof using Hpublish.
  intros Hw. induction l as [|d l IH]; cbn [shed_loop]; [done|]. destruct (negb _); [|done]. unfold shed.
  pose proof (Hpublish d "set_relay" "load shed: non-critical load off" relay_off s w Hw) as Hp.
  by destruct (publish _ _ _ _ _ _) as [[ok s1] w1].
Qed.

Lemma tick_preserves summary devices tele s w :
  P s w → P (tick summary devices tele s w).1 (tick summary devices tele s w).2.
Proof using Hpublish.
  intros Hw. unfold tick. destruct (fltb _ _); [by apply charge_loop_preserves|].
  set (res := if fltb (of_int 10) _ then _ else _).
  assert (Hres : P res.1.2 res.2).
  { unfold res. destruct (fltb _ _); [|done].
    pose proof (discharge_loop_preserves (Policy_ s) tele (of_type (sch_siteID s) DeviceBattery devices) false s w Hw) as Hd.
    by destruct (discharge_loop _ _ _ _ _ _) as [[disp s1] w1]. }
  destruct res as [[disp s1] w1]. cbn [fst snd] in Hres. destruct disp; [done|].
  destruct (fltb _ _); [by apply shed_loop_preserves|done].
Qed.

Lemma Run_preserves interval reads s w :
  P s w → P (Run interval reads s w).1 (Run interval reads s w).2.
Proof using Hpublish.
  unfold Run. destruct (_ <=? _)%Z; [done|].
  revert s w. induction reads as [|[[summary devices] tele] reads IH]; intros s w Hw; cbn [foldl]; [done|].
  pose proof (tick_preserves summary devices tele s w Hw) as Ht.
  destruct (tick _ _ _ _ _) as [s1 w1]. by apply IH.
Qed.
End Preserved.

(** ** The cooldown *)

(** A clock with a monotonic reading that never runs backwards; sending a
    command takes time but does not set it back. *)
Class MonotoneClock (W : Type) `{Clock W} `{Commander W} := {
  clock_of : W → Z;
  now_reads : ∀ w t w', Now w = (t, w') →
    ∃ n, t_mono t = Some n ∧ (clock_of w ≤ n ≤ clock_of w')%Z;
  send_advances : ∀ site d cmd w err w', PublishCommand site d cmd w = (err, w') →
    (clock_of w ≤ clock_of w')%Z
}.

(** A bound on the time one reading takes. *)
Definition reads_within {W} `{MonotoneClock W} (lag : Z) : Prop :=
  ∀ w, (clock_of (Now w).2 ≤ clock_of w + lag)%Z.

(** One call of [PublishCommand], with the time at which it is made. *)
Record Sent := MkSent { snt_attempt : Attempt; snt_at : Z }.

Definition snt_key (a : Sent) : string :=
  let cmd := att_command (snt_attempt a) in
  commandKey (dev_ID (att_device (snt_attempt a))) (cmd_Action cmd) (cmd_Params cmd).

Definition cool_cd (s : Scheduler) : Prop := (0 ≤ sch_cooldown s ≤ max_int64)%Z.

(** What is noted for a key, if anything, is a cooldown ago. *)
Definition ready {W} `{MonotoneClock W} (key : string) (s : Scheduler) (w : W) : Prop :=
  ∀ t, sch_lastSent s !! key = Some t → ∃ m, t_mono t = Some m ∧ (m + sch_cooldown s ≤ clock_of w)%Z.

Lemma Sub_mono t u m n :
  t_mono t = Some m → t_mono u = Some n → Sub t u = sat64 (m - n).
Proof. unfold Sub, on_clock. by intros -> ->. Qed.

Lemma Equal_refl t : Equal t t = true.
Proof. unfold Equal, on_clock. destruct (t_mono t); apply Z.eqb_refl. Qed.

Section Cooldown.
Context {W : Type} `{MonotoneClock W}.

(** The keys other than the delivered one keep their entry; it gets one if the
    command was accepted. *)
Lemma deliver_step key now d action reason params s w ok s' w' :
  deliver key now d action reason params s w = (ok, s', w') →
  same_config s s' ∧ (clock_of w ≤ clock_of w')%Z ∧
  (∀ k, k ≠ key → sch_lastSent s' !! k = sch_lastSent s !! k) ∧
  sch_lastSent s' !! key = (if ok then Some now else None).
Proof.
  unfold deliver. destruct (PublishCommand _ _ _ _) as [err w1] eqn:Ep.
  apply send_advances in Ep. unfold set_lastSent. simpl.
  rewrite lookup_insert_eq. simpl. rewrite Equal_refl.
  destruct err; intros [= <- <- <-]; simpl; split_and!; try done.
  - intros k Hk. by rewrite lookup_delete_ne, lookup_insert_ne.
  - apply lookup_delete_eq.
  - intros k Hk. by rewrite lookup_insert_ne.
  - apply lookup_insert_eq.
Qed.

(** The world after one or two readings of the clock. *)
Definition after_reading (w w' : W) : Prop := w' = (Now w).2 ∨ w' = (Now (Now w).2).2.

(** [publish] is held back, only when its key is not ready, or delivers with
    the reading it started with, and then nothing noted is within the cooldown. *)
Lemma publish_cases d action reason params s w :
  let key := commandKey (dev_ID d) action params in
  cool_cd s →
  (∃ w' t, publish d action reason params s w = (false, s, w') ∧ after_reading w w' ∧ (clock_of w ≤ clock_of w')%Z ∧
     sch_lastSent s !! key = Some t ∧ ∀ m, t_mono t = Some m → (clock_of w < m + sch_cooldown s)%Z) ∨
  (∃ now n w1, publish d action reason params s w = deliver key now d action reason params s w1 ∧
     after_reading w w1 ∧ t_mono now = Some n ∧ (clock_of w ≤ n ≤ clock_of w1)%Z ∧
     (∀ t m, sch_lastSent s !! key = Some t → t_mono t = Some m → (m + sch_cooldown s ≤ clock_of w1)%Z) ∧
     ∀ lag, reads_within lag → (clock_of w1 ≤ n + 2 * lag)%Z).
Proof.
  intros key Hcd. unfold publish. fold key. unfold cool_cd, max_int64 in Hcd.
  assert (Hlag : ∀ w lag, reads_within lag → (clock_of (Now w).2 ≤ clock_of w + lag)%Z) by auto.
  pose proof (Hlag w) as Hlag1. unfold after_reading.
  destruct (Now w) as [now w1] eqn:E1. apply now_reads in E1 as (n & Hn & ? & ?). cbn [snd] in Hlag1 |- *.
  destruct (sch_lastSent s !! key) as [t|] eqn:El.
  - pose proof (Hlag w1) as Hlag2.
    destruct (Now w1) as [u w2] eqn:E2. apply now_reads in E2 as (r & Hr & ? & ?). cbn [snd] in Hlag2.
    destruct (Z.ltb_spec (Sub u t) (sch_cooldown s)) as [Hlt|Hge].
    + left. exists w2, t. split_and!; [done|by right|lia|done|]. intros m Hm.
      rewrite (Sub_mono _ _ _ _ Hr Hm) in Hlt. unfold sat64, min_int64, max_int64 in *. lia.
    + right. exists now, n, w2. split_and!; [done|by right|done|lia|lia| |].
      * intros t' m [= <-] Hm. rewrite (Sub_mono _ _ _ _ Hr Hm) in Hge. unfold sat64, min_int64, max_int64 in *. lia.
      * intros lag Hl. specialize (Hlag1 lag Hl). specialize (Hlag2 lag Hl). lia.
  - right. exists now, n, w1. split_and!; [done|by left|done|lia|lia|done|].
    intros lag Hl. specialize (Hlag1 lag Hl). assert (0 ≤ lag)%Z; lia.
Qed.

(** A key stays ready under the commands of other keys. *)
Lemma publish_keeps_ready d action reason params s w key :
  cool_cd s → key ≠ commandKey (dev_ID d) action params → ready key s w →
  let '(_, s', w') := publish d action reason params s w in same_config s s' ∧ ready key s' w'.
Proof.
  intros Hcd Hne Hr. destruct (publish_cases d action reason params s w Hcd) as [(w' & t & -> & _ & Hw & _)|(now & n & w1 & -> & _ & _ & Hw & _)].
  - split; [done|]. intros t' Ht. destruct (Hr t' Ht) as (m & ? & ?). exists m. split; [done|lia].
  - destruct (deliver _ _ _ _ _ _ _ _) as [[ok s'] w'] eqn:Ed. apply deliver_step in Ed as (Hs & ? & Ho & _).
    split; [done|]. intros t' Ht. rewrite Ho in Ht by done. destruct (Hr t' Ht) as (m & ? & ?). exists m.
    split; [done|]. destruct Hs as (_ & _ & ->). lia.
Qed.
End Cooldown.

(** *** The commander with a log of its calls and their times *)

Section Timed.
Context {W : Type} {C : Clock W} {K : Commander W} {M : MonotoneClock W}.
#[local] Existing Instance traced_clock.
#[local] Instance timed_commander : Commander (W * list Sent) :=
  λ site d cmd '(w, l),
    let '(err, w') := PublishCommand site d cmd w in
    (err, (w', l ++ [MkSent (MkAttempt site d cmd (bool_decide (err = None))) (clock_of w)])).

#[local] Instance timed_monotone : MonotoneClock (W * list Sent).
Proof using M.
  refine {| clock_of := λ wl : W * list Sent, clock_of wl.1 |}.
  - intros [w l] t wl'. rewrite traced_now. destruct (Now w) as [t' w'] eqn:E. intros [= <- <-].
    by apply now_reads in E.
  - intros site d cmd [w l] err wl'. unfold PublishCommand at 1, timed_commander.
    destruct (PublishCommand site d cmd w) as [err' w'] eqn:E. intros [= <- <-]. by apply send_advances in E.
Defined.

Lemma timed_within lag : reads_within (W := W) lag → reads_within (W := W * list Sent) lag.
Proof. intros Hl [w l]. rewrite traced_now. specialize (Hl w). by destruct (Now w). Qed.

(** A call of the commander, and the reading [n] it was made with: the command
    bears that reading, which is not later than the call, and not much earlier when
    the clock is read quickly. *)
Definition stamped (p : Sent * Z) : Prop :=
  let '(MkSent a at_, n) := p in
  (∃ now, t_mono now = Some n ∧ cmd_CommandID (att_command a) = dev_ID (att_device a) +:+ "-" +:+ pretty (UnixNano now) ∧
    cmd_IssuedAt (att_command a) = Unix now) ∧
  (n ≤ at_)%Z ∧ ∀ lag, reads_within (W := W) lag → (at_ ≤ n + 2 * lag)%Z.

(** After a command was accepted, none of its key is handed over within the
    cooldown from its reading. *)
Definition spaced (cooldown : Z) (calls : list (Sent * Z)) : Prop :=
  ∀ i j a n b m, i < j → calls !! i = Some (a, n) → calls !! j = Some (b, m) →
    att_ok (snt_attempt a) = true → snt_key a = snt_key b → (n + cooldown ≤ snt_at b)%Z.

(** Whatever the key of an accepted command is mapped to now is at least as
    recent, or the cooldown has passed. *)
Definition remembers (s : Scheduler) (now : Z) (p : Sent * Z) : Prop :=
  att_ok (snt_attempt p.1) = true →
  (∃ t m, sch_lastSent s !! snt_key p.1 = Some t ∧ t_mono t = Some m ∧ p.2 ≤ m)%Z ∨
  (p.2 + sch_cooldown s ≤ now)%Z.

Record cool (cooldown : Z) (s : Scheduler) (wl : W * list Sent) : Prop := {
  cool_cooldown : sch_cooldown s = cooldown;
  cool_calls : ∃ calls, calls.*1 = wl.2 ∧ Forall stamped calls ∧ spaced cooldown calls ∧
    Forall (remembers s (clock_of wl.1)) calls
}.

Lemma spaced_snoc cooldown calls b m :
  spaced cooldown calls →
  Forall (λ p, att_ok (snt_attempt p.1) = true → snt_key p.1 = snt_key b → (p.2 + cooldown ≤ snt_at b)%Z) calls →
  spaced cooldown (calls ++ [(b, m)]).
Proof.
  intros Hs Hb i j a n b' m' Hij Hi Hj Hok Hk.
  apply lookup_snoc_Some in Hj as [[Hj Hy]|[-> [= <- <-]]].
  - rewrite lookup_app_l in Hi by lia. by apply (Hs i j a n b' m').
  - rewrite lookup_app_l in Hi by lia. rewrite Forall_lookup in Hb. by apply (Hb i (a, n)).
Qed.

(** A delivered command is logged with its time. *)
Lemma deliver_timed key now d action reason params s w l :
  let '(ok, _, wl') := deliver key now d action reason params s (w, l) in
  let cmd := MkCommand (dev_ID d +:+ "-" +:+ pretty (UnixNano now)) action params (Unix now) reason in
  wl'.2 = l ++ [MkSent (MkAttempt (sch_siteID s) d cmd ok) (clock_of w)].
Proof.
  unfold deliver, PublishCommand at 1, timed_commander. cbn [sch_siteID set_lastSent].
  by destruct (PublishCommand _ _ _ w) as [[e|] w'].
Qed.

Lemma remembers_later s now now' p : (now ≤ now')%Z → remembers s now p → remembers s now' p.
Proof. intros ? Hr Hok. destruct (Hr Hok) as [?|?]; [by left|right; lia]. Qed.

(** A delivery with the reading [n] keeps the log spaced and remembered. *)
Lemma deliver_cool cooldown now n d action reason params s w l :
  let key := commandKey (dev_ID d) action params in
  (0 ≤ cooldown)%Z → cool cooldown s (w, l) → t_mono now = Some n → (n ≤ clock_of w)%Z →
  (∀ t m, sch_lastSent s !! key = Some t → t_mono t = Some m → (m + cooldown ≤ clock_of w)%Z) →
  (∀ lag, reads_within (W := W) lag → (clock_of w ≤ n + 2 * lag)%Z) →
  let '(_, s', wl') := deliver key now d action reason params s (w, l) in cool cooldown s' wl'.
Proof.
  intros key H0 [Hcd (calls & Hl & Hst & Hsp & Hrem)] Hn Hle Hgap Hlag.
  pose proof (deliver_timed key now d action reason params s w l) as Hlog.
  destruct (deliver _ _ _ _ _ _ _ _) as [[ok s'] [w' l']] eqn:Ed. cbn zeta in Hlog. cbn [fst snd] in *. subst l'.
  apply (deliver_step (W := W * list Sent)) in Ed as ((_ & _ & Ecd) & Hclk & Hother & Hkey).
  change (clock_of w ≤ clock_of w')%Z in Hclk.
  set (a := MkSent _ _). assert (Hka : snt_key a = key) by done.
  split; [congruence|]. exists (calls ++ [(a, n)]). rewrite fmap_app. cbn [fst snd].
  assert (Hold : Forall (λ p, att_ok (snt_attempt p.1) = true → snt_key p.1 = key → (p.2 + cooldown ≤ clock_of w)%Z) calls).
  { eapply Forall_impl; [exact Hrem|]. intros p Hp Hok Ek. destruct (Hp Hok) as [(t & m & Ht & Hm & ?)|?]; [|lia].
    rewrite Ek in Ht. pose proof (Hgap t m Ht Hm). lia. }
  split_and!.
  - by rewrite Hl.
  - apply Forall_app. split; [done|]. constructor; [|done]. split; [by exists now|done].
  - by apply spaced_snoc.
  - apply Forall_app. split; [|constructor; [|done]].
    + apply Forall_forall. intros p Hin Hok. rewrite Forall_forall in Hrem, Hold.
      pose proof (Hrem p Hin) as Hp. pose proof (Hold p Hin) as Hop. rewrite Ecd.
      destruct (decide (snt_key p.1 = key)) as [Ek|Ek]; [right; specialize (Hop Hok Ek); lia|].
      rewrite Hother by done. destruct (Hp Hok) as [?|?]; [by left|right; lia].
    + intros Hok. change (ok = true) in Hok. subst ok. left. exists now, n. split_and!; [exact Hkey|done..].
Qed.

Lemma timed_reads w l w' (l' : list Sent) : after_reading (w, l) (w', l') → l' = l.
Proof.
  unfold after_reading. rewrite !traced_now. destruct (Now w) as [t1 w1]. cbn [snd]. rewrite traced_now.
  destruct (Now w1) as [t2 w2]. by intros [[= -> ->]|[= -> ->]].
Qed.

Lemma publish_cool cooldown d action reason params s wl :
  (0 ≤ cooldown ≤ max_int64)%Z → cool cooldown s wl →
  let '(_, s', wl') := publish d action reason params s wl in cool cooldown s' wl'.
Proof.
  intros Hcd Hc. destruct wl as [w l]. pose proof (cool_cooldown _ _ _ Hc) as Ecd.
  assert (Hcd' : cool_cd s) by (unfold cool_cd; by rewrite Ecd).
  destruct (publish_cases (W := W * list Sent) d action reason params s (w, l) Hcd')
    as [([w1 l1] & t & -> & Hr & Hw & _)|(now & n & [w1 l1] & -> & Hr & Hn & Hw & Hgap & Hlag)];
    apply timed_reads in Hr as ->; cbn in Hw, Hgap, Hlag || cbn in Hw.
  - destruct Hc as [? (calls & ? & ? & ? & Hrem)]. split; [done|]. exists calls. split_and!; [done..|].
    eapply Forall_impl; [exact Hrem|]. intros p. by apply remembers_later.
  - rewrite Ecd in Hgap. apply (deliver_cool cooldown now n); [lia| |done|lia|done|].
    + destruct Hc as [? (calls & ? & ? & ? & Hrem)]. split; [done|]. exists calls. split_and!; [done..|].
      eapply Forall_impl; [exact Hrem|]. intros p. apply remembers_later. cbn. lia.
    + intros lag Hl. by apply Hlag, timed_within.
Qed.
End Timed.

(** ** Keys *)

(** A string read from its end. *)
Definition backwards (s : string) : list Ascii.ascii := reverse (String.list_ascii_of_string s).

Lemma backwards_app a b : backwards (a +:+ b) = backwards b ++ backwards a.
Proof.
  unfold backwards. rewrite <- reverse_app. f_equal.
  induction a as [|c a IH]; simpl; [done|]. by rewrite IH.
Qed.

Lemma backwards_inj a b : backwards a = backwards b → a = b.
Proof.
  unfold backwards. intros Heq%(inj reverse).
  apply (f_equal String.string_of_list_ascii) in Heq. by rewrite !String.string_of_list_ascii_of_string in Heq.
Qed.

(** The action and parameters the scheduler sends. *)
Inductive kind := Charge | Discharge | Shed.
Definition kind_action (k : kind) : string :=
  match k with Shed => "set_relay" | _ => "set_mode" end.
Definition kind_params (k : kind) : gmap string json :=
  match k with
  | Charge => mode_params "charging"
  | Discharge => mode_params "discharging"
  | Shed => relay_off
  end.

Lemma commandKey_app id action params :
  backwards (commandKey id action params) =
  backwards (":" +:+ action +:+ ":" +:+ default "" (Marshal (json_of_map params))) ++ backwards id.
Proof. unfold commandKey. apply (backwards_app id). Qed.

(** ** Properties *)

(** C2: A tick only sends what the policy allows, whatever the commander answers.
    With a surplus of more than 10 W every command charges a battery of the
    site that is below the upper bound.  Otherwise, the commands are
    discharges of batteries of the site above the lower bound, only with a
    deficit of more than 10 W, followed by at most one load switched off, only
    with a deficit beyond the threshold and when no discharge was accepted;
    a critical load is never switched off. *)
Theorem Tick_commands {W} {C : Clock W} {K : Commander W} st1 st2 st3 ord1 ord2 ord3 s (w : W) :
  let '(s', (_, t)) :=
    @Tick _ traced_clock traced_commander st1 st2 st3 ord1 ord2 ord3 s (w, []) in
  sch_policy s' = sch_policy s ∧
  tick_spec (sch_policy s) (Summary (sch_siteID s) ord1 st1) (Devices ord2)
    (TelemetryForSite (sch_siteID s) ord3) (sch_siteID s) t.
Proof.
  destruct (Tick _ _ _ _ _ _ _ _) as [s' [w' t]] eqn:E.
  apply tick_trace in E as [(_ & Hpol & _) (t' & Ht & Hspec)]. simpl in Ht. subst t'. done.
Qed.

(** C3: The cooldown holds over any number of ticks, whatever the store reports and
    the commander answers: once the commander has accepted a command, no command
    of its key is handed to it within 30 seconds, on the monotonic clock, of the
    reading the accepted one was made with.  That reading is what the command
    bears as its time, and is taken before the command is handed over; so, if no
    reading of the clock takes longer than [lag], the two are handed over at least 30
    seconds less twice the [lag] apart.  The times are those at which
    [PublishCommand] is called.  When it returns is up to the broker: one that keeps
    the scheduler waiting for 30 seconds may take two commands in a row
    ([slow_broker]). *)
Theorem Run_cooldown `{MonotoneClock W} site policy interval reads (w : W) :
  let '(_, (_, log)) := Run (H := traced_clock) (H0 := timed_commander) interval reads (New site policy) (w, []) in
  (∃ calls, calls.*1 = log ∧ Forall stamped calls ∧ spaced (30 * Second) calls) ∧
  ∀ lag i j a b, reads_within (W := W) lag →
    i < j → log !! i = Some a → log !! j = Some b →
    att_ok (snt_attempt a) = true → snt_key a = snt_key b →
    (snt_at a + 30 * Second ≤ snt_at b + 2 * lag)%Z.
Proof.
  assert (H30 : (0 ≤ 30 * Second ≤ max_int64)%Z) by (unfold Second, max_int64; lia).
  assert (Hc : cool (30 * Second) (New site policy) (w, [])) by (split; [done|]; by exists []).
  pose proof (Run_preserves (C := traced_clock) (K := timed_commander) (cool (30 * Second))
    (λ d action reason params s wl, publish_cool _ d action reason params s wl H30)
    interval reads _ _ Hc) as Hrun.
  destruct (Run _ _ _ _) as [s' [w' log]]. destruct Hrun as [_ (calls & Hl & Hst & Hsp & _)].
  cbn [fst snd] in Hl. split; [by exists calls|]. intros lag i j a b Hlag Hij Hi Hj Hok Hk.
  rewrite <- Hl, list_lookup_fmap, fmap_Some in Hi, Hj.
  destruct Hi as ([a' n] & Hi & ->), Hj as ([b' m] & Hj & ->). cbn [fst] in *.
  pose proof (Hsp i j a' n b' m Hij Hi Hj Hok Hk). rewrite Forall_lookup in Hst.
  pose proof (Hst _ _ Hi) as Ha. destruct a'. destruct Ha as (_ & _ & Ha). specialize (Ha lag Hlag). cbn [snt_at] in *. lia.
Qed.

(** A command that could not be sent is not held against its device: the
    scheduler is left exactly as before the call, so the next tick tries again. *)
Lemma publish_failure `{Clock W} `{Commander W} d action reason params s (w w1 w2 : W) now err :
  Now w = (now, w1) →
  sch_lastSent s !! commandKey (dev_ID d) action params = None →
  PublishCommand (sch_siteID s) d
    (MkCommand (dev_ID d +:+ "-" +:+ pretty (UnixNano now)) action params (Unix now) reason) w1 =
    (Some err, w2) →
  publish d action reason params s w = (false, s, w2).
Proof.
  intros Hnow Hnone Hsend. unfold publish. rewrite Hnow, Hnone. unfold deliver.
  simpl. rewrite Hsend, lookup_insert_eq. simpl. rewrite Equal_refl. f_equal. f_equal.
  unfold set_lastSent. simpl. rewrite delete_insert_id by done. by destruct s.
Qed.

(** Within the cooldown a command of the same key is not sent at all: the
    commander is not called and the entry stays. *)
Lemma publish_blocked `{Clock W} `{Commander W} d action reason params s (w w1 w2 : W) now t last_ :
  Now w = (now, w1) → Now w1 = (t, w2) →
  sch_lastSent s !! commandKey (dev_ID d) action params = Some last_ →
  (Sub t last_ < sch_cooldown s)%Z →
  publish d action reason params s w = (false, s, w2).
Proof.
  intros Hnow Ht Hlast Hlt. unfold publish. rewrite Hnow, Hlast, Ht.
  by rewrite (proj2 (Z.ltb_lt _ _) Hlt).
Qed.

(** The cooldown of one device or command never holds back another: the keys
    of the scheduler's commands tell apart the device and the kind. *)
Lemma commandKey_inj id1 id2 k1 k2 :
  commandKey id1 (kind_action k1) (kind_params k1) =
    commandKey id2 (kind_action k2) (kind_params k2) ↔ id1 = id2 ∧ k1 = k2.
Proof.
  split; [|by intros [-> ->]]. intros Heq. apply (f_equal backwards) in Heq.
  rewrite !commandKey_app in Heq.
  destruct k1, k2; vm_compute (backwards (":" +:+ _)) in Heq; simplify_list_eq.
  all: split; [by apply backwards_inj|done].
Qed.

(** A policy with numeric fields is accepted exactly when its bounds are
    states of charge in order and its threshold is not negative. *)
Lemma ValidatePolicy_spec p :
  is_nan (pol_BatteryMinSOC p) = false → is_nan (pol_BatteryMaxSOC p) = false →
  is_nan (pol_LoadShedThreshold p) = false →
  ValidatePolicy p = None ↔
    fleb fzero (pol_BatteryMinSOC p) = true ∧
    fleb (pol_BatteryMinSOC p) (pol_BatteryMaxSOC p) = true ∧
    fleb (pol_BatteryMaxSOC p) (of_int 1) = true ∧
    fleb fzero (pol_LoadShedThreshold p) = true.
Proof.
  intros Hm HM Ht. unfold ValidatePolicy.
  assert (Hn1 : is_nan (of_int 1) = false) by by vm_compute.
  assert (Hz : is_nan fzero = false) by done. split.
  - repeat case_if; try done. guards. intros _.
    split_and!; by apply fltb_false.
  - intros (E1 & E2 & E3 & E4).
    pose proof (fleb_trans _ _ _ E2 E3) as E5. pose proof (fleb_trans _ _ _ E1 E2) as E6.
    apply fltb_false in E1 as ->, E2 as ->, E3 as ->, E4 as ->, E5 as ->, E6 as ->; done.
Qed.

(** ** The theorems at a concrete world *)

(** A clock that ticks every second and a broker that is down, or up. *)
Definition ex_clock : Clock Z := λ w, (MkTime (unix_epoch * Second + w) (Some w), (w + Second)%Z).
Definition ex_down : Commander Z := λ _ _ _ w, (Some "not connected", w).
Definition ex_up : Commander Z := λ _ _ _ w, (None, w).
Definition ex_policy : Policy := MkPolicy (lit 2 10) (lit 9 10) (of_int 80).

#[local] Instance ex_monotone : @MonotoneClock Z ex_clock ex_up.
Proof.
  refine (Build_MonotoneClock Z ex_clock ex_up (λ w, w) _ _).
  - intros w t w' [= <- <-]. exists w. split; [done|]. unfold Second. lia.
  - intros site d cmd w err w' [= <- <-]. lia.
Defined.

(** A surplus, reported [n] times. *)
Definition ex_reads (n : nat) : list (SiteSummary * list Device * gmap string Telemetry) :=
  let summary := MkSiteSummary "site-a" (of_int 90) fzero fzero (of_int (-90)) fzero zero_time in
  repeat (summary, [ex_battery], ∅) n.

(** What the commander is given within 20 ticks: the same command twice. *)
Definition ex_run : Scheduler * (Z * list Sent) :=
  @Run _ (@traced_clock Z ex_clock _) (@timed_commander Z ex_clock ex_up ex_monotone) Second (ex_reads 20)
    (New "site-a" ex_policy) (0%Z, []).

Example ex_run_twice :
  match ex_run.2.2 with
  | [a; b] => att_ok (snt_attempt a) && att_ok (snt_attempt b) && bool_decide (snt_key a = snt_key b)
  | _ => false
  end = true.
Proof. by vm_compute. Qed.

Lemma Run_cooldown_witness :
  ∃ a b, ex_run.2.2 = [a; b] ∧ att_ok (snt_attempt a) = true ∧ att_ok (snt_attempt b) = true ∧ snt_key a = snt_key b ∧
    (snt_at a + 30 * Second ≤ snt_at b + 2 * Second)%Z.
Proof.
  pose proof (@Run_cooldown Z ex_clock ex_up ex_monotone "site-a" ex_policy Second (ex_reads 20) 0%Z) as Hr.
  pose proof ex_run_twice as Htwo. fold ex_run in Hr. destruct ex_run as [s [w [|a [|b []]]]]; try done.
  cbn [snd] in *. destruct Hr as [_ Hr]. apply andb_true_iff in Htwo as [[Ha Hb]%andb_true_iff Hk%bool_decide_eq_true].
  exists a, b. split_and!; [done..|]. apply (Hr Second 0 1 a b); [intros v; cbn; lia|lia|done..].
Defined.

(** With a broker that takes 40 seconds the second command is handed over 2 seconds
    after the first one was taken. *)
Definition ex_slow : Commander Z := λ _ _ _ w, (None, (w + 40 * Second)%Z).

#[local] Instance ex_slow_monotone : @MonotoneClock Z ex_clock ex_slow.
Proof.
  refine (Build_MonotoneClock Z ex_clock ex_slow (λ w, w) _ _).
  - intros w t w' [= <- <-]. exists w. split; [done|]. unfold Second. lia.
  - intros site d cmd w err w' [= <- <-]. unfold Second. lia.
Defined.

Example slow_broker :
  let run n := (@Run _ (@traced_clock Z ex_clock _) (@timed_commander Z ex_clock ex_slow ex_slow_monotone) Second
    (ex_reads n) (New "site-a" ex_policy) (0%Z, [])).2 in
  (run 1).1 = (41 * Second)%Z ∧ snt_at <$> (run 2).2 = [Second; (43 * Second)%Z].
Proof. by vm_compute. Qed.
