(* ===== verification/EdgeCache.v ===== *)
(** * internal/edge: the store-and-forward cache

    The table [mqtt_messages] of an SQLite database.  [ct_seq] is the counter
    of its AUTOINCREMENT key.  Each statement is atomic; one that fails returns
    an error and changes nothing, and takes that outcome as an argument
    ([None] for success). *)
From S2P Require Import Prelude Float64 GoTime.

(** ** The table *)

Record Row := MkRow {
  row_id : Z;
  row_topic : string;
  row_payload : string;
  row_created_at : Time;
  row_sent_at : option Time
}.

Record Cache := MkCache { ct_rows : list Row; ct_seq : Z }.

(** What [Pending] scans of a row: [SentAt] stays the zero time. *)
Record CachedMessage := MkCachedMessage {
  msg_ID : Z; msg_Topic : string; msg_Payload : string; msg_CreatedAt : Time; msg_SentAt : Time
}.

Record CacheStats := MkCacheStats {
  stats_Pending : Z; stats_Total : Z; stats_OldestPendingAt : option Time
}.

(** [migrate] on a fresh database; on an existing one it changes nothing. *)
Definition OpenCache : Cache := MkCache [] 0.

(** ** Operations *)

(** INSERT: the key is one more than any key ever used. *)
Definition Put (fault : option error) (now : Time) (topic payload : string) (c : Cache) :
    option error * Cache :=
  match fault with
  | Some err => (Some err, c)
  | None =>
      let id := (ct_seq c + 1)%Z in
      (None, MkCache (ct_rows c ++ [MkRow id topic payload now None]) id)
  end.

Definition unsent (r : Row) : Prop := row_sent_at r = None.

#[export] Instance unsent_dec r : Decision (unsent r).
Proof. unfold unsent. solve_decision. Defined.

Definition scan (r : Row) : CachedMessage :=
  MkCachedMessage (row_id r) (row_topic r) (row_payload r) (row_created_at r) zero_time.

(** WHERE sent_at IS NULL ORDER BY id ASC *)
Definition pending_rows (c : Cache) : list Row :=
  sort_slice (λ a b, (row_id a <? row_id b)%Z) (filter unsent (ct_rows c)).

Definition Pending (fault : option error) (limit : Z) (c : Cache) :
    list CachedMessage * option error :=
  let limit := if (limit <=? 0)%Z || (1000 <? limit)%Z then 100%Z else limit in
  match fault with
  | Some err => ([], Some err)
  | None => (scan <$> take (Z.to_nat limit) (pending_rows c), None)
  end.

Definition set_sent (now : Time) (id : Z) (r : Row) : Row :=
  if decide (row_id r = id)
  then MkRow (row_id r) (row_topic r) (row_payload r) (row_created_at r) (Some now) else r.

(** UPDATE ... WHERE id = ? *)
Definition MarkSent (fault : option error) (now : Time) (id : Z) (c : Cache) :
    option error * Cache :=
  match fault with
  | Some err => (Some err, c)
  | None => (None, MkCache (set_sent now id <$> ct_rows c) (ct_seq c))
  end.

(** sent_at IS NOT NULL AND sent_at < cutoff *)
Definition expired (cutoff : Time) (r : Row) : Prop :=
  match row_sent_at r with Some t => (t_wall t < t_wall cutoff)%Z | None => False end.

#[export] Instance expired_dec cutoff r : Decision (expired cutoff r).
Proof. unfold expired. destruct (row_sent_at r); apply _. Defined.

(** The number of rows affected, the error and the table. *)
Definition DeleteSentBefore (fault : option error) (cutoff : Time) (c : Cache) :
    Z * option error * Cache :=
  match fault with
  | Some err => (0%Z, Some err, c)
  | None =>
      (Z.of_nat (length (filter (expired cutoff) (ct_rows c))), None,
       MkCache (filter (λ r, ¬ expired cutoff r) (ct_rows c)) (ct_seq c))
  end.

(** Three queries; the third finds no row when nothing is pending. *)
Definition Stats (fault1 fault2 fault3 : option error) (c : Cache) : CacheStats * option error :=
  let zero := MkCacheStats 0 0 None in
  match fault1, fault2, fault3 with
  | Some err, _, _ => (zero, Some err)
  | None, Some err, _ => (zero, Some err)
  | None, None, Some err => (zero, Some err)
  | None, None, None =>
      (MkCacheStats (Z.of_nat (length (filter unsent (ct_rows c))))
         (Z.of_nat (length (ct_rows c)))
         (row_created_at <$> head (pending_rows c)), None)
  end.

(** ** Invariant *)

(** Keys increase in the order of insertion and are at most the counter. *)
Record wf (c : Cache) : Prop := {
  wf_sorted : StronglySorted Z.lt (row_id <$> ct_rows c);
  wf_seq : Forall (λ r, (row_id r ≤ ct_seq c)%Z) (ct_rows c)
}.

Lemma wf_OpenCache : wf OpenCache.
Proof. repeat constructor. Qed.

Lemma StronglySorted_snoc {A} (R : A → A → Prop) l x :
  StronglySorted R l → Forall (λ y, R y x) l → StronglySorted R (l ++ [x]).
Proof.
  induction 1 as [|y l Hl IH Hy]; intros Hx; simpl; [repeat constructor|].
  inversion Hx; subst. constructor; [auto|]. apply Forall_app. split; [done|by constructor].
Qed.

Lemma StronglySorted_filter {A B} (f : A → B) (R : B → B → Prop) (P : A → Prop)
    `{∀ x, Decision (P x)} (l : list A) :
  StronglySorted R (f <$> l) → StronglySorted R (f <$> filter P l).
Proof.
  induction l as [|x l IH]; simpl; [done|]. inversion 1 as [|? ? Hs Hx]; subst.
  rewrite filter_cons. case_decide; [|auto]. simpl. constructor; [auto|].
  rewrite Forall_fmap in Hx |- *. by apply Forall_filter'.
Qed.

Lemma set_sent_id now id r : row_id (set_sent now id r) = row_id r.
Proof. unfold set_sent. by case_decide. Qed.

Lemma fmap_set_sent_id now id (l : list Row) : row_id <$> (set_sent now id <$> l) = row_id <$> l.
Proof. rewrite <- list_fmap_compose. apply list_fmap_ext. intros. apply set_sent_id. Qed.

Lemma Put_wf fault now topic payload c : wf c → wf (Put fault now topic payload c).2.
Proof.
  intros [Hs Hb]. destruct fault; [by split|]. split; simpl.
  - rewrite fmap_app. apply StronglySorted_snoc; [done|]. rewrite Forall_fmap.
    eapply Forall_impl; [exact Hb|]. intros r Hr. simpl in *. lia.
  - apply Forall_app. split; [|by constructor; [simpl; lia|]].
    eapply Forall_impl; [exact Hb|]. intros r Hr. simpl in *. lia.
Qed.

Lemma MarkSent_wf fault now id c : wf c → wf (MarkSent fault now id c).2.
Proof.
  intros [Hs Hb]. destruct fault; [by split|]. split; simpl.
  - by rewrite fmap_set_sent_id.
  - rewrite Forall_fmap. eapply Forall_impl; [exact Hb|]. intros r. simpl. by rewrite set_sent_id.
Qed.

Lemma DeleteSentBefore_wf fault cutoff c : wf c → wf (DeleteSentBefore fault cutoff c).2.
Proof.
  intros [Hs Hb]. destruct fault; [by split|]. split; simpl.
  - by apply StronglySorted_filter.
  - by apply Forall_filter'.
Qed.

(** The sort of [Pending] finds the rows in order already. *)
Lemma sort_slice_sorted_id {A} (less : A → A → bool) l :
  StronglySorted (λ x y, less y x = false) l → sort_slice less l = l.
Proof.
  induction 1 as [|x l Hl IH Hx]; simpl; [done|]. rewrite IH. destruct l as [|y l]; [done|].
  simpl. inversion Hx; subst. by rewrite H1.
Qed.

Lemma pending_rows_filter c : wf c → pending_rows c = filter unsent (ct_rows c).
Proof.
  intros [Hs _]. unfold pending_rows. apply sort_slice_sorted_id.
  apply (StronglySorted_filter row_id Z.lt unsent) in Hs. revert Hs.
  generalize (filter unsent (ct_rows c)). induction l as [|x l IH]; simpl; [constructor|].
  inversion 1 as [|? ? Hl Hx]; subst. constructor; [auto|]. rewrite Forall_fmap in Hx.
  eapply Forall_impl; [exact Hx|]. intros y Hy. simpl in Hy. apply Z.ltb_ge. lia.
Qed.

(** Keys identify rows. *)
Lemma wf_unique c r r' :
  wf c → r ∈ ct_rows c → r' ∈ ct_rows c → row_id r = row_id r' → r = r'.
Proof.
  intros [Hs _]. revert Hs. generalize (ct_rows c). induction l as [|x l IH]; simpl; intros Hs Hr Hr' E.
  { by apply not_elem_of_nil in Hr. }
  inversion Hs as [|? ? Hl Hx]; subst. rewrite Forall_fmap, Forall_forall in Hx.
  apply elem_of_cons in Hr as [->|Hr], Hr' as [->|Hr']; [done|..|by auto].
  - specialize (Hx _ Hr'). simpl in Hx. lia.
  - specialize (Hx _ Hr). simpl in Hx. lia.
Qed.
