(* ===== verification/EdgeGateway.v ===== *)
(** * cmd/edge-gateway: capture, forward, local commands

    Local messages of the captured kinds are written to the cache; a loop
    forwards the pending ones upstream in batches and marks them sent; another
    deletes what was sent long ago.  The HTTP handlers are in EdgeHttp.v.
    The broker, the outcome of database statements and the clock act on a world
    [W] behind type classes. *)
From Stdlib Require Import Floats.SpecFloat Ascii.
From S2P Require Import Prelude Float64 GoTime World GoStrings Model Topic EdgeCache.

(** ** Configuration strings *)

Definition comma : ascii := ",".

(** The set of kinds, as the map the code builds. *)
Definition parseKindSet (raw : string) : gmap string bool :=
  foldl (λ out part,
    let kind := TrimSpace part in
    if decide (kind = "") then out else <[kind := true]> out) ∅ (Split raw comma).

Definition edgeSubscribeTopics (siteID : string) : list string :=
  [Wildcard siteID; CommandAckWildcard siteID].

Definition upstreamTopic (original prefix : string) : string :=
  let prefix := Trim prefix "/" in
  if decide (prefix = "") then original
  else prefix +:+ "/" +:+ TrimLeft original "/".

(** ** Capturing *)

(** The handler of the local client: what it writes to the cache. *)
Definition capture (kinds : gmap string bool) (fault : option error) (now : Time)
    (topic payload : string) (c : Cache) : Cache :=
  match Topic.Parse topic with
  | Some parsed =>
      if default false (kinds !! p_Kind parsed) then (Put fault now topic payload c).2 else c
  | None => c
  end.

(** ** Forwarding *)

Section Flush.
Context {W : Type} `{Clock W} `{Broker W} `{Storage W}.

(** The loop over the batch: it stops at the first failure. *)
Fixpoint flush_loop (topicPrefix : string) (pending : list CachedMessage) (c : Cache) (w : W) :
    Cache * W :=
  match pending with
  | [] => (c, w)
  | msg :: pending' =>
      let '(err, w) := Publish (upstreamTopic (msg_Topic msg) topicPrefix) (msg_Payload msg) w in
      match err with
      | Some _ => (c, w)
      | None =>
          let '(now, w) := Now w in
          let '(fault, w) := db_fault w in
          let '(err, c) := MarkSent fault now (msg_ID msg) c in
          match err with
          | Some _ => (c, w)
          | None => flush_loop topicPrefix pending' c w
          end
      end
  end.

(** [configured]: the upstream client is not nil. *)
Definition flushPending (configured : bool) (topicPrefix : string) (c : Cache) (w : W) :
    Cache * W :=
  if negb configured then (c, w) else
  let '(connected, w) := IsConnected w in
  if negb connected then (c, w) else
  let '(fault, w) := db_fault w in
  let '(pending, err) := Pending fault 100 c in
  match err with
  | Some _ => (c, w)
  | None => flush_loop topicPrefix pending c w
  end.

Definition cleanupSent (retention : Z) (c : Cache) (w : W) : Cache * W :=
  let '(now, w) := Now w in
  let '(fault, w) := db_fault w in
  let '(_, _, c) := DeleteSentBefore fault (Add now (wrap64 (- retention))) c in
  (c, w).
End Flush.

(** ** Authorization *)

Definition bearerToken (header : string) : string :=
  if HasPrefix header "Bearer " then TrimSpace (TrimPrefix header "Bearer ") else "".

(** The request's [X-VPP-Edge-Token] and [Authorization] headers; comparing in
    constant time is comparing. *)
Definition edgeAuthorized (edge_token authorization token : string) : bool :=
  let token := TrimSpace token in
  if decide (token = "") then false else
  let got := TrimSpace edge_token in
  let got := if decide (got = "") then bearerToken authorization else got in
  bool_decide (got = token).

(** ** Counters *)

(** [edgeCounter]: [uint64] counts and the labels in order of appearance. *)
Record edgeCounter := MkEdgeCounter { ec_counts : gmap string Z; ec_order : list string }.

Definition newEdgeCounter (labels : list string) : edgeCounter :=
  MkEdgeCounter (foldl (λ m label, <[label := 0%Z]> m) ∅ labels) labels.

Definition Inc (label : string) (c : edgeCounter) : edgeCounter :=
  MkEdgeCounter
    (<[label := ((default 0 (ec_counts c !! label) + 1) mod 2 ^ 64)%Z]> (ec_counts c))
    (match ec_counts c !! label with None => ec_order c ++ [label] | Some _ => ec_order c end).

(** The labels in order, then those [range] visits that are not among them. *)
Definition Snapshot (ord : list (string * Z)) (c : edgeCounter) : list (string * Z) :=
  ((λ label, (label, default 0%Z (ec_counts c !! label))) <$> ec_order c) ++
  filter (λ lv, lv.1 ∉ ec_order c) ord.

(** ** Local commands *)

Record localCommandRequest := MkLocalCommandRequest {
  lc_SiteID : string; lc_DeviceType : string; lc_DeviceID : string;
  lc_Action : string; lc_Params : gmap string json; lc_Reason : string
}.

(** [decoded] is the outcome of decoding the body. *)
Definition decodeLocalCommand (decoded : error + localCommandRequest) :
    error + localCommandRequest :=
  match decoded with
  | inl err => inl err
  | inr req =>
      let req := MkLocalCommandRequest (TrimSpace (lc_SiteID req)) (TrimSpace (lc_DeviceType req))
                   (TrimSpace (lc_DeviceID req)) (TrimSpace (lc_Action req)) (lc_Params req)
                   (TrimSpace (lc_Reason req)) in
      if decide (lc_DeviceType req = "") then inl "device_type, device_id and action are required"
      else if decide (lc_DeviceID req = "") then inl "device_type, device_id and action are required"
      else if decide (lc_Action req = "") then inl "device_type, device_id and action are required"
      else inr req
  end.

(** The command published for a request, read at two instants. *)
Definition local_command `{Location} (now1 now2 : Time) (req : localCommandRequest) : Model.Command :=
  MkCommand (lc_DeviceID req +:+ "-" +:+ format_stamp now1) (lc_Action req) (lc_Params req)
    (Unix now2) ("edge local: " +:+ lc_Reason req).

Definition boolFloat (ok : bool) : float64 := if ok then of_int 1 else fzero.

(** [since] is the reading of [time.Since] when there is a pending message. *)
Definition oldestPendingAgeSeconds (now : Time) (at_ : option Time) : float64 :=
  match at_ with
  | None => fzero
  | Some t => let age := Sub now t in if (age <? 0)%Z then fzero else Seconds age
  end.

(** ** The gateway as a system *)

(** What the forwarding goroutine is about to do: wait for its timer, publish the
    next message of a batch, or mark the message just published. *)
Inductive phase :=
  | Idle
  | Sending (batch : list CachedMessage)
  | Marking (msg : CachedMessage) (rest : list CachedMessage).

(** The cache the goroutines share, the forwarder's phase, and a record of what
    was ever written to the cache and what the upstream broker accepted. *)
Record Gateway := MkGateway {
  gw_cache : Cache;
  gw_phase : phase;
  gw_captured : list CachedMessage;
  gw_delivered : list CachedMessage
}.

Definition gw_init : Gateway := MkGateway OpenCache Idle [] [].

(** The messages the last rows of [c'] add to [c]. *)
Definition added (c c' : Cache) : list CachedMessage :=
  scan <$> drop (length (ct_rows c)) (ct_rows c').

(** One atomic action of one goroutine; the handler of local messages, the
    forwarder and the cleanup interleave freely. *)
Inductive gw_step (kinds : gmap string bool) : Gateway → Gateway → Prop :=
  | gw_capture fault now topic payload c ph cap del :
      gw_step kinds (MkGateway c ph cap del)
        (let c' := capture kinds fault now topic payload c in
         MkGateway c' ph (cap ++ added c c') del)
  | gw_load fault c cap del :
      gw_step kinds (MkGateway c Idle cap del)
        (let '(pending, err) := Pending fault 100 c in
         MkGateway c (match err with Some _ => Idle | None => Sending pending end) cap del)
  | gw_published msg rest c cap del :
      gw_step kinds (MkGateway c (Sending (msg :: rest)) cap del)
        (MkGateway c (Marking msg rest) cap (del ++ [msg]))
  | gw_publish_failed msg rest c cap del :
      gw_step kinds (MkGateway c (Sending (msg :: rest)) cap del) (MkGateway c Idle cap del)
  | gw_marked fault now msg rest c cap del :
      gw_step kinds (MkGateway c (Marking msg rest) cap del)
        (let '(err, c') := MarkSent fault now (msg_ID msg) c in
         MkGateway c' (match err with Some _ => Idle | None => Sending rest end) cap del)
  | gw_batch_done c cap del :
      gw_step kinds (MkGateway c (Sending []) cap del) (MkGateway c Idle cap del)
  | gw_cleanup fault cutoff c ph cap del :
      gw_step kinds (MkGateway c ph cap del)
        (MkGateway (DeleteSentBefore fault cutoff c).2 ph cap del).

(** The messages still to be sent, in order. *)
Definition queue (c : Cache) : list CachedMessage := scan <$> filter unsent (ct_rows c).

(** The part of the queue the forwarder works on. *)
Definition in_flight (ph : phase) : list CachedMessage :=
  match ph with Idle => [] | Sending batch => batch | Marking msg rest => msg :: rest end.

Record gw_inv (g : Gateway) : Prop := {
  inv_wf : wf (gw_cache g);
  inv_batch : in_flight (gw_phase g) `prefix_of` queue (gw_cache g);
  inv_marking : ∀ msg rest, gw_phase g = Marking msg rest → msg ∈ gw_delivered g;
  inv_captured : ∀ msg, msg ∈ gw_captured g → msg ∈ queue (gw_cache g) ∨ msg ∈ gw_delivered g;
  inv_seq : Forall (λ m, (msg_ID m ≤ ct_seq (gw_cache g))%Z) (gw_delivered g);
  inv_order : StronglySorted Z.le (msg_ID <$> gw_delivered g);
  inv_ahead : ∀ d m, d ∈ gw_delivered g → m ∈ queue (gw_cache g) → (msg_ID d ≤ msg_ID m)%Z
}.

(** *** The queue under the operations *)

Lemma queue_pending c : wf c → scan <$> pending_rows c = queue c.
Proof. intros Hc. unfold queue. by rewrite pending_rows_filter. Qed.

Lemma queue_ids c : msg_ID <$> queue c = row_id <$> filter unsent (ct_rows c).
Proof. unfold queue. by rewrite <- list_fmap_compose. Qed.

Lemma queue_sorted c : wf c → StronglySorted Z.lt (msg_ID <$> queue c).
Proof. intros [Hs _]. rewrite queue_ids. by apply StronglySorted_filter. Qed.

Lemma queue_seq c m : wf c → m ∈ queue c → (msg_ID m ≤ ct_seq c)%Z.
Proof.
  intros [_ Hb] (r & -> & [_ Hr]%list_elem_of_filter)%list_elem_of_fmap.
  rewrite Forall_forall in Hb. by apply Hb.
Qed.

Lemma capture_cases kinds fault now topic payload c :
  capture kinds fault now topic payload c = c ∨
  capture kinds fault now topic payload c =
    MkCache (ct_rows c ++ [MkRow (ct_seq c + 1) topic payload now None]) (ct_seq c + 1).
Proof.
  unfold capture, Put. destruct (Topic.Parse topic); [|by left].
  destruct (default false _), fault; auto.
Qed.

Lemma queue_snoc c r :
  unsent r → queue (MkCache (ct_rows c ++ [r]) (row_id r)) = queue c ++ [scan r].
Proof.
  intros Hr. unfold queue. simpl. rewrite filter_app, fmap_app.
  by rewrite filter_cons_True, filter_nil.
Qed.

(** Marking the head of the queue removes it from the queue, and only it. *)
Lemma filter_set_sent (l : list Row) now r rest :
  StronglySorted Z.lt (row_id <$> l) → filter unsent l = r :: rest →
  filter unsent (set_sent now (row_id r) <$> l) = rest.
Proof.
  intros Hs. induction l as [|x l IH]; simpl; [done|].
  inversion Hs as [|? ? Hl Hx]; subst. rewrite Forall_fmap in Hx. rewrite !filter_cons.
  assert (Hlater : ∀ y, y ∈ l → (row_id x < row_id y)%Z) by (by rewrite Forall_forall in Hx).
  destruct (decide (unsent x)) as [Hu|Hu].
  - intros [= -> <-]. rewrite decide_False
      by (unfold unsent, set_sent; rewrite decide_True by done; done).
    f_equal. rewrite <- (list_fmap_id l) at 2. apply list_fmap_ext. intros i y Hy.
    apply list_elem_of_lookup_2, Hlater in Hy. unfold set_sent.
    rewrite decide_False by lia. done.
  - intros Hf. rewrite decide_False; [by apply IH|]. unfold set_sent, unsent in *.
    case_decide; [done|by destruct x].
Qed.

Lemma queue_mark c now msg rest :
  wf c → queue c = msg :: rest →
  queue (MkCache (set_sent now (msg_ID msg) <$> ct_rows c) (ct_seq c)) = rest.
Proof.
  intros [Hs _] Hq. unfold queue in *. simpl.
  destruct (filter unsent (ct_rows c)) as [|r l] eqn:Ef; [done|].
  simpl in Hq. injection Hq as <- <-. simpl. by erewrite filter_set_sent.
Qed.

Lemma queue_cleanup fault cutoff c : queue (DeleteSentBefore fault cutoff c).2 = queue c.
Proof.
  destruct fault; [done|]. unfold queue. simpl. f_equal. rewrite list_filter_filter.
  apply list_filter_iff. intros r. unfold unsent, expired.
  destruct (row_sent_at r); split; [by intros [? ?]|done|by intros [? ?]|by split; [|intros []]].
Qed.

Lemma cleanup_seq fault cutoff c : ct_seq (DeleteSentBefore fault cutoff c).2 = ct_seq c.
Proof. by destruct fault. Qed.

(** *** The invariant *)

Lemma gw_inv_init : gw_inv gw_init.
Proof.
  split; simpl.
  - apply wf_OpenCache.
  - done.
  - done.
  - by intros msg ?%not_elem_of_nil.
  - done.
  - constructor.
  - by intros d m ?%not_elem_of_nil.
Qed.

Lemma gw_capture_inv kinds fault now topic payload c ph cap del :
  gw_inv (MkGateway c ph cap del) →
  let c' := capture kinds fault now topic payload c in
  gw_inv (MkGateway c' ph (cap ++ added c c') del).
Proof.
  intros [Hwf Hb Hm Hc Hs Ho Ha] c'; simpl in *. unfold added, c'.
  destruct (capture_cases kinds fault now topic payload c) as [-> | ->].
  { rewrite drop_all, app_nil_r. by split. }
  set (r := MkRow _ _ _ _ _). change (ct_seq c + 1)%Z with (row_id r).
  assert (Hq := queue_snoc c r eq_refl). simpl ct_rows. rewrite drop_app_length.
  assert (Hwf' : wf (MkCache (ct_rows c ++ [r]) (row_id r))).
  { exact (Put_wf None now topic payload c Hwf). }
  split; cbn [gw_cache gw_phase gw_captured gw_delivered]; rewrite ?Hq.
  - done.
  - by apply prefix_app_r.
  - done.
  - intros msg [Hin|Hin]%elem_of_app.
    + destruct (Hc _ Hin); [left; apply elem_of_app; by left|by right].
    + left. apply elem_of_app. by right.
  - eapply Forall_impl; [exact Hs|]. intros m Hm'. simpl in *. lia.
  - done.
  - intros d m Hd [Hin|Hin%list_elem_of_singleton]%elem_of_app; [by apply Ha|]. subst m. simpl.
    rewrite Forall_forall in Hs. specialize (Hs _ Hd). simpl in Hs. lia.
Qed.

Lemma gw_published_inv msg rest c cap del :
  gw_inv (MkGateway c (Sending (msg :: rest)) cap del) →
  gw_inv (MkGateway c (Marking msg rest) cap (del ++ [msg])).
Proof.
  intros [Hwf Hb Hm Hc Hs Ho Ha]; simpl in *.
  assert (Hin : msg ∈ queue c) by (eapply elem_of_prefix; [by left|done]).
  split; simpl; try done.
  - intros m r [= -> ->]. apply elem_of_app. right. by left.
  - intros m Hmc. destruct (Hc _ Hmc); [by left|right]. apply elem_of_app. by left.
  - apply Forall_app. split; [done|]. constructor; [|done]. by apply queue_seq.
  - rewrite fmap_app. apply StronglySorted_snoc; [done|]. rewrite Forall_fmap, Forall_forall.
    intros d Hd. by apply Ha.
  - intros d m [Hd|Hd%list_elem_of_singleton]%elem_of_app Hq; [by apply Ha|]. subst d.
    destruct Hb as [k Hk]. pose proof (queue_sorted _ Hwf) as Hsort. rewrite Hk in Hq, Hsort.
    simpl in Hq, Hsort. inversion Hsort as [|? ? _ Hall]; subst.
    apply elem_of_cons in Hq as [->|Hq]; [done|]. rewrite Forall_fmap, Forall_forall in Hall.
    specialize (Hall _ Hq). simpl in Hall. lia.
Qed.

Lemma gw_marked_inv fault now msg rest c cap del :
  gw_inv (MkGateway c (Marking msg rest) cap del) →
  gw_inv (let '(err, c') := MarkSent fault now (msg_ID msg) c in
          MkGateway c' (match err with Some _ => Idle | None => Sending rest end) cap del).
Proof.
  intros [Hwf Hb Hm Hc Hs Ho Ha]; simpl in *. pose proof (Hm msg rest eq_refl) as Hdel.
  destruct fault as [e|]; simpl.
  { split; simpl; try done. apply prefix_nil. }
  destruct Hb as [k Hk]. pose proof (queue_mark c now msg (rest ++ k) Hwf Hk) as Hq.
  split; simpl; rewrite ?Hq; try done.
  - exact (MarkSent_wf None now (msg_ID msg) c Hwf).
  - by exists k.
  - intros m Hmc. destruct (Hc _ Hmc) as [Hin|]; [|by right]. rewrite Hk in Hin. simpl in Hin.
    apply elem_of_cons in Hin as [->|Hin]; [by right|by left].
  - intros d m Hd Hin. apply Ha; [done|]. rewrite Hk. by right.
Qed.

Lemma gw_step_inv kinds g g' : gw_step kinds g g' → gw_inv g → gw_inv g'.
Proof.
  intros Hs Hi. destruct Hs.
  - by apply gw_capture_inv.
  - destruct Hi as [Hwf Hb Hm Hc Hsq Ho Ha]; cbn -[take] in *. unfold Pending. cbn -[take].
    destruct fault; split; cbn -[take]; try done.
    rewrite <- queue_pending by done. cbn -[take]. rewrite fmap_take. apply prefix_take.
  - by apply gw_published_inv.
  - destruct Hi; split; simpl in *; try done. apply prefix_nil.
  - by apply gw_marked_inv.
  - destruct Hi; split; simpl in *; try done.
  - destruct Hi as [Hwf Hb Hm Hc Hsq Ho Ha].
    split; simpl in *; rewrite ?queue_cleanup, ?cleanup_seq; try done.
    by apply DeleteSentBefore_wf.
Qed.

Lemma gw_reachable kinds g : rtc (gw_step kinds) gw_init g → gw_inv g.
Proof.
  intros Hr. assert (Hi := gw_inv_init). remember gw_init as g0. clear Heqg0.
  induction Hr; eauto using gw_step_inv.
Qed.

(** *** The forwarder is such a system *)

Section Traced.
Context {W : Type} {CL : Clock W} {BR : Broker W} {ST : Storage W}.

#[local] Existing Instance traced_clock.
#[local] Existing Instance traced_storage.
#[local] Existing Instance traced_broker.

Definition forwarded (topicPrefix : string) (m : CachedMessage) : string * string :=
  (upstreamTopic (msg_Topic m) topicPrefix, msg_Payload m).

Lemma flush_loop_steps kinds topicPrefix pending c wl cap del c' wl' :
  flush_loop topicPrefix pending c wl = (c', wl') →
  ∃ sent, wl'.2 = wl.2 ++ (forwarded topicPrefix <$> sent) ∧
    rtc (gw_step kinds) (MkGateway c (Sending pending) cap del)
      (MkGateway c' Idle cap (del ++ sent)).
Proof.
  revert c wl del. induction pending as [|msg rest IH]; cbn -[MarkSent]; intros c [w l] del Hf.
  { injection Hf as <- <-. exists []. rewrite !app_nil_r. split; [done|].
    apply rtc_once. constructor. }
  destruct (Publish _ _ w) as [[e|] w1].
  { injection Hf as <- <-. exists []. rewrite !app_nil_r. split; [done|].
    apply rtc_once. constructor. }
  rewrite traced_now in Hf. destruct (Now w1) as [now w2].
  rewrite traced_fault in Hf. destruct (db_fault w2) as [fault w3].
  pose proof (gw_published kinds msg rest c cap del) as S1.
  pose proof (gw_marked kinds fault now msg rest c cap (del ++ [msg])) as S2.
  destruct (MarkSent fault now (msg_ID msg) c) as [[e|] c1].
  - injection Hf as <- <-. exists [msg]. split; [done|].
    by eapply rtc_l, rtc_once.
  - apply (IH _ _ (del ++ [msg])) in Hf as (sent & Ht & Hr). exists (msg :: sent). split.
    + rewrite Ht. simpl. by rewrite <- app_assoc.
    + eapply rtc_l; [exact S1|]. eapply rtc_l; [exact S2|]. by rewrite <- app_assoc in Hr.
Qed.

Lemma flushPending_steps kinds configured topicPrefix c wl cap del c' wl' :
  flushPending configured topicPrefix c wl = (c', wl') →
  ∃ sent, wl'.2 = wl.2 ++ (forwarded topicPrefix <$> sent) ∧
    rtc (gw_step kinds) (MkGateway c Idle cap del) (MkGateway c' Idle cap (del ++ sent)).
Proof.
  unfold flushPending. intros Hf.
  assert (Hnone : (c', wl'.2) = (c, wl.2) → ∃ sent, wl'.2 = wl.2 ++ (forwarded topicPrefix <$> sent) ∧
    rtc (gw_step kinds) (MkGateway c Idle cap del) (MkGateway c' Idle cap (del ++ sent))).
  { intros [= -> ->]. exists []. rewrite !app_nil_r. by split. }
  destruct configured; cbn -[Pending] in Hf; [|by injection Hf as <- <-; apply Hnone].
  destruct wl as [w l]. cbn -[Pending] in Hf.
  destruct (IsConnected w) as [[] w1]; cbn -[Pending] in Hf; [|by injection Hf as <- <-; apply Hnone].
  destruct (db_fault w1) as [fault w2].
  pose proof (gw_load kinds fault c cap del) as S1.
  destruct (Pending fault 100 c) as [pending [e|]]; [by injection Hf as <- <-; apply Hnone|].
  apply (flush_loop_steps kinds _ _ _ _ cap del) in Hf as (sent & Ht & Hr).
  exists sent. split; [done|]. by eapply rtc_l.
Qed.

(** A world in which everything works. *)
Definition healthy : Prop :=
  (∀ w : W, (IsConnected w).1 = true) ∧
  (∀ (w : W) topic payload, (Publish topic payload w).1 = None) ∧
  ∀ w : W, (db_fault w).1 = None.

Lemma flush_loop_drains topicPrefix pending rest c wl :
  healthy → wf c → queue c = pending ++ rest →
  wf (flush_loop topicPrefix pending c wl).1 ∧
  queue (flush_loop topicPrefix pending c wl).1 = rest ∧
  (flush_loop topicPrefix pending c wl).2.2 = wl.2 ++ (forwarded topicPrefix <$> pending).
Proof.
  intros (_ & Hpub & Hdb). revert c wl.
  induction pending as [|msg pending IH]; cbn -[MarkSent]; intros c [w l] Hwf Hq.
  { simpl. by rewrite app_nil_r. }
  pose proof (Hpub w (upstreamTopic (msg_Topic msg) topicPrefix) (msg_Payload msg)) as Hp.
  destruct (Publish _ _ w) as [err w1]. simpl in Hp. subst err.
  rewrite traced_now. destruct (Now w1) as [now w2].
  rewrite traced_fault. pose proof (Hdb w2) as Hd. destruct (db_fault w2) as [fault w3].
  simpl in Hd. subst fault. simpl.
  destruct (IH (MkCache (set_sent now (msg_ID msg) <$> ct_rows c) (ct_seq c))
    (w3, l ++ [forwarded topicPrefix msg])) as (? & ? & Ht).
  - exact (MarkSent_wf None now (msg_ID msg) c Hwf).
  - by apply queue_mark.
  - split_and!; [done|done|]. unfold forwarded at 1 in Ht. etrans; [exact Ht|]. simpl.
    by rewrite <- app_assoc.
Qed.

Lemma flushPending_drains topicPrefix c wl :
  healthy → wf c →
  wf (flushPending true topicPrefix c wl).1 ∧
  queue (flushPending true topicPrefix c wl).1 = drop 100 (queue c) ∧
  (flushPending true topicPrefix c wl).2.2 = wl.2 ++ (forwarded topicPrefix <$> take 100 (queue c)).
Proof.
  intros Hh Hwf. pose proof Hh as (Hcon & _ & Hdb). unfold flushPending.
  destruct wl as [w l]. cbn -[Pending].
  pose proof (Hcon w) as E. destruct (IsConnected w) as [b w1]. simpl in E. subst b.
  cbn -[Pending]. pose proof (Hdb w1) as E. destruct (db_fault w1) as [fault w2]. simpl in E.
  subst fault. unfold Pending. cbn -[take drop].
  rewrite fmap_take, queue_pending by done.
  apply (flush_loop_drains topicPrefix _ _ c (w2, l)); [done|done|]. by rewrite take_drop.
Qed.
End Traced.

(** ** Lemmas on the strings and counters *)

(** The first level of a topic is decided before its first separator. *)
Lemma Split_app_sep a c b : Split (a +:+ String c b) c = Split a c ++ Split b c.
Proof.
  induction a as [|x a IH]; simpl.
  - by rewrite decide_True.
  - case_decide; [by rewrite IH|].
    rewrite IH. by destruct (Split_cons a c) as (w & ws & ->).
Qed.

Lemma parseKindSet_fold (parts : list string) (m : gmap string bool) k :
  (foldl (λ out part,
     let kind := TrimSpace part in if decide (kind = "") then out else <[kind := true]> out)
     m parts) !! k = Some true ↔
  m !! k = Some true ∨ k ≠ "" ∧ ∃ part, part ∈ parts ∧ TrimSpace part = k.
Proof.
  revert m. induction parts as [|p parts IH]; intros m; simpl.
  { split; [by left|]. intros [?|(_ & p & Hp & _)]; [done|by apply not_elem_of_nil in Hp]. }
  rewrite IH. clear IH. destruct (decide (TrimSpace p = "")) as [Ep|Ep].
  - split; (intros [?|(Hk & q & Hq & E)]; [by left|right; split; [done|]]).
    + exists q. split; [by right|done].
    + apply elem_of_cons in Hq as [->|Hq]; [congruence|by exists q].
  - rewrite lookup_insert_Some. split.
    + intros [[[<- _]|[_ Hm]]|(Hk & q & Hq & E)]; [right; split; [done|]|by left|right; split; [done|]].
      * exists p. split; [by left|done].
      * exists q. split; [by right|done].
    + intros [Hm|(Hk & q & Hq & E)].
      * left. destruct (decide (TrimSpace p = k)); [by left|by right].
      * apply elem_of_cons in Hq as [->|Hq]; [left; left; by split|right; split; [done|by exists q]].
Qed.

(** Every label with a count is in the order, once. *)
Record ec_wf (c : edgeCounter) : Prop := {
  ec_NoDup : NoDup (ec_order c);
  ec_listed : ∀ label, is_Some (ec_counts c !! label) ↔ label ∈ ec_order c
}.

Lemma newEdgeCounter_wf labels : NoDup labels → ec_wf (newEdgeCounter labels).
Proof.
  intros Hn. split; [done|]. intros label. simpl.
  assert (Hf : ∀ (m : gmap string Z), is_Some (foldl (λ m label, <[label := 0%Z]> m) m labels !! label) ↔
    is_Some (m !! label) ∨ label ∈ labels).
  { clear Hn. induction labels as [|x labels IH]; intros m; simpl.
    - split; [by left|]. by intros [?|?%not_elem_of_nil].
    - rewrite IH, lookup_insert_is_Some', elem_of_cons.
      assert (x = label ↔ label = x) by done. tauto. }
  rewrite Hf, lookup_empty. split; [by intros [[? ?]|?]|by right].
Qed.

Lemma Inc_wf label c : ec_wf c → ec_wf (Inc label c).
Proof.
  intros [Hn Hl]. unfold Inc. destruct (ec_counts c !! label) eqn:E; split; simpl.
  - done.
  - intros x. rewrite lookup_insert_is_Some', <- Hl. split; [|by right].
    intros [<-|?]; [by rewrite E; eexists|done].
  - apply NoDup_app. split_and!; [done| |apply NoDup_cons; split; [apply not_elem_of_nil|constructor]].
    intros x Hx ->%list_elem_of_singleton. apply Hl in Hx as [? ?]. congruence.
  - intros x. rewrite lookup_insert_is_Some', elem_of_app, list_elem_of_singleton, <- Hl.
    assert (label = x ↔ x = label) by done. tauto.
Qed.

(** The value of a label, zero without one. *)
Definition count (label : string) (c : edgeCounter) : Z := default 0%Z (ec_counts c !! label).

Lemma Inc_count label label' c :
  count label' (Inc label c) =
    if decide (label = label') then ((count label' c + 1) mod 2 ^ 64)%Z else count label' c.
Proof.
  unfold count, Inc. simpl. case_decide as E.
  - subst. by rewrite lookup_insert_eq.
  - by rewrite lookup_insert_ne.
Qed.

(** ** Properties *)

(** C6: No message is lost: however the handlers, the forwarder and the cleanup
    interleave and whichever statements and publications fail, every message
    ever written to the cache is still queued, unsent and unchanged, or was
    accepted by the upstream broker. *)
Theorem gateway_at_least_once kinds g :
  rtc (gw_step kinds) gw_init g →
  ∀ msg, msg ∈ gw_captured g → msg ∈ queue (gw_cache g) ∨ msg ∈ gw_delivered g.
Proof. intros Hr. apply (inv_captured _ (gw_reachable _ _ Hr)). Qed.

(** C7: Messages are forwarded in the order they were captured: the keys of the
    accepted messages never decrease, so a message repeated after a failed
    update is repeated before any later one, and nothing still queued precedes
    what was accepted. *)
Theorem gateway_in_order kinds g :
  rtc (gw_step kinds) gw_init g →
  StronglySorted Z.le (msg_ID <$> gw_delivered g) ∧
  (∀ d m, d ∈ gw_delivered g → m ∈ queue (gw_cache g) → (msg_ID d ≤ msg_ID m)%Z) ∧
  StronglySorted Z.lt (msg_ID <$> queue (gw_cache g)).
Proof.
  intros Hr. destruct (gw_reachable _ _ Hr). split_and!; [done|done|by apply queue_sorted].
Qed.

(** C8: [flushPending] is a run of that system: whatever the broker, the database
    and the clock do, it takes atomic steps of the forwarder, and what the
    broker accepted is exactly the delivered messages, each under its upstream
    topic with its payload. *)
Theorem flushPending_refines {W} {CL : Clock W} {BR : Broker W} {ST : Storage W}
    kinds configured topicPrefix c (w : W) cap del :
  let '(c', (_, accepted)) :=
    @flushPending _ traced_clock traced_broker traced_storage configured topicPrefix c (w, []) in
  ∃ sent, accepted = forwarded topicPrefix <$> sent ∧
    rtc (gw_step kinds) (MkGateway c Idle cap del) (MkGateway c' Idle cap (del ++ sent)).
Proof.
  destruct (flushPending _ _ _ _) as [c' [w' l]] eqn:E.
  by apply (flushPending_steps kinds _ _ _ _ cap del) in E.
Qed.

(** While everything works, [n] flushes forward and mark the first 100 [n]
    messages of the queue, so a queue of that length is drained. *)
Lemma flush_drains {W} {CL : Clock W} {BR : Broker W} {ST : Storage W}
    topicPrefix c (w : W) n :
  @healthy W BR ST → wf c →
  let '(c', (_, accepted)) := Nat.iter n
    (λ '(c, w), @flushPending _ traced_clock traced_broker traced_storage true topicPrefix c w)
    (c, (w, [])) in
  queue c' = drop (100 * n) (queue c) ∧
  accepted = forwarded topicPrefix <$> take (100 * n) (queue c).
Proof.
  intros Hh Hwf.
  assert (Hn : let '(c', (_, accepted)) := Nat.iter n
    (λ '(c, w), @flushPending _ traced_clock traced_broker traced_storage true topicPrefix c w)
    (c, (w, [])) in
    wf c' ∧ queue c' = drop (100 * n) (queue c) ∧
    accepted = forwarded topicPrefix <$> take (100 * n) (queue c)).
  { induction n as [|n IH]; [done|]. rewrite Nat.iter_succ.
    destruct (Nat.iter n _ _) as [c1 [w1 l1]]. destruct IH as (Hwf1 & Hq & Hl).
    destruct (flushPending_drains topicPrefix c1 (w1, l1) Hh Hwf1) as (Hw2 & Hq2 & Hl2).
    destruct (flushPending _ _ _ _) as [c2 [w2 l2]]. cbn -[take drop Nat.mul] in *.
    split; [done|]. rewrite Hq2, Hl2, Hq, Hl, drop_drop, <- fmap_app. split; [f_equal; lia|].
    f_equal. replace (100 * S n) with (100 * n + 100) by lia. apply take_take_drop. }
  by destruct (Nat.iter n _ _) as [c' [w' l']], Hn as (_ & ? & ?).
Qed.

(** Forwarding never feeds itself: a message forwarded under a prefix whose
    first level is not the platform's root is not captured again, even if both
    clients talk to the same broker. *)
Lemma forwarded_not_captured kinds fault now original prefix payload c :
  Trim prefix "/" ≠ "" → head (Split (Trim prefix "/") "/") ≠ Some "vpp" →
  capture kinds fault now (upstreamTopic original prefix) payload c = c.
Proof.
  intros Hne Hroot. unfold capture, upstreamTopic. rewrite decide_False by done.
  unfold Topic.Parse.
  change (Trim prefix "/" +:+ "/" +:+ TrimLeft original "/")
    with (Trim prefix "/" +:+ String slash (TrimLeft original "/")).
  rewrite Split_app_sep. destruct (Split_cons (Trim prefix "/") slash) as (root & ws & E).
  unfold slash in *. rewrite E in *. simpl in Hroot. simpl.
  destruct (ws ++ _) as [|? [|? [|? [|? ?]]]]; try done. rewrite decide_False; [done|congruence].
Qed.

(** The set of captured kinds is the set of non-empty trimmed parts of the
    setting. *)
Lemma parseKindSet_spec raw kind :
  parseKindSet raw !! kind = Some true ↔
  kind ≠ "" ∧ ∃ part, part ∈ Split raw comma ∧ TrimSpace part = kind.
Proof.
  unfold parseKindSet. rewrite parseKindSet_fold, lookup_empty. split; [by intros [?|?]|by right].
Qed.

(** The gateway is closed by default: a request is authorized exactly when a
    token is configured and the request presents it, in [X-VPP-Edge-Token] or,
    when that header is blank, as a bearer token. *)
Lemma edgeAuthorized_spec edge_token authorization token :
  edgeAuthorized edge_token authorization token = true ↔
  TrimSpace token ≠ "" ∧
  (TrimSpace edge_token = TrimSpace token ∨
   TrimSpace edge_token = "" ∧ HasPrefix authorization "Bearer " = true ∧
   TrimSpace (TrimPrefix authorization "Bearer ") = TrimSpace token).
Proof.
  unfold edgeAuthorized, bearerToken. destruct (decide (TrimSpace token = "")) as [Et|Et].
  { split; [done|by intros []]. }
  destruct (decide (TrimSpace edge_token = "")) as [Ee|Ee]; rewrite bool_decide_eq_true.
  - destruct (HasPrefix authorization "Bearer "); split.
    + intros E. split; [done|right; done].
    + intros (_ & [E|(_ & _ & E)]); [congruence|done].
    + intros E. congruence.
    + intros (_ & [E|(_ & E & _)]); [congruence|done].
  - split; [by split; [|left]|]. intros (_ & [E|(E & _)]); [done|by destruct Ee].
Qed.

(** Snapshots do not depend on the order a map is visited in: in every counter
    reached by increments from distinct labels, each label appears exactly
    once, in order of appearance, with the number of its increments modulo
    2^64. *)
Lemma Snapshot_deterministic labels incs ord :
  NoDup labels →
  let c := foldl (λ c label, Inc label c) (newEdgeCounter labels) incs in
  range_of (ec_counts c) ord →
  Snapshot ord c = (λ label, (label, count label c)) <$> ec_order c ∧ NoDup (ec_order c) ∧
  labels `prefix_of` ec_order c ∧
  ∀ label, count label c = (Z.of_nat (length (filter (eq label) incs)) mod 2 ^ 64)%Z.
Proof.
  intros Hn c Hr.
  assert (Hc : ec_wf c ∧ labels `prefix_of` ec_order c ∧
    ∀ label, count label c = (Z.of_nat (length (filter (eq label) incs)) mod 2 ^ 64)%Z).
  { subst c. clear Hr. induction incs as [|label incs IH] using rev_ind.
    - split_and!; [by apply newEdgeCounter_wf|done|]. intros label. unfold count. simpl.
      assert (Hz : ∀ m : gmap string Z, (∀ z, m !! label = Some z → z = 0%Z) → ∀ z,
        foldl (λ m label, <[label := 0%Z]> m) m labels !! label = Some z → z = 0%Z).
      { clear Hn. induction labels as [|x l IHl]; intros m Hm; simpl; [done|].
        apply IHl. intros z [[_ <-]|[_ ?]]%lookup_insert_Some; [done|by apply Hm]. }
      specialize (Hz ∅ ltac:(by intros z; rewrite lookup_empty)).
      destruct (foldl _ _ _ !! label) eqn:E; [by rewrite (Hz _ eq_refl)|done].
    - rewrite foldl_app. simpl. destruct IH as (Hw & Hp & Hcount).
      split_and!; [by apply Inc_wf| |].
      + unfold Inc. simpl. destruct (ec_counts _ !! label); [done|by apply prefix_app_r].
      + intros label'. rewrite Inc_count, filter_app, length_app. rewrite Hcount.
        destruct (decide (label = label')) as [->|Hne].
        * rewrite filter_cons_True, filter_nil by done. simpl.
          rewrite Zplus_mod_idemp_l. f_equal. lia.
        * rewrite filter_cons_False, filter_nil by done. simpl. f_equal. lia. }
  destruct Hc as (Hw & Hp & Hcount). split_and!; [|apply Hw|done|done].
  unfold Snapshot. replace (filter _ ord) with (@nil (string * Z)); [by rewrite app_nil_r|].
  symmetry. apply filter_none. intros [label z] Hin Hno. simpl in Hno. apply Hno.
  apply (ec_listed _ Hw). apply (range_of_elem _ _ _ _ Hr) in Hin. by eexists.
Qed.

(** ** The theorems at a concrete gateway *)

Definition ex_kinds : gmap string bool := parseKindSet "telemetry, event".
Definition ex_topic : string := Topic.Telemetry "site-a" "pv" "pv-1".
Definition ex_cache : Cache := capture ex_kinds None zero_time ex_topic "{}" OpenCache.
Definition ex_msg : CachedMessage := MkCachedMessage 1 ex_topic "{}" zero_time zero_time.
Definition ex_gateway : Gateway := MkGateway ex_cache (Marking ex_msg []) [ex_msg] [ex_msg].

Lemma ex_gateway_reachable : rtc (gw_step ex_kinds) gw_init ex_gateway.
Proof.
  apply (rtc_l _ _ (MkGateway ex_cache Idle [ex_msg] [])).
  { exact (gw_capture ex_kinds None zero_time ex_topic "{}" OpenCache Idle [] []). }
  apply (rtc_l _ _ (MkGateway ex_cache (Sending [ex_msg]) [ex_msg] [])).
  { exact (gw_load ex_kinds None ex_cache [ex_msg] []). }
  apply (rtc_l _ _ ex_gateway); [constructor|]. constructor.
Qed.

Lemma gateway_at_least_once_witness : ex_msg ∈ queue ex_cache ∨ ex_msg ∈ [ex_msg].
Proof.
  apply (gateway_at_least_once ex_kinds ex_gateway ex_gateway_reachable). by left.
Defined.

Lemma gateway_in_order_witness : StronglySorted Z.lt (msg_ID <$> queue ex_cache).
Proof. apply (gateway_in_order ex_kinds ex_gateway ex_gateway_reachable). Defined.

(** A world in which everything works. *)
Definition ex_clock : Clock unit := λ w, (zero_time, w).
Definition ex_broker : Broker unit := Build_Broker unit (λ w, (true, w)) (λ _ _ w, (None, w)).
Definition ex_storage : Storage unit := λ w, (None, w).
