(* ===== verification/Simulator.v ===== *)
(** * cmd/simulator: the simulated devices

    A photovoltaic inverter, a battery and two loads on one site: every two
    seconds their telemetry is published; commands switch the relays and the
    battery mode.  The operations are first modelled on the values, then on the
    texts that are published and received. *)
From Stdlib Require Import Floats.SpecFloat.
From S2P Require Import Prelude Float64 FloatFacts GoTime World GoStrings Model Topic State Optimizer.
From S2P Require Import Dispatch Scheduler Messages DeviceAuth.

(** ** State *)

Record simulator := MkSimulator {
  sim_siteID : string;
  sim_relays : gmap string bool;
  sim_batteryMode : string;
  sim_soc : float64;
  sim_lowSOCOpen : bool
}.

Definition newSimulator (siteID : string) : simulator :=
  MkSimulator siteID (<["load_01" := true]> (<["load_02" := true]> ∅)) "idle" (lit 65 100) false.

(** A relay nobody registered is off. *)
Definition relayOn (deviceID : string) (s : simulator) : bool :=
  default false (sim_relays s !! deviceID).

(** ** Telemetry *)

(** The state of charge after the step of the mode, and the two limits. *)
Definition battery_step_soc (s : simulator) : float64 :=
  if decide (sim_batteryMode s = "charging") then (sim_soc s + lit 5 1000)%f64
  else if decide (sim_batteryMode s = "discharging") then (sim_soc s - lit 5 1000)%f64
  else sim_soc s.

Definition battery_power (mode : string) : float64 :=
  if decide (mode = "charging") then of_int (-15)
  else if decide (mode = "discharging") then of_int 15
  else fzero.

(** The results, then the simulator after the call. *)
Definition batteryTelemetry (s : simulator) : float64 * float64 * string * simulator :=
  let power := battery_power (sim_batteryMode s) in
  let soc := battery_step_soc s in
  let mode := sim_batteryMode s in
  let '(soc, mode) := if (soc >=? lit 95 100)%f64 then (lit 95 100, "idle") else (soc, mode) in
  let '(soc, mode) := if (soc <=? lit 15 100)%f64 then (lit 15 100, "idle") else (soc, mode) in
  (soc, power, mode,
   MkSimulator (sim_siteID s) (sim_relays s) mode soc (sim_lowSOCOpen s)).

(** ** Events *)

(** The event to publish, if any; [connected] says whether there is a client. *)
Definition publishBatterySOCEvent (connected : bool) (soc : float64) (s : simulator) :
    option (string * string * string) * simulator :=
  if negb connected then (None, s) else
  let shouldWarn := (soc <=? lit 20 100)%f64 && negb (sim_lowSOCOpen s) in
  let shouldRecover := (soc >=? lit 30 100)%f64 && sim_lowSOCOpen s in
  let open_ := sim_lowSOCOpen s in
  let open_ := if shouldWarn then true else open_ in
  let open_ := if shouldRecover then false else open_ in
  let s := MkSimulator (sim_siteID s) (sim_relays s) (sim_batteryMode s) (sim_soc s) open_ in
  if shouldWarn then (Some ("warning", "low_soc", "battery SOC is below 20%"), s)
  else if shouldRecover
  then (Some ("info", "soc_recovered", "battery SOC recovered above 30%"), s)
  else (None, s).

(** The event [publishEvent] sends for a battery, before encoding, read at two
    instants: its topic and its content. *)
Definition publishEvent `{Location} (siteID deviceID severity code message : string)
    (details : gmap string json) (now1 now2 : Time) : string * DeviceEvent :=
  ("vpp/" +:+ siteID +:+ "/" +:+ DeviceBattery +:+ "/" +:+ deviceID +:+ "/event",
   MkDeviceEvent (deviceID +:+ "-" +:+ code +:+ "-" +:+ format_datetime now1) "" "" ""
     severity code message details (Unix now2) zero_time).

(** ** Commands *)

(** The two results: the value and whether it has the type. *)
Definition boolParam (params : gmap string json) (key : string) : bool * bool :=
  match params !! key with Some (JBool b) => (b, true) | _ => (false, false) end.

Definition stringParam (params : gmap string json) (key : string) : string * bool :=
  match params !! key with Some (JStr s) => (s, true) | _ => ("", false) end.

(** The switch on the action: the acknowledgement's verdict and error, and the
    simulator. *)
Definition execute (parsed : Parsed) (cmd : Model.Command) (s : simulator) :
    bool * string * simulator :=
  if decide (cmd_Action cmd = "set_relay") then
    let '(on, ok) := boolParam (cmd_Params cmd) "on" in
    if negb ok || negb (bool_decide (p_DeviceType parsed = DeviceLoad))
    then (false, "set_relay requires load device and bool params.on", s)
    else (true, "", MkSimulator (sim_siteID s) (<[p_DeviceID parsed := on]> (sim_relays s))
                      (sim_batteryMode s) (sim_soc s) (sim_lowSOCOpen s))
  else if decide (cmd_Action cmd = "set_mode") then
    let '(mode, ok) := stringParam (cmd_Params cmd) "mode" in
    if negb ok || negb (bool_decide (p_DeviceType parsed = DeviceBattery))
    then (false, "set_mode requires battery device and string params.mode", s)
    else if bool_decide (mode ≠ "charging") && bool_decide (mode ≠ "discharging") &&
            bool_decide (mode ≠ "idle")
    then (false, "unsupported battery mode (use idle/charging/discharging)", s)
    else (true, "", MkSimulator (sim_siteID s) (sim_relays s) mode (sim_soc s) (sim_lowSOCOpen s))
  else (false, "unsupported action", s).

(** What is published in answer, if anything: the topic and the acknowledgement.
    [decoded] is the outcome of decoding the payload. *)
Definition handleCommand (now : Time) (t : string) (decoded : error + Model.Command)
    (s : simulator) : option (string * CommandAck) * simulator :=
  match Topic.Parse t with
  | None => (None, s)
  | Some parsed =>
      if decide (p_Kind parsed ≠ "command") then (None, s) else
      match decoded with
      | inl _ => (None, s)
      | inr cmd =>
          let '(ok, err, s') := execute parsed cmd s in
          let ack := MkCommandAck (cmd_CommandID cmd) ok err (Unix now) in
          (Some ("vpp/" +:+ sim_siteID s +:+ "/" +:+ p_DeviceType parsed +:+ "/" +:+
                 p_DeviceID parsed +:+ "/command/ack", ack), s')
      end
  end.

(** ** One round of the loop *)

(** What one call of [publishState] sends. *)
Definition publishState (now : Time) (siteID typ id : string) (seq : Z) (state : string)
    (metrics : gmap string float64) : string * Model.Telemetry :=
  (Topic.Telemetry siteID typ id,
   MkTelemetry id "" "" (Unix now) metrics state seq).

Section Round.
Context `{Location} `{MathSin}.

Definition pv_power (now : Time) : float64 :=
  let h := (of_int (Hour now) + of_int (Minute_of now) / of_int 60)%f64 in
  math_Max fzero (of_int 90 * math_Sin ((h - of_int 6) / of_int 12 * math_Pi))%f64.

Definition load_power (base swing period : Z) (seq : Z) (on : bool) : float64 :=
  if negb on then fzero
  else (of_int base + of_int swing * math_Sin (of_int seq / of_int period))%f64.

(** The body of the loop: what is published, the event if any, and the simulator.
    [now] is the reading used for each of the messages; [on1] and [on2] are the
    relay positions read a second time, for the states. *)
Definition round (siteID : string) (seq : Z) (now : Time) (connected on1 on2 : bool)
    (s : simulator) :
    list (string * Model.Telemetry) * option (string * string * string) * simulator :=
  let pvPower := pv_power now in
  let load1 := load_power 25 5 10 seq (relayOn "load_01" s) in
  let load2 := load_power 45 10 7 seq (relayOn "load_02" s) in
  let '(soc, batteryPower, batteryState, s) := batteryTelemetry s in
  let pvState := if (pvPower == fzero)%f64 then "off" else "on" in
  let m (l : list (string * float64)) : gmap string float64 := list_to_map l in
  let pv := publishState now siteID DevicePV "pv_01" seq pvState
    (m [("voltage", of_int 18); ("current", pvPower / of_int 18)%f64; ("power", pvPower)]) in
  let battery := publishState now siteID DeviceBattery "battery_01" seq batteryState
    (m [("voltage", lit 124 10); ("current", batteryPower / lit 124 10)%f64;
        ("power", batteryPower); ("soc", soc); ("temperature", of_int 25)]) in
  let '(event, s) := publishBatterySOCEvent connected soc s in
  let load_1 := publishState now siteID DeviceLoad "load_01" seq (if on1 then "on" else "off")
    (m [("voltage", of_int 12); ("current", load1 / of_int 12)%f64; ("power", load1)]) in
  let load_2 := publishState now siteID DeviceLoad "load_02" seq (if on2 then "on" else "off")
    (m [("voltage", of_int 12); ("current", load2 / of_int 12)%f64; ("power", load2)]) in
  ([pv; battery; load_1; load_2], event, s).
End Round.

(** ** Messages as they are sent *)

(** A payload for which there is no key, or that cannot be signed, is sent as it is. *)
Definition signPayload (topic deviceID payload : string) (keys : Keys) (now : Time) : string :=
  if negb (Enabled keys) then payload
  else match keys !! deviceID with
  | None => payload
  | Some secret =>
      match SignPayload topic payload secret now with inl _ => payload | inr signed => signed end
  end.

(** The text of a message, empty when it has none, and signed. *)
Definition send (topic deviceID : string) (text : option string) (keys : Keys) (now : Time) :
    string * string :=
  (topic, signPayload topic deviceID (default "" text) keys now).

Definition send_telemetry (now signed_at : Time) (siteID typ id : string) (seq : Z) (state : string)
    (metrics : gmap string float64) (keys : Keys) : string * string :=
  let '(t, tele) := publishState now siteID typ id seq state metrics in
  send t id (marshal_telemetry tele) keys signed_at.

Definition send_event `{Location} (siteID deviceID severity code message : string)
    (details : gmap string json) (now1 now2 signed_at : Time) (keys : Keys) : string * string :=
  let '(t, event) := publishEvent siteID deviceID severity code message details now1 now2 in
  send t deviceID (marshal_event event) keys signed_at.

(** A command as it arrives, and the answer as it is sent. *)
Definition receive (now signed_at : Time) (topic payload : string) (keys : Keys) (s : simulator) :
    option (string * string) * simulator :=
  let decoded := match unmarshal_command payload with Some cmd => inr cmd | None => inl "bad command" end in
  let '(answer, s') := handleCommand now topic decoded s in
  (('(t, ack) ← answer; parsed ← Topic.Parse topic;
    Some (send t (p_DeviceID parsed) (marshal_ack ack) keys signed_at)), s').

(** ** The simulator as a system *)

(** One call under the lock: a command, a telemetry round, an event check. *)
Inductive sim_step : simulator → simulator → Prop :=
| sim_command now t decoded s : sim_step s (handleCommand now t decoded s).2
| sim_telemetry s : sim_step s (batteryTelemetry s).2
| sim_event connected soc s : sim_step s (publishBatterySOCEvent connected soc s).2.

Definition battery_modes : list string := ["idle"; "charging"; "discharging"].

Record sim_wf (s : simulator) : Prop := {
  sim_mode : sim_batteryMode s ∈ battery_modes;
  sim_valid : valid (sim_soc s);
  sim_low : fleb (lit 15 100) (sim_soc s) = true;
  sim_high : fleb (sim_soc s) (lit 95 100) = true
}.

Lemma newSimulator_wf siteID : sim_wf (newSimulator siteID).
Proof. split; [by left|by vm_compute..]. Qed.

Lemma execute_wf parsed cmd s : sim_wf s → sim_wf (execute parsed cmd s).2.
Proof.
  intros Hs. unfold execute. destruct (decide (cmd_Action cmd = "set_relay")).
  { destruct (boolParam _ _) as [on ok]. case_if; [done|]. by destruct Hs. }
  destruct (decide (cmd_Action cmd = "set_mode")); [|done].
  - destruct (stringParam _ _) as [mode ok]. case_if; [done|].
    destruct (_ && _ && _) eqn:Em; [done|]. destruct Hs. split; simpl; try done.
    unfold battery_modes. rewrite !elem_of_cons.
    rewrite !andb_false_iff, !bool_decide_eq_false in Em.
    destruct (decide (mode = "idle")), (decide (mode = "charging")),
      (decide (mode = "discharging")); tauto.
Qed.

Lemma handleCommand_wf now t decoded s : sim_wf s → sim_wf (handleCommand now t decoded s).2.
Proof.
  intros Hs. unfold handleCommand. destruct (Topic.Parse t) as [parsed|]; [|done].
  case_decide; [done|]. destruct decoded as [|cmd]; [done|].
  pose proof (execute_wf parsed cmd s Hs) as Hx.
  by destruct (execute parsed cmd s) as [[ok err] s'].
Qed.

Lemma battery_step_soc_valid s :
  sim_wf s → valid (battery_step_soc s) ∧ is_nan (battery_step_soc s) = false.
Proof.
  intros [_ Hv Hl Hh]. unfold battery_step_soc.
  assert (Hd : valid (lit 5 1000) ∧ is_nan (lit 5 1000) = false) by by vm_compute.
  assert (Hf : is_finite (sim_soc s) = true).
  { by apply (between_finite (lit 15 100) _ (lit 95 100)). }
  repeat case_decide.
  - split; [by apply fadd_valid|by apply fadd_not_nan].
  - split; [by apply fsub_valid|by apply fsub_not_nan].
  - split; [done|by destruct (sim_soc s)].
Qed.

Lemma batteryTelemetry_wf s : sim_wf s → sim_wf (batteryTelemetry s).2.
Proof.
  intros Hs. destruct (battery_step_soc_valid s Hs) as [Hv Hn]. unfold batteryTelemetry.
  destruct (fleb (lit 95 100) (battery_step_soc s)) eqn:E1.
  { replace (fleb (lit 95 100) (lit 15 100)) with false by by vm_compute.
    split; [by left|by vm_compute..]. }
  destruct (fleb (battery_step_soc s) (lit 15 100)) eqn:E2.
  { split; [by left|by vm_compute..]. }
  assert (H15 : is_nan (lit 15 100) = false) by by vm_compute.
  assert (H95 : is_nan (lit 95 100) = false) by by vm_compute.
  apply (fleb_false _ _ H95 Hn) in E1. apply (fleb_false _ _ Hn H15) in E2.
  split; [apply Hs|exact Hv|by apply fltb_fleb|by apply fltb_fleb].
Qed.

Lemma event_check_wf connected soc s : sim_wf s → sim_wf (publishBatterySOCEvent connected soc s).2.
Proof.
  intros [? ? ? ?]. unfold publishBatterySOCEvent. destruct connected; cbn [negb]; [|by split].
  repeat case_if; split; assumption.
Qed.

Lemma sim_step_wf s s' : sim_step s s' → sim_wf s → sim_wf s'.
Proof.
  intros [now t decoded s0|s0|connected soc s0] Hs;
    [by apply handleCommand_wf|by apply batteryTelemetry_wf|by apply event_check_wf].
Qed.

(** *** Events *)

(** The events of a sequence of checks, oldest first, by their codes. *)
Fixpoint event_codes (socs : list float64) (s : simulator) : list string :=
  match socs with
  | [] => []
  | soc :: socs' =>
      let '(event, s) := publishBatterySOCEvent true soc s in
      match event with
      | Some (_, code, _) => code :: event_codes socs' s
      | None => event_codes socs' s
      end
  end.

(** Warnings and recoveries taking turns; [open_] when a warning was the last. *)
Fixpoint alternating (open_ : bool) (codes : list string) : Prop :=
  match codes with
  | [] => True
  | code :: codes' =>
      code = (if open_ then "soc_recovered" else "low_soc") ∧ alternating (negb open_) codes'
  end.

Lemma event_step soc s :
  let '(event, s') := publishBatterySOCEvent true soc s in
  match event with
  | Some (_, code, _) =>
      code = (if sim_lowSOCOpen s then "soc_recovered" else "low_soc") ∧
      sim_lowSOCOpen s' = negb (sim_lowSOCOpen s)
  | None => sim_lowSOCOpen s' = sim_lowSOCOpen s
  end.
Proof.
  unfold publishBatterySOCEvent. cbn [negb].
  destruct (sim_lowSOCOpen s); rewrite ?andb_true_r, ?andb_false_r; cbn [negb].
  - by destruct (fleb (lit 30 100) soc).
  - by destruct (fleb soc (lit 20 100)).
Qed.

Lemma events_alternate socs s : alternating (sim_lowSOCOpen s) (event_codes socs s).
Proof.
  revert s. induction socs as [|soc socs IH]; intros s; [done|]. cbn [event_codes].
  pose proof (event_step soc s) as He.
  destruct (publishBatterySOCEvent true soc s) as [[[[sev code] msg]|] s'].
  - destruct He as [Hc Ho]. split; [done|]. rewrite <- Ho. apply IH.
  - rewrite <- He. apply IH.
Qed.

(** *** Commands from the platform *)

(** The command topic of a device parses to the device and the kind [command]. *)
Lemma command_topic site typ id :
  level site → level typ → level id →
  Topic.Parse (Topic.Command site typ id) = Some (MkParsed site typ id "command").
Proof.
  intros. change (Topic.Command site typ id) with (topic_of (MkParsed site typ id "command")).
  by apply (Parse_topic_of _ "command"); [..|left].
Qed.

(** The answer to a command executed with success. *)
Lemma handleCommand_ok now site typ id cmd s s' :
  level site → level typ → level id →
  execute (MkParsed site typ id "command") cmd s = (true, "", s') →
  handleCommand now (Topic.Command site typ id) (inr cmd) s =
    (Some ("vpp/" +:+ sim_siteID s +:+ "/" +:+ typ +:+ "/" +:+ id +:+ "/command/ack",
           MkCommandAck (cmd_CommandID cmd) true "" (Unix now)), s').
Proof.
  intros ? ? ? He. unfold handleCommand. rewrite command_topic by done. simpl.
  by rewrite He.
Qed.

(** A battery told to charge or discharge does. *)
Lemma execute_mode site id cmd mode s :
  cmd_Action cmd = "set_mode" → cmd_Params cmd !! "mode" = Some (JStr mode) →
  mode = "charging" ∨ mode = "discharging" →
  execute (MkParsed site DeviceBattery id "command") cmd s =
    (true, "", MkSimulator (sim_siteID s) (sim_relays s) mode (sim_soc s) (sim_lowSOCOpen s)).
Proof.
  intros Ha Hm Hmode. unfold execute, stringParam. rewrite Ha, Hm. simpl.
  by destruct Hmode as [-> | ->].
Qed.

(** A load told to switch off does. *)
Lemma execute_relay site id cmd on s :
  cmd_Action cmd = "set_relay" → cmd_Params cmd !! "on" = Some (JBool on) →
  execute (MkParsed site DeviceLoad id "command") cmd s =
    (true, "", MkSimulator (sim_siteID s) (<[id := on]> (sim_relays s)) (sim_batteryMode s)
                 (sim_soc s) (sim_lowSOCOpen s)).
Proof. intros Ha Hm. unfold execute, boolParam. by rewrite Ha, Hm. Qed.

Lemma of_type_elem site typ devices d :
  d ∈ of_type site typ devices → dev_SiteID d = site ∧ dev_Type d = typ ∧ d ∈ devices.
Proof. intros [[? ?] ?]%list_elem_of_filter. done. Qed.

(** What a device does with an attempt of the scheduler. *)
Definition understood (now : Time) (s : simulator) (a : Attempt) : Prop :=
  let d := att_device a in
  let '(answer, s') :=
    handleCommand now (Topic.Command (att_site a) (dev_Type d) (dev_ID d)) (inr (att_command a)) s in
  (∃ t, answer = Some (t, MkCommandAck (cmd_CommandID (att_command a)) true "" (Unix now))) ∧
  (dev_Type d = DeviceBattery ∧ cmd_Params (att_command a) !! "mode" =
     Some (JStr (sim_batteryMode s')) ∨
   dev_Type d = DeviceLoad ∧ relayOn (dev_ID d) s' = false ∧ dev_CriticalLoad d = false).

Lemma mode_understood now s a mode site devices :
  level (att_site a) → level (dev_ID (att_device a)) →
  att_device a ∈ of_type site DeviceBattery devices →
  cmd_Action (att_command a) = "set_mode" → cmd_Params (att_command a) = mode_params mode →
  mode = "charging" ∨ mode = "discharging" →
  understood now s a.
Proof.
  intros Hs Hd (_ & Ht & _)%of_type_elem Ha Hp Hm. unfold understood.
  assert (Hmode : cmd_Params (att_command a) !! "mode" = Some (JStr mode))
    by (rewrite Hp; apply lookup_singleton_eq).
  rewrite Ht. erewrite handleCommand_ok; [|done..|by eapply execute_mode].
  split; [by eexists|]. by left.
Qed.

Lemma shed_understood now s a site devices :
  level (att_site a) → level (dev_ID (att_device a)) →
  shed_ok site (of_type site DeviceLoad devices) a → understood now s a.
Proof.
  intros Hs Hd (_ & (_ & Ht & _)%of_type_elem & Hc & Ha & Hp). unfold understood.
  assert (Hon : cmd_Params (att_command a) !! "on" = Some (JBool false))
    by (rewrite Hp; apply lookup_singleton_eq).
  rewrite Ht. erewrite handleCommand_ok; [|done..|by eapply execute_relay].
  split; [by eexists|]. right. split_and!; [done| |done]. unfold relayOn. simpl.
  by rewrite lookup_insert_eq.
Qed.

Lemma tick_spec_understood now s policy summary devices tele site t :
  level site → Forall (λ d, level (dev_ID d)) devices →
  tick_spec policy summary devices tele site t → Forall (understood now s) t.
Proof.
  intros Hsite Hdev Hspec. rewrite Forall_forall in Hdev.
  assert (Hid : ∀ typ d, d ∈ of_type site typ devices → level (dev_ID d)).
  { intros typ d (_ & _ & ?)%of_type_elem. by apply Hdev. }
  assert (Hb : ∀ a mode, att_site a = site → att_device a ∈ of_type site DeviceBattery devices →
    cmd_Action (att_command a) = "set_mode" → cmd_Params (att_command a) = mode_params mode →
    mode = "charging" ∨ mode = "discharging" → understood now s a).
  { intros a mode Ha Hd ? ? ?. apply (mode_understood _ _ _ mode site devices); try done;
      [by rewrite Ha|by eapply Hid]. }
  destruct Hspec as [[_ Hall]|(_ & ds & sh & -> & Hds & Hsh & _)].
  - eapply Forall_impl; [exact Hall|]. intros a (? & ? & _ & ? & ?).
    apply (Hb a "charging"); auto.
  - apply Forall_app. split.
    + eapply Forall_impl; [exact Hds|]. intros a (? & ? & _ & ? & ?).
      apply (Hb a "discharging"); auto.
    + eapply Forall_impl; [exact Hsh|]. intros a Ha. pose proof Ha as (Hs & Hd & _).
      apply (shed_understood now s a site devices); [by rewrite Hs|by eapply Hid|done].
Qed.

(** ** Properties *)

(** C15: The simulated battery stays within its limits: under any commands,
    rounds and event checks its state of charge is between 0.15 and 0.95 and
    its mode is one of the three supported ones. *)
Theorem simulator_safe siteID s :
  rtc sim_step (newSimulator siteID) s →
  sim_batteryMode s ∈ battery_modes ∧
  fleb (lit 15 100) (sim_soc s) = true ∧ fleb (sim_soc s) (lit 95 100) = true.
Proof.
  intros Hr. assert (Hw := newSimulator_wf siteID). remember (newSimulator siteID) as s0.
  clear Heqs0. induction Hr as [s|s1 s2 s3 Hs Hr IH]; [by destruct Hw|].
  apply IH. by eapply sim_step_wf.
Qed.

(** Low-charge warnings and recoveries take turns, beginning with a warning,
    whatever states of charge are reported: no warning is repeated before the
    charge recovered. *)
Lemma soc_events_alternate siteID socs :
  alternating false (event_codes socs (newSimulator siteID)).
Proof. apply (events_alternate socs (newSimulator siteID)). Qed.

(** The devices understand the scheduler: every command a tick sends to a
    device whose site and name are topic levels is acknowledged as done, and
    leaves its battery in the commanded mode or its non-critical load off. *)
Lemma scheduler_commands_understood {W} {C : Clock W} {K : Commander W}
    st1 st2 st3 ord1 ord2 ord3 s (w : W) now sim :
  level (sch_siteID s) → Forall (λ d, level (dev_ID d)) (Devices ord2) →
  let '(_, (_, t)) :=
    @Tick _ traced_clock traced_commander st1 st2 st3 ord1 ord2 ord3 s (w, []) in
  Forall (understood now sim) t.
Proof.
  intros Hs Hd. destruct (Tick _ _ _ _ _ _ _ _) as [s' [w' t]] eqn:E.
  apply tick_trace in E as [_ (t' & Ht & Hspec)]. simpl in Ht. subst t'.
  by eapply tick_spec_understood.
Qed.

(** The devices understand the dispatch: the candidate command of any preview,
    sent to its device, is acknowledged as done and sets the commanded mode. *)
Lemma dispatch_command_understood `{Location} `{MathSin} now summary devices cfg pv cmd now' sim :
  BuildPreview now summary devices cfg = Some pv → pv_CandidateCommand pv = Some cmd →
  level (sum_SiteID summary) → level (pv_CandidateDeviceID pv) →
  let t := Topic.Command (sum_SiteID summary) DeviceBattery (pv_CandidateDeviceID pv) in
  let '(answer, sim') := handleCommand now' t (inr cmd) sim in
  (∃ t, answer = Some (t, MkCommandAck (cmd_CommandID cmd) true "" (Unix now'))) ∧
  cmd_Params cmd !! "mode" = Some (JStr (sim_batteryMode sim')).
Proof.
  intros Hb Hc Hs Hid t.
  destruct (preview_candidate _ _ _ _ _ _ Hb Hc) as (_ & Ha & mode & Hm & Hmode).
  unfold t. erewrite handleCommand_ok; [|done..|by eapply execute_mode].
  split; [by eexists|]. done.
Qed.

(** ** The theorems at a concrete simulator *)

Definition ex_sim : simulator := newSimulator "site-a".

Lemma simulator_safe_witness :
  fleb (lit 15 100) (sim_soc (batteryTelemetry ex_sim).2) = true.
Proof.
  apply (simulator_safe "site-a"). apply rtc_once. constructor.
Defined.
