(* ===== verification/Repository.v ===== *)
(** * internal/repository: the PostgreSQL tables

    Each table is a map from its primary key to the row; each method is its SQL
    statement.  A statement is atomic: one that fails changes nothing, and its
    outcome is an argument ([None] for success).  [db_now] is the [now()] of
    the statement.  A query that orders its rows takes the order the table is
    scanned in ([range_of]), which decides between equal rows. *)
From Stdlib Require Import Floats.SpecFloat.
From S2P Require Import Prelude Float64 GoTime GoStrings Model Json.

(** ** The tables *)

(** A TIMESTAMPTZ holds whole microseconds. *)
Definition timestamptz (t : Time) : Time := MkTime (t_wall t - t_wall t `mod` 1000) None.

(** A row of [command_records]: the nullable columns are options. *)
Record CommandRow := MkCommandRow {
  cr_site_id : string;
  cr_device_id : string;
  cr_device_type : string;
  cr_action : string;
  cr_params : gmap string json;
  cr_reason : string;
  cr_issued_at : Time;
  cr_status : string;
  cr_ack_ok : option bool;
  cr_ack_error : option string;
  cr_ack_timestamp : option Time;
  cr_updated_at : Time
}.

Record DeviceRepository := MkDeviceRepository {
  db_devices : gmap (string * string) Device;
  db_commands : gmap string CommandRow;
  db_events : gmap string DeviceEvent;
  db_audit : gmap string AuditLog
}.

(** [migrate] on a fresh database. *)
Definition migrate : DeviceRepository := MkDeviceRepository ∅ ∅ ∅ ∅.

Definition set_db_commands (f : gmap string CommandRow → gmap string CommandRow)
    (r : DeviceRepository) : DeviceRepository :=
  MkDeviceRepository (db_devices r) (f (db_commands r)) (db_events r) (db_audit r).

(** ** Devices *)

(** ON CONFLICT keeps the [created_at] of the existing row. *)
Definition Upsert (fault : option error) (now : Time) (d : Device) (r : DeviceRepository) :
    option error * DeviceRepository :=
  let created := timestamptz (if IsZero (dev_CreatedAt d) then now else dev_CreatedAt d) in
  match fault with
  | Some err => (Some err, r)
  | None =>
      let key := (dev_SiteID d, dev_ID d) in
      let created :=
        match db_devices r !! key with Some old => dev_CreatedAt old | None => created end in
      (None, MkDeviceRepository
        (<[key := MkDevice (dev_ID d) (dev_SiteID d) (dev_Type d) (dev_Name d) (dev_RatedPowerW d)
                    (dev_CapacityWh d) (dev_CriticalLoad d) created]> (db_devices r))
        (db_commands r) (db_events r) (db_audit r))
  end.

(** ORDER BY site_id, type, id, under the collation of the database. *)
Definition device_row_less (collate : string → string → bool) (a b : Device) : bool :=
  if decide (dev_SiteID a = dev_SiteID b) then
    if decide (dev_Type a = dev_Type b) then collate (dev_ID a) (dev_ID b)
    else collate (dev_Type a) (dev_Type b)
  else collate (dev_SiteID a) (dev_SiteID b).

Definition List_ (fault : option error) (collate : string → string → bool)
    (scan : list ((string * string) * Device)) : list Device * option error :=
  match fault with
  | Some err => ([], Some err)
  | None => (sort_slice (device_row_less collate) scan.*2, None)
  end.

(** ** Commands *)

Definition PutCommandIssued (fault : option error) (db_now : Time) (siteID : string) (d : Device)
    (cmd : Command) (r : DeviceRepository) : option error * DeviceRepository :=
  match Marshal (json_of_map (cmd_Params cmd)) with
  | None => (Some "json: unsupported value", r)
  | Some _ =>
      match fault with
      | Some err => (Some err, r)
      | None =>
          let row status ack_ok ack_error ack_timestamp :=
            MkCommandRow siteID (dev_ID d) (dev_Type d) (cmd_Action cmd) (cmd_Params cmd)
              (cmd_Reason cmd) (time_Unix (cmd_IssuedAt cmd)) status ack_ok ack_error
              ack_timestamp db_now in
          let new :=
            match db_commands r !! cmd_CommandID cmd with
            | None => row "issued" None None None
            | Some old =>
                row (match cr_ack_timestamp old with None => "issued" | Some _ => cr_status old end)
                  (cr_ack_ok old) (cr_ack_error old) (cr_ack_timestamp old)
            end in
          (None, set_db_commands <[cmd_CommandID cmd := new]> r)
      end
  end.

Definition ack_status (ack : CommandAck) : string := if ack_OK ack then "acked" else "failed".

Definition PutCommandAck (fault : option error) (db_now : Time) (siteID : string)
    (deviceType : DeviceType) (deviceID : string) (ack : CommandAck) (r : DeviceRepository) :
    option error * DeviceRepository :=
  match fault with
  | Some err => (Some err, r)
  | None =>
      let ackAt := time_Unix (ack_Timestamp ack) in
      let key := ack_CommandID ack in
      match db_commands r !! key with
      | None =>
          (None, set_db_commands <[key := MkCommandRow siteID deviceID deviceType "" ∅ "" ackAt
            (ack_status ack) (Some (ack_OK ack)) (Some (ack_Error ack)) (Some ackAt) db_now]> r)
      | Some old =>
          if decide (cr_device_id old = deviceID) then
            (None, set_db_commands <[key := MkCommandRow (cr_site_id old) (cr_device_id old)
              (cr_device_type old) (cr_action old) (cr_params old) (cr_reason old)
              (cr_issued_at old) (ack_status ack) (Some (ack_OK ack)) (Some (ack_Error ack))
              (Some ackAt) db_now]> r)
          else (None, r)
      end
  end.

Definition row_limit (limit : Z) : nat :=
  Z.to_nat (if (limit <=? 0)%Z || (200 <? limit)%Z then 200%Z else limit).

(** A scanned row: the acknowledgement when one of its columns is not null. *)
Definition command_record (kr : string * CommandRow) : CommandRecord :=
  let '(id, r) := kr in
  let cmd := MkCommand id (cr_action r) (cr_params r) (Unix (cr_issued_at r)) (cr_reason r) in
  let ack :=
    if bool_decide (is_Some (cr_ack_ok r)) || bool_decide (is_Some (cr_ack_error r)) ||
       bool_decide (is_Some (cr_ack_timestamp r))
    then Some (MkCommandAck id (default false (cr_ack_ok r)) (default "" (cr_ack_error r))
                 (default 0%Z (Unix <$> cr_ack_timestamp r)))
    else None in
  MkCommandRecord (cr_site_id r) (cr_device_id r) (cr_device_type r) cmd (cr_status r) ack
    (cr_updated_at r).

(** ORDER BY updated_at DESC LIMIT $1 *)
Definition ListCommands (fault : option error) (limit : Z) (scan : list (string * CommandRow)) :
    list CommandRecord * option error :=
  match fault with
  | Some err => ([], Some err)
  | None =>
      (command_record <$> take (row_limit limit)
         (sort_slice (λ a b, t_wall (cr_updated_at b.2) <? t_wall (cr_updated_at a.2))%Z scan), None)
  end.

(** ** Events and the audit trail *)

Definition PutEvent (fault : option error) (now : Time) (event : DeviceEvent)
    (r : DeviceRepository) : option error * DeviceRepository :=
  match Marshal (json_of_map (ev_Details event)) with
  | None => (Some "json: unsupported value", r)
  | Some _ =>
      let created := timestamptz (if IsZero (ev_CreatedAt event) then now else ev_CreatedAt event) in
      match fault with
      | Some err => (Some err, r)
      | None =>
          (None, MkDeviceRepository (db_devices r) (db_commands r)
            (<[ev_EventID event := MkDeviceEvent (ev_EventID event) (ev_SiteID event)
                 (ev_DeviceID event) (ev_DeviceType event) (ev_Severity event) (ev_Code event)
                 (ev_Message event) (ev_Details event)
                 (Unix (time_Unix (ev_Timestamp event))) created]> (db_events r))
            (db_audit r))
      end
  end.

Definition ListEvents (fault : option error) (limit : Z) (scan : list (string * DeviceEvent)) :
    list DeviceEvent * option error :=
  match fault with
  | Some err => ([], Some err)
  | None =>
      (take (row_limit limit)
         (sort_slice (λ a b, t_wall (ev_CreatedAt b) <? t_wall (ev_CreatedAt a))%Z scan.*2), None)
  end.

(** ON CONFLICT DO NOTHING *)
Definition PutAuditLog (fault : option error) (now : Time) (log : AuditLog)
    (r : DeviceRepository) : option error * DeviceRepository :=
  let occurred := if IsZero (al_OccurredAt log) then now else al_OccurredAt log in
  match Marshal (json_of_map (al_Details log)) with
  | None => (Some "json: unsupported value", r)
  | Some _ =>
      match fault with
      | Some err => (Some err, r)
      | None =>
          (None, MkDeviceRepository (db_devices r) (db_commands r) (db_events r)
            (match db_audit r !! al_ID log with
             | Some _ => db_audit r
             | None => <[al_ID log := MkAuditLog (al_ID log) (timestamptz occurred) (al_Actor log)
                          (al_Action log) (al_Method log) (al_Path log) (al_StatusCode log)
                          (al_ClientIP log) (al_UserAgent log) (al_Details log)]> (db_audit r)
             end))
      end
  end.

Definition ListAuditLogs (fault : option error) (limit : Z) (scan : list (string * AuditLog)) :
    list AuditLog * option error :=
  match fault with
  | Some err => ([], Some err)
  | None =>
      (take (row_limit limit)
         (sort_slice (λ a b, t_wall (al_OccurredAt b) <? t_wall (al_OccurredAt a))%Z scan.*2), None)
  end.

(** ** Lemmas *)

(** A row without the time of its last update. *)
Definition row_core (r : CommandRow) : CommandRow :=
  MkCommandRow (cr_site_id r) (cr_device_id r) (cr_device_type r) (cr_action r) (cr_params r)
    (cr_reason r) (cr_issued_at r) (cr_status r) (cr_ack_ok r) (cr_ack_error r)
    (cr_ack_timestamp r) zero_time.

(** What a row becomes when its command is issued, and when it is acknowledged by
    its device. *)
Definition issue_row (db_now : Time) (siteID : string) (d : Device) (cmd : Command)
    (old : option CommandRow) : CommandRow :=
  MkCommandRow siteID (dev_ID d) (dev_Type d) (cmd_Action cmd) (cmd_Params cmd) (cmd_Reason cmd)
    (time_Unix (cmd_IssuedAt cmd))
    (match old with
     | Some o => match cr_ack_timestamp o with None => "issued" | Some _ => cr_status o end
     | None => "issued"
     end)
    (old ≫= cr_ack_ok) (old ≫= cr_ack_error) (old ≫= cr_ack_timestamp) db_now.

Lemma PutCommandIssued_row db_now siteID d cmd r :
  is_Some (Marshal (json_of_map (cmd_Params cmd))) →
  PutCommandIssued None db_now siteID d cmd r =
    (None, set_db_commands
      <[cmd_CommandID cmd := issue_row db_now siteID d cmd (db_commands r !! cmd_CommandID cmd)]> r).
Proof.
  intros [p Hp]. unfold PutCommandIssued, issue_row. rewrite Hp.
  by destruct (db_commands r !! cmd_CommandID cmd).
Qed.

Definition ack_row (db_now : Time) (siteID : string) (typ : DeviceType) (deviceID : string)
    (ack : CommandAck) (old : option CommandRow) : CommandRow :=
  let ackAt := time_Unix (ack_Timestamp ack) in
  match old with
  | Some o => MkCommandRow (cr_site_id o) (cr_device_id o) (cr_device_type o) (cr_action o)
      (cr_params o) (cr_reason o) (cr_issued_at o) (ack_status ack) (Some (ack_OK ack))
      (Some (ack_Error ack)) (Some ackAt) db_now
  | None => MkCommandRow siteID deviceID typ "" ∅ "" ackAt (ack_status ack) (Some (ack_OK ack))
      (Some (ack_Error ack)) (Some ackAt) db_now
  end.

(** The row, if any, belongs to the device. *)
Definition own_row (deviceID : string) (old : option CommandRow) : Prop :=
  match old with Some o => cr_device_id o = deviceID | None => True end.

Lemma PutCommandAck_row db_now siteID typ deviceID ack r :
  own_row deviceID (db_commands r !! ack_CommandID ack) →
  PutCommandAck None db_now siteID typ deviceID ack r =
    (None, set_db_commands
      <[ack_CommandID ack := ack_row db_now siteID typ deviceID ack
                               (db_commands r !! ack_CommandID ack)]> r).
Proof.
  unfold PutCommandAck, ack_row, own_row. destruct (db_commands r !! ack_CommandID ack); [|done].
  intros Hd. by rewrite decide_True.
Qed.

(** The two writes of one command, in either order, on its row. *)
Lemma rows_commute db1 db2 db1' db2' site d cmd ack old :
  own_row (dev_ID d) old →
  row_core (ack_row db2 site (dev_Type d) (dev_ID d) ack (Some (issue_row db1 site d cmd old))) =
  row_core (issue_row db2' site d cmd (Some (ack_row db1' site (dev_Type d) (dev_ID d) ack old))).
Proof. intros _. by destruct old. Qed.

(** *** Listing *)

(** Taking the first rows of a sorted table leaves out none that is newer. *)
Lemma sorted_take_drop {A} (R : A → A → Prop) n (l : list A) x y :
  StronglySorted R l → x ∈ take n l → y ∈ drop n l → R x y.
Proof.
  rewrite <- (take_drop n l) at 1. generalize (take n l) (drop n l). intros l1 l2 Hs Hx Hy.
  induction l1 as [|z l1 IH]; [by apply not_elem_of_nil in Hx|].
  simpl in Hs. inversion Hs as [|? ? Hs' Hz]; subst.
  apply elem_of_cons in Hx as [->|Hx]; [|by apply IH].
  rewrite Forall_app in Hz. destruct Hz as [_ Hz]. rewrite Forall_forall in Hz. by apply Hz.
Qed.

Definition newer_first {A} (at_ : A → Time) (a b : A) : bool := (t_wall (at_ b) <? t_wall (at_ a))%Z.

Lemma newest_first_sorted {A} (at_ : A → Time) (l : list A) :
  StronglySorted (λ x y, (t_wall (at_ y) ≤ t_wall (at_ x))%Z) (sort_slice (newer_first at_) l).
Proof.
  pose proof (sort_slice_sorted (newer_first at_)) as Hs. unfold sorted_by in Hs.
  assert (Hs' : StronglySorted (λ x y, newer_first at_ y x = false) (sort_slice (newer_first at_) l)).
  { unfold newer_first in *. apply Hs; intros; rewrite ?Z.ltb_lt, ?Z.ltb_ge in *; lia. }
  clear Hs. induction Hs' as [|x l' Hl IH Hx]; constructor; [done|].
  eapply Forall_impl; [exact Hx|]. intros y Hy. by apply Z.ltb_ge.
Qed.

(** ** Properties *)

(** The record of a command does not depend on whether its issue or its
    acknowledgement is written first: unless the row belongs to another device,
    both orders give the same row up to the time of the update, with the
    command's fields and the acknowledgement's verdict, and change no other. *)
Lemma issue_ack_commute db1 db2 db1' db2' site d cmd ack r :
  is_Some (Marshal (json_of_map (cmd_Params cmd))) → ack_CommandID ack = cmd_CommandID cmd →
  own_row (dev_ID d) (db_commands r !! cmd_CommandID cmd) →
  let key := cmd_CommandID cmd in
  let r1 := (PutCommandAck None db2 site (dev_Type d) (dev_ID d) ack
               (PutCommandIssued None db1 site d cmd r).2).2 in
  let r2 := (PutCommandIssued None db2' site d cmd
               (PutCommandAck None db1' site (dev_Type d) (dev_ID d) ack r).2).2 in
  row_core <$> db_commands r1 !! key = row_core <$> db_commands r2 !! key ∧
  (∃ row, db_commands r1 !! key = Some row ∧ cr_status row = ack_status ack ∧
    cr_action row = cmd_Action cmd ∧ cr_params row = cmd_Params cmd ∧
    cr_ack_ok row = Some (ack_OK ack)) ∧
  ∀ k, k ≠ key → db_commands r1 !! k = db_commands r !! k ∧ db_commands r2 !! k = db_commands r !! k.
Proof.
  intros Hm Hid Hown key r1 r2.
  set (old := db_commands r !! key) in *.
  assert (E1 : db_commands r1 = <[key := ack_row db2 site (dev_Type d) (dev_ID d) ack
      (Some (issue_row db1 site d cmd old))]> (<[key := issue_row db1 site d cmd old]> (db_commands r))).
  { unfold r1. rewrite (PutCommandIssued_row db1 site d cmd r Hm). fold key old. cbn [snd].
    rewrite PutCommandAck_row; cbn [set_db_commands db_commands snd]; rewrite Hid; fold key;
      rewrite lookup_insert_eq; done. }
  assert (E2 : db_commands r2 = <[key := issue_row db2' site d cmd
      (Some (ack_row db1' site (dev_Type d) (dev_ID d) ack old))]>
      (<[key := ack_row db1' site (dev_Type d) (dev_ID d) ack old]> (db_commands r))).
  { unfold r2. rewrite (PutCommandAck_row db1' site _ _ ack r) by (by rewrite Hid).
    rewrite Hid. fold key old. cbn [snd]. rewrite (PutCommandIssued_row db2' site d cmd _ Hm).
    fold key. cbn [set_db_commands db_commands snd]. by rewrite lookup_insert_eq. }
  rewrite E1, E2, !lookup_insert_eq. split_and!.
  - simpl. f_equal. by apply (rows_commute db1 db2 db1' db2').
  - eexists. split; [done|]. by simpl.
  - intros k Hk. by rewrite !lookup_insert_ne.
Qed.

(** That guard is needed: an acknowledgement by another device that comes after
    the issue is ignored, but one that comes before it decides the command's
    status and stays. *)
Lemma early_foreign_ack db1 db2 site site' typ foreign d cmd ack r :
  is_Some (Marshal (json_of_map (cmd_Params cmd))) → ack_CommandID ack = cmd_CommandID cmd →
  foreign ≠ dev_ID d → db_commands r !! cmd_CommandID cmd = None →
  let key := cmd_CommandID cmd in
  let late := (PutCommandAck None db2 site' typ foreign ack
                 (PutCommandIssued None db1 site d cmd r).2).2 in
  let early := (PutCommandIssued None db2 site d cmd
                  (PutCommandAck None db1 site' typ foreign ack r).2).2 in
  (∃ row, db_commands late !! key = Some row ∧ cr_device_id row = dev_ID d ∧
    cr_status row = "issued" ∧ cr_ack_ok row = None) ∧
  ∃ row, db_commands early !! key = Some row ∧ cr_device_id row = dev_ID d ∧
    cr_status row = ack_status ack ∧ cr_ack_ok row = Some (ack_OK ack).
Proof.
  intros Hm Hid Hf Hnone key late early. split.
  - unfold late. rewrite (PutCommandIssued_row db1 site d cmd r Hm). unfold PutCommandAck. simpl.
    rewrite Hid, lookup_insert_eq, decide_False by (simpl; congruence). simpl.
    rewrite lookup_insert_eq. eexists. split; [done|]. simpl. by rewrite Hnone.
  - unfold early. rewrite (PutCommandAck_row db1 site' typ foreign ack r) by (by rewrite Hid, Hnone).
    rewrite Hid, Hnone. cbn [snd]. rewrite (PutCommandIssued_row db2 site d cmd _ Hm). simpl.
    rewrite !lookup_insert_eq. eexists. by split.
Qed.

(** Listing commands returns the most recently updated ones, newest first, at
    most 200: no row that is left out is newer than one that is returned. *)
Lemma ListCommands_newest limit scan :
  let n := row_limit limit in
  let rows := sort_slice (newer_first (λ kr : string * CommandRow, cr_updated_at kr.2)) scan in
  ListCommands None limit scan = (command_record <$> take n rows, None) ∧ n ≤ 200 ∧
  rows ≡ₚ scan ∧
  StronglySorted (λ a b, (t_wall (rec_UpdatedAt b) ≤ t_wall (rec_UpdatedAt a))%Z)
    (ListCommands None limit scan).1 ∧
  ∀ x y, x ∈ take n rows → y ∈ drop n rows →
    (t_wall (cr_updated_at y.2) ≤ t_wall (cr_updated_at x.2))%Z.
Proof.
  intros n rows. pose proof (newest_first_sorted (λ kr : string * CommandRow, cr_updated_at kr.2) scan)
    as Hs. fold rows in Hs. split_and!.
  - done.
  - unfold n, row_limit. case_if; [lia|]. guards. lia.
  - apply sort_slice_perm.
  - change (ListCommands None limit scan).1 with (command_record <$> take n rows).
    assert (Ht : StronglySorted (λ x y : string * CommandRow,
      (t_wall (cr_updated_at y.2) ≤ t_wall (cr_updated_at x.2))%Z) (take n rows)).
    { rewrite <- (take_drop n rows) in Hs. by apply StronglySorted_app_1_l in Hs. }
    induction Ht as [|x l Hl IH Hx]; simpl; constructor; [done|]. rewrite Forall_fmap.
    eapply Forall_impl; [exact Hx|]. intros [k2 y] Hy. by destruct x.
  - intros x y Hx Hy. exact (sorted_take_drop _ n rows x y Hs Hx Hy).
Qed.

(** ** The theorems at a concrete row *)

Definition ex_cmd : Command := MkCommand "c-1" "set_mode" {["mode" := JStr "charging"]} 3 "".
Definition ex_dev : Device :=
  MkDevice "battery-1" "site-a" DeviceBattery "cell" fzero fzero false zero_time.
Definition ex_ok : CommandAck := MkCommandAck "c-1" true "" 5.
