(* ===== verification/Mqtt.v ===== *)
(** * internal/mqtt: commands out, device messages in

    [PublishCommand] sends a command and records it; [handleMessage] verifies,
    decodes and stores what devices send.  The live store, the repository and
    the count of rejected messages form the state [Platform]; broker, clock and
    database outcomes come from the world.  Verification and decoding of a
    payload are interfaces ([Verifier], [Decoder]), and so are the places where a reading
    is kept besides the live store ([Sinks]). *)
From Stdlib Require Import Floats.SpecFloat.
From S2P Require Import Prelude Float64 GoTime World GoStrings Model Json Topic State Repository.
From S2P Require Import Scheduler Messages DeviceAuth.

(** ** Interfaces *)

(** [deviceauth.VerifyPayload] with the keys and the maximal skew of the client:
    topic, device, payload and the time. *)
Class Verifier := verify : string → string → string → Time → option AuthError.

(** [json.Unmarshal] of a payload into the three kinds of message. *)
Class Decoder := {
  decode_telemetry : string → error + Model.Telemetry;
  decode_ack : string → error + CommandAck;
  decode_event : string → error + DeviceEvent
}.

(** The client's own: the keys and the skew of its configuration, and package
    encoding/json. *)
Definition device_verifier (keys : Keys) (maxSkew : Z) : Verifier := λ topic deviceID payload now,
  VerifyPayload topic deviceID payload keys now maxSkew.

Definition decoded {A} (x : option A) : error + A :=
  match x with Some a => inr a | None => inl "bad json" end.

#[export] Instance json_decoder : Decoder := {|
  decode_telemetry payload := decoded (unmarshal_telemetry payload);
  decode_ack payload := decoded (unmarshal_ack payload);
  decode_event payload := decoded (unmarshal_event payload)
|}.

(** Where a reading goes besides the map of the live store: its mirror in Redis
    ([persistTelemetry], which only logs errors) and the writer of time series, when there is one. *)
Class Sinks (W : Type) := {
  persist : Model.Telemetry → W → W;
  series : option (Model.Telemetry → W → option error * W)
}.

(** Neither a mirror nor a writer. *)
Definition no_sinks {W} : Sinks W := {| persist _ w := w; series := None |}.

(** ** State *)

(** [pf_repo] is the [CommandRecorder]: [None] when there is none. *)
Record Platform := MkPlatform {
  pf_store : Store;
  pf_repo : option DeviceRepository;
  pf_rejects : gmap string Z
}.

Definition set_store (f : Store → Store) (p : Platform) : Platform :=
  MkPlatform (f (pf_store p)) (pf_repo p) (pf_rejects p).

(** A write through the recorder; its error is only logged. *)
Definition record_with (f : DeviceRepository → option error * DeviceRepository) (p : Platform) :
    Platform :=
  MkPlatform (pf_store p) ((λ r, (f r).2) <$> pf_repo p) (pf_rejects p).

Definition incrementRejected (reason : string) (p : Platform) : Platform :=
  MkPlatform (pf_store p) (pf_repo p)
    (<[reason := ((default 0 (pf_rejects p !! reason) + 1) mod 2 ^ 64)%Z]> (pf_rejects p)).

Definition RejectedMessages (p : Platform) : gmap string Z := pf_rejects p.

Definition requiresDeviceAuth (kind : string) : bool :=
  bool_decide (kind = "telemetry") || bool_decide (kind = "status") ||
  bool_decide (kind = "event") || bool_decide (kind = "command/ack").

(** ** Operations *)

Section Client.
Context {W : Type} `{Clock W} `{Broker W} `{Storage W}.

(** After the broker took a command: the live history, then the recorder. *)
Definition record_issued (siteID : string) (d : Device) (cmd : Model.Command) (p : Platform)
    (w : W) : Platform * W :=
  let '(now, w) := Now w in
  let p := set_store (State.PutCommandIssued now siteID d cmd) p in
  match pf_repo p with
  | None => (p, w)
  | Some _ =>
      let '(fault, w) := db_fault w in
      let '(db_now, w) := Now w in
      (record_with (Repository.PutCommandIssued fault db_now siteID d cmd) p, w)
  end.

Definition PublishCommand (siteID : string) (d : Device) (cmd : Model.Command) (p : Platform)
    (w : W) : option error * Platform * W :=
  match marshal_command cmd with
  | None => (Some "json: unsupported value", p, w)
  | Some payload =>
      let '(err, w) := Publish (Topic.Command siteID (dev_Type d) (dev_ID d)) payload w in
      match err with
      | Some err => (Some err, p, w)
      | None => let '(p, w) := record_issued siteID d cmd p w in (None, p, w)
      end
  end.

Context `{Sinks W} `{Verifier} `{Decoder}.

Definition set_tele (parsed : Parsed) (ts : Z) (t : Model.Telemetry) : Model.Telemetry :=
  MkTelemetry (p_DeviceID parsed) (p_SiteID parsed) (p_DeviceType parsed) ts (tel_Metrics t)
    (tel_State t) (tel_Seq t).

(** The branch of telemetry: identity from the topic, the time filled in; then the
    store, its mirror, and the time series. *)
Definition handle_telemetry (ord : list (string * Device)) (parsed : Parsed)
    (tele : Model.Telemetry) (p : Platform) (w : W) : Platform * W :=
  let '(ts, w) :=
    if (tel_Timestamp tele =? 0)%Z then let '(now, w) := Now w in (Unix now, w)
    else (tel_Timestamp tele, w) in
  let tele := set_tele parsed ts tele in
  let w := persist (fill_site ord tele (pf_store p)) w in
  let w := match series with None => w | Some write => (write tele w).2 end in
  (set_store (PutTelemetry ord tele) p, w).

Definition handle_ack (parsed : Parsed) (ack : CommandAck) (p : Platform) (w : W) : Platform * W :=
  let '(now, w) := Now w in
  let p := set_store (State.PutCommandAck now (p_DeviceID parsed) ack) p in
  match pf_repo p with
  | None => (p, w)
  | Some _ =>
      let '(fault, w) := db_fault w in
      let '(db_now, w) := Now w in
      (record_with (Repository.PutCommandAck fault db_now (p_SiteID parsed) (p_DeviceType parsed)
         (p_DeviceID parsed) ack) p, w)
  end.

Definition set_event (parsed : Parsed) (id : string) (ts : Z) (created : Time) (e : DeviceEvent) :
    DeviceEvent :=
  MkDeviceEvent id (p_SiteID parsed) (p_DeviceID parsed) (p_DeviceType parsed) (ev_Severity e)
    (ev_Code e) (ev_Message e) (ev_Details e) ts created.

Definition handle_event (parsed : Parsed) (event : DeviceEvent) (p : Platform) (w : W) :
    Platform * W :=
  let '(ts, w) :=
    if (ev_Timestamp event =? 0)%Z then let '(now, w) := Now w in (Unix now, w)
    else (ev_Timestamp event, w) in
  let '(created, w) :=
    if IsZero (ev_CreatedAt event) then Now w else (ev_CreatedAt event, w) in
  let id :=
    if decide (ev_EventID event = "") then p_DeviceID parsed +:+ "-" +:+ pretty ts
    else ev_EventID event in
  let event := set_event parsed id ts created event in
  let p := set_store (State.PutEvent event) p in
  match pf_repo p with
  | None => (p, w)
  | Some _ =>
      let '(fault, w) := db_fault w in
      let '(now, w) := Now w in
      (record_with (Repository.PutEvent fault now event) p, w)
  end.

(** The switch on the kind. *)
Definition dispatch_message (ord : list (string * Device)) (parsed : Parsed) (payload : string)
    (p : Platform) (w : W) : Platform * W :=
  if decide (p_Kind parsed = "telemetry") then
    match decode_telemetry payload with
    | inl _ => (p, w)
    | inr tele => handle_telemetry ord parsed tele p w
    end
  else if decide (p_Kind parsed = "command/ack") then
    match decode_ack payload with
    | inl _ => (p, w)
    | inr ack => handle_ack parsed ack p w
    end
  else if decide (p_Kind parsed = "command") then (p, w)
  else if decide (p_Kind parsed = "event") then
    match decode_event payload with
    | inl _ => (p, w)
    | inr event => handle_event parsed event p w
    end
  else (p, w).

Definition handleMessage (ord : list (string * Device)) (topic payload : string) (p : Platform)
    (w : W) : Platform * W :=
  match Topic.Parse topic with
  | None => (p, w)
  | Some parsed =>
      if requiresDeviceAuth (p_Kind parsed) then
        let '(now, w) := Now w in
        match verify topic (p_DeviceID parsed) payload now with
        | Some _ => (incrementRejected "auth" p, w)
        | None => dispatch_message ord parsed payload p w
        end
      else dispatch_message ord parsed payload p w
  end.
End Client.

(** The client is the scheduler's commander: the platform is part of its world. *)
#[export] Instance mqtt_clock {W} `{Clock W} : Clock (Platform * W) :=
  λ '(p, w), let '(t, w) := Now w in (t, (p, w)).
#[export] Instance mqtt_commander {W} `{Clock W} `{Broker W} `{Storage W} :
    Commander (Platform * W) :=
  λ site d cmd '(p, w), let '(err, p, w) := PublishCommand site d cmd p w in (err, (p, w)).

(** ** Lemmas *)

(** The stores a message from a device may lead to: its own telemetry, the records
    of its own commands, its own events, and never the registered devices. *)
Record own_effect (parsed : Parsed) (s s' : Store) : Prop := {
  own_devices : st_devices s' = st_devices s;
  own_site : st_siteID s' = st_siteID s;
  own_telemetry : ∀ k, (∀ site, k ≠ stateKey site (p_DeviceID parsed)) →
    st_telemetry s' !! k = st_telemetry s !! k;
  own_telemetry_site : p_SiteID parsed ≠ "" →
    ∀ k, k ≠ stateKey (p_SiteID parsed) (p_DeviceID parsed) →
    st_telemetry s' !! k = st_telemetry s !! k;
  own_commands : Forall2 (λ r r', rec_DeviceID r = rec_DeviceID r' ∧
    rec_Command r = rec_Command r' ∧
    (rec_DeviceID r ≠ p_DeviceID parsed → r' = r)) (st_commands s) (st_commands s');
  own_events : st_events s' = st_events s ∨
    ∃ e, st_events s' = take history (e :: st_events s) ∧ ev_SiteID e = p_SiteID parsed ∧
      ev_DeviceID e = p_DeviceID parsed ∧ ev_DeviceType e = p_DeviceType parsed
}.

(** The part of a row that issuing the command wrote. *)
Definition issued_part (row : CommandRow) :=
  (cr_site_id row, cr_device_id row, cr_device_type row, cr_action row, cr_params row, cr_reason row, cr_issued_at row).

(** The repositories it may lead to: the verdict of one command of a device of that name, or a row for a
    command not known yet; or the event of one identifier, under the device's identity. *)
Inductive rows_effect (parsed : Parsed) (r : DeviceRepository) : DeviceRepository → Prop :=
| rows_same : rows_effect parsed r r
| rows_ack key row :
    match db_commands r !! key with
    | Some old => cr_device_id old = p_DeviceID parsed ∧ issued_part row = issued_part old
    | None => cr_site_id row = p_SiteID parsed ∧ cr_device_id row = p_DeviceID parsed ∧ cr_action row = ""
    end → rows_effect parsed r (set_db_commands <[key := row]> r)
| rows_event event :
    ev_SiteID event = p_SiteID parsed → ev_DeviceID event = p_DeviceID parsed →
    ev_DeviceType event = p_DeviceType parsed →
    rows_effect parsed r
      (MkDeviceRepository (db_devices r) (db_commands r) (<[ev_EventID event := event]> (db_events r)) (db_audit r)).

Lemma rows_PutCommandAck fault now parsed ack r :
  rows_effect parsed r (Repository.PutCommandAck fault now (p_SiteID parsed) (p_DeviceType parsed) (p_DeviceID parsed) ack r).2.
Proof.
  unfold Repository.PutCommandAck. destruct fault; [constructor|].
  destruct (db_commands r !! ack_CommandID ack) as [old|] eqn:E; [case_decide; [|constructor]|];
    apply rows_ack; rewrite E; by split_and!.
Qed.

Lemma rows_PutEvent fault now parsed id ts created e r :
  rows_effect parsed r (Repository.PutEvent fault now (set_event parsed id ts created e) r).2.
Proof.
  unfold Repository.PutEvent. destruct (Marshal _); [|constructor]. destruct fault; [constructor|].
  cbn [snd]. refine (rows_event parsed r (MkDeviceEvent _ _ _ _ _ _ _ _ _ _) _ _ _); done.
Qed.

Lemma own_refl parsed s : own_effect parsed s s.
Proof. split; auto. apply Forall2_same_length_lookup_2; [done|]. intros i x y -> [= ->]. done. Qed.

Lemma fill_site_device ord t s :
  tel_DeviceID (fill_site ord t s) = tel_DeviceID t ∧
  (tel_SiteID t ≠ "" → tel_SiteID (fill_site ord t s) = tel_SiteID t).
Proof. unfold fill_site. by repeat case_match. Qed.

Lemma own_PutTelemetry parsed ord ts tele s :
  own_effect parsed s (PutTelemetry ord (set_tele parsed ts tele) s).
Proof.
  destruct (fill_site_device ord (set_tele parsed ts tele) s) as [Hd Hs]. simpl in Hd, Hs.
  destruct (own_refl parsed s). unfold PutTelemetry. split; simpl; try done.
  - intros k Hk. rewrite lookup_insert_ne; [done|]. rewrite Hd. intros <-. by eapply Hk.
  - intros Hne k Hk. rewrite lookup_insert_ne; [done|]. rewrite Hd, Hs by done. congruence.
Qed.

Lemma own_PutCommandAck parsed now ack s :
  own_effect parsed s (State.PutCommandAck now (p_DeviceID parsed) ack s).
Proof.
  destruct (own_refl parsed s) as [? ? ? ? Hsame ?]. split; try done. simpl. clear -Hsame.
  revert Hsame. generalize (st_commands s). intros l _.
  assert (Hid : ∀ l : list CommandRecord, Forall2 (λ r r', rec_DeviceID r = rec_DeviceID r' ∧
    rec_Command r = rec_Command r' ∧ (rec_DeviceID r ≠ p_DeviceID parsed → r' = r)) l l).
  { intros l0. by induction l0; constructor. }
  induction l as [|r l IH]; simpl; [constructor|].
  destruct (record_matches _ _ r) eqn:Em.
  - constructor; [|apply Hid]. unfold record_matches in Em. guards.
    apply bool_decide_eq_true in H. split_and!; [done|done|congruence].
  - by constructor.
Qed.

Lemma own_PutEvent parsed id ts created e s :
  own_effect parsed s (State.PutEvent (set_event parsed id ts created e) s).
Proof.
  destruct (own_refl parsed s). split; try done. right. by eexists.
Qed.

(** The kinds of message that must be signed. *)
Lemma requiresDeviceAuth_kinds kind :
  requiresDeviceAuth kind =
  bool_decide (kind ∈ ["telemetry"; "status"; "event"; "command/ack"]).
Proof.
  unfold requiresDeviceAuth. apply Bool.eq_iff_eq_true.
  rewrite !orb_true_iff, !bool_decide_eq_true, !elem_of_cons, elem_of_nil. tauto.
Qed.

Section Handling.
Context {W : Type} {CL : Clock W} {ST : Storage W} {SI : Sinks W} {VE : Verifier} {DE : Decoder}.

Lemma dispatch_own ord parsed payload p (w : W) :
  own_effect parsed (pf_store p) (pf_store (dispatch_message ord parsed payload p w).1) ∧
  pf_rejects (dispatch_message ord parsed payload p w).1 = pf_rejects p.
Proof.
  pose proof (own_refl parsed (pf_store p)) as Hr. unfold dispatch_message.
  repeat case_decide; try done.
  - destruct (decode_telemetry payload) as [|tele]; [done|]. unfold handle_telemetry.
    destruct (_ =? _)%Z; [destruct (Now w)|]; (split; [apply own_PutTelemetry|done]).
  - destruct (decode_ack payload) as [|ack]; [done|]. unfold handle_ack.
    destruct (Now w) as [now w1]. simpl. destruct (pf_repo p); [|by split; [apply own_PutCommandAck|]].
    destruct (db_fault w1) as [fault w2]. destruct (Now w2) as [db_now w3].
    split; [apply own_PutCommandAck|done].
  - destruct (decode_event payload) as [|event]; [done|]. unfold handle_event.
    destruct (if (_ =? _)%Z then _ else _) as [ts w1].
    destruct (if IsZero _ then _ else _) as [created w2]. simpl.
    destruct (pf_repo p); [|by split; [apply own_PutEvent|]].
    destruct (db_fault w2) as [fault w3]. destruct (Now w3) as [now w4].
    split; [apply own_PutEvent|done].
Qed.
End Handling.

Definition repo_effect (parsed : Parsed) (p p' : Platform) : Prop :=
  match pf_repo p with
  | None => pf_repo p' = None
  | Some r => ∃ r', pf_repo p' = Some r' ∧ rows_effect parsed r r'
  end.

Lemma repo_refl parsed p p' : pf_repo p' = pf_repo p → repo_effect parsed p p'.
Proof. unfold repo_effect. intros ->. destruct (pf_repo p) as [r|]; [|done]. exists r. split; [done|constructor]. Qed.

Lemma dispatch_rows {W} {CL : Clock W} {ST : Storage W} {SI : Sinks W} {DE : Decoder} ord parsed payload p (w : W) :
  repo_effect parsed p (dispatch_message ord parsed payload p w).1.
Proof.
  unfold dispatch_message. repeat case_decide; try by apply repo_refl.
  - destruct (decode_telemetry payload) as [|tele]; [by apply repo_refl|]. unfold handle_telemetry.
    destruct (if (_ =? _)%Z then _ else _). by apply repo_refl.
  - destruct (decode_ack payload) as [|ack]; [by apply repo_refl|]. unfold handle_ack, repo_effect.
    destruct (Now w) as [now w1]. cbn -[Repository.PutCommandAck]. destruct (pf_repo p) as [r|] eqn:E; [|done].
    destruct (db_fault w1) as [fault w2]. destruct (Now w2) as [db_now w3]. cbn -[Repository.PutCommandAck].
    rewrite E. eexists. split; [done|apply rows_PutCommandAck].
  - destruct (decode_event payload) as [|event]; [by apply repo_refl|]. unfold handle_event, repo_effect.
    destruct (if (_ =? _)%Z then _ else _) as [ts w1]. destruct (if IsZero _ then _ else _) as [created w2].
    cbn -[Repository.PutEvent]. destruct (pf_repo p) as [r|] eqn:E; [|done].
    destruct (db_fault w2) as [fault w3]. destruct (Now w3) as [now w4]. cbn -[Repository.PutEvent].
    rewrite E. eexists. split; [done|apply rows_PutEvent].
Qed.

Lemma handleMessage_rows {W} {CL : Clock W} {ST : Storage W} {SI : Sinks W} {VE : Verifier} {DE : Decoder}
    ord topic payload p (w : W) parsed :
  Topic.Parse topic = Some parsed → repo_effect parsed p (handleMessage ord topic payload p w).1.
Proof.
  intros Hp. unfold handleMessage. rewrite Hp. destruct (requiresDeviceAuth _); [|apply dispatch_rows].
  destruct (Now w) as [now w1]. destruct (verify _ _ _ _); [by apply repo_refl|apply dispatch_rows].
Qed.

Lemma handleMessage_own {W} {CL : Clock W} {ST : Storage W} {SI : Sinks W} {VE : Verifier} {DE : Decoder}
    ord topic payload p (w : W) parsed :
  Topic.Parse topic = Some parsed →
  own_effect parsed (pf_store p) (pf_store (handleMessage ord topic payload p w).1).
Proof.
  intros Hp. unfold handleMessage. rewrite Hp.
  destruct (requiresDeviceAuth _); [|apply dispatch_own].
  destruct (Now w) as [now w1]. destruct (verify _ _ _ _); [apply own_refl|].
  apply dispatch_own.
Qed.

(** ** Properties *)

(** C13: A device speaks only for itself: whatever a message holds, handling it
    changes no registered device, no telemetry but that of the device and site
    of its topic, no command record but that device's and never the command in
    it, and adds at most one event, under that identity.  Of the database it changes the verdict of
    one command of a device of that name, or adds a row for a command not
    known there; or it writes one event under its identity. *)
Theorem message_identity {W} {CL : Clock W} {ST : Storage W} {SI : Sinks W} {VE : Verifier} {DE : Decoder}
    ord topic payload p (w : W) :
  let p' := (handleMessage ord topic payload p w).1 in
  match Topic.Parse topic with
  | None => p' = p
  | Some parsed => own_effect parsed (pf_store p) (pf_store p') ∧ repo_effect parsed p p'
  end.
Proof.
  cbv zeta. destruct (Topic.Parse topic) as [parsed|] eqn:Hp; [by split; [apply handleMessage_own|apply handleMessage_rows]|].
  unfold handleMessage. by rewrite Hp.
Qed.

(** C14: Unverified messages have no effect: telemetry, events, status reports and
    acknowledgements that fail verification change nothing but the count of
    rejected messages, which goes up by one; nothing else changes the count. *)
Theorem message_authenticated {W} {CL : Clock W} {ST : Storage W} {SI : Sinks W} {VE : Verifier} {DE : Decoder}
    ord topic payload p (w : W) :
  let '(now, _) := Now w in
  let p' := (handleMessage ord topic payload p w).1 in
  match Topic.Parse topic with
  | Some parsed =>
      if bool_decide (p_Kind parsed ∈ ["telemetry"; "status"; "event"; "command/ack"]) &&
         bool_decide (is_Some (verify topic (p_DeviceID parsed) payload now))
      then p' = incrementRejected "auth" p
      else pf_rejects p' = pf_rejects p
  | None => p' = p
  end.
Proof.
  unfold handleMessage. destruct (Now w) as [now w1].
  destruct (Topic.Parse topic) as [parsed|]; [|done]. rewrite <- requiresDeviceAuth_kinds.
  destruct (requiresDeviceAuth _); simpl; [|apply dispatch_own].
  destruct (verify _ _ _ _); simpl; [done|]. apply dispatch_own.
Qed.

(** An event is stored under the identifier its device gives it, whosever event
    was there: a device can replace an event of another one, in the
    database though not in the live history. *)
Lemma event_takeover {W} {CL : Clock W} {ST : Storage W} parsed event r p (w : W) :
  (∀ w : W, (db_fault w).1 = None) → is_Some (Marshal (json_of_map (ev_Details event))) →
  ev_EventID event ≠ "" → pf_repo p = Some r →
  let p' := (handle_event parsed event p w).1 in
  (∃ r' row, pf_repo p' = Some r' ∧ db_events r' !! ev_EventID event = Some row ∧ ev_DeviceID row = p_DeviceID parsed) ∧
  ∃ e, st_events (pf_store p') = take history (e :: st_events (pf_store p)).
Proof.
  intros Hdb Hm Hid Hr. cbv zeta. unfold handle_event. destruct (if (_ =? _)%Z then _ else _) as [ts w1].
  destruct (if IsZero _ then _ else _) as [created w2]. rewrite decide_False by done.
  cbn -[Repository.PutEvent take]. rewrite Hr. pose proof (Hdb w2) as Hf. destruct (db_fault w2) as [fault w3]. cbn [fst] in Hf.
  subst fault. destruct (Now w3) as [now w4]. cbn -[Repository.PutEvent take]. rewrite Hr. split; [|by eexists].
  unfold Repository.PutEvent. cbn [ev_Details set_event ev_EventID]. destruct Hm as [x ->]. cbn [snd].
  do 2 eexists. split; [done|]. split; [apply lookup_insert_eq|done].
Qed.

(** C16: Publishing a command is atomic towards the history: when encoding or the
    broker fails, no record is made; when it succeeds, the new record is the
    first of the live history, with status issued and no acknowledgement, and
    the recorder's outcome does not matter. *)
Theorem PublishCommand_spec {W} {CL : Clock W} {BR : Broker W} {ST : Storage W} site d cmd p (w : W) :
  let '(err, p', _) := PublishCommand site d cmd p w in
  match err with
  | Some _ => p' = p
  | None =>
      ∃ now payload, marshal_command cmd = Some payload ∧
        (Publish (Topic.Command site (dev_Type d) (dev_ID d)) payload w).1 = None ∧
        st_commands (pf_store p') =
          take history (issued_record (now, site, d, cmd) :: st_commands (pf_store p)) ∧
        st_devices (pf_store p') = st_devices (pf_store p) ∧
        st_telemetry (pf_store p') = st_telemetry (pf_store p) ∧
        st_events (pf_store p') = st_events (pf_store p)
  end.
Proof.
  unfold PublishCommand. destruct (marshal_command cmd) as [payload|] eqn:Em; [|done].
  destruct (Publish _ payload w) as [[err|] w1] eqn:Ep; [done|].
  unfold record_issued. destruct (Now w1) as [now w2]. simpl. destruct (pf_repo p); simpl.
  - destruct (db_fault w2) as [fault w3]. destruct (Now w3) as [db_now w4]. simpl.
    exists now, payload. rewrite Ep. by split_and!.
  - exists now, payload. rewrite Ep. by split_and!.
Qed.

(** Unfolds the plumbing of the platform but not the operations of its parts. *)
Ltac platform_simpl :=
  cbn -[take State.PutCommandIssued State.PutCommandAck
    Repository.PutCommandIssued Repository.PutCommandAck].

(** C17: The two histories can disagree: [PublishCommand] records a command only
    after the broker took it, so a device may answer first.  Its
    acknowledgement then finds no live record and is dropped there, while the
    repository keeps it: the live history says issued, the stored one says
    acknowledged, and neither operation makes up for it. *)
Theorem early_ack_diverges {W} {CL : Clock W} {ST : Storage W} parsed site d cmd ack p r (w : W) :
  is_Some (Marshal (json_of_map (cmd_Params cmd))) → ack_CommandID ack = cmd_CommandID cmd →
  p_DeviceID parsed = dev_ID d → (∀ w : W, (db_fault w).1 = None) →
  (∀ rec, rec ∈ st_commands (pf_store p) →
    record_matches (dev_ID d) (cmd_CommandID cmd) rec = false) →
  pf_repo p = Some r → db_commands r !! cmd_CommandID cmd = None →
  let '(p1, w1) := handle_ack parsed ack p w in
  let '(p2, _) := record_issued site d cmd p1 w1 in
  (∃ now, head (st_commands (pf_store p2)) = Some (issued_record (now, site, d, cmd)) ∧
    ∀ rec, rec ∈ st_commands (pf_store p2) → rec_Ack rec = None ∨ rec ∈ st_commands (pf_store p)) ∧
  ∃ r2 row, pf_repo p2 = Some r2 ∧ db_commands r2 !! cmd_CommandID cmd = Some row ∧
    cr_status row = ack_status ack ∧ cr_ack_ok row = Some (ack_OK ack).
Proof.
  intros Hm Hid Hdev Hok Hno Hr Hnone. unfold handle_ack, record_issued.
  destruct (Now w) as [t1 w1]. platform_simpl. rewrite Hr.
  pose proof (Hok w1) as Hf. destruct (db_fault w1) as [f1 w2]. simpl in Hf. subst f1.
  destruct (Now w2) as [t2 w3]. platform_simpl.
  destruct (Now w3) as [t3 w4]. platform_simpl. rewrite Hr. platform_simpl.
  pose proof (Hok w4) as Hf. destruct (db_fault w4) as [f2 w5]. simpl in Hf. subst f2.
  destruct (Now w5) as [t4 w6]. platform_simpl. split.
  - assert (Hsame : st_commands (State.PutCommandAck t1 (p_DeviceID parsed) ack (pf_store p)) =
      st_commands (pf_store p)).
    { simpl. apply update_first_none. intros rec Hrec. rewrite Hdev, Hid. by apply Hno. }
    exists t3. rewrite PutCommandIssued_commands, Hsame. split; [done|].
    intros rec Hrec. apply elem_of_take in Hrec as (i & Hi & _).
    apply list_elem_of_lookup_2 in Hi. apply elem_of_cons in Hi as [->|Hi]; [by left|by right].
  - assert (Hrow : (Repository.PutCommandAck None t2 (p_SiteID parsed) (p_DeviceType parsed)
        (p_DeviceID parsed) ack r).2 = set_db_commands
        <[cmd_CommandID cmd := ack_row t2 (p_SiteID parsed) (p_DeviceType parsed)
            (p_DeviceID parsed) ack None]> r).
    { rewrite PutCommandAck_row by (by rewrite Hid, Hnone). by rewrite Hid, Hnone. }
    rewrite Hr. cbn [fmap option_fmap option_map].
    rewrite Hrow, (PutCommandIssued_row t4 site d cmd _ Hm).
    cbn [set_db_commands db_commands snd]. rewrite lookup_insert_eq.
    do 2 eexists. split; [done|]. cbn [set_db_commands db_commands].
    rewrite lookup_insert_eq. by split.
Qed.

(** ** The theorems at a concrete platform *)

Definition ex_world_clock : Clock unit := λ w, (zero_time, w).
Definition ex_world_storage : Storage unit := λ w, (None, w).
Definition ex_platform : Platform := MkPlatform ex_store (Some migrate) ∅.
Definition ex_parsed : Parsed := MkParsed "site-a" "battery" "battery-1" "command/ack".
Definition ex_ack : CommandAck := MkCommandAck "c-1" true "" 7.

Lemma early_ack_diverges_witness :
  let '(p1, w1) := @handle_ack unit ex_world_clock ex_world_storage ex_parsed ex_ack ex_platform tt in
  let '(p2, _) := @record_issued unit ex_world_clock ex_world_storage "site-a" ex_battery ex_issued p1 w1 in
  rec_Status <$> head (st_commands (pf_store p2)) = Some "issued" ∧
  (∃ r row, pf_repo p2 = Some r ∧ db_commands r !! "c-1" = Some row ∧ cr_status row = "acked").
Proof.
  pose proof (@early_ack_diverges unit ex_world_clock ex_world_storage ex_parsed "site-a" ex_battery
    ex_issued ex_ack ex_platform migrate tt) as Hd.
  destruct (handle_ack _ _ _ _) as [p1 w1]. destruct (record_issued _ _ _ _ _) as [p2 w2].
  destruct Hd as [(now & Hh & _) (r & row & Hr & Hrow & Hs & _)].
  - eexists. by vm_compute.
  - done.
  - done.
  - done.
  - intros rec Hrec. by apply not_elem_of_nil in Hrec.
  - done.
  - done.
  - split; [by rewrite Hh|]. by exists r, row.
Defined.
