(* ===== verification/Connect.v ===== *)
(** * internal/mqtt: TLS settings, connecting, subscriptions

    [NewTLSConfig] turns the names of files into a TLS configuration; the files
    and the X.509 library are an interface ([Certificates]).  [Connect] prepares
    the paho client of the platform, [newMQTTClient] those of the edge gateway.
    Which topics a subscription delivers is the broker's part ([FilterLaws]). *)
From Stdlib Require Import Ascii.
From S2P Require Import Prelude Float64 GoTime World GoStrings Topic DeviceAuth Config.

(** ** TLS *)

Record TLSFiles := MkTLSFiles {
  CAFile : string; CertFile : string; KeyFile : string; InsecureSkipVerify : bool
}.

(** [os.ReadFile], [x509.CertPool.AppendCertsFromPEM] on an empty pool ([None] when it
    finds no certificate) and [tls.LoadX509KeyPair]. *)
Class Certificates := {
  CertPool : Type;
  Certificate : Type;
  ReadFile : string → error + string;
  AppendCertsFromPEM : string → option CertPool;
  LoadX509KeyPair : string → string → error + Certificate
}.

Definition VersionTLS12 : Z := 0x0303.

Section TLS.
Context `{Certificates}.

Record TLSConfig := MkTLSConfig {
  tls_MinVersion : Z;
  tls_InsecureSkipVerify : bool;
  tls_RootCAs : option CertPool;
  tls_Certificates : list Certificate
}.

(** The root certificates, when a file is named. *)
Definition load_roots (files : TLSFiles) (cfg : TLSConfig) : error + TLSConfig :=
  if decide (CAFile files ≠ "") then
    match ReadFile (CAFile files) with
    | inl err => inl ("read mqtt ca file: " +:+ err)
    | inr caPEM =>
        match AppendCertsFromPEM caPEM with
        | None => inl "parse mqtt ca file: no certificates found"
        | Some roots => inr (MkTLSConfig (tls_MinVersion cfg) (tls_InsecureSkipVerify cfg) (Some roots)
                               (tls_Certificates cfg))
        end
    end
  else inr cfg.

(** The certificate of the client and its key. *)
Definition load_pair (files : TLSFiles) (cfg : TLSConfig) : error + TLSConfig :=
  if decide (CertFile files ≠ "" ∨ KeyFile files ≠ "") then
    if decide (CertFile files = "" ∨ KeyFile files = "")
    then inl "mqtt client certificate and key must be configured together"
    else match LoadX509KeyPair (CertFile files) (KeyFile files) with
         | inl err => inl ("load mqtt client certificate: " +:+ err)
         | inr cert => inr (MkTLSConfig (tls_MinVersion cfg) (tls_InsecureSkipVerify cfg) (tls_RootCAs cfg) [cert])
         end
  else inr cfg.

(** [inr None] is the result [nil, nil]: no TLS configuration. *)
Definition NewTLSConfig (files : TLSFiles) : error + option TLSConfig :=
  if decide (CAFile files = "" ∧ CertFile files = "" ∧ KeyFile files = "" ∧ InsecureSkipVerify files = false)
  then inr None
  else match load_roots files (MkTLSConfig VersionTLS12 (InsecureSkipVerify files) None []) with
       | inl err => inl err
       | inr cfg =>
           match load_pair files cfg with
           | inl err => inl err
           | inr cfg => inr (Some cfg)
           end
       end.

(** ** Clients *)

(** What the code sets of the [paho.ClientOptions]. *)
Record ClientOptions := MkClientOptions {
  opt_Broker : string;
  opt_ClientID : string;
  opt_AutoReconnect : bool;
  opt_ConnectRetry : bool;
  opt_ConnectRetryInterval : Z;
  opt_credentials : option (string * string);
  opt_TLSConfig : option TLSConfig
}.

(** The options all clients share: the broker, the identifier, credentials if there is a
    user, and TLS if it is configured. *)
Definition client_options (broker clientID username password : string) (tlsConfig : option TLSConfig) :
    ClientOptions :=
  MkClientOptions broker clientID true true (2 * Second)
    (if decide (username ≠ "") then Some (username, password) else None) tlsConfig.

(** [newMQTTClient] of the edge gateway; the handler is an argument of its caller. *)
Definition newMQTTClient (broker clientID username password : string) (tlsConfig : option TLSConfig) :
    ClientOptions := client_options broker clientID username password tlsConfig.

(** [paho.NewClient] with these options, [Connect] and waiting for the token. *)
Class Connector (W : Type) := connect : ClientOptions → W → option error * W.

(** The files of the configuration of the platform. *)
Definition mqtt_tls_files (cfg : Config) : TLSFiles :=
  MkTLSFiles (MQTTTLSCAFile cfg) (MQTTTLSCertFile cfg) (MQTTTLSKeyFile cfg) (MQTTTLSInsecure cfg).

(** The topics the on-connect handler of the platform subscribes to, with their QoS. *)
Definition mqtt_topics (cfg : Config) : list (string * Z) :=
  [(Wildcard (cfg_SiteID cfg), 1%Z); (CommandAckWildcard (cfg_SiteID cfg), 1%Z)].

(** The errors of [Connect]. *)
Inductive ConnectError :=
| KeysInvalid (err : AuthError)
| TLSInvalid (err : error)
| NotConnected (err : error).

(** [Connect]: on success the client holds the keys. *)
Definition Connect {W} `{Connector W} (cfg : Config) (w : W) : (ConnectError + Keys) * W :=
  match ParseKeys (DeviceKeys cfg) with
  | inl err => (inl (KeysInvalid err), w)
  | inr keys =>
      match NewTLSConfig (mqtt_tls_files cfg) with
      | inl err => (inl (TLSInvalid err), w)
      | inr tlsConfig =>
          let '(err, w) := connect (client_options (MQTTBroker cfg) (MQTTClientID cfg) (MQTTUsername cfg)
                             (MQTTPassword cfg) tlsConfig) w in
          match err with
          | Some err => (inl (NotConnected err), w)
          | None => (inr keys, w)
          end
      end
  end.
End TLS.

(** [configured]: the client is not nil. *)
Definition Healthy {W} `{Broker W} (configured : bool) (w : W) : option error * W :=
  if negb configured then (Some "mqtt disconnected", w) else
  let '(connected, w) := IsConnected w in
  (if connected then None else Some "mqtt disconnected", w).

(** ** Subscriptions *)

(** Topic filters of MQTT: [+] stands for one level, [#] for all that follow. *)
Fixpoint match_levels (filter topic : list string) : bool :=
  match filter, topic with
  | [], [] => true
  | f :: filter', topic =>
      if bool_decide (f = "#" ∧ filter' = []) then true else
      match topic with
      | [] => false
      | t :: topic' => (bool_decide (f = "+") || bool_decide (f = t)) && match_levels filter' topic'
      end
  | _, _ => false
  end.

(** What a broker that implements the filters delivers. *)
Class FilterLaws (delivers : string → string → bool) :=
  delivers_spec filter topic : delivers filter topic = match_levels (Split filter slash) (Split topic slash).

(** ** Lemmas on subscriptions *)

(** The name of a site that is one level and no wildcard. *)
Definition plain (site : string) : Prop := level site ∧ site ≠ "+" ∧ site ≠ "#".

Lemma Split_Wildcard site : level site → Split (Wildcard site) slash = ["vpp"; site; "+"; "+"; "+"].
Proof. intros Hs. change (Wildcard site) with (topic_of (MkParsed site "+" "+" "+")). by apply Split_topic. Qed.
Lemma Split_AckWildcard site :
  level site → Split (CommandAckWildcard site) slash = ["vpp"; site; "+"; "+"; "command"; "ack"].
Proof. intros Hs. change (CommandAckWildcard site) with (topic_of (MkParsed site "+" "+" "command/ack")). by apply Split_topic. Qed.

Lemma match_level f filter t topic :
  f ≠ "#" → match_levels (f :: filter) (t :: topic) = true ↔ (f = "+" ∨ f = t) ∧ match_levels filter topic = true.
Proof.
  intros Hf. cbn [match_levels]. rewrite bool_decide_eq_false_2 by by intros [? _].
  by rewrite andb_true_iff, orb_true_iff, !bool_decide_eq_true.
Qed.
Lemma match_short f filter : f ≠ "#" → match_levels (f :: filter) [] = false.
Proof. intros Hf. cbn [match_levels]. by rewrite bool_decide_eq_false_2 by by intros [? _]. Qed.

(** Matching a filter without [#], level by level. *)
Lemma match_levels_spec filter topic :
  Forall (λ f, f ≠ "#") filter →
  match_levels filter topic = true ↔ Forall2 (λ f t, f = "+" ∨ f = t) filter topic.
Proof.
  intros Hf. revert topic. induction Hf as [|f filter Hf _ IH]; intros topic.
  - destruct topic; cbn; split; try done; intros H; inversion H.
  - destruct topic as [|t topic].
    + rewrite match_short by done. split; [done|]. intros H. inversion H.
    + rewrite match_level, IH, Forall2_cons by done. done.
Qed.

(** The topics of a site: three levels under it, or an acknowledgement. *)
Lemma site_topic site t :
  plain site →
  (match_levels (Split (Wildcard site) slash) (Split t slash) ||
   match_levels (Split (CommandAckWildcard site) slash) (Split t slash)) = true ↔
  ∃ typ id kind, level typ ∧ level id ∧ (level kind ∨ kind = "command/ack") ∧ t = topic_of (MkParsed site typ id kind).
Proof.
  intros (Hl & Hplus & Hhash). rewrite Split_Wildcard, Split_AckWildcard, orb_true_iff by done.
  rewrite !match_levels_spec by by repeat constructor.
  assert (Hne : "vpp" ≠ "+") by done. pose proof (Split_parts t slash) as Hparts.
  pose proof (Split_Join t slash) as Ht. split.
  - intros [H|H]; repeat (apply Forall2_cons_inv_l in H as (? & ? & ? & H & E); rewrite E in *; clear E);
      apply Forall2_nil_inv_l in H; subst; repeat (apply Forall_cons in Hparts as [? Hparts]);
      repeat match goal with
      | H : "+" = "+" ∨ _ |- _ => clear H
      | H : _ ∨ _ |- _ => destruct H as [|]; [done|subst]
      end.
    + by eexists _, _, _; split_and!; [..|reflexivity]; eauto.
    + eexists _, _, "command/ack"; split_and!; [..|reflexivity]; eauto.
  - intros (typ & id & kind & Hty & Hi & Hk & ->). unfold topic_of. cbn [p_SiteID p_DeviceType p_DeviceID p_Kind].
    rewrite Split_topic by done. destruct Hk as [Hk| ->].
    + left. rewrite Split_no_sep by done. repeat (apply Forall2_cons; split; [auto|]). constructor.
    + right. change (Split "command/ack" slash) with ["command"; "ack"]. repeat (apply Forall2_cons; split; [auto|]). constructor.
Qed.

Lemma site_topic_parsed site typ id kind :
  level site → level typ → level id → level kind ∨ kind = "command/ack" →
  Parse (topic_of (MkParsed site typ id kind)) = Some (MkParsed site typ id kind).
Proof.
  intros Hs Ht Hi [Hk| ->]; [by apply (Parse_topic_of _ kind); auto|].
  apply (Parse_topic_of _ "command"); try done. right. by exists "ack".
Qed.

(** ** TLS never fails open *)

(** Without any option there is no TLS configuration, and only then; with one, what was
    asked for is in it: a named authority, the pair of the client, and the
    verification of the broker unless it was switched off explicitly. *)
Lemma NewTLSConfig_closed `{Certificates} files :
  match NewTLSConfig files with
  | inr None => files = MkTLSFiles "" "" "" false
  | inr (Some cfg) =>
      files ≠ MkTLSFiles "" "" "" false ∧ tls_MinVersion cfg = VersionTLS12 ∧
      tls_InsecureSkipVerify cfg = InsecureSkipVerify files ∧
      (tls_RootCAs cfg = None ↔ CAFile files = "") ∧
      (tls_Certificates cfg = [] ↔ CertFile files = "" ∧ KeyFile files = "")
  | inl _ => files ≠ MkTLSFiles "" "" "" false
  end.
Proof.
  destruct files as [ca cert key insecure]. unfold NewTLSConfig. cbn [CAFile CertFile KeyFile InsecureSkipVerify].
  case_decide as Hu; [destruct Hu as (-> & -> & -> & ->); done|].
  assert (Hne : MkTLSFiles ca cert key insecure ≠ MkTLSFiles "" "" "" false) by (intros [= -> -> -> ->]; by apply Hu).
  unfold load_roots. cbn [CAFile tls_MinVersion tls_InsecureSkipVerify tls_Certificates].
  assert (Hpair : ∀ roots, (roots = None ↔ ca = "") →
    match load_pair (MkTLSFiles ca cert key insecure) (MkTLSConfig VersionTLS12 insecure roots []) with
    | inl _ => True
    | inr cfg => tls_MinVersion cfg = VersionTLS12 ∧ tls_InsecureSkipVerify cfg = insecure ∧
        (tls_RootCAs cfg = None ↔ ca = "") ∧ (tls_Certificates cfg = [] ↔ cert = "" ∧ key = "")
    end).
  { intros roots Hr. unfold load_pair. cbn [CertFile KeyFile]. case_decide as Hp.
    - case_decide as Hm; [done|]. destruct (LoadX509KeyPair _ _); [done|]. split_and!; [done..|].
      split; [done|]. intros [-> ->]. by destruct Hp.
    - split_and!; [done..|]. split; [|done]. intros _.
      destruct (decide (cert = "")), (decide (key = "")); auto; exfalso; apply Hp; auto. }
  case_decide as Hca.
  - destruct (ReadFile ca) as [|pem]; [done|]. destruct (AppendCertsFromPEM pem) as [roots|]; [|done].
    specialize (Hpair (Some roots)). destruct (load_pair _ _) as [|cfg]; [done|]. split; [done|]. by apply Hpair.
  - specialize (Hpair None). destruct (load_pair _ _) as [|cfg]; [done|]. split; [done|]. apply Hpair.
    split; [|done]. intros _. by destruct (decide (ca = "")).
Qed.
