(* ===== verification/Redis.v ===== *)
(** * internal/state: the mirror of the telemetry in Redis

    With a Redis server configured, the live store writes the latest telemetry
    of every device to a hash of its site ([persistTelemetry]) and reads it back
    at start ([loadTelemetry]).  The client library is an interface ([Redis]);
    what its hash commands do is stated by [RedisLaws].  Errors of a write are only
    logged. *)
From S2P Require Import Prelude Float64 GoTime GoStrings Model State Topic.
From S2P Require Import Json JsonString JsonText JsonDecode Messages Mqtt.

(** ** The Redis client *)

(** The connected client; [HGetAll] returns the entries in the order the map it
    makes of them is visited. *)
Class Redis (W : Type) := {
  redis_Ping : W → option error * W;
  HGetAll : string → W → (error + list (string * string)) * W;
  HSet : string → string → string → W → option error * W;
  redis_Close : W → option error * W
}.

(** The hashes of the server.  A write whose answer is an error may have happened. *)
Class RedisLaws (W : Type) `{Redis W} := {
  hash : W → string → gmap string string;
  Ping_hash w : hash (redis_Ping w).2 = hash w;
  HGetAll_hash k w : hash (HGetAll k w).2 = hash w;
  HGetAll_entries k w l : (HGetAll k w).1 = inr l → l ≡ₚ map_to_list (hash w k);
  HSet_hash k f v w : (HSet k f v w).1 = None → hash (HSet k f v w).2 k = <[f := v]> (hash w k);
  HSet_failed k f v w err : (HSet k f v w).1 = Some err →
    hash (HSet k f v w).2 k = hash w k ∨ hash (HSet k f v w).2 k = <[f := v]> (hash w k)
}.

(** ** The store and its mirror *)

Definition telemetryKey (siteID : string) : string := "vpp:" +:+ siteID +:+ ":latest_telemetry".

(** [ms_redisKey] is absent when there is no client. *)
Record MirroredStore := MkMirroredStore { ms_store : Store; ms_redisKey : option string }.

Section Mirror.
Context {W : Type} `{Redis W}.

(** The body of the loop of [loadTelemetry]: a text that cannot be read is skipped. *)
Definition load_entry (siteID : string) (m : gmap string Model.Telemetry) (entry : string * string) :
    gmap string Model.Telemetry :=
  match unmarshal_telemetry entry.2 with
  | None => m
  | Some t =>
      let t := if decide (tel_DeviceID t = "")
               then MkTelemetry entry.1 (tel_SiteID t) (tel_Type t) (tel_Timestamp t) (tel_Metrics t)
                      (tel_State t) (tel_Seq t) else t in
      let t := if decide (tel_SiteID t = "") then with_site siteID t else t in
      <[stateKey (tel_SiteID t) (tel_DeviceID t) := t]> m
  end.

Definition loadTelemetry (siteID : string) (s : Store) (w : W) : (error + Store) * W :=
  let '(values, w) := HGetAll (telemetryKey siteID) w in
  match values with
  | inl err => (inl err, w)
  | inr values => (inr (set_telemetry (λ m, foldl (load_entry siteID) m values) s), w)
  end.

Definition NewRedisStore (siteID : string) (w : W) : (error + MirroredStore) * W :=
  let '(err, w) := redis_Ping w in
  match err with
  | Some err => let '(_, w) := redis_Close w in (inl err, w)
  | None =>
      let s := MkStore ∅ ∅ [] [] siteID in
      let '(loaded, w) := loadTelemetry siteID s w in
      match loaded with
      | inl err => let '(_, w) := redis_Close w in (inl err, w)
      | inr s => (inr (MkMirroredStore s (Some (telemetryKey siteID))), w)
      end
  end.

Definition persistTelemetry (t : Model.Telemetry) (ms : MirroredStore) (w : W) : W :=
  match ms_redisKey ms with
  | None => w
  | Some key =>
      match marshal_telemetry t with
      | None => w
      | Some payload => (HSet key (stateKey (tel_SiteID t) (tel_DeviceID t)) payload w).2
      end
  end.

(** [PutTelemetry]: first the map, then, outside of the lock, the mirror. *)
Definition put_mirrored (ord : list (string * Device)) (t : Model.Telemetry) (ms : MirroredStore) (w : W) :
    MirroredStore * W :=
  let ms' := MkMirroredStore (PutTelemetry ord t (ms_store ms)) (ms_redisKey ms) in
  (ms', persistTelemetry (fill_site ord t (ms_store ms)) ms' w).

Definition Ping (ms : MirroredStore) (w : W) : option error * W :=
  match ms_redisKey ms with None => (None, w) | Some _ => redis_Ping w end.
Definition Close (ms : MirroredStore) (w : W) : option error * W :=
  match ms_redisKey ms with None => (None, w) | Some _ => redis_Close w end.
End Mirror.

(** ** Lemmas *)

(** An entry under the key of the telemetry it holds, or one that cannot be read. *)
Definition own_entry (k raw : string) : Prop :=
  ∀ t, unmarshal_telemetry raw = Some t →
    tel_DeviceID t ≠ "" ∧ tel_SiteID t ≠ "" ∧ stateKey (tel_SiteID t) (tel_DeviceID t) = k.

(** A hash written by the platform alone. *)
Definition aligned (h : gmap string string) : Prop := map_Forall own_entry h.

Lemma load_own siteID m k raw :
  own_entry k raw → load_entry siteID m (k, raw) = match unmarshal_telemetry raw with None => m | Some t => <[k := t]> m end.
Proof.
  unfold load_entry. cbn [fst snd]. intros Hk. destruct (unmarshal_telemetry raw) as [t|] eqn:Et; [|done].
  destruct (Hk t Et) as (Hd & Hs & <-). cbv zeta.
  rewrite (decide_False (P := tel_DeviceID t = "")) by done. by rewrite decide_False.
Qed.

Lemma load_all siteID m l k :
  NoDup l.*1 → Forall (λ e, own_entry e.1 e.2) l →
  foldl (load_entry siteID) m l !! k =
    match (list_to_map l : gmap string string) !! k ≫= unmarshal_telemetry with Some t => Some t | None => m !! k end.
Proof.
  intros Hn Hl. revert m Hn. induction Hl as [|[f raw] l He _ IH]; intros m Hn; [done|].
  rewrite fmap_cons in Hn. apply NoDup_cons in Hn as [Hf Hn]. cbn [foldl fst snd] in *. rewrite (IH _ Hn), load_own by done.
  apply not_elem_of_list_to_map_1 in Hf as Hnone. rewrite list_to_map_cons.
  destruct (decide (k = f)) as [->|Hne].
  - rewrite Hnone, lookup_insert_eq. simpl. by destruct (unmarshal_telemetry raw); [rewrite lookup_insert_eq|].
  - rewrite (lookup_insert_ne _ f) by done. destruct (list_to_map l !! k ≫= _); [done|].
    destruct (unmarshal_telemetry raw); [by rewrite lookup_insert_ne|done].
Qed.

(** What is loaded from an aligned hash. *)
Lemma load_hash siteID (h : gmap string string) l :
  aligned h → l ≡ₚ map_to_list h → foldl (load_entry siteID) ∅ l = omap unmarshal_telemetry h.
Proof.
  intros Ha Hl. assert (Hn : NoDup l.*1) by (rewrite Hl; apply NoDup_fst_map_to_list).
  apply map_eq. intros k. rewrite load_all; [|done|].
  - rewrite lookup_omap, lookup_empty.
    assert ((list_to_map l : gmap string string) = h) as ->
      by (rewrite <- (list_to_map_to_list h); by apply list_to_map_proper).
    by destruct (h !! k ≫= _).
  - apply Forall_forall. intros [f raw] Hin. rewrite Hl in Hin. apply elem_of_map_to_list in Hin. by apply Ha.
Qed.

(** A reading that is mirrored as it is. *)
Record mirrorable (t : Model.Telemetry) : Prop := {
  mi_ok : telemetry_ok t;
  mi_finite : finite_metrics t;
  mi_device : tel_DeviceID t ≠ "";
  mi_site : tel_SiteID t ≠ ""
}.

Lemma mirrorable_text t :
  mirrorable t → ∃ raw, marshal_telemetry t = Some raw ∧ unmarshal_telemetry raw = Some t ∧
    own_entry (stateKey (tel_SiteID t) (tel_DeviceID t)) raw.
Proof.
  intros [Hok Hf Hd Hs]. destruct (telemetry_text_some t Hf) as [x Hx].
  assert (marshal_telemetry t = Some (print x)) as Hm by (unfold marshal_telemetry; by rewrite Hx).
  exists (print x). pose proof (telemetry_round_trip _ _ Hok Hm) as Hu. split_and!; [done..|].
  intros t' Ht'. by assert (t' = t) as -> by congruence.
Qed.

(** What the platform puts for a message: the content comes from a decoded text and the
    identity from the topic. *)
Lemma received_mirrorable payload t parsed ts :
  unmarshal_telemetry payload = Some t → in_int64 ts →
  utf8 (p_SiteID parsed) → utf8 (p_DeviceType parsed) → utf8 (p_DeviceID parsed) →
  p_SiteID parsed ≠ "" → p_DeviceID parsed ≠ "" → mirrorable (set_tele parsed ts t).
Proof. intros [[] Hf]%unmarshal_telemetry_ok. intros. split; [by split|done..]. Qed.

(** ** Restarts *)

Section Restart.
Context {W : Type} `{RedisLaws W}.

(** A reading arrives; the rest of the store or of the world moves on. *)
Inductive mstep : MirroredStore * W → MirroredStore * W → Prop :=
| step_put ord t ms w :
    mirrorable (fill_site ord t (ms_store ms)) → mstep (ms, w) (put_mirrored ord t ms w)
| step_store ms w s :
    st_telemetry s = st_telemetry (ms_store ms) → mstep (ms, w) (MkMirroredStore s (ms_redisKey ms), w)
| step_world ms w w' :
    hash w' = hash w → mstep (ms, w) (ms, w').

Lemma NewRedisStore_spec siteID w ms w' :
  aligned (hash w (telemetryKey siteID)) → NewRedisStore siteID w = (inr ms, w') →
  hash w' = hash w ∧ ms_redisKey ms = Some (telemetryKey siteID) ∧
  st_telemetry (ms_store ms) = omap unmarshal_telemetry (hash w (telemetryKey siteID)).
Proof.
  intros Ha. unfold NewRedisStore, loadTelemetry. pose proof (Ping_hash w) as Hp.
  destruct (redis_Ping w) as [[err|] w1]; [by destruct (redis_Close w1)|]. cbn [snd] in Hp.
  pose proof (HGetAll_hash (telemetryKey siteID) w1) as Hg.
  pose proof (HGetAll_entries (telemetryKey siteID) w1) as He.
  destruct (HGetAll _ w1) as [[err|values] w2]; [by destruct (redis_Close w2)|]. cbn [fst snd] in *.
  intros [= <- <-]. cbn. rewrite Hp in *. split; [congruence|]. split; [done|]. apply load_hash; [done|by apply He].
Qed.

Lemma persist_hash t ms (w : W) key raw :
  ms_redisKey ms = Some key → marshal_telemetry t = Some raw →
  persistTelemetry t ms w = (HSet key (stateKey (tel_SiteID t) (tel_DeviceID t)) raw w).2.
Proof. intros Hk Hr. unfold persistTelemetry. by rewrite Hk, Hr. Qed.

(** The hash after a reading: as before, or with the reading. *)
Lemma put_hash ord t ms (w : W) key :
  ms_redisKey ms = Some key → mirrorable (fill_site ord t (ms_store ms)) →
  let t' := fill_site ord t (ms_store ms) in
  let k := stateKey (tel_SiteID t') (tel_DeviceID t') in
  ∃ raw, unmarshal_telemetry raw = Some t' ∧ own_entry k raw ∧
    let h' := hash (put_mirrored ord t ms w).2 key in
    (h' = <[k := raw]> (hash w key) ∨ h' = hash w key) ∧
    ((∀ k f v (w : W), (HSet k f v w).1 = None) → h' = <[k := raw]> (hash w key)).
Proof.
  intros Hkey Hm t' k. destruct (mirrorable_text _ Hm) as (raw & Hraw & Hu & Ho). exists raw. split_and!; [done..|].
  cbv zeta. unfold put_mirrored. cbn [snd]. erewrite persist_hash by done. fold t'. fold k.
  pose proof (HSet_hash key k raw w) as Hs. pose proof (HSet_failed key k raw w) as Hf.
  split.
  - destruct (HSet key k raw w).1 as [err|]; [|left; by apply Hs]. destruct (Hf _ eq_refl); auto.
  - intros Hw. apply Hs, Hw.
Qed.

(** The first store, and one that steps lead to: what the hash can be read as was the
    telemetry of the key at some time. *)
Record mirrored (key : string) (x y : MirroredStore * W) : Prop := {
  mr_key : ms_redisKey y.1 = Some key;
  mr_aligned : aligned (hash y.2 key);
  mr_past : map_Forall (λ k t, ∃ z, rtc mstep x z ∧ rtc mstep z y ∧ st_telemetry (ms_store z.1) !! k = Some t)
    (omap unmarshal_telemetry (hash y.2 key));
  mr_exact : (∀ k f v (w : W), (HSet k f v w).1 = None) →
    st_telemetry (ms_store y.1) = omap unmarshal_telemetry (hash y.2 key)
}.

Lemma mirrored_step key x y z : rtc mstep x y → mirrored key x y → mstep y z → mirrored key x z.
Proof.
  intros Hxy [Hk Ha Hp He] Hyz.
  assert (Hkeep : ms_redisKey z.1 = ms_redisKey y.1 → hash z.2 = hash y.2 →
    st_telemetry (ms_store z.1) = st_telemetry (ms_store y.1) → mirrored key x z).
  { intros Hk' Hh Ht. split; rewrite ?Hk', ?Hh, ?Ht; [done..| |done].
    intros k t Hkt. destruct (Hp k t Hkt) as (u & ? & ? & ?). exists u. split_and!; [done| |done]. by eapply rtc_r. }
  destruct Hyz as [ord t ms w Hm|ms w s Hs|ms w w' Hw]; [|by apply Hkeep..].
  destruct (put_hash ord t ms w key Hk Hm) as (raw & Hu & Ho & Hh & Hworks). cbn [fst snd] in *. split; [done|..].
  - destruct Hh as [-> | ->]; [|done]. by apply map_Forall_insert_2.
  - intros k t' Hkt. pose proof (step_put ord t ms w Hm) as Hstep.
    assert (Hold : omap unmarshal_telemetry (hash w key) !! k = Some t' →
      ∃ z, rtc mstep x z ∧ rtc mstep z (put_mirrored ord t ms w) ∧ st_telemetry (ms_store z.1) !! k = Some t').
    { intros Hkt'. destruct (Hp k t' Hkt') as (u & ? & ? & ?). exists u. split_and!; [done| |done]. by eapply rtc_r. }
    destruct Hh as [Hh|Hh]; rewrite Hh in Hkt; [|by apply Hold].
    set (k' := stateKey _ _) in *. destruct (decide (k = k')) as [->|Hne].
    + rewrite lookup_omap, lookup_insert_eq in Hkt. cbn [mbind option_bind] in Hkt. rewrite Hu in Hkt. injection Hkt as <-.
      exists (put_mirrored ord t ms w). split_and!; [by eapply rtc_r|done|]. cbn. apply lookup_insert_eq.
    + apply Hold. revert Hkt. by rewrite !lookup_omap, lookup_insert_ne.
  - intros Hw. rewrite (Hworks Hw). cbn. unfold PutTelemetry. cbn. rewrite (He Hw).
    apply map_eq. intros k. rewrite lookup_omap. set (k' := stateKey _ _).
    destruct (decide (k = k')) as [->|Hne].
    + rewrite !lookup_insert_eq. cbn [mbind option_bind]. by rewrite Hu.
    + by rewrite !lookup_insert_ne, lookup_omap.
Qed.

Lemma mirrored_steps key x y : mirrored key x x → rtc mstep x y → mirrored key x y.
Proof.
  intros Hx. enough (∀ y, rtc mstep x y → mirrored key x y) by auto. clear y.
  apply (rtc_ind_r (mirrored key x) x); [done|]. intros y z Hxy Hyz Hm. by eapply mirrored_step.
Qed.
End Restart.

(** C32: A platform that is restarted on the Redis server it mirrors its readings to holds,
    for every device, a reading that was the latest one at some time of the run before (or was
    already loaded then), whichever writes failed; and when every write
    succeeded, exactly the readings it held before, bit for bit. *)
Theorem restart_restores {W} {R : Redis W} {RL : RedisLaws W} siteID w0 ms (w1 : W) ms' w2 ms2 w3 :
  aligned (hash w0 (telemetryKey siteID)) →
  NewRedisStore siteID w0 = (inr ms, w1) →
  rtc mstep (ms, w1) (ms', w2) →
  NewRedisStore siteID w2 = (inr ms2, w3) →
  map_Forall (λ k t, ∃ past, rtc mstep (ms, w1) past ∧ rtc mstep past (ms', w2) ∧
    st_telemetry (ms_store past.1) !! k = Some t) (st_telemetry (ms_store ms2)) ∧
  ((∀ k f v (w : W), (HSet k f v w).1 = None) → st_telemetry (ms_store ms2) = st_telemetry (ms_store ms')).
Proof.
  intros Ha Hnew Hrun Hagain. destruct (NewRedisStore_spec _ _ _ _ Ha Hnew) as (Hh & Hk & Ht).
  assert (Hm : mirrored (telemetryKey siteID) (ms, w1) (ms, w1)).
  { split; cbn [fst snd]; rewrite ?Hh; [done..| |done].
    rewrite <- Ht. intros k t Hkt. exists (ms, w1). split_and!; [apply rtc_refl..|done]. }
  destruct (mirrored_steps _ _ _ Hm Hrun) as [_ Ha' Hp He]. cbn [fst snd] in *.
  destruct (NewRedisStore_spec _ _ _ _ Ha' Hagain) as (_ & _ & ->).
  split; [exact Hp|]. intros Hw. symmetry. by apply He.
Qed.

(** ** The theorem at a concrete server *)

(** A server that always answers: its hashes. *)
#[export] Instance ex_redis : Redis (gmap string (gmap string string)) := {|
  redis_Ping w := (None, w);
  HGetAll k w := (inr (map_to_list (default ∅ (w !! k))), w);
  HSet k f v w := (None, <[k := <[f := v]> (default ∅ (w !! k))]> w);
  redis_Close w := (None, w)
|}.
#[export, program] Instance ex_redis_laws : RedisLaws (gmap string (gmap string string)) := {|
  hash w k := default ∅ (w !! k)
|}.
Next Obligation. done. Qed.
Next Obligation. done. Qed.
Next Obligation. by intros k w l [= <-]. Qed.
Next Obligation. intros. cbn. by rewrite lookup_insert_eq. Qed.
Next Obligation. done. Qed.

Definition ex_reading : Model.Telemetry :=
  MkTelemetry "pv_01" "site-a" "pv" 1700000000 {["power" := lit 4225 100]} "online" 7.
Definition ex_first : MirroredStore :=
  MkMirroredStore (MkStore ∅ ∅ [] [] "site-a") (Some (telemetryKey "site-a")).
Definition ex_later : MirroredStore * gmap string (gmap string string) := put_mirrored [] ex_reading ex_first ∅.

Lemma ex_reading_mirrorable : mirrorable ex_reading.
Proof.
  split; [|by apply map_Forall_singleton|done..].
  split; cbn; try (by apply utf8_check); try done. apply map_Forall_singleton. split; [by apply utf8_check|done].
Qed.

Lemma ex_restart siteID (w : gmap string (gmap string string)) : ∃ ms, NewRedisStore siteID w = (inr ms, w).
Proof. by eexists. Qed.

Lemma restart_restores_witness :
  ∃ ms2 w3, NewRedisStore "site-a" ex_later.2 = (inr ms2, w3) ∧
    st_telemetry (ms_store ms2) = {[stateKey "site-a" "pv_01" := ex_reading]}.
Proof.
  destruct (ex_restart "site-a" ex_later.2) as [ms2 E]. exists ms2, ex_later.2. split; [exact E|].
  apply (restart_restores "site-a" ∅ ex_first ∅ ex_later.1 ex_later.2 ms2 ex_later.2);
    [done|done| |exact E|done].
  apply rtc_once, (step_put [] ex_reading ex_first ∅), ex_reading_mirrorable.
Defined.
