(* ===== verification/Influx.v ===== *)
(** * internal/timeseries: readings as points of a time series

    [WriteTelemetry] turns a reading into a point: named after the type of the device,
    tagged with its site and its name, with a field for every metric.  The points and the
    client of InfluxDB are an interface ([Influx]); what its builders do is stated by
    [InfluxLaws].  The platform writes every reading it takes there, after the mirror
    of its store: [platform_sinks]. *)
From S2P Require Import Prelude Float64 GoTime World GoStrings Model Topic State Json Messages Mqtt Redis.

(** ** The InfluxDB client *)

(** What a field may hold, of the kinds the source puts there. *)
Inductive FieldValue := FString (s : string) | FInt (z : Z) | FFloat (x : float64).

Class Influx (W : Type) := {
  Point : Type;
  NewPoint : string → gmap string string → gmap string FieldValue → Time → Point;
  AddField : string → FieldValue → Point → Point;
  WritePoint : string → string → Point → W → option error * W
}.

(** The parts of a point.  A field that is added replaces the one of its name. *)
Class InfluxLaws (W : Type) `{Influx W} := {
  pt_name : Point → string;
  pt_tags : Point → gmap string string;
  pt_fields : Point → gmap string FieldValue;
  pt_time : Point → Time;
  NewPoint_parts name tags fields t :
    let p := NewPoint name tags fields t in
    pt_name p = name ∧ pt_tags p = tags ∧ pt_fields p = fields ∧ pt_time p = t;
  AddField_parts k v p :
    let p' := AddField k v p in
    pt_name p' = pt_name p ∧ pt_tags p' = pt_tags p ∧ pt_time p' = pt_time p ∧ pt_fields p' = <[k := v]> (pt_fields p)
}.

(** ** The writer *)

(** The client itself is the interface. *)
Record Writer := MkWriter { wr_org : string; wr_bucket : string }.
Definition NewWriter (url token org bucket : string) : Writer := MkWriter org bucket.

Section Writing.
Context {W : Type} `{Clock W} `{Influx W}.

Definition measurement (t : Model.Telemetry) : string :=
  if decide (tel_Type t = "") then "device" else tel_Type t.

(** The point before the metrics, and with them, in the order the map is visited. *)
Definition base_point (t : Model.Telemetry) (ts : Time) : Point :=
  NewPoint (measurement t)
    (<["site_id" := tel_SiteID t]> {["device_id" := tel_DeviceID t]})
    (<["state" := FString (tel_State t)]> {["seq" := FInt (tel_Seq t)]}) ts.
Definition add_fields (metrics : list (string * float64)) (p : Point) : Point :=
  foldl (λ p '(k, v), AddField k (FFloat v) p) p metrics.

Definition WriteTelemetry (wr : Writer) (metrics : list (string * float64)) (t : Model.Telemetry) (w : W) :
    option error * W :=
  let ts := time_Unix (tel_Timestamp t) in
  let '(ts, w) := if (tel_Timestamp t =? 0)%Z then Now w else (ts, w) in
  WritePoint (wr_org wr) (wr_bucket wr) (add_fields metrics (base_point t ts)) w.
End Writing.

(** Where the platform puts its readings; [visit] is the order in which the metrics are visited. *)
Definition platform_sinks {W} `{Clock W} `{Redis W} `{Influx W} (redisKey : option string) (wr : Writer)
    (visit : W → gmap string float64 → list (string * float64)) : Sinks W := {|
  persist t w := persistTelemetry t (MkMirroredStore NewStore redisKey) w;
  series := Some (λ t w, WriteTelemetry wr (visit w (tel_Metrics t)) t w)
|}.

(** ** Lemmas *)

(** The fields of a reading: its metrics first, then its state and its number. *)
Definition reading_fields (t : Model.Telemetry) : gmap string FieldValue :=
  (FFloat <$> tel_Metrics t) ∪ <["state" := FString (tel_State t)]> {["seq" := FInt (tel_Seq t)]}.

Section Points.
Context {W : Type} {CL : Clock W} `{InfluxLaws W}.

Lemma add_fields_parts metrics p :
  pt_name (add_fields metrics p) = pt_name p ∧ pt_tags (add_fields metrics p) = pt_tags p ∧
  pt_time (add_fields metrics p) = pt_time p ∧
  (NoDup metrics.*1 → pt_fields (add_fields metrics p) = (FFloat <$> list_to_map metrics) ∪ pt_fields p).
Proof.
  revert p. induction metrics as [|[k v] metrics IH]; intros p; cbn [add_fields foldl].
  { split_and!; try done. intros _. change (list_to_map []) with (∅ : gmap string float64). by rewrite fmap_empty, (left_id_L ∅ (∪)). }
  change (foldl _ _ metrics) with (add_fields metrics (AddField k (FFloat v) p)).
  destruct (IH (AddField k (FFloat v) p)) as (-> & -> & -> & Hf).
  destruct (AddField_parts k (FFloat v) p) as (-> & -> & -> & Hk). rewrite Hk in Hf. split_and!; try done.
  intros [Hn Hm]%NoDup_cons.
  rewrite (Hf Hm), list_to_map_cons, fmap_insert, <- insert_union_l, <- insert_union_r; [done|].
  rewrite lookup_fmap, fmap_None. by apply not_elem_of_list_to_map_1.
Qed.

(** Whatever the order, the point of a reading says the same. *)
Lemma telemetry_point t metrics ts :
  range_of (tel_Metrics t) metrics →
  let p := add_fields metrics (base_point t ts) in
  pt_name p = measurement t ∧
  pt_tags p = <["site_id" := tel_SiteID t]> {["device_id" := tel_DeviceID t]} ∧
  pt_fields p = reading_fields t ∧ pt_time p = ts.
Proof.
  intros Hr p. destruct (add_fields_parts metrics (base_point t ts)) as (Hn & Ht & Htime & Hf).
  destruct (NewPoint_parts (measurement t) (<["site_id" := tel_SiteID t]> {["device_id" := tel_DeviceID t]})
    (<["state" := FString (tel_State t)]> {["seq" := FInt (tel_Seq t)]}) ts) as (Hn' & Ht' & Hf' & Htime').
  unfold p. rewrite Hn, Ht, Htime. split_and!; [done..| |done].
  rewrite (Hf (range_of_NoDup_fst _ _ Hr)). unfold reading_fields. f_equal; [|done]. f_equal.
  rewrite <- (list_to_map_to_list (tel_Metrics t)). apply list_to_map_proper; [by apply (range_of_NoDup_fst _ _ Hr)|done].
Qed.
End Points.

(** ** Properties *)

(** C40: A reading that is accepted is kept in three places, and the three agree: the live
    store, its mirror, and the time series, all under the identity of the
    topic.  The point of the series is named after the type of the device, tagged with
    its site and name, and holds every metric, whatever the order the map is
    visited in, with the state and the number of the reading where no metric has their name; its time is the one of
    the reading.  An error of the mirror or of the series changes nothing of the store. *)
Theorem reading_everywhere {W} {CL : Clock W} {ST : Storage W} {RE : Redis W} {IN : Influx W} {IL : InfluxLaws W}
    {VE : Verifier} {DE : Decoder} redisKey wr visit ord topic parsed payload tele p (w : W) :
  (∀ w metrics, range_of metrics (visit w metrics)) →
  Topic.Parse topic = Some parsed → p_Kind parsed = "telemetry" → p_SiteID parsed ≠ "" →
  verify topic (p_DeviceID parsed) payload (Now w).1 = None → decode_telemetry payload = inr tele →
  let '(p', w') := @handleMessage W CL ST (platform_sinks redisKey wr visit) VE DE ord topic payload p w in
  ∃ ts w1, let t := set_tele parsed ts tele in
    (ts = tel_Timestamp tele ∧ ts ≠ 0%Z ∨ tel_Timestamp tele = 0%Z ∧ ts = Unix (Now (Now w).2).1) ∧
    p' = set_store (set_telemetry <[stateKey (p_SiteID parsed) (p_DeviceID parsed) := t]>) p ∧
    let mirrored := persistTelemetry t (MkMirroredStore NewStore redisKey) w1 in
    let '(time, w2) := if (ts =? 0)%Z then Now mirrored else (time_Unix ts, mirrored) in
    ∃ point, w' = (WritePoint (wr_org wr) (wr_bucket wr) point w2).2 ∧
      pt_name point = (if decide (p_DeviceType parsed = "") then "device" else p_DeviceType parsed) ∧
      pt_tags point = <["site_id" := p_SiteID parsed]> {["device_id" := p_DeviceID parsed]} ∧
      pt_fields point = reading_fields tele ∧ pt_time point = time.
Proof.
  intros Hvisit Hp Hk Hs Hv Hd. unfold handleMessage. rewrite Hp, Hk. cbn -[dispatch_message].
  destruct (Now w) as [now w1] eqn:En. cbn [fst snd] in *. rewrite Hv.
  unfold dispatch_message. rewrite Hk, Hd, decide_True by done. unfold handle_telemetry.
  assert (Hts : ∃ ts w1', (if (tel_Timestamp tele =? 0)%Z then let '(now, w) := Now w1 in (Unix now, w)
    else (tel_Timestamp tele, w1)) = (ts, w1') ∧
    (ts = tel_Timestamp tele ∧ ts ≠ 0%Z ∨ tel_Timestamp tele = 0%Z ∧ ts = Unix (Now w1).1)).
  { destruct (Z.eqb_spec (tel_Timestamp tele) 0); [|by eexists _, _; split; [done|left]].
    destruct (Now w1) as [now1 w1'] eqn:E1. eexists _, _. split; [done|by right]. }
  destruct Hts as (ts & w1' & -> & Hts). exists ts, w1'. cbv zeta. set (t := set_tele parsed ts tele).
  assert (Hfill : fill_site ord t (pf_store p) = t) by (unfold fill_site; by rewrite decide_False).
  split; [exact Hts|]. split; [unfold set_store, PutTelemetry; by rewrite Hfill|].
  rewrite Hfill. cbn [persist series platform_sinks]. set (mirrored := persistTelemetry _ _ _).
  unfold WriteTelemetry. change (tel_Timestamp t) with ts.
  destruct (if (ts =? 0)%Z then _ else _) as [time w2].
  eexists. split; [reflexivity|]. apply (telemetry_point t). apply Hvisit.
Qed.

(** ** The theorem at a concrete reading *)

(** Points as their parts; a client that keeps what it is given. *)
Record ExPoint := MkExPoint {
  ex_name : string; ex_tags : gmap string string; ex_fields : gmap string FieldValue; ex_time : Time
}.
#[local] Instance ex_influx : Influx (list ExPoint) := {|
  Point := ExPoint;
  NewPoint := MkExPoint;
  AddField k v p := MkExPoint (ex_name p) (ex_tags p) (<[k := v]> (ex_fields p)) (ex_time p);
  WritePoint _ _ p w := (None, w ++ [p])
|}.
#[local] Instance ex_influx_laws : InfluxLaws (list ExPoint) :=
  Build_InfluxLaws (list ExPoint) ex_influx ex_name ex_tags ex_fields ex_time
    (λ _ _ _ _, conj eq_refl (conj eq_refl (conj eq_refl eq_refl)))
    (λ _ _ _, conj eq_refl (conj eq_refl (conj eq_refl eq_refl))).
#[local] Instance ex_series_redis : Redis (list ExPoint) := {|
  redis_Ping w := (None, w); HGetAll _ w := (inr [], w); HSet _ _ _ w := (Some "refused", w); redis_Close w := (None, w)
|}.
#[local] Instance ex_series_clock : Clock (list ExPoint) := λ w, (time_Unix 1000, w).
#[local] Instance ex_series_storage : Storage (list ExPoint) := λ w, (None, w).
Definition ex_accepting : Verifier := λ _ _ _ _, None.
Definition ex_pv_decoder : Decoder := {|
  decode_telemetry _ := inr ex_reading; decode_ack _ := inl "bad json"; decode_event _ := inl "bad json"
|}.

Lemma reading_everywhere_witness :
  ex_fields <$> last (@handleMessage _ _ _ (platform_sinks (Some "k") (MkWriter "vpp" "telemetry") (λ _, map_to_list))
    ex_accepting ex_pv_decoder [] "vpp/site-a/pv/pv_01/telemetry" "" ex_platform []).2 = Some (reading_fields ex_reading).
Proof.
  pose proof (reading_everywhere (VE := ex_accepting) (DE := ex_pv_decoder) (Some "k") (MkWriter "vpp" "telemetry")
    (λ _, map_to_list) [] "vpp/site-a/pv/pv_01/telemetry" (MkParsed "site-a" "pv" "pv_01" "telemetry") "" ex_reading
    ex_platform [] (λ _ m, range_of_map_to_list m) eq_refl eq_refl ltac:(done) eq_refl eq_refl) as Hr.
  destruct (handleMessage _ _ _ _ _) as [p' w']. destruct Hr as (ts & w1 & _ & _ & Hr). cbv zeta in Hr.
  destruct (if (ts =? 0)%Z then _ else _) as [time w2]. destruct Hr as (point & -> & _ & _ & Hf & _).
  cbn [snd WritePoint ex_influx]. rewrite last_snoc. cbn [fmap option_fmap option_map]. by rewrite <- Hf.
Defined.
