(* ===== verification/SimulatorMain.v ===== *)
(** * cmd/simulator: settings, start, the loop

    [main] subscribes to the commands of its site when it is connected and then
    publishes a round of readings every two seconds.  The client the answers
    are published with is stored in the simulator only after [Connect] has
    returned; a command that is handled before makes [handleCommand] panic. *)
From S2P Require Import Prelude Float64 Json JsonString JsonText JsonDecode Decoders GoTime World GoStrings Strconv Model Topic Config Connect.
From S2P Require Import DeviceAuth Messages Optimizer Simulator.

(** ** Settings *)

Section Getters.
Context (env : Environment).
Definition sim_getenv (key fallback : string) : string :=
  let v := env key in if decide (v ≠ "") then v else fallback.
Definition sim_getbool (key : string) (fallback : bool) : bool :=
  let v := env key in
  if decide (v = "") then fallback else
  match ParseBool v with Some b => b | None => fallback end.
End Getters.

Definition sim_tls (env : Environment) : TLSFiles :=
  MkTLSFiles (sim_getenv env "MQTT_TLS_CA_FILE" "") (sim_getenv env "MQTT_TLS_CERT_FILE" "")
    (sim_getenv env "MQTT_TLS_KEY_FILE" "") (sim_getbool env "MQTT_TLS_INSECURE_SKIP_VERIFY" false).

(** The filter the on-connect handler subscribes to. *)
Definition commandTopic (siteID : string) : string := "vpp/" +:+ siteID +:+ "/+/+/command".

(** ** Starting *)

Inductive SimFatal :=
| SimKeysInvalid (err : AuthError) | SimTLSInvalid (err : error) | SimNotConnected (err : error).

(** [main] up to the loop: the simulator and its keys. *)
Definition start_simulator {W} `{Certificates} `{Connector W} (env : Environment) (w : W) :
    (SimFatal + simulator * Keys) * W :=
  match ParseKeys (sim_getenv env "DEVICE_KEYS" "") with
  | inl err => (inl (SimKeysInvalid err), w)
  | inr deviceKeys =>
      match NewTLSConfig (sim_tls env) with
      | inl err => (inl (SimTLSInvalid err), w)
      | inr tlsConfig =>
          let '(err, w) := connect (client_options (sim_getenv env "MQTT_BROKER" "tcp://localhost:1883")
                             "vpp-simulator" (sim_getenv env "MQTT_USERNAME" "")
                             (sim_getenv env "MQTT_PASSWORD" "") tlsConfig) w in
          match err with
          | Some err => (inl (SimNotConnected err), w)
          | None => (inr (newSimulator (sim_getenv env "SITE_ID" "home-lab"), deviceKeys), w)
          end
      end
  end.

(** ** Commands *)

(** [handleCommand] with the client of the simulator, [None] when it panics: the answer is
    published with [s.client], which nothing checks. *)
Definition handle_with (client : bool) (now signed_at : Time) (topic payload : string) (keys : Keys) (s : simulator) :
    option (option (string * string)) * simulator :=
  let '(answer, s') := receive now signed_at topic payload keys s in
  (match answer with Some _ => if client then Some answer else None | None => Some None end, s').

(** ** The loop *)

(** A tick: the time, and the relays as they are read the second time. *)
Record SimTick := MkSimTick { tk_now : Time; tk_on1 : bool; tk_on2 : bool }.

(** The rounds of the loop, numbered from [seq + 1]; between two of them commands are handled. *)
Fixpoint simulate `{Location} `{MathSin} (siteID : string) (ticks : list (SimTick * list (Time * string * string)))
    (seq : Z) (keys : Keys) (s : simulator) : list (string * Model.Telemetry) * simulator :=
  match ticks with
  | [] => ([], s)
  | (tick, commands) :: ticks' =>
      let s := foldl (λ s '(now, topic, payload), (receive now now topic payload keys s).2) s commands in
      let seq := wrap64 (seq + 1) in
      let '(messages, _, s) := round siteID seq (tk_now tick) true (tk_on1 tick) (tk_on2 tick) s in
      let '(rest, s) := simulate siteID ticks' seq keys s in (messages ++ rest, s)
  end.

(** ** Lemmas *)

Lemma Split_commandTopic site : level site → Split (commandTopic site) slash = ["vpp"; site; "+"; "+"; "command"].
Proof. intros Hs. change (commandTopic site) with (topic_of (MkParsed site "+" "+" "command")). by apply Split_topic. Qed.

Lemma command_filter site t :
  plain site →
  match_levels (Split (commandTopic site) slash) (Split t slash) = true ↔
  ∃ typ id, level typ ∧ level id ∧ t = Topic.Command site typ id.
Proof.
  intros (Hl & Hplus & Hhash). rewrite Split_commandTopic by done. rewrite match_levels_spec by by repeat constructor.
  pose proof (Split_parts t slash) as Hparts. pose proof (Split_Join t slash) as Ht. split.
  - intros H. repeat (apply Forall2_cons_inv_l in H as (? & ? & ? & H & E); rewrite E in *; clear E).
    apply Forall2_nil_inv_l in H; subst. repeat (apply Forall_cons in Hparts as [? Hparts]).
    repeat match goal with
    | H : "+" = "+" ∨ _ |- _ => clear H
    | H : _ ∨ _ |- _ => destruct H as [|]; [done|subst]
    end.
    by eexists _, _; split_and!; [..|reflexivity].
  - intros (typ & id & Hty & Hi & ->). change (Topic.Command site typ id) with (topic_of (MkParsed site typ id "command")).
    unfold topic_of. cbn [p_SiteID p_DeviceType p_DeviceID p_Kind]. rewrite Split_topic, Split_no_sep by done.
    repeat (apply Forall2_cons; split; [auto|]). constructor.
Qed.

(** ** What a command does *)

(** A relay command for a load, or one of the three modes for a battery. *)
Definition understood (typ : string) (cmd : Model.Command) : Prop :=
  (typ = "load" ∧ cmd_Action cmd = "set_relay" ∧ ∃ on, cmd_Params cmd !! "on" = Some (JBool on)) ∨
  (typ = "battery" ∧ cmd_Action cmd = "set_mode" ∧
   ∃ mode, cmd_Params cmd !! "mode" = Some (JStr mode) ∧ mode ∈ ["idle"; "charging"; "discharging"]).

(** The command [cmd] for the device [id] of type [typ] takes the simulator from [s]
    to the state given last, with a verdict and the text of an error. *)
Inductive performed (typ id : string) (cmd : Model.Command) (s : simulator) : bool → string → simulator → Prop :=
| performed_relay on s' :
    understood typ cmd → cmd_Params cmd !! "on" = Some (JBool on) → typ = "load" →
    relayOn id s' = on → (∀ other, other ≠ id → relayOn other s' = relayOn other s) →
    sim_batteryMode s' = sim_batteryMode s → sim_soc s' = sim_soc s →
    sim_siteID s' = sim_siteID s → sim_lowSOCOpen s' = sim_lowSOCOpen s →
    performed typ id cmd s true "" s'
| performed_mode mode s' :
    understood typ cmd → cmd_Params cmd !! "mode" = Some (JStr mode) → typ = "battery" →
    sim_batteryMode s' = mode → sim_relays s' = sim_relays s → sim_soc s' = sim_soc s →
    sim_siteID s' = sim_siteID s → sim_lowSOCOpen s' = sim_lowSOCOpen s →
    performed typ id cmd s true "" s'
| refused err :
    ¬ understood typ cmd → err ≠ "" → performed typ id cmd s false err s.

Lemma execute_performed site typ id cmd s :
  let '(ok, err, s') := execute (MkParsed site typ id "command") cmd s in performed typ id cmd s ok err s'.
Proof.
  unfold execute, boolParam, stringParam. cbn [p_DeviceType p_DeviceID].
  change DeviceLoad with "load". change DeviceBattery with "battery".
  case_decide as Ha; [|case_decide as Hm].
  - destruct (cmd_Params cmd !! "on") as [[]|] eqn:Hon; cbn [negb orb].
    all: try (apply refused; [|done]; intros [(_ & _ & ? & ?)|(_ & ? & _)]; congruence).
    case_bool_decide as Hty; cbn [negb].
    + eapply performed_relay; [left; eauto|done|done|..]; try done.
      * unfold relayOn. cbn. by rewrite lookup_insert_eq.
      * intros other Hne. unfold relayOn. cbn. by rewrite lookup_insert_ne.
    + apply refused; [|done]. intros [(? & _)|(_ & ? & _)]; congruence.
  - destruct (cmd_Params cmd !! "mode") as [[]|] eqn:Hmode; cbn [negb orb].
    all: try (apply refused; [|done]; intros [(_ & ? & _)|(_ & _ & ? & ? & _)]; congruence).
    case_bool_decide as Hty; cbn [negb].
    + destruct (_ && _ && _) eqn:Hkind.
      * apply refused; [|done]. guards. rewrite !bool_decide_eq_true in *.
        intros [(_ & ? & _)|(_ & _ & mode & Hmode' & Hin)]; [congruence|].
        rewrite Hmode in Hmode'. injection Hmode' as <-.
        repeat (apply elem_of_cons in Hin as [->|Hin]; [done|]). by apply elem_of_nil in Hin.
      * assert (s0 ∈ ["idle"; "charging"; "discharging"]).
        { destruct (decide (s0 = "idle")) as [->|]; [by left|]. destruct (decide (s0 = "charging")) as [->|]; [by right; left|].
          destruct (decide (s0 = "discharging")) as [->|]; [by right; right; left|].
          by rewrite !bool_decide_eq_true_2 in Hkind by done. }
        eapply performed_mode; [right; eauto 6|done|done|done..].
    + apply refused; [|done]. intros [(_ & ? & _)|(? & _)]; congruence.
  - apply refused; [|done]. intros [(_ & ? & _)|(_ & ? & _)]; congruence.
Qed.

(** Every acknowledgement has a text. *)
Lemma marshal_ack_some a : is_Some (marshal_ack a).
Proof. unfold marshal_ack, Ack.text, struct, omitempty. rewrite fmap_is_Some. case_decide; by eexists. Qed.

(** ** Properties *)

(** C39: The simulator obeys exactly the commands of its site.  Its subscription delivers the
    topics the platform and the gateway publish commands under, and no others.  A
    payload that is no command changes nothing and is not answered.  A relay command for a load
    sets that relay and nothing else, a mode for the battery the mode and nothing
    else, anything else changes nothing; the acknowledgement under the topic of the
    device, signed with its key, bears the identifier of the command and the verdict
    ([performed]).  But when the client is not stored yet, the handler panics instead of
    answering, after the command has taken effect. *)
Theorem simulator_commands delivers `{FilterLaws delivers} site topic :
  plain site →
  (delivers (commandTopic site) topic = true ↔
     ∃ typ id, level typ ∧ level id ∧ topic = Topic.Command site typ id) ∧
  ∀ typ id client now signed_at payload keys s,
    level typ → level id → topic = Topic.Command site typ id →
    let '(outcome, s') := handle_with client now signed_at topic payload keys s in
    match unmarshal_command payload with
    | None => outcome = Some None ∧ s' = s
    | Some cmd => ∃ ok err ack, performed typ id cmd s ok err s' ∧
        marshal_ack (MkCommandAck (cmd_CommandID cmd) ok err (Unix now)) = Some ack ∧
        let ack_topic := "vpp/" +:+ sim_siteID s +:+ "/" +:+ typ +:+ "/" +:+ id +:+ "/command/ack" in
        outcome = if client then Some (Some (ack_topic, signPayload ack_topic id ack keys signed_at)) else None
    end.
Proof.
  intros Hs. split; [rewrite delivers_spec; by apply command_filter|].
  intros typ id client now signed_at payload keys s Hty Hi ->.
  unfold handle_with, receive, handleCommand. rewrite command_topic by (done || by destruct Hs). cbn [p_Kind].
  rewrite decide_False by by intros []. destruct (unmarshal_command payload) as [cmd|]; [|by split].
  pose proof (execute_performed site typ id cmd s) as Hp.
  destruct (execute _ cmd s) as [[ok err] s']. cbn [mbind option_bind snd fst].
  destruct (marshal_ack_some (MkCommandAck (cmd_CommandID cmd) ok err (Unix now))) as [ack Hack].
  exists ok, err, ack. split_and!; [done..|]. unfold send. rewrite Hack. by destruct client.
Qed.

Definition ex_sim_filter (filter topic : string) : bool := match_levels (Split filter slash) (Split topic slash).
#[local] Instance ex_sim_filter_laws : FilterLaws ex_sim_filter.
Proof. done. Qed.

(** A command that switches a load off, and its answer. *)
Definition ex_switch : string :=
  print (TObj [("command_id", TStr "c1"); ("action", TStr "set_relay"); ("params", TObj [("on", TBool false)])]).

Lemma simulator_commands_witness :
  ex_sim_filter (commandTopic "site-a") (Topic.Command "site-a" "load" "load_01") = true ∧
  ex_sim_filter (commandTopic "site-a") (Topic.Telemetry "site-a" "load" "load_01") = false ∧
  let '(outcome, s') := handle_with true zero_time (time_Unix 7) (Topic.Command "site-a" "load" "load_01") ex_switch ∅ ex_sim in
  relayOn "load_01" s' = false ∧ relayOn "load_02" s' = relayOn "load_02" ex_sim ∧
  ∃ text, outcome = Some (Some ("vpp/site-a/load/load_01/command/ack", text)) ∧
    marshal_ack (MkCommandAck "c1" true "" (Unix zero_time)) = Some text.
Proof.
  assert (Hp : plain "site-a") by (split; [by vm_compute|by split]).
  destruct (simulator_commands ex_sim_filter "site-a" (Topic.Command "site-a" "load" "load_01") Hp) as [Hiff Hrun].
  split; [apply Hiff; by exists "load", "load_01"|]. split; [by vm_compute|].
  specialize (Hrun "load" "load_01" true zero_time (time_Unix 7) ex_switch ∅ ex_sim
    ltac:(by vm_compute) ltac:(by vm_compute) ltac:(done)).
  destruct (handle_with _ _ _ _ _ _ _) as [outcome s'].
  assert (Hcmd : match unmarshal_command ex_switch with
    | Some cmd => cmd_CommandID cmd = "c1" ∧ cmd_Params cmd !! "on" = Some (JBool false) ∧ cmd_Action cmd = "set_relay"
    | None => False
    end) by by vm_compute.
  destruct (unmarshal_command ex_switch) as [cmd|]; [|done].
  destruct Hrun as (ok & err & ack & Hperf & Hack & ->).
  destruct Hcmd as (Hid & Hon & Ha).
  assert (understood "load" cmd) by (left; by eauto).
  destruct Hperf as [on s' _ Hon' _ Hr Ho _ _ _ _|mode s' _ _ Hty _ _ _ _ _|err Hno _]; [|done|done].
  rewrite Hon in Hon'. injection Hon' as <-. split; [done|]. split; [by apply Ho|].
  exists ack. by rewrite <- Hid.
Defined.
