(* ===== verification/EndToEnd.v ===== *)
(** * From the device to the platform and back

    The simulator and the platform's MQTT client put together: what the one
    encodes, signs and publishes, the other verifies, decodes and stores. *)
From Stdlib Require Import Ascii Floats.SpecFloat.
From S2P Require Import Prelude Float64 FloatFacts GoTime World GoStrings Model Json JsonString JsonText.
From S2P Require Import JsonDecode Strconv Decoders Messages DeviceAuth SignedMessages Topic State Repository.
From S2P Require Import Simulator Mqtt Config Connect EdgeCache EdgeGateway.

(** ** Delivery of a signed payload *)

(** The clocks of a device that signs and of the platform that verifies. *)
Record timely (signed_at verified_at : Time) (maxSkew : Z) : Prop := {
  ti_signed : plausible signed_at;
  ti_verified : plausible verified_at;
  ti_unix : Unix signed_at ≠ 0%Z;
  ti_limit : (maxSkew < max_int64)%Z;
  ti_skew : (maxSkew <= 0 ∨ Z.abs (t_wall verified_at - t_wall signed_at) <= maxSkew - Second)%Z
}.

(** Devices without keys are accepted when there are none at all. *)
Definition keyed (keys : Keys) (deviceID : string) : Prop :=
  Enabled keys = false ∨ is_Some (keys !! deviceID).

Lemma sent_accepted {A} (z : A) fields topic id l keys signed_at verified_at maxSkew :
  orderly fields → match_field fields.*1 Field = None →
  wf_text max_depth (TObj l) → NoDup (omap (field_of fields.*1) l) →
  keyed keys id → timely signed_at verified_at maxSkew →
  let payload := signPayload topic id (print (TObj l)) keys signed_at in
  VerifyPayload topic id payload keys verified_at maxSkew = None ∧
  Unmarshal z (decode_fields fields) payload = Unmarshal z (decode_fields fields) (print (TObj l)).
Proof.
  intros Ho Hf Hwf Hl Hk [? ? ? ? ?]. cbv zeta. unfold signPayload. destruct Hk as [Hk|[secret Hk]].
  - rewrite Hk. cbn [negb]. split; [|done]. unfold VerifyPayload. by rewrite Hk.
  - rewrite (lookup_Enabled _ _ _ Hk), Hk. cbn [negb].
    destruct (sign_object z fields topic l secret signed_at) as (signed & Hs & Hu); [done..|].
    rewrite Hs. split; [|done]. by eapply signed_accepted.
Qed.

(** ** The three kinds of message *)

Section Delivery.
Context {W : Type} {CL : Clock W} {ST : Storage W} {SI : Sinks W} (keys : Keys) (maxSkew : Z).
#[local] Instance the_verifier : Verifier := device_verifier keys maxSkew.

(** Handling a message that is verified is dispatching it. *)
Lemma handle_verified ord topic parsed payload p (w : W) :
  Topic.Parse topic = Some parsed → requiresDeviceAuth (p_Kind parsed) = true →
  VerifyPayload topic (p_DeviceID parsed) payload keys (Now w).1 maxSkew = None →
  handleMessage ord topic payload p w = dispatch_message ord parsed payload p (Now w).2.
Proof.
  intros Hp Hk Hv. unfold handleMessage. rewrite Hp, Hk. destruct (Now w) as [now w']. cbn [fst snd] in *.
  change (verify topic (p_DeviceID parsed) payload now)
    with (VerifyPayload topic (p_DeviceID parsed) payload keys now maxSkew). by rewrite Hv.
Qed.

Lemma topic_parsed site typ id kind :
  level site → level typ → level id → kind = "telemetry" ∨ kind = "event" ∨ kind = "command/ack" →
  Topic.Parse ("vpp/" +:+ site +:+ "/" +:+ typ +:+ "/" +:+ id +:+ "/" +:+ kind) = Some (MkParsed site typ id kind).
Proof.
  intros Hs Ht Hi Hk. change ("vpp/" +:+ site +:+ "/" +:+ typ +:+ "/" +:+ id +:+ "/" +:+ kind)
    with (topic_of (MkParsed site typ id kind)).
  destruct Hk as [-> | [-> | ->]].
  - by apply (Parse_topic_of _ "telemetry"); [..|left].
  - by apply (Parse_topic_of _ "event"); [..|left].
  - by apply (Parse_topic_of _ "command"); [..|right; by exists "ack"].
Qed.

Lemma deliver_telemetry ord site typ id seq st metrics now signed_at p (w : W) :
  level site → level typ → level id → site ≠ "" → utf8 id → utf8 st → in_int64 seq →
  map_Forall (λ k x, utf8 k ∧ valid x ∧ is_finite x = true) metrics → Unix now ≠ 0%Z →
  keyed keys id → timely signed_at (Now w).1 maxSkew →
  let '(topic, payload) := send_telemetry now signed_at site typ id seq st metrics keys in
  (handleMessage ord topic payload p w).1 =
  set_store (set_telemetry <[stateKey site id := MkTelemetry id site typ (Unix now) metrics st seq]>) p.
Proof.
  intros Hs Ht Hi Hne Hu1 Hu2 Hseq Hm Hnow Hk Htime. unfold send_telemetry, publishState, send.
  set (tele := MkTelemetry id "" "" (Unix now) metrics st seq). set (topic := Topic.Telemetry site typ id).
  assert (Hok : telemetry_ok tele).
  { split; try done; [constructor..|apply wrap64_range|]. eapply map_Forall_impl; [exact Hm|]. by intros k x (? & ? & _). }
  destruct (telemetry_text_some tele) as [x Hx]; [eapply map_Forall_impl; [exact Hm|]; by intros k y (_ & _ & ?)|].
  pose proof (telemetry_round_trip tele (print x) Hok) as Hr. unfold marshal_telemetry in Hr |- *. rewrite Hx in Hr |- *.
  specialize (Hr eq_refl). cbn [fmap option_fmap option_map from_option Datatypes.id].
  pose proof (telemetry_wf _ _ Hok Hx) as Hwf. destruct (telemetry_distinct _ _ Hx) as (l & -> & Hl).
  destruct (sent_accepted Telemetry.zero_value Telemetry.fields topic id l keys signed_at (Now w).1 maxSkew)
    as [Hv Hu]; [apply telemetry_orderly|done..|].
  change (unmarshal_telemetry (signPayload topic id (print (TObj l)) keys signed_at) =
    unmarshal_telemetry (print (TObj l))) in Hu.
  rewrite (handle_verified _ _ (MkParsed site typ id "telemetry")); [|by apply topic_parsed; auto|done|exact Hv].
  unfold dispatch_message. cbn [p_Kind decode_telemetry json_decoder]. rewrite decide_True by done.
  rewrite Hu, Hr. cbn [decoded].
  unfold handle_telemetry. change (tel_Timestamp tele) with (Unix now). rewrite (proj2 (Z.eqb_neq _ _)) by done.
  cbn [fst]. unfold set_store. f_equal. unfold PutTelemetry, fill_site. cbn [tel_SiteID set_tele].
  by rewrite decide_False.
Qed.

(** The other kinds of message come through as they were sent. *)
Lemma deliver_event ord site typ id e text signed_at p (w : W) :
  level site → level typ → level id → event_ok e → marshal_event e = Some text →
  keyed keys id → timely signed_at (Now w).1 maxSkew →
  let topic := "vpp/" +:+ site +:+ "/" +:+ typ +:+ "/" +:+ id +:+ "/event" in
  handleMessage ord topic (signPayload topic id text keys signed_at) p w =
  handle_event (MkParsed site typ id "event") e p (Now w).2.
Proof.
  intros Hs Ht Hi Hok Htext Hk Htime topic. pose proof (event_round_trip e text Hok Htext) as Hr.
  unfold marshal_event in Htext. apply fmap_Some in Htext as (x & Hx & ->).
  pose proof (event_wf _ _ Hok Hx) as Hwf. destruct (event_distinct _ _ Hx) as (l & -> & Hl).
  destruct (sent_accepted Event.zero_value Event.fields topic id l keys signed_at (Now w).1 maxSkew)
    as [Hv Hu]; [apply event_orderly|done..|].
  change (unmarshal_event (signPayload topic id (print (TObj l)) keys signed_at) =
    unmarshal_event (print (TObj l))) in Hu.
  rewrite (handle_verified _ _ (MkParsed site typ id "event")); [|by apply topic_parsed; auto|done|exact Hv].
  unfold dispatch_message. cbn [p_Kind decode_event json_decoder].
  rewrite !decide_False by done. rewrite decide_True by done. by rewrite Hu, Hr.
Qed.

Lemma deliver_ack ord site typ id ack signed_at p (w : W) :
  level site → level typ → level id → ack_ok ack →
  keyed keys id → timely signed_at (Now w).1 maxSkew →
  let topic := "vpp/" +:+ site +:+ "/" +:+ typ +:+ "/" +:+ id +:+ "/command/ack" in
  let '(topic, payload) := send topic id (marshal_ack ack) keys signed_at in
  handleMessage ord topic payload p w = handle_ack (MkParsed site typ id "command/ack") ack p (Now w).2.
Proof.
  intros Hs Ht Hi Hok Hk Htime. cbv zeta. unfold send. set (topic := "vpp/" +:+ _).
  destruct (ack_text_some ack) as [x Hx]. pose proof (ack_round_trip ack (print x) Hok) as Hr.
  unfold marshal_ack in Hr |- *. rewrite Hx in Hr |- *. specialize (Hr eq_refl).
  cbn [fmap option_fmap option_map from_option Datatypes.id].
  pose proof (ack_wf _ _ Hok Hx) as Hwf. destruct (ack_distinct _ _ Hx) as (l & -> & Hl).
  destruct (sent_accepted Ack.zero_value Ack.fields topic id l keys signed_at (Now w).1 maxSkew)
    as [Hv Hu]; [apply ack_orderly|done..|].
  change (unmarshal_ack (signPayload topic id (print (TObj l)) keys signed_at) =
    unmarshal_ack (print (TObj l))) in Hu.
  rewrite (handle_verified _ _ (MkParsed site typ id "command/ack")); [|by apply topic_parsed; auto|done|exact Hv].
  unfold dispatch_message. cbn [p_Kind decode_ack json_decoder].
  rewrite decide_False by done. rewrite decide_True by done. by rewrite Hu, Hr.
Qed.
End Delivery.

(** ** Commands *)

(** The errors a device answers with are plain texts. *)
Lemma execute_error parsed cmd s : utf8 (execute parsed cmd s).1.2.
Proof.
  assert (Hu : ∀ m, bool_decide (unquote (escape_all m) = m) = true → utf8 m).
  { intros m Hm%bool_decide_eq_true. rewrite <- Hm. apply unquote_utf8. }
  assert (H1 : utf8 "set_relay requires load device and bool params.on") by (apply Hu; by vm_compute).
  assert (H2 : utf8 "set_mode requires battery device and string params.mode") by (apply Hu; by vm_compute).
  assert (H3 : utf8 "unsupported battery mode (use idle/charging/discharging)") by (apply Hu; by vm_compute).
  assert (H4 : utf8 "unsupported action") by (apply Hu; by vm_compute).
  assert (H5 : utf8 "") by constructor. clear Hu.
  unfold execute. destruct (decide (cmd_Action cmd = "set_relay")).
  { destruct (boolParam _ _). by case_if. }
  destruct (decide (cmd_Action cmd = "set_mode")); [|done].
  destruct (stringParam _ _). by repeat case_if.
Qed.

(** A command that arrives as it was published is executed and answered. *)
Lemma receive_published now signed_at site typ id cmd payload keys s :
  level site → level typ → level id → command_ok cmd → marshal_command cmd = Some payload →
  let '(ok, err, s') := execute (MkParsed site typ id "command") cmd s in
  let topic := "vpp/" +:+ sim_siteID s +:+ "/" +:+ typ +:+ "/" +:+ id +:+ "/command/ack" in
  receive now signed_at (Topic.Command site typ id) payload keys s =
  (Some (send topic id (marshal_ack (MkCommandAck (cmd_CommandID cmd) ok err (Unix now))) keys signed_at), s').
Proof.
  intros Hs Ht Hi Hok Hm. unfold receive. rewrite (command_round_trip _ _ Hok Hm).
  unfold handleCommand. rewrite command_topic by done. cbn [p_Kind].
  destruct (decide ("command" ≠ "command")) as [Hne|]; [by destruct Hne|].
  destruct (execute _ cmd s) as [[ok err] s']. done.
Qed.

(** The record of a command that was just published. *)
Lemma PublishCommand_head {W} {CL : Clock W} {BR : Broker W} {ST : Storage W} site d cmd p (w : W) p' w' :
  PublishCommand site d cmd p w = (None, p', w') →
  ∃ now, st_commands (pf_store p') =
    issued_record (now, site, d, cmd) :: take (history - 1) (st_commands (pf_store p)).
Proof.
  unfold PublishCommand, record_issued. destruct (marshal_command cmd); [|done].
  destruct (Publish _ _ w) as [[err|] w1]; [done|]. destruct (Now w1) as [now w2].
  destruct (pf_repo _); [destruct (db_fault w2) as [fault w3]; destruct (Now w3)|]; intros [= <- _]; by exists now.
Qed.

Lemma PublishCommand_accepted {W} {CL : Clock W} {BR : Broker W} {ST : Storage W} site d cmd p (w : W) payload :
  marshal_command cmd = Some payload → (Publish (Topic.Command site (dev_Type d) (dev_ID d)) payload w).1 = None →
  ∃ p' w', PublishCommand site d cmd p w = (None, p', w').
Proof.
  intros Hm Hb. unfold PublishCommand. rewrite Hm. destruct (Publish _ _ w) as [err w1]. cbn [fst] in Hb. subst err.
  destruct (record_issued _ _ _ _ _) as [p' w']. by exists p', w'.
Qed.

(** ** Members that are not covered by the signature *)

(** A member in front of the others, in the text of an object. *)
Definition prepend_member (name : string) (v : jtext) (payload : string) : string :=
  "{" +:+ print_member (html name) (print v) +:+ "," +:+ drop_bytes 1 payload.

Lemma prepend_print name v l : l ≠ [] → prepend_member name v (print (TObj l)) = print (TObj ((name, v) :: l)).
Proof. destruct l as [|kv l]; [done|]. intros _. unfold prepend_member. cbn [print fmap list_fmap Join fst snd]. by rewrite !str_app_assoc. Qed.

(** What is verified is the last of the members with a name. *)
Lemma prepend_verified topic id name v l keys now maxSkew :
  wf_text max_depth (TObj l) → body name → wf_text (max_depth - 1) v → unquote name ∈ dom (members l) →
  VerifyPayload topic id (prepend_member name v (print (TObj l))) keys now maxSkew =
  VerifyPayload topic id (print (TObj l)) keys now maxSkew.
Proof.
  intros Hwf Hn Hv Hin. inversion Hwf as [| | | | |? ? _ Hb]; subst.
  assert (Hl : l ≠ []) by (intros ->; by apply not_elem_of_empty in Hin). rewrite prepend_print by done.
  assert (Hm : payloadMap (print (TObj ((name, v) :: l))) = payloadMap (print (TObj l))).
  { unfold payloadMap. rewrite !parse_print by (done || (constructor; [done|by constructor])).
    cbn [escaped]. f_equal. rewrite fmap_cons. fold (written l). cbn [fst snd].
    assert (Hw : unquote (html name) ∈ dom (members (written l))).
    { rewrite unquote_html by done. revert Hin. rewrite !elem_of_dom_members. unfold written.
      rewrite <- list_fmap_compose. intros (kv & Heq & Hkv)%list_elem_of_fmap. apply list_elem_of_fmap.
      exists kv. split; [|done]. rewrite Forall_forall in Hb. destruct (Hb _ Hkv). rewrite Heq. cbn. by rewrite unquote_html. }
    by apply members_shadowed. }
  unfold VerifyPayload. by rewrite Hm.
Qed.

Lemma field_metrics : match_field Telemetry.fields.*1 (unquote "metrics") = Some "metrics".
Proof. by vm_compute. Qed.

(** A topic some subscription of the platform delivers. *)
Definition hears (delivers : string → string → bool) (cfg : Config) (topic : string) : bool :=
  existsb (λ f, delivers f.1 topic) (mqtt_topics cfg).

(** A time beyond the limit for what was signed. *)
Definition outdated (maxSkew : Z) (signed_at now : Time) : Prop :=
  plausible now ∧ (maxSkew < t_wall now - t_wall signed_at)%Z.

(** ** The gateway in between *)

(** What a gateway captures it forwards as it is, behind what was waiting. *)
Lemma gateway_relays {W} {CL : Clock W} {BR : Broker W} {ST : Storage W} kinds captured_at prefix topic parsed payload c (w : W) :
  Trim prefix "/" = "" → Topic.Parse topic = Some parsed → kinds !! p_Kind parsed = Some true →
  wf c → length (queue c) < 100 → @healthy W BR ST →
  let c1 := capture kinds None captured_at topic payload c in
  let '(c2, (_, accepted)) := @flushPending _ traced_clock traced_broker traced_storage true prefix c1 (w, []) in
  queue c1 = queue c ++ [scan (MkRow (ct_seq c + 1) topic payload captured_at None)] ∧
  accepted = (forwarded prefix <$> queue c) ++ [(topic, payload)] ∧ queue c2 = [].
Proof.
  intros Hprefix Hparse Hkind Hwf Hlen Hh c1.
  assert (Hc1 : wf c1 ∧ queue c1 = queue c ++ [scan (MkRow (ct_seq c + 1) topic payload captured_at None)]).
  { unfold c1, capture. rewrite Hparse, Hkind. cbn [default].
    split; [by apply (Put_wf None)|exact (queue_snoc c (MkRow (ct_seq c + 1) topic payload captured_at None) eq_refl)]. }
  destruct Hc1 as [Hwf1 Hq1]. destruct (flushPending_drains prefix c1 (w, []) Hh Hwf1) as (_ & Hq2 & Hacc).
  destruct (flushPending true prefix c1 (w, [])) as [c2 [w2 accepted]]. cbn [fst snd] in *.
  assert (Hle : length (queue c ++ [scan (MkRow (ct_seq c + 1) topic payload captured_at None)]) ≤ 100)
    by (rewrite length_app; simpl; lia).
  rewrite Hq1, drop_ge in Hq2 by exact Hle. rewrite Hq1, take_ge, fmap_app in Hacc by exact Hle.
  split; [done|]. split; [|done]. rewrite Hacc, app_nil_l. f_equal. cbn [fmap list_fmap]. unfold forwarded, upstreamTopic. cbv zeta.
  by rewrite decide_True by exact Hprefix.
Qed.

(** ** Properties *)

(** C26: Telemetry arrives as it was measured: what a device sends for a reading,
    signed when it has a key, is accepted by a platform with the same keys and a
    clock within the allowed skew less one second (signatures bear whole seconds), and
    handling it stores exactly that reading,
    every number bit for bit, under the device and the site of the topic.  A gateway
    without a topic prefix in between changes nothing: what it captured it forwards as it is,
    behind what was waiting, once its upstream broker can be reached. *)
Theorem telemetry_delivered {W} {CL : Clock W} {ST : Storage W} {SI : Sinks W} keys maxSkew ord site typ id seq st metrics
    now signed_at p (w : W) :
  level site → level typ → level id → site ≠ "" → utf8 id → utf8 st → in_int64 seq →
  map_Forall (λ k x, utf8 k ∧ valid x ∧ is_finite x = true) metrics → Unix now ≠ 0%Z →
  keyed keys id → timely signed_at (Now w).1 maxSkew →
  let '(topic, payload) := send_telemetry now signed_at site typ id seq st metrics keys in
  let p' := (@handleMessage W CL ST SI (device_verifier keys maxSkew) json_decoder ord topic payload p w).1 in
  p' = set_store (set_telemetry <[stateKey site id := MkTelemetry id site typ (Unix now) metrics st seq]>) p ∧
  ∀ GW (GC : Clock GW) (GB : Broker GW) (GS : Storage GW) kinds captured_at prefix c (gw : GW),
    Trim prefix "/" = "" → kinds !! "telemetry" = Some true → wf c → length (queue c) < 100 → @healthy GW GB GS →
    let '(c', (_, accepted)) := @flushPending _ traced_clock traced_broker traced_storage true prefix
      (capture kinds None captured_at topic payload c) (gw, []) in
    accepted = (forwarded prefix <$> queue c) ++ [(topic, payload)] ∧ queue c' = [].
Proof.
  intros Hs Ht Hi. intros. pose proof (deliver_telemetry keys maxSkew ord site typ id seq st metrics now signed_at p w) as Hd.
  assert (Hparse : Topic.Parse (send_telemetry now signed_at site typ id seq st metrics keys).1 =
    Some (MkParsed site typ id "telemetry")) by (apply topic_parsed; auto).
  destruct (send_telemetry _ _ _ _ _ _ _ _ _) as [topic payload]. cbv zeta. split; [by apply Hd|].
  intros GW GC GB GS kinds captured_at prefix c gw Hp Hk Hwf Hlen Hh.
  pose proof (gateway_relays kinds captured_at prefix topic _ payload c gw Hp Hparse Hk Hwf Hlen Hh) as Hg.
  cbv zeta in Hg. destruct (flushPending _ _ _ _) as [c' [w' accepted]]. by destruct Hg.
Qed.

(** C27: A published command is answered on the record: when the broker took a
    command, the simulator that receives its payload executes that very command,
    and once its answer is handled the command's record, the first of the
    history, says whether it was done, with the device's acknowledgement. *)
Theorem command_answered {W} {CL : Clock W} {BR : Broker W} {ST : Storage W} {SI : Sinks W} keys maxSkew ord d cmd payload
    now signed_at sim p (w : W) p1 w1 (w2 : W) :
  PublishCommand (sim_siteID sim) d cmd p w = (None, p1, w1) → marshal_command cmd = Some payload →
  level (sim_siteID sim) → level (dev_Type d) → level (dev_ID d) → command_ok cmd →
  keyed keys (dev_ID d) → timely signed_at (Now w2).1 maxSkew →
  let '(ok, err, sim') := execute (MkParsed (sim_siteID sim) (dev_Type d) (dev_ID d) "command") cmd sim in
  ∃ topic answer t,
    receive now signed_at (Topic.Command (sim_siteID sim) (dev_Type d) (dev_ID d)) payload keys sim =
      (Some (topic, answer), sim') ∧
    head (st_commands (pf_store
      (@handleMessage W CL ST SI (device_verifier keys maxSkew) json_decoder ord topic answer p1 w2).1)) =
    Some (MkCommandRecord (sim_siteID sim) (dev_ID d) (dev_Type d) cmd (if ok then "acked" else "failed")
      (Some (MkCommandAck (cmd_CommandID cmd) ok err (Unix now))) t).
Proof.
  intros Hpub Hm Hs Ht Hi Hok Hk Htime.
  pose proof (receive_published now signed_at _ _ _ cmd payload keys sim Hs Ht Hi Hok Hm) as Hr.
  pose proof (execute_error (MkParsed (sim_siteID sim) (dev_Type d) (dev_ID d) "command") cmd sim) as He.
  destruct (execute _ cmd sim) as [[ok err] sim']. cbn [fst snd] in He. cbv zeta in Hr.
  assert (Hack : ack_ok (MkCommandAck (cmd_CommandID cmd) ok err (Unix now))).
  { split; [by destruct Hok|done|apply wrap64_range]. }
  pose proof (deliver_ack keys maxSkew ord _ _ _ _ signed_at p1 w2 Hs Ht Hi Hack Hk Htime) as Hd.
  cbv zeta in Hd. unfold the_verifier in Hd.
  destruct (send _ _ _ _ _) as [topic answer]. destruct (Now (Now w2).2) as [now2 w3] eqn:Hnow2.
  exists topic, answer, now2. split; [exact Hr|]. rewrite Hd.
  apply PublishCommand_head in Hpub as (now1 & Hl). unfold handle_ack. rewrite Hnow2.
  set (ack := MkCommandAck (cmd_CommandID cmd) ok err (Unix now)) in *. cbn [p_DeviceID].
  match goal with |- head (st_commands (pf_store ?x.1)) = _ =>
    replace (pf_store x.1) with (State.PutCommandAck now2 (dev_ID d) ack (pf_store p1)) end.
  - unfold State.PutCommandAck, set_commands. cbn [st_commands]. rewrite Hl. unfold record_matches.
    cbn [update_first rec_DeviceID rec_Command issued_record ack_CommandID]. by rewrite !bool_decide_eq_true_2.
  - destruct (pf_repo _); [|done]. destruct (db_fault w3) as [fault w4]. by destruct (Now w4).
Qed.

(** C33: A platform only hears of its own site.  The two subscriptions of its client
    deliver exactly the topics [vpp/site/type/device/kind] of its site with a kind of one
    level, or [command/ack]; whatever such a message holds, it changes no telemetry, and adds no event,
    of another site. *)
Theorem subscribed_site delivers `{FilterLaws delivers} cfg topic :
  plain (cfg_SiteID cfg) →
  (hears delivers cfg topic = true ↔
   ∃ typ id kind, level typ ∧ level id ∧ (level kind ∨ kind = "command/ack") ∧
     topic = topic_of (MkParsed (cfg_SiteID cfg) typ id kind)) ∧
  (hears delivers cfg topic = true → cfg_SiteID cfg ≠ "" →
   ∀ W (CL : Clock W) (ST : Storage W) (SI : Sinks W) (VE : Verifier) (DE : Decoder) ord payload p (w : W),
     let s := pf_store p in
     let s' := pf_store (handleMessage ord topic payload p w).1 in
     (∃ id, ∀ k, k ≠ stateKey (cfg_SiteID cfg) id → st_telemetry s' !! k = st_telemetry s !! k) ∧
     (st_events s' = st_events s ∨
      ∃ e, st_events s' = take history (e :: st_events s) ∧ ev_SiteID e = cfg_SiteID cfg)).
Proof.
  intros Hs.
  assert (Hiff : hears delivers cfg topic = true ↔
    ∃ typ id kind, level typ ∧ level id ∧ (level kind ∨ kind = "command/ack") ∧
      topic = topic_of (MkParsed (cfg_SiteID cfg) typ id kind)).
  { unfold hears, mqtt_topics. cbn [existsb fst]. rewrite orb_false_r, !delivers_spec. by apply site_topic. }
  split; [exact Hiff|]. intros (typ & id & kind & Ht & Hi & Hk & ->)%Hiff Hne W CL ST SI VE DE ord payload p w.
  pose proof (site_topic_parsed _ _ _ _ (proj1 Hs) Ht Hi Hk) as Hp.
  destruct (handleMessage_own ord _ payload p w _ Hp) as [_ _ _ Htele _ Hev].
  cbn [p_SiteID p_DeviceID] in *. split; [exists id; by apply Htele|].
  destruct Hev as [->|(e & -> & He & _)]; [by left|right]. by exists e.
Qed.

(** C37: Store and forward does not outlive the signature.  A signed message that the
    gateway captures and forwards once the upstream platform's clock is more than
    [DEVICE_AUTH_MAX_SKEW] past its signature is refused there, and nothing of it is
    stored; but the upstream broker took it, so the gateway marks it as sent and never
    sends it again.  An outage longer than the limit (5 minutes by default, while the cache keeps
    messages without end) loses every reading before its last minutes. *)
Theorem outage_loses keys secret maxSkew kinds topic parsed payload signed_at signed captured_at c :
  keys !! p_DeviceID parsed = Some secret →
  SignPayload topic payload secret signed_at = inr signed → plausible signed_at →
  (0 < maxSkew < max_int64)%Z →
  Topic.Parse topic = Some parsed → requiresDeviceAuth (p_Kind parsed) = true →
  kinds !! p_Kind parsed = Some true → wf c → queue c = [] →
  let c1 := capture kinds None captured_at topic signed c in
  (msg_Payload <$> queue c1) = [signed] ∧
  ∀ W (CL : Clock W) (BR : Broker W) (ST : Storage W) (w : W), @healthy W BR ST →
    let '(c2, (_, accepted)) :=
      @flushPending _ traced_clock traced_broker traced_storage true "" c1 (w, []) in
    accepted = [(topic, signed)] ∧ queue c2 = [] ∧
    ∀ W' (CL' : Clock W') (ST' : Storage W') (SI' : Sinks W') ord p (w' : W'),
      let now := (Now w').1 in
      outdated maxSkew signed_at now →
      (@handleMessage _ CL' ST' SI' (device_verifier keys maxSkew) json_decoder ord topic signed p w').1 =
        incrementRejected "auth" p.
Proof.
  intros Hkey Hsign Hat Hmax Hparse Hauth Hkind Hwf Hq c1.
  assert (Hq1 : queue c1 = [scan (MkRow (ct_seq c + 1) topic signed captured_at None)]).
  { unfold c1, capture. rewrite Hparse, Hkind. cbn [default].
    etrans; [exact (queue_snoc c (MkRow (ct_seq c + 1) topic signed captured_at None) eq_refl)|by rewrite Hq]. }
  split; [by rewrite Hq1|].
  intros W CL BR ST w Hh.
  pose proof (gateway_relays kinds captured_at "" topic parsed signed c w eq_refl Hparse Hkind Hwf ltac:(rewrite Hq; simpl; lia) Hh) as Hg.
  cbv zeta in Hg. fold c1 in Hg. destruct (flushPending true "" c1 (w, [])) as [c2 [w2 accepted]].
  destruct Hg as (_ & Hacc & Hq2). rewrite Hq in Hacc. split; [exact Hacc|]. split; [exact Hq2|].
  intros W' CL' ST' SI' ord p w' at_ [Hnow Hlate]. subst at_. unfold handleMessage. rewrite Hparse, Hauth.
  destruct (Now w') as [now w1]. cbn [fst] in *.
  pose proof (signed_outdated topic _ payload secret keys signed_at now maxSkew signed Hkey Hsign Hat Hnow Hmax Hlate) as Hv.
  unfold verify, device_verifier. by destruct (VerifyPayload _ _ _ _ _ _).
Qed.

(** C28: What is signed is not all that is read: whoever can alter a signed
    telemetry in transit can put a metric of any new name into it, without the
    key.  A member [metrics] in front of the signed one does not change the
    verdict of [VerifyPayload], for any keys, clock and skew, since the last of
    two members counts there; but the metrics of both are stored, since
    [json.Unmarshal] adds the second to the map of the first. *)
Theorem forged_metric topic id t text secret now signed name x lit :
  telemetry_ok t → marshal_telemetry t = Some text → SignPayload topic text secret now = inr signed →
  utf8 name → ParseFloat lit = Some x → number lit →
  let forged := prepend_member "metrics" (TObj [(escape_all name, TNum lit)]) signed in
  (∀ keys now' maxSkew,
    VerifyPayload topic id forged keys now' maxSkew = VerifyPayload topic id signed keys now' maxSkew) ∧
  unmarshal_telemetry signed = Some t ∧ unmarshal_telemetry forged = Some (add_metrics {[name := x]} t).
Proof.
  intros Hok Htext Hsign Hname Hlit Hnum. cbv zeta. pose proof (telemetry_round_trip t text Hok Htext) as Hr.
  apply fmap_Some in Htext as (y & Hy & ->). pose proof (telemetry_wf _ _ Hok Hy) as Hwf.
  destruct (telemetry_distinct _ _ Hy) as (l & -> & Hl).
  destruct (sign_members Telemetry.fields topic l secret now signed) as (L & -> & HL & Hdom & Hd);
    [apply telemetry_orderly|done..|].
  set (v := TObj [(escape_all name, TNum lit)]).
  assert (Hv : wf_text (max_depth - 1) v).
  { constructor; [done|]. constructor; [|done]. split; [apply body_escape_all|by constructor]. }
  assert (Hin : unquote "metrics" ∈ dom (members L)).
  { apply Hdom, elem_of_dom_members, list_elem_of_fmap.
    apply telemetry_has_metrics, list_elem_of_fmap in Hy as (kv & Hkv & Hin). exists kv. by rewrite <- Hkv. }
  split_and!.
  - intros. apply prepend_verified; [done|by apply body_check|done|done].
  - unfold unmarshal_telemetry in *. rewrite unmarshal_object in * by (done || apply telemetry_orderly). by rewrite Hd.
  - assert (HLne : L ≠ []) by (intros ->; by apply not_elem_of_empty in Hin).
    rewrite prepend_print by done. unfold unmarshal_telemetry.
    rewrite unmarshal_object; [|apply telemetry_orderly|].
    + assert (Ha : assign Telemetry.fields.*1 (field_named Telemetry.fields) ("metrics", v) Telemetry.zero_value =
        Some (MkTelemetry "" "" "" 0 {[name := x]} "" 0)).
      { unfold assign, field_of. cbn [fst snd]. rewrite field_metrics. unfold v.
        cbn [Telemetry.fields field_named String.eqb Ascii.eqb Bool.eqb]. unfold field_decoder.
        cbn. rewrite Hlit, unquote_escape by done. done. }
      rewrite decode_members_cons, Ha. cbn [mbind option_bind]. rewrite Hd.
      rewrite <- (decode_members_escaped _ _ (max_depth - 1) l).
      * by apply telemetry_merges.
      * intros n ? ?. apply (or_stable _ telemetry_orderly).
      * by inversion Hwf.
    + inversion HL; subst. constructor; [done|]. constructor; [|done]. split; [by apply body_check|done].
Qed.

(** ** The theorems at a concrete device *)

Definition ex_at : Clock unit := λ w, (time_Unix 1000, w).
Definition ex_broker : Broker unit := {| IsConnected w := (true, w); Publish _ _ w := (None, w) |}.
Definition ex_device_keys : Keys := {["load_01" := "secret"]}.

Lemma ex_timely : timely (time_Unix 1000) (time_Unix 1000) (60 * Second).
Proof. split; try by vm_compute. right. by vm_compute. Qed.

Lemma ex_timely_any : timely (time_Unix 1000) (time_Unix 1000) 0.
Proof. split; try by vm_compute. left. by vm_compute. Qed.

Lemma telemetry_delivered_witness :
  let '(topic, payload) := send_telemetry (time_Unix 1000) (time_Unix 1000) "home-lab" DeviceLoad "load_01" 1 "on"
    (tel_Metrics ex_reading) ex_device_keys in
  st_telemetry (pf_store (@handleMessage unit ex_at ex_world_storage no_sinks (device_verifier ex_device_keys (60 * Second))
    json_decoder [] topic payload ex_platform tt).1) !! stateKey "home-lab" "load_01" =
  Some (MkTelemetry "load_01" "home-lab" DeviceLoad 1000 (tel_Metrics ex_reading) "on" 1).
Proof.
  pose proof (@telemetry_delivered unit ex_at ex_world_storage no_sinks ex_device_keys (60 * Second) [] "home-lab" DeviceLoad
    "load_01" 1 "on" (tel_Metrics ex_reading) (time_Unix 1000) (time_Unix 1000) ex_platform tt) as Hd.
  destruct (send_telemetry _ _ _ _ _ _ _ _ _) as [topic payload]. cbv zeta in Hd. destruct Hd as [-> _].
  - done.
  - done.
  - done.
  - done.
  - by apply utf8_check; vm_compute.
  - by apply utf8_check; vm_compute.
  - by vm_compute.
  - apply map_Forall_singleton. split; [by apply utf8_check; vm_compute|by vm_compute].
  - by vm_compute.
  - right. by eexists.
  - apply ex_timely.
  - apply lookup_insert_eq.
Defined.

Lemma command_answered_witness :
  ∃ topic answer t p1 w1,
    @PublishCommand unit ex_at ex_broker ex_world_storage "site-a" ex_battery ex_order ex_platform tt = (None, p1, w1) ∧
    head (st_commands (pf_store (@handleMessage unit ex_at ex_world_storage no_sinks (device_verifier ∅ 0)
      json_decoder [] topic answer p1 tt).1)) =
    Some (MkCommandRecord "site-a" "battery-1" DeviceBattery ex_order "acked"
      (Some (MkCommandAck "c-9" true "" 1000)) t).
Proof.
  destruct (marshal_command ex_order) as [payload|] eqn:Hm; [|exfalso; revert Hm; by vm_compute].
  destruct (@PublishCommand_accepted unit ex_at ex_broker ex_world_storage "site-a" ex_battery ex_order ex_platform tt payload)
    as (p1 & w1 & Hp); [done|done|].
  pose proof (@command_answered unit ex_at ex_broker ex_world_storage no_sinks ∅ 0 [] ex_battery ex_order payload
    (time_Unix 1000) (time_Unix 1000) ex_sim ex_platform tt p1 w1 tt Hp Hm) as Ha.
  rewrite (execute_mode _ _ ex_order "charging" ex_sim) in Ha; [|done|apply lookup_singleton_eq|by left].
  destruct Ha as (topic & answer & t & _ & Hh); [by vm_compute..|apply ex_order_ok|by left| |].
  - exact ex_timely_any.
  - exists topic, answer, t, p1, w1. split; [exact Hp|exact Hh].
Defined.

Definition ex_signed_text : string :=
  match SignPayload "t" ex_reading_text "secret" (time_Unix 1000) with inr s => s | inl _ => "" end.

Definition ex_filter (filter topic : string) : bool := match_levels (Split filter slash) (Split topic slash).
#[local] Instance ex_filter_laws : FilterLaws ex_filter.
Proof. done. Qed.

Lemma subscribed_site_witness :
  hears ex_filter (Load_ (λ _, "")) "vpp/home-lab/load/load_01/telemetry" = true ∧
  hears ex_filter (Load_ (λ _, "")) "vpp/other/load/load_01/telemetry" = false.
Proof.
  split; [|by vm_compute].
  apply (subscribed_site ex_filter (Load_ (λ _, "")) "vpp/home-lab/load/load_01/telemetry").
  - split; [by vm_compute|]. by split; vm_compute.
  - exists "load", "load_01", "telemetry". repeat split. by left.
Defined.

Definition ex_outage_topic : string := "vpp/home-lab/load/load_01/telemetry".
Definition ex_outage_text : string :=
  match SignPayload ex_outage_topic ex_reading_text "secret" (time_Unix 1000) with inr s => s | inl _ => "" end.
#[local] Instance ex_later_clock : Clock unit := λ w, (time_Unix 1400, w).

Lemma outage_loses_witness :
  (@handleMessage unit ex_later_clock ex_world_storage no_sinks (device_verifier ex_device_keys (300 * Second)) json_decoder
    [] ex_outage_topic ex_outage_text ex_platform tt).1 = incrementRejected "auth" ex_platform.
Proof.
  destruct (outage_loses ex_device_keys "secret" (300 * Second) {["telemetry" := true]} ex_outage_topic
    (MkParsed "home-lab" "load" "load_01" "telemetry") ex_reading_text (time_Unix 1000) ex_outage_text zero_time OpenCache)
    as [_ Hl]; [by vm_compute..|by apply wf_OpenCache|done|].
  specialize (Hl unit ex_clock ex_broker ex_storage tt ltac:(by split_and!)).
  destruct (flushPending _ _ _ _) as [c2 [w2 accepted]]. destruct Hl as (_ & _ & Hl).
  apply Hl. split; by vm_compute.
Defined.

Lemma forged_metric_witness :
  let forged := prepend_member "metrics" (TObj [("soc", TNum "0.99")]) ex_signed_text in
  (∀ keys now maxSkew,
    VerifyPayload "t" "load_01" forged keys now maxSkew = VerifyPayload "t" "load_01" ex_signed_text keys now maxSkew) ∧
  unmarshal_telemetry ex_signed_text = Some ex_reading ∧
  unmarshal_telemetry forged = Some (add_metrics {["soc" := lit 99 100]} ex_reading).
Proof.
  apply (forged_metric "t" "load_01" ex_reading ex_reading_text "secret" (time_Unix 1000) ex_signed_text "soc" _ "0.99").
  - apply ex_reading_ok.
  - by vm_compute.
  - by vm_compute.
  - by apply utf8_check; vm_compute.
  - by vm_compute.
  - apply (MkNumber "" "0" ".99" ""); [by left|by left|by constructor|constructor].
Defined.
