(* ===== verification/ControlLoop.v ===== *)
(** * The control loop closed

    The scheduler on the platform: its commander is the MQTT client, which gives a
    command to the broker and records it in the live history.  What a tick has to
    send, it sends; what it sends, the history shows; and the simulated devices do it. *)
From Stdlib Require Import Floats.SpecFloat.
From S2P Require Import Prelude Float64 GoTime World GoStrings Model Json JsonString JsonText JsonDecode Decoders.
From S2P Require Import Messages DeviceAuth Topic State Repository Scheduler Simulator Mqtt Config Connect EndToEnd.

(** ** The two loops over the batteries as one *)

Definition kind_reason (k : kind) : string :=
  match k with
  | Charge => "pv surplus: charge battery"
  | Discharge => "load deficit: discharge battery"
  | Shed => "load shed: non-critical load off"
  end.

(** The command of the kind to every device that passes the test. *)
Fixpoint mode_loop {W} `{Clock W} `{Commander W} (test : Device → bool) (k : kind) (l : list Device)
    (s : Scheduler) (w : W) : Scheduler * W :=
  match l with
  | [] => (s, w)
  | d :: l' =>
      let '(s, w) :=
        if test d then let '(_, s, w) := publish d (kind_action k) (kind_reason k) (kind_params k) s w in (s, w)
        else (s, w) in
      mode_loop test k l' s w
  end.

Definition below_max (policy : Policy) (tele : gmap string Model.Telemetry) (b : Device) : bool :=
  (soc_of_device tele b <? pol_BatteryMaxSOC policy)%f64.
Definition above_min (policy : Policy) (tele : gmap string Model.Telemetry) (b : Device) : bool :=
  (soc_of_device tele b >? pol_BatteryMinSOC policy)%f64.

Section Loops.
Context {W : Type} `{Clock W} `{Commander W}.

Lemma charge_mode_loop policy tele l s (w : W) :
  charge_loop policy tele l s w = mode_loop (below_max policy tele) Charge l s w.
Proof.
  revert s w. induction l as [|b l IH]; intros s w; [done|]. cbn [charge_loop mode_loop]. unfold below_max at 1, charge.
  cbn [kind_action kind_params kind_reason].
  destruct (if fltb _ _ then _ else _) as [s1 w1]. apply IH.
Qed.

Lemma discharge_mode_loop policy tele l disp s (w : W) :
  (discharge_loop policy tele l disp s w).1.2 = (mode_loop (above_min policy tele) Discharge l s w).1 ∧
  (discharge_loop policy tele l disp s w).2 = (mode_loop (above_min policy tele) Discharge l s w).2.
Proof.
  revert disp s w. induction l as [|b l IH]; intros disp s w; [done|]. cbn [discharge_loop mode_loop].
  unfold above_min at 1 3, discharge. cbn [kind_action kind_params kind_reason].
  destruct (fltb _ _); [destruct (publish _ _ _ _ _ _) as [[ok s1] w1]|]; apply IH.
Qed.
End Loops.

(** ** Invariants of the world under a tick *)

Section Invariant.
Context {W : Type} {C : Clock W} {K : Commander W} (P : W → Prop).
Context (Hnow : ∀ w, P w → P (Now w).2).
Context (Hsend : ∀ site d cmd w, P w → P (Scheduler.PublishCommand site d cmd w).2).

Lemma publish_invariant d action reason params s w : P w → P (publish d action reason params s w).2.
Proof.
  intros Hw.
  assert (Hd : ∀ key now w, P w → P (deliver key now d action reason params s w).2).
  { intros key now w0 Hw0. unfold deliver. set (cmd := MkCommand _ _ _ _ _).
    pose proof (Hsend (sch_siteID (set_lastSent <[key := now]> s)) d cmd w0 Hw0) as Hw1.
    by destruct (Scheduler.PublishCommand _ _ _ _) as [[] w1]. }
  unfold publish. pose proof (Hnow w Hw) as Hw1. destruct (Now w) as [now w1]. cbn [snd] in Hw1.
  destruct (sch_lastSent s !! _); [|by apply Hd].
  pose proof (Hnow w1 Hw1) as Hw2. destruct (Now w1) as [t2 w2]. case_match; [done|by apply Hd].
Qed.

Lemma mode_loop_invariant test k l s w : P w → P (mode_loop test k l s w).2.
Proof.
  revert s w. induction l as [|d l IH]; intros s w Hw; cbn [mode_loop]; [done|].
  destruct (test d); [|by apply IH].
  pose proof (publish_invariant d (kind_action k) (kind_reason k) (kind_params k) s w Hw) as Hp.
  destruct (publish _ _ _ _ _ _) as [[ok s1] w1]. by apply IH.
Qed.

Lemma publish_preserves d action reason params s w :
  P w → let '(_, _, w') := publish d action reason params s w in P w'.
Proof.
  intros Hw. pose proof (publish_invariant d action reason params s w Hw) as Hp.
  by destruct (publish _ _ _ _ _ _) as [[ok s1] w1].
Qed.

Lemma shed_loop_invariant l s w : P w → P (shed_loop l s w).2.
Proof. apply (shed_loop_preserves (λ _, P)). intros. by apply publish_preserves. Qed.

Lemma tick_invariant summary devices tele s w : P w → P (tick summary devices tele s w).2.
Proof. apply (tick_preserves (λ _, P)). intros. by apply publish_preserves. Qed.
End Invariant.

(** ** What a tick has to send *)

(** The commands a site needs: every battery below its upper bound is charged on a surplus,
    every one above its lower bound discharged on a deficit, and the first load that is
    not critical is switched off on a deficit no battery can help with. *)
Definition due (s : Scheduler) (summary : SiteSummary) (devices : list Device) (tele : gmap string Model.Telemetry)
    (k : kind) (d : Device) : Prop :=
  let net := sum_NetPowerW summary in
  let batteries := of_type (sch_siteID s) DeviceBattery devices in
  let loads := of_type (sch_siteID s) DeviceLoad devices in
  match k with
  | Charge => fltb net (of_int (-10)) = true ∧ d ∈ batteries ∧
      fltb (soc_of_device tele d) (pol_BatteryMaxSOC (sch_policy s)) = true
  | Discharge => fltb net (of_int (-10)) = false ∧ fltb (of_int 10) net = true ∧ d ∈ batteries ∧
      fltb (pol_BatteryMinSOC (sch_policy s)) (soc_of_device tele d) = true
  | Shed => fltb net (of_int (-10)) = false ∧ fltb (pol_LoadShedThreshold (sch_policy s)) net = true ∧
      Forall (λ b, fltb (pol_BatteryMinSOC (sch_policy s)) (soc_of_device tele b) = false) batteries ∧
      find (λ l, negb (dev_CriticalLoad l)) loads = Some d
  end.

Definition key_of (k : kind) (d : Device) : string := commandKey (dev_ID d) (kind_action k) (kind_params k).

(** A command of the kind, for the device of that name, that was sent. *)
Definition sent_as (site : string) (k : kind) (d : Device) (a : Attempt) : Prop :=
  att_ok a = true ∧ att_site a = site ∧ dev_ID (att_device a) = dev_ID d ∧
  ∃ now, att_command a = MkCommand (dev_ID d +:+ "-" +:+ pretty (UnixNano now)) (kind_action k) (kind_params k)
    (Unix now) (kind_reason k).

Section Sends.
Context {W : Type} {C : Clock W} {K : Commander W} {M : MonotoneClock W}.
#[local] Existing Instance traced_clock.
#[local] Existing Instance traced_commander.
(** The commander takes every command of the scheduler. *)
Context (Haccept : ∀ k site d cmd (w : W),
  cmd_Params cmd = kind_params k → (Scheduler.PublishCommand site d cmd w).1 = None).

#[local] Instance traced_monotone : MonotoneClock (W * list Attempt).
Proof using M.
  refine {| clock_of := λ wl : W * list Attempt, clock_of wl.1 |}.
  - intros [w l] t wl'. rewrite traced_now. destruct (Now w) as [t' w'] eqn:E. intros [= <- <-].
    by apply now_reads in E.
  - intros site d cmd [w l] err wl'. unfold Scheduler.PublishCommand at 1, traced_commander.
    destruct (Scheduler.PublishCommand site d cmd w) as [err' w'] eqn:E. intros [= <- <-]. by apply send_advances in E.
Defined.

Lemma attempt_stays a :
  (∀ wl : W * list Attempt, a ∈ wl.2 → a ∈ (Now wl).2.2) ∧
  (∀ site d cmd (wl : W * list Attempt), a ∈ wl.2 → a ∈ (Scheduler.PublishCommand site d cmd wl).2.2).
Proof.
  split; [intros [w l]|intros site d cmd [w l]]; cbn [snd].
  - rewrite traced_now. by destruct (Now w).
  - unfold Scheduler.PublishCommand at 1, traced_commander. destruct (Scheduler.PublishCommand _ _ _ _) as [err w'].
    cbn [snd]. intros Ha. apply elem_of_app. by left.
Qed.

Lemma kind_sent k d s (wl : W * list Attempt) :
  cool_cd s → ready (key_of k d) s wl →
  let '(_, _, wl') := publish d (kind_action k) (kind_reason k) (kind_params k) s wl in
  ∃ a, a ∈ wl'.2 ∧ att_device a = d ∧ sent_as (sch_siteID s) k d a.
Proof.
  intros Hcd Hk.
  destruct (publish_cases d (kind_action k) (kind_reason k) (kind_params k) s wl Hcd)
    as [(? & t & _ & _ & _ & Ht & Hheld)|(now & n & [w1 l1] & -> & _)].
  { destruct (Hk t Ht) as (m & Hm & ?). specialize (Hheld m Hm). lia. }
  unfold deliver. set (cmd := MkCommand _ _ _ _ _).
  unfold Scheduler.PublishCommand at 1, traced_commander. cbn [sch_siteID set_lastSent].
  pose proof (Haccept k (sch_siteID s) d cmd w1 eq_refl) as Ha.
  destruct (Scheduler.PublishCommand _ _ _ _) as [err w2]. cbn [fst] in Ha. subst err. cbn [snd].
  eexists. split; [apply elem_of_app; right; by left|]. split; [done|]. split_and!; [done..|]. by exists now.
Qed.

Lemma mode_loop_sends test k l s (wl : W * list Attempt) b :
  cool_cd s → b ∈ l → test b = true → ready (key_of k b) s wl →
  ∃ a, a ∈ (mode_loop test k l s wl).2.2 ∧ att_device a ∈ l ∧ sent_as (sch_siteID s) k b a.
Proof.
  revert s wl. induction l as [|d l IH]; intros s wl Hcd Hb Htest Hk; [by apply elem_of_nil in Hb|]. cbn [mode_loop].
  assert (Hrest : ∀ s1 wl1, same_config s s1 → ready (key_of k b) s1 wl1 → b ∈ l →
    ∃ a, a ∈ (mode_loop test k l s1 wl1).2.2 ∧ att_device a ∈ d :: l ∧ sent_as (sch_siteID s) k b a).
  { intros s1 wl1 (Hs1 & _ & Hc1) Hk1 Hb1. assert (Hcd1 : cool_cd s1) by (unfold cool_cd; by rewrite Hc1).
    destruct (IH s1 wl1 Hcd1 Hb1 Htest Hk1) as (a & ? & ? & ?). rewrite Hs1 in *.
    exists a. split_and!; [done|by right|done]. }
  destruct (decide (dev_ID d = dev_ID b ∧ test d = true)) as [[He Hd]|Hno].
  - rewrite Hd. assert (Hk' : ready (key_of k d) s wl) by (unfold key_of; by rewrite He).
    pose proof (kind_sent k d s wl Hcd Hk') as Hs.
    destruct (publish _ _ _ _ _ _) as [[ok s1] wl1]. destruct Hs as (a & Ha & Hda & Hsent). exists a. split_and!.
    + destruct (attempt_stays a). by apply (mode_loop_invariant (λ wl, a ∈ wl.2)).
    + rewrite Hda. by left.
    + unfold sent_as in *. by rewrite <- He.
  - apply elem_of_cons in Hb as [->|Hb]; [by destruct Hno|]. destruct (test d) eqn:Hd; [|by apply Hrest].
    assert (Hne : key_of k b ≠ key_of k d) by (intros [E _]%commandKey_inj; by destruct Hno).
    pose proof (publish_keeps_ready d (kind_action k) (kind_reason k) (kind_params k) s wl _ Hcd Hne Hk) as Ho.
    destruct (publish _ _ _ _ _ _) as [[ok s1] wl1]. destruct Ho as [Ho1 Ho2]. by apply Hrest.
Qed.

Lemma mode_loop_none test k l s (wl : W * list Attempt) :
  Forall (λ d, test d = false) l → mode_loop test k l s wl = (s, wl).
Proof. induction 1 as [|d l Hd _ IH]; [done|]. cbn [mode_loop]. by rewrite Hd. Qed.

Lemma shed_loop_sends l s (wl : W * list Attempt) d :
  find (λ l, negb (dev_CriticalLoad l)) l = Some d → cool_cd s → ready (key_of Shed d) s wl →
  ∃ a, a ∈ (shed_loop l s wl).2.2 ∧ att_device a = d ∧ sent_as (sch_siteID s) Shed d a.
Proof.
  intros Hf Hcd Hk. induction l as [|x l IH]; [done|]. cbn [find shed_loop] in *. destruct (negb _); [|by apply IH].
  injection Hf as ->. pose proof (kind_sent Shed d s wl Hcd Hk) as Hs. cbn [kind_action kind_params kind_reason] in Hs.
  unfold shed. by destruct (publish _ _ _ _ _ _) as [[ok s1] wl1].
Qed.

(** What is due and not held back by the cooldown is sent. *)
Lemma tick_sends summary devices tele s (wl : W * list Attempt) k d :
  due s summary devices tele k d → cool_cd s → ready (key_of k d) s wl →
  ∃ a, a ∈ (tick summary devices tele s wl).2.2 ∧
    att_device a ∈ of_type (sch_siteID s) (match k with Shed => DeviceLoad | _ => DeviceBattery end) devices ∧
    sent_as (sch_siteID s) k d a.
Proof.
  intros Hdue Hcd Hk. unfold tick, Policy_. destruct k; cbn [due] in Hdue.
  - destruct Hdue as (-> & Hd & Hsoc). rewrite charge_mode_loop. by apply mode_loop_sends.
  - destruct Hdue as (-> & -> & Hd & Hsoc).
    destruct (mode_loop_sends (above_min (sch_policy s) tele) Discharge _ s wl d Hcd Hd Hsoc Hk) as (a & Ha & Hl & Hs).
    exists a. split; [|done].
    destruct (discharge_mode_loop (sch_policy s) tele (of_type (sch_siteID s) DeviceBattery devices) false s wl) as [_ E].
    destruct (discharge_loop _ _ _ _ _ _) as [[disp s1] wl1]. cbn [snd] in E. subst wl1.
    destruct disp; [done|]. destruct (fltb (pol_LoadShedThreshold _) _); [|done]. destruct (attempt_stays a).
    by apply (shed_loop_invariant (λ wl, a ∈ wl.2)).
  - destruct Hdue as (-> & Hth & Hnone & Hf).
    assert (E : (if fltb (of_int 10) (sum_NetPowerW summary)
      then discharge_loop (sch_policy s) tele (of_type (sch_siteID s) DeviceBattery devices) false s wl
      else (false, s, wl)) = (false, s, wl)).
    { destruct (fltb (of_int 10) _); [|done]. clear Hf Hth. induction Hnone as [|b l Hb _ IH]; [done|].
      cbn [discharge_loop]. by rewrite Hb. }
    rewrite E, Hth. destruct (shed_loop_sends _ _ wl _ Hf Hcd Hk) as (a & Ha & Hda & Hs). exists a.
    split; [done|]. split; [|done]. rewrite Hda. by apply find_some in Hf as [?%list_elem_of_In _].
Qed.
End Sends.

(** ** The platform as the commander *)

Definition accepted (attempts : list Attempt) : list Attempt := filter (λ a, att_ok a = true) attempts.

Definition published (a : Attempt) (m : string * string) : Prop :=
  m.1 = Topic.Command (att_site a) (dev_Type (att_device a)) (dev_ID (att_device a)) ∧
  marshal_command (att_command a) = Some m.2.
Definition recorded (a : Attempt) (r : CommandRecord) : Prop :=
  ∃ now, r = issued_record (now, att_site a, att_device a, att_command a).

(** The commands of the scheduler have a text, which is read as it was. *)
Lemma kind_marshals k cmd : cmd_Params cmd = kind_params k → is_Some (marshal_command cmd).
Proof.
  intros Hp. unfold marshal_command, Command.text, struct. rewrite fmap_is_Some, Hp.
  assert (is_Some (omitempty "params" (kind_params k))) as [x1 ->] by (destruct k; vm_compute; by eexists).
  assert (is_Some (omitempty "reason" (cmd_Reason cmd))) as [x2 ->] by (unfold omitempty; case_decide; by eexists).
  by eexists.
Qed.

Lemma digits_utf8 d : all_digits d = true → utf8 d.
Proof.
  induction d as [|a d IH]; [constructor|]. cbn [all_digits]. intros [Ha Hd]%andb_true_iff. apply utf8_1; [|by apply IH].
  revert Ha. clear. by all_bytes a.
Qed.

Lemma pretty_utf8 (z : Z) : utf8 (pretty z).
Proof.
  destruct (pretty_Z_cases z) as (sg & n & -> & Hsg). destruct (pretty_N_digits n) as ([_ Hall] & _ & _).
  apply utf8_app; [|by apply digits_utf8]. by destruct Hsg as [[-> _]|[-> _]]; apply utf8_check; vm_compute.
Qed.

Lemma kind_ok k site d a : utf8 (dev_ID d) → sent_as site k d a → command_ok (att_command a).
Proof.
  intros Hu (_ & _ & _ & now & ->). split; cbn [cmd_CommandID cmd_Action cmd_Params cmd_IssuedAt cmd_Reason].
  - apply utf8_app; [done|]. apply (utf8_app "-"); [by apply utf8_check; vm_compute|apply pretty_utf8].
  - destruct k; by apply utf8_check; vm_compute.
  - destruct k; apply map_Forall_singleton; (split; [by apply utf8_check; vm_compute|]); try done; by apply utf8_check; vm_compute.
  - apply wrap64_range.
  - destruct k; by apply utf8_check; vm_compute.
Qed.

(** ** What the device does *)

Definition kind_type (k : kind) : DeviceType := match k with Shed => DeviceLoad | _ => DeviceBattery end.

Definition obeyed (k : kind) (id : string) (s : simulator) : Prop :=
  match k with
  | Charge => sim_batteryMode s = "charging"
  | Discharge => sim_batteryMode s = "discharging"
  | Shed => relayOn id s = false
  end.

Lemma kind_obeyed k site d a payload now signed_at keys sim :
  level site → level (dev_ID d) → utf8 (dev_ID d) → sent_as site k d a → marshal_command (att_command a) = Some payload →
  let '(answer, sim') := receive now signed_at (Topic.Command site (kind_type k) (dev_ID d)) payload keys sim in
  obeyed k (dev_ID d) sim' ∧
  answer = Some (send ("vpp/" +:+ sim_siteID sim +:+ "/" +:+ kind_type k +:+ "/" +:+ dev_ID d +:+ "/command/ack")
    (dev_ID d) (marshal_ack (MkCommandAck (cmd_CommandID (att_command a)) true "" (Unix now))) keys signed_at).
Proof.
  intros Hs Hd Hu Hsent Hm. pose proof (kind_ok _ _ _ _ Hu Hsent) as Hok.
  assert (Ht : level (kind_type k)) by by destruct k.
  pose proof (receive_published now signed_at site _ _ _ payload keys sim Hs Ht Hd Hok Hm) as Hr. cbv zeta in Hr.
  destruct Hsent as (_ & _ & _ & t & Hcmd).
  assert (He : ∃ sim', execute (MkParsed site (kind_type k) (dev_ID d) "command") (att_command a) sim = (true, "", sim') ∧
    obeyed k (dev_ID d) sim').
  { rewrite Hcmd. destruct k; cbn [kind_type kind_action kind_params].
    - eexists. split; [eapply (execute_mode _ _ _ "charging"); [done|apply lookup_singleton_eq|by left]|done].
    - eexists. split; [eapply (execute_mode _ _ _ "discharging"); [done|apply lookup_singleton_eq|by right]|done].
    - eexists. split; [eapply (execute_relay _ _ _ false); [done|apply lookup_singleton_eq]|].
      unfold obeyed, relayOn. cbn. by rewrite lookup_insert_eq. }
  destruct He as (sim' & He & Hob). rewrite He in Hr. by rewrite Hr.
Qed.

Section Closed.
Context {W : Type} {CL : Clock W} {BR : Broker W} {ST : Storage W}.

(** The platform, its world with what the broker took, and the commands of the scheduler. *)
Abbreviation loop_world := ((Platform * (W * list (string * string))) * list Attempt)%type.
#[local] Existing Instance traced_clock.
#[local] Existing Instance traced_broker.
#[local] Existing Instance traced_storage.
#[local] Existing Instance traced_commander.

Definition loop_tick (ord1 : list (string * Model.Telemetry)) (ord2 : list (string * Device))
    (ord3 : list (string * Model.Telemetry)) (s : Scheduler) (p : Platform) (w : W) : Scheduler * loop_world :=
  Tick (W := loop_world) (pf_store p) (pf_store p) (pf_store p) ord1 ord2 ord3 s ((p, (w, [])), []).

(** What the broker took, and what the history holds, is what the scheduler sent. *)
Record accounted (p0 : Platform) (x : loop_world) : Prop := {
  ac_published : Forall2 published (accepted x.2) x.1.2.2;
  ac_recorded : ∃ recs, Forall2 recorded (accepted x.2) recs ∧
    st_commands (pf_store x.1.1) = take history (reverse recs ++ st_commands (pf_store p0));
  ac_devices : st_devices (pf_store x.1.1) = st_devices (pf_store p0);
  ac_telemetry : st_telemetry (pf_store x.1.1) = st_telemetry (pf_store p0);
  ac_events : st_events (pf_store x.1.1) = st_events (pf_store p0);
  ac_rejects : pf_rejects x.1.1 = pf_rejects p0
}.

Lemma accounted_now p0 (x : loop_world) : accounted p0 x → accounted p0 (Now x).2.
Proof.
  destruct x as [[p [w log]] l]. intros Hx. rewrite traced_now.
  change (Now (p, (w, log))) with (let '(t, w) := Now (w, log) in (t, (p, w))). rewrite traced_now.
  destruct (Now w) as [t w1]. by destruct Hx.
Qed.

(** One command given to the client. *)
Lemma PublishCommand_traced site d cmd p (w : W) log :
  let '(err, p', (w', log')) := Mqtt.PublishCommand site d cmd p (w, log) in
  match err with
  | Some _ => p' = p ∧ log' = log
  | None =>
      (∃ payload, marshal_command cmd = Some payload ∧
         log' = log ++ [(Topic.Command site (dev_Type d) (dev_ID d), payload)]) ∧
      (∃ now, st_commands (pf_store p') = take history (issued_record (now, site, d, cmd) :: st_commands (pf_store p))) ∧
      st_devices (pf_store p') = st_devices (pf_store p) ∧ st_telemetry (pf_store p') = st_telemetry (pf_store p) ∧
      st_events (pf_store p') = st_events (pf_store p) ∧ pf_rejects p' = pf_rejects p
  end.
Proof.
  unfold Mqtt.PublishCommand. destruct (marshal_command cmd) as [payload|]; [|done].
  unfold Publish, traced_broker. destruct (Publish _ payload w) as [[err|] w1]; [done|].
  unfold record_issued. rewrite traced_now. destruct (Now w1) as [now w2].
  destruct (pf_repo _); [rewrite traced_fault; destruct (db_fault w2) as [fault w3]; rewrite traced_now;
    destruct (Now w3) as [db_now w4]|];
    (split; [by exists payload|]; split; [exists now; apply PutCommandIssued_commands|done]).
Qed.

Lemma accounted_send p0 site d cmd (x : loop_world) :
  accounted p0 x → accounted p0 (Scheduler.PublishCommand site d cmd x).2.
Proof.
  destruct x as [[p [w log]] l]. intros [Hpub (recs & Hrecs & Hcmds) Hd Ht He Hr]. cbn [fst snd] in *.
  unfold Scheduler.PublishCommand at 1, traced_commander, Scheduler.PublishCommand, mqtt_commander.
  pose proof (PublishCommand_traced site d cmd p w log) as Hp.
  destruct (Mqtt.PublishCommand _ _ _ _ _) as [[err p'] [w' log']]. cbn [fst snd].
  assert (Hacc : ∀ ok, accepted (l ++ [MkAttempt site d cmd ok]) =
    accepted l ++ (if ok then [MkAttempt site d cmd true] else [])).
  { intros ok. unfold accepted. rewrite filter_app. by destruct ok. }
  destruct err as [err|].
  - destruct Hp as [-> ->]. rewrite bool_decide_eq_false_2 by done.
    split; cbn [fst snd]; rewrite ?Hacc, ?app_nil_r; try done. by exists recs.
  - destruct Hp as ((payload & Hm & ->) & (now & Hc) & Hd' & Ht' & He' & Hr'). rewrite bool_decide_eq_true_2 by done.
    split; cbn [fst snd]; rewrite ?Hacc; [| |congruence..].
    + apply Forall2_app; [done|]. by repeat constructor.
    + exists (recs ++ [issued_record (now, site, d, cmd)]). split.
      * apply Forall2_app; [done|]. repeat constructor. by exists now.
      * rewrite Hc, Hcmds, reverse_app. apply take_cons_take.
Qed.

Lemma tick_accounted ord1 ord2 ord3 s p (w : W) :
  length (st_commands (pf_store p)) ≤ history → accounted p (loop_tick ord1 ord2 ord3 s p w).2.
Proof.
  intros Hlen. unfold loop_tick, Tick. apply (tick_invariant (accounted p)); [apply accounted_now|intros; by apply accounted_send|].
  split; try done. exists []. split; [constructor|]. cbn [fst]. by rewrite take_ge.
Qed.

(** The time of the platform is the one of its world. *)
#[local] Instance loop_monotone {MW : MonotoneWorld W} :
  @MonotoneClock (Platform * (W * list (string * string))) mqtt_clock mqtt_commander.
Proof.
  refine (Build_MonotoneClock _ _ _ (λ x : Platform * (W * list (string * string)), world_clock x.2.1) _ _).
  - intros [p [w log]] t x.
    change (Now (p, (w, log))) with (let '(t, w) := Now (w, log) in (t, (p, w))). rewrite traced_now.
    destruct (world_now w) as (n & Hn & Hle). destruct (Now w) as [t' w']. intros [= <- <-]. by exists n.
  - intros site d cmd [p [w log]] err x. unfold Scheduler.PublishCommand, mqtt_commander, Mqtt.PublishCommand.
    destruct (marshal_command cmd) as [payload|]; [|intros [= <- <-]; cbn; lia].
    unfold Publish, traced_broker. pose proof (world_publish (Topic.Command site (dev_Type d) (dev_ID d)) payload w) as Hp.
    destruct (Publish _ payload w) as [[e|] w1]; cbn [snd] in Hp; [intros [= <- <-]; done|].
    unfold record_issued. rewrite traced_now. destruct (world_now w1) as (n1 & _ & H1). destruct (Now w1) as [now w2].
    cbn [snd] in H1. destruct (pf_repo _); [|intros [= <- <-]; cbn; lia].
    rewrite traced_fault. pose proof (world_fault w2) as H2. destruct (db_fault w2) as [fault w3]. cbn [snd] in H2.
    rewrite traced_now. destruct (world_now w3) as (n3 & _ & H3). destruct (Now w3) as [db_now w4]. cbn [snd] in H3.
    intros [= <- <-]. cbn. lia.
Defined.

(** A broker that takes everything makes a commander that does. *)
Lemma platform_accepts k site d cmd (x : Platform * (W * list (string * string))) :
  (∀ topic payload (w : W), (Publish topic payload w).1 = None) →
  cmd_Params cmd = kind_params k → (Scheduler.PublishCommand site d cmd x).1 = None.
Proof.
  intros Hb Hp. destruct x as [p [w log]]. unfold Scheduler.PublishCommand, mqtt_commander.
  pose proof (PublishCommand_traced site d cmd p w log) as Ht.
  assert (Hm : is_Some (marshal_command cmd)) by (apply kind_marshals with k, Hp). destruct Hm as [payload Hm].
  destruct (PublishCommand_accepted site d cmd p (w, log) payload Hm) as (p' & w' & ->); [|done].
  pose proof (Hb (Topic.Command site (dev_Type d) (dev_ID d)) payload w) as Hok. cbn.
  by destruct (Publish _ payload w).
Qed.
End Closed.

(** ** Properties *)

(** C4: The control loop is closed.  Whatever the broker answers, after a tick what the
    broker took and what the history gained are exactly the commands the scheduler
    was told were sent, in their order, and nothing else of the live store
    changed.  And when the monotonic clock does not go back and the broker takes what
    it is given, everything the state of the site asks for is done: a
    battery to be charged or discharged, a load to be shed, is sent a command that
    its device executes and confirms, in whatever state it is, unless the
    scheduler notes that the same command was sent to it less than a cooldown
    before the tick: a note that is older does not hold the command back. *)
Theorem control_loop {W} {CL : Clock W} {BR : Broker W} {ST : Storage W} ord1 ord2 ord3 s p (w : W) :
  length (st_commands (pf_store p)) ≤ history →
  let '(_, x) := loop_tick ord1 ord2 ord3 s p w in
  accounted p x ∧
  (∀ (MW : MonotoneWorld W), (∀ topic payload (w : W), (Publish topic payload w).1 = None) →
   (0 ≤ sch_cooldown s ≤ max_int64)%Z → ∀ k d,
   due s (Summary (sch_siteID s) ord1 (pf_store p)) (Devices ord2) (TelemetryForSite (sch_siteID s) ord3) k d →
   (∀ noted, sch_lastSent s !! key_of k d = Some noted →
     ∃ m, t_mono noted = Some m ∧ (m + sch_cooldown s ≤ world_clock w)%Z) →
   level (sch_siteID s) → level (dev_ID d) → utf8 (dev_ID d) →
   let topic := Topic.Command (sch_siteID s) (kind_type k) (dev_ID d) in
   ∃ payload, (topic, payload) ∈ x.1.2.2 ∧
     ∀ now signed_at keys sim, ∃ id,
       let '(answer, sim') := receive now signed_at topic payload keys sim in
       obeyed k (dev_ID d) sim' ∧
       answer = Some (send ("vpp/" +:+ sim_siteID sim +:+ "/" +:+ kind_type k +:+ "/" +:+ dev_ID d +:+ "/command/ack")
         (dev_ID d) (marshal_ack (MkCommandAck id true "" (Unix now))) keys signed_at)).
Proof.
  intros Hlen. pose proof (tick_accounted ord1 ord2 ord3 s p w Hlen) as Hacc.
  destruct (loop_tick ord1 ord2 ord3 s p w) as [s' x] eqn:Ex. cbn [snd] in Hacc. split; [done|].
  intros MW Hb Hcd k d Hdue Hk Hs Hd Hu topic.
  destruct (tick_sends (W := Platform * (W * list (string * string))) (C := @mqtt_clock _ traced_clock)
    (K := @mqtt_commander _ traced_clock traced_broker traced_storage) (M := loop_monotone)
    (λ k site d cmd x, platform_accepts k site d cmd x Hb)
    _ _ _ s ((p, (w, [])), []) k d Hdue Hcd Hk) as (a & Ha & Hty & Hsent).
  unfold loop_tick, Tick in Ex. rewrite Ex in Ha. cbn [snd] in Ha.
  apply of_type_elem in Hty as (_ & Hty & _).
  assert (Hin : a ∈ accepted x.2) by (apply list_elem_of_filter; split; [by destruct Hsent|done]).
  apply list_elem_of_lookup_1 in Hin as [i Hi].
  destruct (Forall2_lookup_l _ _ _ _ _ (ac_published _ _ Hacc) Hi) as ([t payload] & Hmem%list_elem_of_lookup_2 & Ht & Hm).
  cbn [fst snd] in Ht, Hm. pose proof Hsent as (_ & Hsite & Hid & _).
  assert (t = topic) as -> by (rewrite Ht, Hsite, Hid, Hty; by destruct k).
  exists payload. split; [done|]. intros now signed_at keys sim. exists (cmd_CommandID (att_command a)).
  by eapply kind_obeyed.
Qed.

(** ** The theorem at a concrete site *)

(** A site with 40 W to spare and an empty battery. *)
Definition ex_sunny : Model.Telemetry :=
  MkTelemetry "pv_01" "site-a" DevicePV 1000 {["power" := of_int 40]} "on" 1.
Definition ex_panels : Device :=
  MkDevice "pv_01" "site-a" DevicePV "roof" (of_int 100) fzero false (time_Unix 1).
Definition ex_sunny_platform : Platform :=
  MkPlatform (PutTelemetry [] ex_sunny (UpsertDevice zero_time ex_panels ex_store)) (Some migrate) ∅.

(** A world that is its clock: a reading and a publication take a second each. *)
Definition ex_slow_broker : Broker Z := Build_Broker Z (λ w, (true, w)) (λ _ _ w, (None, (w + Second)%Z)).
Definition ex_ready_storage : Storage Z := λ w, (None, w).

Definition ex_world : @MonotoneWorld Z ex_clock ex_slow_broker ex_ready_storage.
Proof.
  refine (@Build_MonotoneWorld Z ex_clock ex_slow_broker ex_ready_storage (λ w, w) _ _ _); unfold Second; cbn.
  - intros w. exists w. split; [done|unfold Second; lia].
  - intros _ _ w. unfold Second. lia.
  - intros w. lia.
Defined.

(** The scheduler 31 seconds after it has told the battery to charge. *)
Definition ex_noted : Scheduler :=
  set_lastSent <[key_of Charge ex_battery := MkTime (unix_epoch * Second) (Some 0%Z)]> (Scheduler.New "site-a" ex_policy).

Lemma control_loop_witness :
  let st := pf_store ex_sunny_platform in
  let '(_, x) := @loop_tick Z ex_clock ex_slow_broker ex_ready_storage (map_to_list (st_telemetry st))
    (map_to_list (st_devices st)) (map_to_list (st_telemetry st)) ex_noted ex_sunny_platform (31 * Second)%Z in
  ∃ payload, (Topic.Command "site-a" DeviceBattery "battery-1", payload) ∈ x.1.2.2 ∧
    sim_batteryMode (receive zero_time zero_time (Topic.Command "site-a" DeviceBattery "battery-1") payload ∅ ex_sim).2
      = "charging".
Proof.
  intros st. pose proof (@control_loop Z ex_clock ex_slow_broker ex_ready_storage (map_to_list (st_telemetry st))
    (map_to_list (st_devices st)) (map_to_list (st_telemetry st)) ex_noted ex_sunny_platform (31 * Second)%Z)
    as Hc.
  destruct (loop_tick _ _ _ _ _ _) as [s' x]. destruct Hc as [_ Hc]; [cbn; lia|].
  destruct (Hc ex_world ltac:(done) ltac:(by vm_compute) Charge ex_battery) as (payload & Hin & Hrun).
  - split; [by vm_compute|]. split; [|by vm_compute].
    apply list_elem_of_filter. split; [done|]. unfold Devices. apply list_elem_of_fmap.
    exists (stateKey "site-a" "battery-1", ex_battery). split; [done|]. apply elem_of_map_to_list. by vm_compute.
  - intros noted. unfold ex_noted, set_lastSent. cbn [sch_lastSent]. rewrite lookup_insert_eq. intros [= <-].
    exists 0%Z. split; [done|]. by vm_compute.
  - by vm_compute.
  - by vm_compute.
  - by apply utf8_check; vm_compute.
  - exists payload. split; [exact Hin|]. destruct (Hrun zero_time zero_time ∅ ex_sim) as (id & Hr).
    destruct (receive _ _ _ _ _ _) as [answer sim']. by destruct Hr.
Defined.
