(* ===== verification/EdgeHttp.v ===== *)
(** * cmd/edge-gateway: the HTTP handlers

    [edgeHTTPHandler]: the state of the gateway, the statistics of its cache,
    the metrics page, and the command that is published locally without the
    platform.  A handler takes the cache, the counters and the world to the
    answer and what they become; the local and the upstream broker are two
    instances of [Broker].  The content of an answer is the value handed to
    [writeJSON], or the text of the page. *)
From Stdlib Require Import Ascii Floats.SpecFloat.
From S2P Require Import Prelude Float64 FloatFacts GoTime World GoStrings Model Topic State.
From S2P Require Import Json JsonString JsonText JsonDecode Decoders Messages Bodies Http.
From S2P Require Import DeviceAuth EdgeCache EdgeGateway Simulator EndToEnd.

(** ** The body of a local command *)

Module LocalCommand.
Definition zero_value : localCommandRequest := MkLocalCommandRequest "" "" "" "" ∅ "".

Definition fields : list (string * decoder localCommandRequest) := [
  ("site_id", field_decoder lc_SiteID (λ x r, MkLocalCommandRequest x (lc_DeviceType r) (lc_DeviceID r)
     (lc_Action r) (lc_Params r) (lc_Reason r)));
  ("device_type", field_decoder lc_DeviceType (λ x r, MkLocalCommandRequest (lc_SiteID r) x (lc_DeviceID r)
     (lc_Action r) (lc_Params r) (lc_Reason r)));
  ("device_id", field_decoder lc_DeviceID (λ x r, MkLocalCommandRequest (lc_SiteID r) (lc_DeviceType r) x
     (lc_Action r) (lc_Params r) (lc_Reason r)));
  ("action", field_decoder lc_Action (λ x r, MkLocalCommandRequest (lc_SiteID r) (lc_DeviceType r)
     (lc_DeviceID r) x (lc_Params r) (lc_Reason r)));
  ("params", field_decoder lc_Params (λ x r, MkLocalCommandRequest (lc_SiteID r) (lc_DeviceType r)
     (lc_DeviceID r) (lc_Action r) x (lc_Reason r)));
  ("reason", field_decoder lc_Reason (λ x r, MkLocalCommandRequest (lc_SiteID r) (lc_DeviceType r)
     (lc_DeviceID r) (lc_Action r) (lc_Params r) x))].
End LocalCommand.

Definition decode_local_body : string → option localCommandRequest :=
  Decode LocalCommand.zero_value (decode_fields LocalCommand.fields).

(** ** The metrics page *)

Definition quoted_label (name value : string) : string := name +:+ "=" +:+ quoted value.

(** The two comments a metric begins with. *)
Definition edge_header (name help typ : string) : list string :=
  ["# HELP " +:+ name +:+ " " +:+ help; "# TYPE " +:+ name +:+ " " +:+ typ].

Definition cache_lines (stats : CacheStats) : list string :=
  edge_header "vpp_edge_cache_messages" "Edge MQTT cache messages by state." "gauge" ++
  ["vpp_edge_cache_messages{" +:+ quoted_label "state" "pending" +:+ "} " +:+ pretty (stats_Pending stats);
   "vpp_edge_cache_messages{" +:+ quoted_label "state" "total" +:+ "} " +:+ pretty (stats_Total stats)].

Definition age_lines (age retention : float64) : list string :=
  edge_header "vpp_edge_cache_oldest_pending_age_seconds" "Age of the oldest pending edge cache message." "gauge" ++
  ["vpp_edge_cache_oldest_pending_age_seconds " +:+ fmt_fixed 0 age] ++
  edge_header "vpp_edge_cache_retention_seconds" "Edge cache retention for sent messages." "gauge" ++
  ["vpp_edge_cache_retention_seconds " +:+ fmt_fixed 0 retention].

Definition connected_lines (local upstream : bool) : list string :=
  edge_header "vpp_edge_mqtt_connected" "Edge MQTT connection state." "gauge" ++
  ["vpp_edge_mqtt_connected{" +:+ quoted_label "side" "local" +:+ "} " +:+ fmt_fixed 0 (boolFloat local);
   "vpp_edge_mqtt_connected{" +:+ quoted_label "side" "upstream" +:+ "} " +:+ fmt_fixed 0 (boolFloat upstream)].

Definition counter_line (count : string * Z) : string :=
  "vpp_edge_local_commands_total{" +:+ quoted_label "status" count.1 +:+ "} " +:+ pretty count.2.

Definition counter_lines (counts : list (string * Z)) : list string :=
  edge_header "vpp_edge_local_commands_total" "Edge local commands by status." "counter" ++
  (counter_line <$> counts).

(** ** Answers *)

Inductive EdgeBody :=
| EEmpty
| EError (msg : string)
| EHealth (status : string) (local_mqtt upstream_configured upstream_mqtt : bool)
| EStats (stats : CacheStats)
| ECommand (topic : string) (cmd : Model.Command)
| EPage (lines : list string).

Record EdgeResponse := MkEdgeResponse { er_Code : Z; er_Body : EdgeBody }.

(** What [edgeHTTPHandler] is given; of a client, whether there is one. *)
Record EdgeOptions := MkEdgeOptions {
  eo_local : bool;
  eo_upstream : bool;
  eo_retention : Z;
  eo_siteID : string;
  eo_controlToken : string
}.

(** What the handlers share. *)
Record Edge := MkEdge { ed_cache : Cache; ed_counters : edgeCounter }.

Definition count_command (label : string) (e : Edge) : Edge :=
  MkEdge (ed_cache e) (Inc label (ed_counters e)).

(** ** Handlers *)

Section Handlers.
Context {W : Type} `{Clock W} `{Storage W} `{Location} `{DecodeErrors}.
Context (local upstream : Broker W) (opts : EdgeOptions).

Definition answer : Type := EdgeResponse * Edge * W.
Definition write (code : Z) (body : EdgeBody) (e : Edge) (w : W) : answer := (MkEdgeResponse code body, e, w).

(** [client != nil && client.IsConnected()]. *)
Definition connected (client : Broker W) (configured : bool) (w : W) : bool * W :=
  if configured then @IsConnected W client w else (false, w).

Definition healthz (e : Edge) (w : W) : answer :=
  let '(local_mqtt, w) := connected local (eo_local opts) w in
  let '(upstream_mqtt, w) := connected upstream (eo_upstream opts) w in
  let '(up, w) := connected local (eo_local opts) w in
  if up then write 200 (EHealth "ok" local_mqtt (eo_upstream opts) upstream_mqtt) e w
  else write 503 (EHealth "degraded" local_mqtt (eo_upstream opts) upstream_mqtt) e w.

(** [cache.Stats]: three statements, the first error ends them. *)
Definition read_stats (c : Cache) (w : W) : (CacheStats * option error) * W :=
  let '(f1, w) := db_fault w in
  match f1 with
  | Some _ => (Stats f1 None None c, w)
  | None =>
      let '(f2, w) := db_fault w in
      match f2 with
      | Some _ => (Stats None f2 None c, w)
      | None => let '(f3, w) := db_fault w in (Stats None None f3 c, w)
      end
  end.

Definition cache_stats (e : Edge) (w : W) : answer :=
  let '((stats, err), w) := read_stats (ed_cache e) w in
  match err with
  | Some err => write 500 (EError err) e w
  | None => write 200 (EStats stats) e w
  end.

(** [counts]: the order in which the snapshot of the counters ranges over its map. *)
Definition edge_metrics (counts : list (string * Z)) (e : Edge) (w : W) : answer :=
  let '((stats, err), w) := read_stats (ed_cache e) w in
  match err with
  | Some err => write 500 (EError err) e w
  | None =>
      let '(now, w) := match stats_OldestPendingAt stats with Some _ => Now w | None => (zero_time, w) end in
      let '(local_mqtt, w) := connected local (eo_local opts) w in
      let '(upstream_mqtt, w) := connected upstream (eo_upstream opts) w in
      write 200 (EPage (cache_lines stats ++
        age_lines (oldestPendingAgeSeconds now (stats_OldestPendingAt stats)) (Seconds (eo_retention opts)) ++
        connected_lines local_mqtt upstream_mqtt ++ counter_lines (Snapshot counts (ed_counters e)))) e w
  end.

(** [POST /api/v1/local-command]; every way out counts. *)
Definition fail (code : Z) (msg : string) (e : Edge) (w : W) : answer :=
  write code (EError msg) (count_command "failed" e) w.

Definition publish_local (req : localCommandRequest) (e : Edge) (w : W) : answer :=
  let site := if decide (lc_SiteID req = "") then eo_siteID opts else lc_SiteID req in
  let '(now1, w) := Now w in
  let '(now2, w) := Now w in
  let cmd := local_command now1 now2 req in
  match marshal_command cmd with
  | None => fail 500 "json: unsupported value" e w
  | Some payload =>
      let targetTopic := Topic.Command site (lc_DeviceType req) (lc_DeviceID req) in
      let '(err, w) := @Publish W local targetTopic payload w in
      match err with
      | Some err => fail 502 err e w
      | None => write 202 (ECommand targetTopic cmd) (count_command "accepted" e) w
      end
  end.

Definition local_command_handler (r : Request) (e : Edge) (w : W) : answer :=
  if negb (edgeAuthorized (rq_Header r "X-VPP-Edge-Token") (rq_Header r "Authorization") (eo_controlToken opts))
  then fail 401 "edge control token required" e w else
  let '(up, w) := connected local (eo_local opts) w in
  if negb up then fail 503 "local mqtt disconnected" e w else
  match decodeLocalCommand (decoded decode_local_body (rq_Body r)) with
  | inl err => fail 400 err e w
  | inr req => publish_local req e w
  end.

(** ** Routing *)

Inductive EdgeRoute := EHealthz | ECacheStats | ELocalCommand | EMetrics.
#[export] Instance edge_route_dec : EqDecision EdgeRoute.
Proof. solve_decision. Defined.

Definition edge_routes : list (string * list Seg * EdgeRoute) :=
  [("GET", [Lit "healthz"], EHealthz);
   ("GET", [Lit "api"; Lit "v1"; Lit "cache"; Lit "stats"], ECacheStats);
   ("POST", [Lit "api"; Lit "v1"; Lit "local-command"], ELocalCommand);
   ("GET", [Lit "metrics"], EMetrics)].

(** The route of a request; a path that is not clean is redirected. *)
Definition edge_route (r : Request) : option EdgeRoute :=
  if rq_clean r then fst <$> find_route edge_routes (rq_Method r) (rq_segments r) else None.

(** Without a route: redirected, refused for its method, or not found. *)
Definition no_route (r : Request) : Z :=
  if negb (rq_clean r) then 301 else
  if existsb (λ rt, match match_path rt.1.2 (rq_segments r) with Some _ => true | None => false end) edge_routes
  then 405 else 404.

Definition edge_serve (r : Request) (counts : list (string * Z)) (e : Edge) (w : W) : answer :=
  match edge_route r with
  | Some EHealthz => healthz e w
  | Some ECacheStats => cache_stats e w
  | Some ELocalCommand => local_command_handler r e w
  | Some EMetrics => edge_metrics counts e w
  | None => write (no_route r) EEmpty e w
  end.
End Handlers.

(** ** Counting *)

Section Counting.
Context {W : Type} `{Clock W} `{Storage W} `{Location} `{DecodeErrors}.
Context (local upstream : Broker W) (opts : EdgeOptions).

(** The label a request to the command handler counts under. *)
Definition outcome (rsp : EdgeResponse) : string := if decide (er_Code rsp = 202%Z) then "accepted" else "failed".

Lemma local_command_counted r e (w : W) rsp e' w' :
  local_command_handler local opts r e w = (rsp, e', w') → e' = count_command (outcome rsp) e.
Proof.
  unfold local_command_handler. destruct (edgeAuthorized _ _ _); [|by intros [= <- <- <-]]. cbn [negb].
  destruct (connected _ _ w) as [[] w1]; [|by intros [= <- <- <-]]. cbn [negb].
  destruct (decodeLocalCommand _) as [err|req]; [by intros [= <- <- <-]|].
  unfold publish_local. destruct (Now w1) as [now1 w2]. destruct (Now w2) as [now2 w3].
  destruct (marshal_command _) as [payload|]; [|by intros [= <- <- <-]].
  destruct (Publish _ _ w3) as [[err|] w4]; by intros [= <- <- <-].
Qed.

Lemma edge_serve_counted r counts e (w : W) rsp e' w' :
  edge_serve local upstream opts r counts e w = (rsp, e', w') →
  e' = if decide (edge_route r = Some ELocalCommand) then count_command (outcome rsp) e else e.
Proof.
  unfold edge_serve. destruct (edge_route r) as [[]|].
  - rewrite decide_False by done. unfold healthz. destruct (connected local _ w) as [? w1].
    destruct (connected upstream _ w1) as [? w2]. destruct (connected local _ w2) as [[] w3]; by intros [= <- <- <-].
  - rewrite decide_False by done. unfold cache_stats. destruct (read_stats _ _) as [[stats [err|]] w1]; by intros [= <- <- <-].
  - rewrite decide_True by done. apply local_command_counted.
  - rewrite decide_False by done. unfold edge_metrics. destruct (read_stats _ _) as [[stats [err|]] w1]; [by intros [= <- <- <-]|].
    destruct (match stats_OldestPendingAt _ with Some _ => _ | None => _ end) as [now w2].
    destruct (connected local _ w2) as [? w3]. destruct (connected upstream _ w3) as [? w4]. by intros [= <- <- <-].
  - rewrite decide_False by done. by intros [= <- <- <-].
Qed.

(** Requests one after the other, each with the cache it finds and the order in which it
    visits the counters. *)
Fixpoint edge_run (reqs : list (Request * Cache * list (string * Z))) (counters : edgeCounter) (w : W) :
    list (Request * EdgeResponse) * edgeCounter * W :=
  match reqs with
  | [] => ([], counters, w)
  | (r, cache, counts) :: reqs' =>
      let '(rsp, e, w) := edge_serve local upstream opts r counts (MkEdge cache counters) w in
      let '(answers, counters, w) := edge_run reqs' (ed_counters e) w in
      ((r, rsp) :: answers, counters, w)
  end.

(** The answers to local commands. *)
Definition commands_of (answers : list (Request * EdgeResponse)) : list EdgeResponse :=
  snd <$> filter (λ a, edge_route a.1 = Some ELocalCommand) answers.

Lemma edge_run_counted reqs counters (w : W) answers counters' w' :
  edge_run reqs counters w = (answers, counters', w') →
  counters' = foldl (λ c label, Inc label c) counters (outcome <$> commands_of answers).
Proof.
  revert counters w answers. induction reqs as [|[[r cache] counts] reqs IH]; intros counters w answers; cbn [edge_run].
  { by intros [= <- <- <-]. }
  destruct (edge_serve _ _ _ _ _ _ w) as [[rsp e] w1] eqn:Es. apply edge_serve_counted in Es.
  destruct (edge_run reqs (ed_counters e) w1) as [[answers' c'] w2] eqn:Er. intros [= <- <- <-].
  rewrite (IH _ _ _ Er). unfold commands_of. rewrite filter_cons. cbn [fst]. rewrite Es. by case_decide.
Qed.
End Counting.

Definition command_labels : list string := ["accepted"; "failed"].

Lemma command_labels_NoDup : NoDup command_labels.
Proof.
  apply NoDup_cons. split; [by intros ?%list_elem_of_singleton|].
  apply NoDup_cons. split; [apply not_elem_of_nil|constructor].
Qed.

Lemma Inc_order label c : label ∈ ec_order c → ec_wf c → ec_order (Inc label c) = ec_order c.
Proof. intros Hl Hw. apply (ec_listed _ Hw) in Hl as [z Hz]. unfold Inc. cbn. by rewrite Hz. Qed.

Lemma command_order labels :
  Forall (λ l, l ∈ command_labels) labels →
  let c := foldl (λ c label, Inc label c) (newEdgeCounter command_labels) labels in
  ec_wf c ∧ ec_order c = command_labels.
Proof.
  induction labels as [|l labels IH] using rev_ind; intros Hl; cbv zeta.
  - split; [|done]. apply newEdgeCounter_wf, command_labels_NoDup.
  - apply Forall_app in Hl as [Hl Hx]. destruct (IH Hl) as [Hw Ho]. rewrite foldl_app. cbn [foldl].
    apply Forall_cons in Hx as [Hx _]. split; [by apply Inc_wf|].
    etrans; [apply Inc_order; [by rewrite Ho|done]|exact Ho].
Qed.

Lemma outcome_label rsp : outcome rsp ∈ command_labels.
Proof. unfold outcome. case_decide; [left|right; left]. Qed.

Lemma outcome_counts l :
  length (filter (eq "accepted") (outcome <$> l)) = length (filter (λ rsp, er_Code rsp = 202%Z) l) ∧
  length (filter (eq "failed") (outcome <$> l)) = length (filter (λ rsp, er_Code rsp ≠ 202%Z) l) ∧
  length (filter (λ rsp, er_Code rsp = 202%Z) l) + length (filter (λ rsp, er_Code rsp ≠ 202%Z) l) = length l.
Proof.
  induction l as [|rsp l (IH1 & IH2 & IH3)]; [done|]. rewrite fmap_cons.
  destruct (decide (er_Code rsp = 202%Z)) as [E|E].
  - assert (outcome rsp = "accepted") as -> by (unfold outcome; by rewrite decide_True).
    rewrite (filter_cons_True (eq "accepted")), (filter_cons_False (eq "failed")),
      (filter_cons_True (λ rsp, er_Code rsp = 202%Z)), (filter_cons_False (λ rsp, er_Code rsp ≠ 202%Z)) by auto.
    cbn [length]. lia.
  - assert (outcome rsp = "failed") as -> by (unfold outcome; by rewrite decide_False).
    rewrite (filter_cons_False (eq "accepted")), (filter_cons_True (eq "failed")),
      (filter_cons_False (λ rsp, er_Code rsp = 202%Z)), (filter_cons_True (λ rsp, er_Code rsp ≠ 202%Z)) by auto.
    cbn [length]. lia.
Qed.

(** ** Properties *)

(** C36: The counters on the metrics page are exact: after any requests whatsoever, in any
    order and with any failures, the page lists the two labels once each, in a fixed
    order, with the number of local commands that were answered 202 and the number of
    all the others, modulo 2^64; no other request changes them. *)
Theorem local_commands_counted {W} {CL : Clock W} {ST : Storage W} {LO : Location} {DE : DecodeErrors}
    local upstream opts reqs (w : W) ord :
  let '(answers, counters, _) := edge_run local upstream opts reqs (newEdgeCounter command_labels) w in
  let accepted := filter (λ rsp, er_Code rsp = 202%Z) (commands_of answers) in
  let failed := filter (λ rsp, er_Code rsp ≠ 202%Z) (commands_of answers) in
  range_of (ec_counts counters) ord →
  Snapshot ord counters =
    [("accepted", (Z.of_nat (length accepted) mod 2 ^ 64)%Z); ("failed", (Z.of_nat (length failed) mod 2 ^ 64)%Z)] ∧
  length accepted + length failed = length (commands_of answers).
Proof.
  destruct (edge_run _ _ _ _ _ w) as [[answers counters] w'] eqn:Er. intros accepted failed Hord.
  apply edge_run_counted in Er. set (labels := outcome <$> commands_of answers) in *.
  assert (Hl : Forall (λ l, l ∈ command_labels) labels).
  { apply Forall_forall. intros l (rsp & -> & _)%list_elem_of_fmap. apply outcome_label. }
  destruct (command_order labels Hl) as [Hw Ho]. cbv zeta in *. rewrite <- Er in *.
  pose proof (Snapshot_deterministic command_labels labels ord command_labels_NoDup) as Hs. cbv zeta in Hs. rewrite <- Er in Hs.
  destruct (Hs Hord) as (-> & _ & _ & Hc). rewrite Ho. cbn [fmap list_fmap command_labels]. rewrite !Hc.
  assert (Ha : length (filter (eq "accepted") labels) = length accepted ∧
    length (filter (eq "failed") labels) = length failed ∧
    length accepted + length failed = length (commands_of answers)).
  { apply outcome_counts. }
  destruct Ha as (-> & -> & ?). done.
Qed.

(** C35: A local command is published only for an authorized, complete request while the
    local broker is connected, exactly once, on the command topic of the device it names, and
    precisely when the answer is 202.  The command is the one of the request, and the
    simulator that receives it from the broker reads that very command, executes it and
    answers: the gateway commands devices as the platform does, without the platform. *)
Theorem local_command_executed {W} {CL : Clock W} {BR : Broker W} {ST : Storage W} {LO : Location}
    {DE : DecodeErrors} opts r e (w : W) :
  let '(rsp, _, (_, published)) :=
    @local_command_handler _ traced_clock _ _ traced_broker opts r e (w, []) in
  (er_Code rsp ≠ 202%Z → published = []) ∧
  (er_Code rsp = 202%Z →
    edgeAuthorized (rq_Header r "X-VPP-Edge-Token") (rq_Header r "Authorization") (eo_controlToken opts) = true ∧
    eo_local opts = true ∧
    ∃ raw req cmd payload, decode_local_body (rq_Body r) = Some raw ∧ decodeLocalCommand (inr raw) = inr req ∧
      lc_DeviceType req ≠ "" ∧ lc_DeviceID req ≠ "" ∧ lc_Action req ≠ "" ∧
      let site := if decide (lc_SiteID req = "") then eo_siteID opts else lc_SiteID req in
      let topic := Topic.Command site (lc_DeviceType req) (lc_DeviceID req) in
      cmd_Action cmd = lc_Action req ∧ cmd_Params cmd = lc_Params req ∧
      cmd_Reason cmd = "edge local: " +:+ lc_Reason req ∧
      er_Body rsp = ECommand topic cmd ∧ published = [(topic, payload)] ∧
      ∀ now signed_at keys s, level site → level (lc_DeviceType req) → level (lc_DeviceID req) → command_ok cmd →
        let '(ok, err, s') := execute (MkParsed site (lc_DeviceType req) (lc_DeviceID req) "command") cmd s in
        let ack_topic := "vpp/" +:+ sim_siteID s +:+ "/" +:+ lc_DeviceType req +:+ "/" +:+ lc_DeviceID req +:+ "/command/ack" in
        receive now signed_at topic payload keys s =
          (Some (send ack_topic (lc_DeviceID req)
             (marshal_ack (MkCommandAck (cmd_CommandID cmd) ok err (Unix now))) keys signed_at), s')).
Proof.
  unfold local_command_handler. destruct (edgeAuthorized _ _ _) eqn:Ea; [|by split; [|intros [=]]]. cbn [negb].
  assert (Hconn : ∃ up w1, @connected _ traced_broker (eo_local opts) (w, []) = (up, (w1, [])) ∧
    (up = true → eo_local opts = true)).
  { unfold connected. destruct (eo_local opts); [|by eexists _, _]. cbn.
    destruct (IsConnected w) as [up w1]. by eexists up, w1. }
  destruct Hconn as (up & w1 & -> & Hup). destruct up; [|by split; [|intros [=]]]. cbn [negb].
  unfold decoded. destruct (decode_local_body _) as [raw|] eqn:Eb; [|by split; [|intros [=]]].
  destruct (decodeLocalCommand (inr raw)) as [err|req] eqn:Ed; [by split; [|intros [=]]|].
  assert (Hreq : lc_DeviceType req ≠ "" ∧ lc_DeviceID req ≠ "" ∧ lc_Action req ≠ "").
  { unfold decodeLocalCommand in Ed. repeat (case_decide; [done|]). by injection Ed as <-. }
  unfold publish_local. rewrite traced_now. destruct (Now w1) as [now1 w2]. rewrite traced_now.
  destruct (Now w2) as [now2 w3]. destruct (marshal_command _) as [payload|] eqn:Em; [|by split; [|intros [=]]].
  cbn [Publish traced_broker]. destruct (Publish _ _ w3) as [[err|] w4]; [by split; [|intros [=]]|].
  split; [by intros []|]. intros _. split; [done|]. split; [by apply Hup|].
  exists raw, req, (local_command now1 now2 req), payload. destruct Hreq as (? & ? & ?). split_and!; try done.
  intros now signed_at keys s Hs Ht Hi Hok. by apply receive_published.
Qed.

(** ** The theorems at a concrete gateway *)

#[local] Instance ex_errors : DecodeErrors := λ _, "invalid body".
Definition ex_edge_broker : Broker unit := Build_Broker unit (λ w, (true, w)) (λ _ _ w, (None, w)).
Definition ex_edge_options : EdgeOptions := MkEdgeOptions true false (86400 * Second) "home-lab" "secret".

Definition ex_local_body : string := print (TObj [("device_type", TStr "battery"); ("device_id", TStr "battery_01");
  ("action", TStr "set_mode"); ("params", TObj [("mode", TStr "charging")])]).
Definition ex_local_request (token body : string) : Request :=
  MkRequest "POST" ["api"; "v1"; "local-command"] true
    (λ h, if decide (h = "X-VPP-Edge-Token") then token else "") body "127.0.0.1:4711".

Definition ex_edge_clock : Clock unit := λ w, (time_Unix 1000, w).
Definition ex_edge_storage : Storage unit := λ w, (None, w).

Definition ex_local_answer : EdgeResponse * Edge * (unit * list (string * string)) :=
  @local_command_handler _ (@traced_clock unit ex_edge_clock _) UTC ex_errors (@traced_broker unit ex_edge_broker)
    ex_edge_options (ex_local_request "secret" ex_local_body) (MkEdge OpenCache (newEdgeCounter command_labels)) (tt, []).

Lemma local_command_executed_witness :
  er_Code ex_local_answer.1.1 = 202%Z ∧
  ∃ payload, ex_local_answer.2.2 = [("vpp/home-lab/battery/battery_01/command", payload)].
Proof.
  assert (Hcode : er_Code ex_local_answer.1.1 = 202%Z) by by vm_compute.
  split; [exact Hcode|].
  pose proof (@local_command_executed unit ex_edge_clock ex_edge_broker ex_edge_storage UTC ex_errors
    ex_edge_options (ex_local_request "secret" ex_local_body) (MkEdge OpenCache (newEdgeCounter command_labels)) tt) as Hl.
  unfold ex_local_answer in *. destruct (local_command_handler _ _ _ _ _) as [[rsp e] [w published]].
  destruct Hl as [_ Hl]. destruct (Hl Hcode) as (_ & _ & raw & req & cmd & payload & Hraw & Hreq & _ & _ & _ & Hrest).
  cbv zeta in Hrest. destruct Hrest as (_ & _ & _ & _ & Hpub & _). exists payload. cbn [snd]. rewrite Hpub.
  vm_compute in Hraw. injection Hraw as <-. vm_compute in Hreq. by injection Hreq as <-.
Defined.

Lemma local_commands_counted_witness :
  let '(_, counters, _) := @edge_run unit ex_edge_clock ex_edge_storage UTC ex_errors ex_edge_broker ex_edge_broker
    ex_edge_options [(ex_local_request "secret" ex_local_body, OpenCache, []);
                     (ex_local_request "guess" ex_local_body, OpenCache, []);
                     (ex_local_request "secret" "{}", OpenCache, [])] (newEdgeCounter command_labels) tt in
  Snapshot (map_to_list (ec_counts counters)) counters = [("accepted", 1%Z); ("failed", 2%Z)].
Proof.
  set (reqs := [_; _; _]).
  pose proof (λ ord, @local_commands_counted unit ex_edge_clock ex_edge_storage UTC ex_errors ex_edge_broker
    ex_edge_broker ex_edge_options reqs tt ord) as Hc.
  assert (Ha : er_Code <$> commands_of (@edge_run unit ex_edge_clock ex_edge_storage UTC ex_errors ex_edge_broker
    ex_edge_broker ex_edge_options reqs (newEdgeCounter command_labels) tt).1.1 = [202; 401; 400]%Z) by by vm_compute.
  destruct (edge_run _ _ _ _ _ _) as [[answers counters] w]. cbn [fst] in Ha.
  destruct (Hc (map_to_list (ec_counts counters))) as [-> _]; [apply range_of_map_to_list|].
  destruct (commands_of answers) as [|r1 [|r2 [|r3 [|]]]]; try discriminate Ha. injection Ha as E1 E2 E3.
  rewrite !(filter_cons (λ rsp, er_Code rsp = 202%Z)), !(filter_cons (λ rsp, er_Code rsp ≠ 202%Z)), E1, E2, E3.
  reflexivity.
Defined.
