(* ===== verification/EdgeMain.v ===== *)
(** * cmd/edge-gateway: settings, start, loops

    [main] reads the settings, opens the cache, connects to the local broker and,
    if one is configured, to the upstream one, and starts the loops that clean
    the cache and forward its messages.  A loop is a function of the number of
    ticks of its timer; [time.NewTicker] panics for an interval that is not
    positive. *)
From S2P Require Import Prelude Float64 FloatFacts GoTime World GoStrings Strconv Config Topic Connect.
From S2P Require Import EdgeCache EdgeGateway.

(** ** Settings *)

Section Getters.
Context (env : Environment).

Definition edge_getenv (key fallback : string) : string :=
  let v := env key in if decide (v ≠ "") then v else fallback.

(** A number without a unit is one of seconds; the product wraps. *)
Definition edge_getdur (key : string) (fallback : Z) : Z :=
  let v := env key in
  if decide (v = "") then fallback else
  match ParseDuration v with
  | Some d => d
  | None => match Atoi v with Some i => wrap64 (i * Second) | None => fallback end
  end.

Definition edge_getbool (key : string) (fallback : bool) : bool :=
  let v := env key in
  if decide (v = "") then fallback else
  match ParseBool v with Some b => b | None => fallback end.
End Getters.

Record EdgeSettings := MkEdgeSettings {
  es_siteID : string;
  es_localBroker : string;
  es_upstreamBroker : string;
  es_cachePath : string;
  es_flushInterval : Z;
  es_cacheRetention : Z;
  es_cleanupInterval : Z;
  es_httpAddr : string;
  es_controlToken : string;
  es_captureKinds : gmap string bool;
  es_upstreamTopicPrefix : string;
  es_localUser : string * string;
  es_upstreamUser : string * string;
  es_localTLS : TLSFiles;
  es_upstreamTLS : TLSFiles;
  es_localClientID : string;
  es_upstreamClientID : string
}.

(** A setting of one side of the gateway, which falls back to the one of the platform. *)
Definition side (env : Environment) (side_ key : string) : string :=
  edge_getenv env ("EDGE_" +:+ side_ +:+ "_" +:+ key) (edge_getenv env ("MQTT_" +:+ key) "").

Definition side_tls (env : Environment) (side_ : string) : TLSFiles :=
  MkTLSFiles (side env side_ "TLS_CA_FILE") (side env side_ "TLS_CERT_FILE") (side env side_ "TLS_KEY_FILE")
    (edge_getbool env ("EDGE_" +:+ side_ +:+ "_TLS_INSECURE_SKIP_VERIFY")
       (edge_getbool env "MQTT_TLS_INSECURE_SKIP_VERIFY" false)).

Definition edge_settings (env : Environment) : EdgeSettings := {|
  es_siteID := edge_getenv env "SITE_ID" "home-lab";
  es_localBroker := edge_getenv env "EDGE_LOCAL_BROKER" (edge_getenv env "MQTT_BROKER" "tcp://localhost:1883");
  es_upstreamBroker := edge_getenv env "EDGE_UPSTREAM_BROKER" "";
  es_cachePath := edge_getenv env "EDGE_CACHE_PATH" "./data/edge-gateway/cache.db";
  es_flushInterval := edge_getdur env "EDGE_FLUSH_INTERVAL" (5 * Second);
  es_cacheRetention := edge_getdur env "EDGE_CACHE_RETENTION" (24 * 3600 * Second);
  es_cleanupInterval := edge_getdur env "EDGE_CLEANUP_INTERVAL" (3600 * Second);
  es_httpAddr := edge_getenv env "EDGE_HTTP_ADDR" "127.0.0.1:8081";
  es_controlToken := TrimSpace (edge_getenv env "EDGE_CONTROL_TOKEN" "");
  es_captureKinds := parseKindSet (edge_getenv env "EDGE_CAPTURE_KINDS" "telemetry,event,status,command/ack");
  es_upstreamTopicPrefix := Trim (edge_getenv env "EDGE_UPSTREAM_TOPIC_PREFIX" "") slash;
  es_localUser := (side env "LOCAL" "USERNAME", side env "LOCAL" "PASSWORD");
  es_upstreamUser := (side env "UPSTREAM" "USERNAME", side env "UPSTREAM" "PASSWORD");
  es_localTLS := side_tls env "LOCAL";
  es_upstreamTLS := side_tls env "UPSTREAM";
  es_localClientID := edge_getenv env "EDGE_LOCAL_CLIENT_ID" "vpp-edge-gateway-local";
  es_upstreamClientID := edge_getenv env "EDGE_UPSTREAM_CLIENT_ID" "vpp-edge-gateway-upstream"
|}.

(** ** Loops *)

Section Loops.
Context {W : Type} `{Clock W} `{Broker W} `{Storage W}.

(** [ticks] ticks of a timer; [None] is the panic of [time.NewTicker]. *)
Definition on_ticker {S : Type} (interval : Z) (ticks : nat) (body : S → W → S * W) (s : S) (w : W) : option (S * W) :=
  if (interval <=? 0)%Z then None else Some (Nat.iter ticks (λ '(s, w), body s w) (s, w)).

Definition flushLoop (interval : Z) (topicPrefix : string) (ticks : nat) (c : Cache) (w : W) : option (Cache * W) :=
  on_ticker interval ticks (flushPending true topicPrefix) c w.

Definition cleanupLoop (retention interval : Z) (ticks : nat) (c : Cache) (w : W) : option (Cache * W) :=
  let '(c, w) := cleanupSent retention c w in
  on_ticker interval ticks (cleanupSent retention) c w.
End Loops.

(** ** Starting *)

(** [Subscribe] and waiting for its token. *)
Class Subscriber (W : Type) := Subscribe : string → W → option error * W.

Inductive EdgeFatal :=
| LocalTLSInvalid (err : error) | UpstreamTLSInvalid (err : error) | CacheClosed (err : error)
| LocalNotConnected (err : error) | NotSubscribed (topic : string) (err : error) | UpstreamNotConnected (err : error).

(** What runs then: whether the cache is cleaned, and whether messages are forwarded. *)
Record EdgeRunning := MkEdgeRunning { er_cleanup : bool; er_upstream : bool }.

Section Start.
Context {W : Type} `{Storage W} `{Certificates} `{Connector W} `{Subscriber W}.

(** The loop over [edgeSubscribeTopics]. *)
Fixpoint subscribe_all (topics : list string) (w : W) : option EdgeFatal * W :=
  match topics with
  | [] => (None, w)
  | topic :: topics' =>
      let '(err, w) := Subscribe topic w in
      match err with
      | Some err => (Some (NotSubscribed topic err), w)
      | None => subscribe_all topics' w
      end
  end.

Definition connect_local (s : EdgeSettings) (localTLS : option TLSConfig) (w : W) : option EdgeFatal * W :=
  let '(err, w) := connect (newMQTTClient (es_localBroker s) (es_localClientID s) (es_localUser s).1
                     (es_localUser s).2 localTLS) w in
  match err with
  | Some err => (Some (LocalNotConnected err), w)
  | None => subscribe_all (edgeSubscribeTopics (es_siteID s)) w
  end.

Definition connect_upstream (s : EdgeSettings) (upstreamTLS : option TLSConfig) (w : W) : option EdgeFatal * W :=
  if decide (es_upstreamBroker s = "") then (None, w) else
  let '(err, w) := connect (newMQTTClient (es_upstreamBroker s) (es_upstreamClientID s) (es_upstreamUser s).1
                     (es_upstreamUser s).2 upstreamTLS) w in
  (UpstreamNotConnected <$> err, w).

(** [main] up to where it waits for its end; [log.Fatalf] ends the program. *)
Definition start_edge (s : EdgeSettings) (w : W) : (EdgeFatal + EdgeRunning) * W :=
  match NewTLSConfig (es_localTLS s) with
  | inl err => (inl (LocalTLSInvalid err), w)
  | inr localTLS =>
      match NewTLSConfig (es_upstreamTLS s) with
      | inl err => (inl (UpstreamTLSInvalid err), w)
      | inr upstreamTLS =>
          let '(fault, w) := db_fault w in
          match fault with
          | Some err => (inl (CacheClosed err), w)
          | None =>
              let cleanup := (0 <? es_cacheRetention s)%Z && (0 <? es_cleanupInterval s)%Z in
              let '(fatal, w) := connect_local s localTLS w in
              match fatal with
              | Some fatal => (inl fatal, w)
              | None =>
                  let '(fatal, w) := connect_upstream s upstreamTLS w in
                  match fatal with
                  | Some fatal => (inl fatal, w)
                  | None => (inr (MkEdgeRunning cleanup (bool_decide (es_upstreamBroker s ≠ ""))), w)
                  end
              end
          end
      end
  end.
End Start.

(** ** Lemmas *)

Lemma edge_getdur_range env key d : in_int64 d → in_int64 (edge_getdur env key d).
Proof.
  intros Hd. unfold edge_getdur. case_decide; [done|].
  destruct (ParseDuration _) eqn:Hp; [by apply ParseDuration_range in Hp|].
  destruct (Atoi _); [apply wrap64_range|done].
Qed.

(** Without an upstream broker nothing is forwarded; without a retention nothing is deleted. *)
Lemma start_edge_running {W} `{Storage W} `{Certificates} `{Connector W} `{Subscriber W} s (w : W) running w' :
  start_edge s w = (inr running, w') →
  er_upstream running = bool_decide (es_upstreamBroker s ≠ "") ∧
  er_cleanup running = (0 <? es_cacheRetention s)%Z && (0 <? es_cleanupInterval s)%Z.
Proof.
  unfold start_edge. destruct (NewTLSConfig _) as [|localTLS]; [done|].
  destruct (NewTLSConfig _) as [|upstreamTLS]; [done|]. destruct (db_fault w) as [[|] w1]; [done|].
  destruct (connect_local _ _ w1) as [[|] w2]; [done|]. destruct (connect_upstream _ _ w2) as [[|] w3]; [done|].
  by intros [= <- <-].
Qed.

Lemma on_ticker_panics {W S} interval ticks (body : S → W → S * W) s w :
  on_ticker interval ticks body s w = None ↔ (interval <= 0)%Z.
Proof. unfold on_ticker. destruct (Z.leb_spec interval 0); split; intros; try done; lia. Qed.

(** ** Properties *)

(** C34: A gateway that was started forwards what it captured.  Its cleanup never panics; its
    forwarding panics exactly when [EDGE_FLUSH_INTERVAL] is not positive, which nothing
    checks.  Otherwise, while the broker and the database work, [n] ticks of the timer forward
    and mark the first 100 [n] messages of the queue, in order, so that an outage is made up
    for in as many ticks as it left hundreds of messages. *)
Theorem flushLoop_drains {W} {CL : Clock W} {BR : Broker W} {ST : Storage W} {CE : Certificates}
    {CO : Connector W} {SU : Subscriber W} env (w0 : W) running w1 :
  let s := edge_settings env in
  start_edge s w0 = (inr running, w1) →
  (er_cleanup running = true →
   ∀ ticks c (w : W), is_Some (cleanupLoop (es_cacheRetention s) (es_cleanupInterval s) ticks c w)) ∧
  (∀ ticks c (w : W), flushLoop (es_flushInterval s) (es_upstreamTopicPrefix s) ticks c w = None ↔
     (es_flushInterval s <= 0)%Z) ∧
  ((0 < es_flushInterval s)%Z → @healthy W BR ST → ∀ n c (w : W), wf c →
   ∃ c' w', @flushLoop _ traced_clock traced_broker traced_storage (es_flushInterval s)
       (es_upstreamTopicPrefix s) n c (w, []) =
     Some (c', (w', forwarded (es_upstreamTopicPrefix s) <$> take (100 * n) (queue c))) ∧
     queue c' = drop (100 * n) (queue c)).
Proof.
  intros s Hstart. apply start_edge_running in Hstart as [_ Hclean]. split_and!.
  - rewrite Hclean. intros [_ Hi]%andb_prop ticks c w. unfold cleanupLoop.
    destruct (cleanupSent _ c w) as [c1 w2]. destruct (on_ticker _ _ _ c1 w2) as [r|] eqn:E; [by eexists|].
    apply on_ticker_panics in E. lia.
  - intros ticks c w. apply on_ticker_panics.
  - intros Hi Hh n c w Hwf. unfold flushLoop, on_ticker. destruct (Z.leb_spec (es_flushInterval s) 0); [lia|].
    pose proof (flush_drains (es_upstreamTopicPrefix s) c w n Hh Hwf) as Hd.
    destruct (Nat.iter n _ _) as [c' [w' accepted]]. destruct Hd as [Hq ->]. by exists c', w'.
Qed.

(** ** The theorem at a concrete gateway *)

#[local] Instance ex_certificates : Certificates := {|
  CertPool := unit; Certificate := unit;
  ReadFile _ := inl "no such file"; AppendCertsFromPEM _ := None; LoadX509KeyPair _ _ := inl "no such file"
|}.
#[local] Instance ex_connector : Connector unit := λ _ w, (None, w).
#[local] Instance ex_subscriber : Subscriber unit := λ _ w, (None, w).
Definition ex_environment : Environment := λ key,
  if decide (key = "EDGE_UPSTREAM_BROKER") then "tcp://cloud:1883" else
  if decide (key = "EDGE_UPSTREAM_TOPIC_PREFIX") then "/cloud/" else
  if decide (key = "EDGE_FLUSH_INTERVAL") then "2" else "".

Lemma flushLoop_drains_witness :
  es_flushInterval (edge_settings ex_environment) = (2 * Second)%Z ∧
  ∃ c w, @flushLoop _ (@traced_clock unit ex_clock _) (@traced_broker unit ex_broker)
    (@traced_storage unit ex_storage _) (2 * Second) "cloud" 1 ex_cache (tt, []) =
      Some (c, (w, [("cloud/vpp/site-a/pv/pv-1/telemetry", "{}")])) ∧ queue c = [].
Proof.
  split; [by vm_compute|].
  pose proof (@flushLoop_drains unit ex_clock ex_broker ex_storage ex_certificates ex_connector ex_subscriber
    ex_environment tt (MkEdgeRunning true true) tt) as Hd.
  destruct Hd as (_ & _ & Hd); [by vm_compute|].
  destruct (Hd ltac:(by vm_compute) ltac:(by split_and!) 1 ex_cache tt) as (c & w & Hf & Hq).
  { exact (Put_wf None zero_time ex_topic "{}" OpenCache wf_OpenCache). }
  exists c, w. split; [exact Hf|exact Hq].
Defined.
