(* ===== verification/Platform.v ===== *)
(** * cmd/vpp-lab: starting the platform

    Before it connects, the platform fills the live store from the repository:
    the devices, seeded on first use, and the recent commands and events.  An
    error stops the program. *)
From Stdlib Require Import Floats.SpecFloat.
From S2P Require Import Prelude Float64 GoTime World GoStrings Model State Repository.

(** ** Operations *)

(** The inventory of a fresh installation. *)
Definition seed_devices (siteID : string) : list Device :=
  [MkDevice "pv_01" siteID DevicePV "PV Simulator" (of_int 100) fzero false zero_time;
   MkDevice "battery_01" siteID DeviceBattery "Battery Pack" (of_int 80) (of_int 150) false zero_time;
   MkDevice "load_01" siteID DeviceLoad "Critical Load" (of_int 40) fzero true zero_time;
   MkDevice "load_02" siteID DeviceLoad "Flexible Load" (of_int 60) fzero false zero_time].

Section Startup.
Context {W : Type} `{Clock W} `{Storage W}.

(** The loop over [repo.Upsert]: it stops at the first error. *)
Fixpoint upsert_all (devices : list Device) (repo : DeviceRepository) (w : W) :
    option error * DeviceRepository * W :=
  match devices with
  | [] => (None, repo, w)
  | d :: devices' =>
      let '(now, w) := if IsZero (dev_CreatedAt d) then Now w else (dev_CreatedAt d, w) in
      let '(fault, w) := db_fault w in
      let '(err, repo) := Upsert fault now d repo in
      match err with
      | Some err => (Some err, repo, w)
      | None => upsert_all devices' repo w
      end
  end.

(** The loop over [store.UpsertDevice]. *)
Fixpoint store_all (devices : list Device) (store : Store) (w : W) : Store * W :=
  match devices with
  | [] => (store, w)
  | d :: devices' =>
      let '(now, w) := if IsZero (dev_CreatedAt d) then Now w else (dev_CreatedAt d, w) in
      store_all devices' (UpsertDevice now d store) w
  end.

(** [scan] is the order the table is read in. *)
Definition loadOrSeedDevices (collate : string → string → bool)
    (scan : list ((string * string) * Device)) (siteID : string)
    (repo : DeviceRepository) (store : Store) (w : W) :
    option error * DeviceRepository * Store * W :=
  let '(fault, w) := db_fault w in
  let '(devices, err) := List_ fault collate scan in
  match err with
  | Some err => (Some err, repo, store, w)
  | None =>
      if decide (devices = []) then
        let devices := seed_devices siteID in
        let '(err, repo, w) := upsert_all devices repo w in
        match err with
        | Some err => (Some err, repo, store, w)
        | None => let '(store, w) := store_all devices store w in (None, repo, store, w)
        end
      else let '(store, w) := store_all devices store w in (None, repo, store, w)
  end.

Definition loadRecentCommands (scan : list (string * CommandRow)) (store : Store) (w : W) :
    option error * Store * W :=
  let '(fault, w) := db_fault w in
  let '(commands, err) := ListCommands fault 200 scan in
  match err with
  | Some err => (Some err, store, w)
  | None => (None, SetCommands commands store, w)
  end.

Definition loadRecentEvents (scan : list (string * DeviceEvent)) (store : Store) (w : W) :
    option error * Store * W :=
  let '(fault, w) := db_fault w in
  let '(events, err) := ListEvents fault 200 scan in
  match err with
  | Some err => (Some err, store, w)
  | None => (None, SetEvents events store, w)
  end.
End Startup.

(** ** Lemmas *)

(** A device as it was entered, whatever its creation time became. *)
Definition same_device (d d' : Device) : Prop :=
  dev_ID d = dev_ID d' ∧ dev_SiteID d = dev_SiteID d' ∧ dev_Type d = dev_Type d' ∧
  dev_Name d = dev_Name d' ∧ dev_RatedPowerW d = dev_RatedPowerW d' ∧
  dev_CapacityWh d = dev_CapacityWh d' ∧ dev_CriticalLoad d = dev_CriticalLoad d' ∧
  (IsZero (dev_CreatedAt d) = false → dev_CreatedAt d = dev_CreatedAt d').

Lemma same_device_refl d : same_device d d.
Proof. done. Qed.

Definition dev_key (d : Device) : string := stateKey (dev_SiteID d) (dev_ID d).

Section Loading.
Context {W : Type} `{Clock W} `{Storage W}.

Lemma store_all_keep devices store (w : W) k :
  k ∉ dev_key <$> devices →
  st_devices (store_all devices store w).1 !! k = st_devices store !! k.
Proof.
  revert store w. induction devices as [|d l IH]; intros store w Hk; simpl; [done|].
  rewrite fmap_cons, not_elem_of_cons in Hk. destruct Hk as [Hk Hl].
  destruct (if IsZero _ then _ else _) as [now w1]. rewrite IH by done.
  unfold UpsertDevice. simpl.
  rewrite lookup_insert_ne; [done|]. unfold dev_key in Hk. by destruct (IsZero _); simpl.
Qed.

(** Devices with distinct keys all end up in the store. *)
Lemma store_all_lookup devices store (w : W) d :
  NoDup (dev_key <$> devices) → d ∈ devices →
  ∃ d', st_devices (store_all devices store w).1 !! dev_key d = Some d' ∧ same_device d d'.
Proof.
  revert store w. induction devices as [|x l IH]; intros store w Hn Hd; simpl.
  { by apply not_elem_of_nil in Hd. }
  rewrite fmap_cons, NoDup_cons in Hn. destruct Hn as [Hx Hn].
  destruct (if IsZero (dev_CreatedAt x) then _ else _) as [now w1].
  apply elem_of_cons in Hd as [->|Hd]; [|by apply IH].
  rewrite store_all_keep by done. unfold UpsertDevice, dev_key. simpl.
  destruct (IsZero (dev_CreatedAt x)) eqn:E; simpl; rewrite lookup_insert_eq;
    eexists; (split; [done|]); unfold same_device; simpl; rewrite ?E; done.
Qed.

Lemma store_all_rest devices store (w : W) :
  st_telemetry (store_all devices store w).1 = st_telemetry store ∧
  st_commands (store_all devices store w).1 = st_commands store ∧
  st_events (store_all devices store w).1 = st_events store.
Proof.
  revert store w. induction devices as [|d l IH]; intros store w; simpl; [done|].
  destruct (if IsZero _ then _ else _) as [now w1].
  destruct (IH (UpsertDevice now d store) w1) as (-> & -> & ->). done.
Qed.
End Loading.

(** Every row of the table is under its own key, and no site holds a NUL byte: a
    TEXT column cannot. *)
Definition wf_devices_table (m : gmap (string * string) Device) : Prop :=
  ∀ k d, m !! k = Some d → k = (dev_SiteID d, dev_ID d) ∧ has_byte nul (dev_SiteID d) = false.

Lemma table_keys m (scan : list ((string * string) * Device)) :
  wf_devices_table m → scan ≡ₚ map_to_list m → NoDup (dev_key <$> scan.*2).
Proof.
  intros Hwf Hp.
  assert (Hk : NoDup scan.*1) by (rewrite Hp; apply NoDup_fst_map_to_list).
  assert (Hin : ∀ k d, (k, d) ∈ scan → k = (dev_SiteID d, dev_ID d) ∧ has_byte nul (dev_SiteID d) = false).
  { intros k d Hd. apply Hwf. by rewrite Hp, elem_of_map_to_list in Hd. }
  clear Hp Hwf. induction scan as [|[k d] l IH]; [constructor|]. simpl in *.
  apply NoDup_cons in Hk as [Hk Hn]. apply NoDup_cons. split.
  - intros (d' & Hkey & Hd')%list_elem_of_fmap.
    apply list_elem_of_fmap in Hd' as ([k' d2] & -> & Hd'). simpl in Hkey.
    destruct (Hin k d ltac:(by left)) as [-> Hnul].
    destruct (Hin k' d2 ltac:(by right)) as [-> Hnul'].
    destruct (stateKey_inj _ _ _ _ Hnul Hnul' Hkey) as [E1 E2]. apply Hk.
    apply list_elem_of_fmap. exists (dev_SiteID d2, dev_ID d2, d2). split; [|done].
    simpl. by rewrite E1, E2.
  - apply IH; [done|]. intros k' d' Hd'. apply Hin. by right.
Qed.

(** ** Properties *)

(** Starting never touches an existing inventory: when the devices table is
    not empty the repository is left as it is, and unless reading it fails,
    every device of the table is in the live store under its site and
    identifier, with the attributes and the creation time of its row. *)
Lemma startup_inventory `{Clock W} `{Storage W} collate scan siteID repo store (w : W) :
  wf_devices_table (db_devices repo) → scan ≡ₚ map_to_list (db_devices repo) → scan ≠ [] →
  let '(err, repo', store', _) := loadOrSeedDevices collate scan siteID repo store w in
  repo' = repo ∧
  match err with
  | Some _ => store' = store
  | None => ∀ key d, db_devices repo !! key = Some d →
      ∃ d', DeviceInSite (dev_SiteID d) (dev_ID d) store' = Some d' ∧ same_device d d'
  end.
Proof.
  intros Hwf Hscan Hne. unfold loadOrSeedDevices.
  destruct (db_fault w) as [[e|] w1]; [done|]. simpl.
  pose proof (sort_slice_perm (device_row_less collate) scan.*2) as Hp.
  rewrite decide_False.
  2: { intros E. rewrite E in Hp. apply Permutation_nil in Hp.
       apply Hne. by apply fmap_nil_inv in Hp. }
  destruct (store_all _ store w1) as [store' w2] eqn:Es. split; [done|]. intros key d Hd.
  assert (Hn : NoDup (dev_key <$> sort_slice (device_row_less collate) scan.*2)).
  { rewrite Hp. by eapply table_keys. }
  assert (Hin : d ∈ sort_slice (device_row_less collate) scan.*2).
  { rewrite Hp. apply list_elem_of_fmap. exists (key, d). split; [done|].
    by rewrite Hscan, elem_of_map_to_list. }
  destruct (store_all_lookup _ store w1 d Hn Hin) as (d' & Hd' & Hsame).
  rewrite Es in Hd'. by exists d'.
Qed.

(** ** The theorems at a concrete platform *)

Definition ex_repo : DeviceRepository :=
  MkDeviceRepository {[("site-a", "load-1") := ex_load]} ∅ ∅ ∅.
