(* ===== verification/Api.v ===== *)
(** * internal/api: the HTTP server of the platform

    [serve] handles one request: [withAudit] around the mux around a handler.
    A handler takes the decoded path values, the server and the world to what
    is answered ([None] when it panics) and the new server; it is modelled as
    running alone.  The content of an answer is the value handed to
    [writeJSON].  A body is decoded as in Bodies.v; the text of a decoding error is a
    parameter ([DecodeErrors]).  The maps a handler ranges over are visited in the orders of its [Visits]. *)
From Stdlib Require Import Floats.SpecFloat Ascii.
From S2P Require Import Prelude Float64 GoTime World GoStrings Model State Optimizer Dispatch.
From S2P Require Import Json JsonText Scheduler Topic Repository Messages Mqtt Metrics Bodies Http.

(** ** Requests and answers *)

Definition decode_device `{DecodeErrors} := decoded decode_device_body.
Definition decode_config `{DecodeErrors} := decoded decode_config_body.
Definition decode_apply `{DecodeErrors} := decoded decode_apply_body.
Definition decode_policy `{DecodeErrors} := decoded decode_policy_body.
Definition decode_command `{DecodeErrors} := decoded decode_command_body.

Inductive Body :=
| BEmpty | BConsole
| BError (msg : string)
| BHealth (status : string) (checks : gmap string string)
| BMetrics (snapshot : Snapshot)
| BDevice (d : Device)
| BDevices (l : list Device)
| BSummary (summary : SiteSummary)
| BStates (l : list DeviceRuntimeState)
| BPlan (plan : Plan)
| BPreview (preview : Preview)
| BDecision (decision : ApplyDecision)
| BApplied (reason : string) (d : Device) (cmd : Model.Command) (decision : ApplyDecision)
| BCommand (cmd : Model.Command)
| BCommands (l : list CommandRecord)
| BEvents (l : list DeviceEvent)
| BAuditLogs (l : list AuditLog)
| BPolicy (p : Policy).

Record Response := MkResponse { rsp_Code : Z; rsp_Body : Body }.

(** ** State *)

(** The publisher is the MQTT client; the device saver and the audit recorder are
    the platform's repository, absent when there is none. *)
Record Server := MkServer {
  srv_siteID : string;
  srv_platform : Platform;
  srv_scheduler : Scheduler;
  srv_token : string
}.

Definition New (siteID : string) (p : Platform) (sch : Scheduler) : Server :=
  MkServer siteID p sch "".

Definition WithControlToken (token : string) (s : Server) : Server :=
  MkServer (srv_siteID s) (srv_platform s) (srv_scheduler s) (TrimSpace token).

Definition srv_store (s : Server) : Store := pf_store (srv_platform s).

Definition set_platform (p : Platform) (s : Server) : Server :=
  MkServer (srv_siteID s) p (srv_scheduler s) (srv_token s).

Definition set_scheduler (sch : Scheduler) (s : Server) : Server :=
  MkServer (srv_siteID s) (srv_platform s) sch (srv_token s).

(** The orders in which maps and the audit table are visited. *)
Record Visits := MkVisits {
  vs_devices : list (string * Device);
  vs_telemetry : list (string * Model.Telemetry);
  vs_audit : list (string * AuditLog)
}.

(** ** Authorization *)

Definition bearerToken (header : string) : string :=
  if HasPrefix header "Bearer " then TrimSpace (TrimPrefix header "Bearer ") else "".

(** [requireControl], without the answer it writes on failure. *)
Definition requireControl (r : Request) (s : Server) : bool :=
  if decide (srv_token s = "") then true else
  let token := TrimSpace (rq_Header r "X-VPP-Control-Token") in
  let token := if decide (token = "") then bearerToken (rq_Header r "Authorization") else token in
  bool_decide (token = srv_token s).

(** ** The audit trail *)

Definition auditAction (r : Request) : option string :=
  let path := rq_Path r in
  if bool_decide (rq_Method r = "POST") && bool_decide (path = "/api/v1/devices")
  then Some "device.upsert"
  else if bool_decide (rq_Method r = "PUT") && bool_decide (path = "/api/v1/policies/default")
  then Some "policy.update"
  else if bool_decide (rq_Method r = "POST") && HasPrefix path "/api/v1/devices/" &&
          HasSuffix path "/command"
  then Some "command.issue"
  else if bool_decide (rq_Method r = "POST") && HasPrefix path "/api/v1/sites/" &&
          Contains path "/devices/" && HasSuffix path "/command"
  then Some "command.issue"
  else if bool_decide (rq_Method r = "POST") && HasPrefix path "/api/v1/sites/" &&
          HasSuffix path "/dispatch/apply"
  then Some "dispatch.apply"
  else None.

Definition auditActor (r : Request) : string :=
  let actor := TrimSpace (rq_Header r "X-VPP-Actor") in
  if decide (actor = "") then "anonymous" else actor.

(** The last occurrence of a byte: what is before and after it. *)
Fixpoint CutLast (s : string) (sep : ascii) : option (string * string) :=
  match s with
  | "" => None
  | String c s' =>
      match CutLast s' sep with
      | Some (a, b) => Some (String c a, b)
      | None => if decide (c = sep) then Some ("", s') else None
      end
  end.

(** The host of [net.SplitHostPort]; [None] is its error. *)
Definition SplitHostPort (hostport : string) : option string :=
  '(before, _) ← CutLast hostport ":";
  match hostport with
  | String "[" rest =>
      '(host, after) ← Cut rest "]";
      (* the last colon must follow the bracket *)
      if decide (before = "[" +:+ host +:+ "]") then
        if has_byte "[" rest || has_byte "]" after then None else Some host
      else None
  | _ =>
      if has_byte ":" before || has_byte "[" hostport || has_byte "]" hostport
      then None else Some before
  end.

Definition clientIP (r : Request) : string :=
  let forwarded := TrimSpace (rq_Header r "X-Forwarded-For") in
  if decide (forwarded = "") then default (rq_RemoteAddr r) (SplitHostPort (rq_RemoteAddr r))
  else match Cut forwarded "," with
       | Some (first, _) => TrimSpace first
       | None => forwarded
       end.

(** ** Handlers *)

Section Server.
Context {W : Type} `{Clock W} `{Broker W} `{Storage W} `{Location} `{MathSin} `{DecodeErrors}.

(** A check without a name or a function is skipped. *)
Record HealthCheck := MkHealthCheck { hc_Name : string; hc_Check : option (W → option error * W) }.
Context (checks : list HealthCheck).

(** What a handler leaves: the answer, the server and the world. *)
Definition result : Type := option Response * Server * W.

Definition writeJSON (code : Z) (v : Body) (s : Server) (w : W) : result :=
  (Some (MkResponse code v), s, w).
Definition writeError (code : Z) (msg : string) : Server → W → result := writeJSON code (BError msg).
Definition panic (s : Server) (w : W) : result := (None, s, w).

(** The loop over the checks: the answers by name, and whether all were well. *)
Fixpoint run_checks (l : list HealthCheck) (ok : bool) (answers : gmap string string) (w : W) :
    bool * gmap string string * W :=
  match l with
  | [] => (ok, answers, w)
  | check :: l' =>
      match hc_Check check with
      | Some f =>
          if decide (hc_Name check = "") then run_checks l' ok answers w else
          let '(err, w) := f w in
          match err with
          | Some err => run_checks l' false (<[hc_Name check := err]> answers) w
          | None => run_checks l' ok (<[hc_Name check := "ok"]> answers) w
          end
      | None => run_checks l' ok answers w
      end
  end.

Definition health (s : Server) (w : W) : result :=
  let '(ok, answers, w) := run_checks checks true ∅ w in
  if ok then writeJSON 200 (BHealth "ok" answers) s w
  else writeJSON 503 (BHealth "degraded" answers) s w.

Definition recentAuditLogs (v : Visits) (s : Server) (w : W) : list AuditLog * W :=
  match pf_repo (srv_platform s) with
  | None => ([], w)
  | Some _ => let '(fault, w) := db_fault w in ((ListAuditLogs fault 200 (vs_audit v)).1, w)
  end.

Definition mqttRejects (s : Server) : gmap string Z := RejectedMessages (srv_platform s).

Definition metrics (v : Visits) (s : Server) (w : W) : result :=
  let '(auditLogs, w) := recentAuditLogs v s w in
  let '(now, w) := Now w in
  writeJSON 200 (BMetrics (MkSnapshot now (srv_siteID s)
    (Summary (srv_siteID s) (vs_telemetry v) (srv_store s)) (Devices (vs_devices v))
    (Telemetry_ (srv_store s)) (Commands (srv_store s)) (Events (srv_store s)) auditLogs
    (mqttRejects s))) s w.

Definition listDevices (v : Visits) (s : Server) (w : W) : result :=
  writeJSON 200 (BDevices (Devices (vs_devices v))) s w.

(** [s.devices.Upsert], when there is a saver: the new platform. *)
Definition save_device (d : Device) (p : Platform) (w : W) : option error * Platform * W :=
  match pf_repo p with
  | None => (None, p, w)
  | Some repo =>
      let '(now, w) := if IsZero (dev_CreatedAt d) then Now w else (dev_CreatedAt d, w) in
      let '(fault, w) := db_fault w in
      let '(err, repo) := Upsert fault now d repo in
      (err, MkPlatform (pf_store p) (Some repo) (pf_rejects p), w)
  end.

(** The site and the name filled in. *)
Definition complete_device (siteID : string) (d : Device) : Device :=
  MkDevice (dev_ID d) (if decide (dev_SiteID d = "") then siteID else dev_SiteID d) (dev_Type d)
    (if decide (dev_Name d = "") then dev_ID d else dev_Name d) (dev_RatedPowerW d)
    (dev_CapacityWh d) (dev_CriticalLoad d) (dev_CreatedAt d).

Definition upsertDevice (r : Request) (s : Server) (w : W) : result :=
  if negb (requireControl r s) then writeError 401 "control token required" s w else
  match decode_device (rq_Body r) with
  | inl err => writeError 400 err s w
  | inr d =>
      if decide (dev_ID d = "" ∨ dev_Type d = "")
      then writeError 400 "id and type are required" s w
      else
        let d := complete_device (srv_siteID s) d in
        let '(err, p, w) := save_device d (srv_platform s) w in
        match err with
        | Some err => writeError 502 err (set_platform p s) w
        | None =>
            let '(now, w) := if IsZero (dev_CreatedAt d) then Now w else (dev_CreatedAt d, w) in
            writeJSON 200 (BDevice d) (set_platform (set_store (UpsertDevice now d) p) s) w
        end
  end.

(** [r.PathValue("site_id")], or the server's site. *)
Definition site_of (site_id : string) (s : Server) : string :=
  if decide (site_id = "") then srv_siteID s else site_id.

Definition summary (v : Visits) (site_id : string) (s : Server) (w : W) : result :=
  writeJSON 200 (BSummary (Summary (site_of site_id s) (vs_telemetry v) (srv_store s))) s w.

Definition deviceStates (v : Visits) (site_id : string) (s : Server) (w : W) : result :=
  let '(now, w) := Now w in
  writeJSON 200 (BStates (DeviceStates (site_of site_id s) now DeviceOnlineTTL (vs_devices v)
    (srv_store s))) s w.

(** The plan for a configuration. *)
Definition write_plan (v : Visits) (siteID : string) (cfg : Config) (s : Server) (w : W) : result :=
  let '(now, w) := Now w in
  match BuildDayAheadPlan now (Summary siteID (vs_telemetry v) (srv_store s)) cfg with
  | Some plan => writeJSON 200 (BPlan plan) s w
  | None => panic s w
  end.

Definition plan (v : Visits) (site_id : string) (s : Server) (w : W) : result :=
  write_plan v (site_of site_id s) DefaultConfig s w.

Definition customPlan (r : Request) (v : Visits) (site_id : string) (s : Server) (w : W) : result :=
  match decode_config (rq_Body r) with
  | inl err => writeError 400 err s w
  | inr cfg =>
      match ValidateConfig cfg with
      | Some err => writeError 400 err s w
      | None => write_plan v (site_of site_id s) cfg s w
      end
  end.

Definition write_preview (v : Visits) (siteID : string) (cfg : Config) (s : Server) (w : W) : result :=
  let '(now, w) := Now w in
  match BuildPreview now (Summary siteID (vs_telemetry v) (srv_store s)) (Devices (vs_devices v)) cfg with
  | Some preview => writeJSON 200 (BPreview preview) s w
  | None => panic s w
  end.

Definition dispatchPreview (v : Visits) (site_id : string) (s : Server) (w : W) : result :=
  write_preview v (site_of site_id s) DefaultConfig s w.

Definition customDispatchPreview (r : Request) (v : Visits) (site_id : string) (s : Server) (w : W) :
    result :=
  match decode_config (rq_Body r) with
  | inl err => writeError 400 err s w
  | inr cfg =>
      match ValidateConfig cfg with
      | Some err => writeError 400 err s w
      | None => write_preview v (site_of site_id s) cfg s w
      end
  end.

(** A command made ready to send: its identifier and time, read twice. *)
Definition stamp_command (deviceID reason : string) (cmd : Model.Command) (w : W) :
    Model.Command * W :=
  let '(now1, w) := Now w in
  let '(now2, w) := Now w in
  (MkCommand (deviceID +:+ "-" +:+ format_stamp now1) (cmd_Action cmd) (cmd_Params cmd)
     (Unix now2) reason, w).

Definition applyDispatch (r : Request) (v : Visits) (site_id : string) (s : Server) (w : W) : result :=
  if negb (requireControl r s) then writeError 401 "control token required" s w else
  let siteID := site_of site_id s in
  match decode_apply (rq_Body r) with
  | inl err => writeError 400 err s w
  | inr req =>
      match ValidateConfig (req_Config req) with
      | Some err => writeError 400 err s w
      | None =>
          if (req_MaxAbsTrackingErrorW req <? fzero)%f64
          then writeError 400 "max_abs_tracking_error_w must be >= 0" s w
          else
            let '(now, w) := Now w in
            match BuildPreview now (Summary siteID (vs_telemetry v) (srv_store s))
                    (Devices (vs_devices v)) (req_Config req) with
            | None => panic s w
            | Some preview =>
                let decision := DecideApply preview req in
                if negb (dec_CanApply decision) then writeJSON 412 (BDecision decision) s w else
                match DeviceInSite siteID (pv_CandidateDeviceID preview) (srv_store s) with
                | None => writeError 404 "candidate device not found" s w
                | Some d =>
                    match pv_CandidateCommand preview with
                    | None => panic s w
                    | Some cmd =>
                        let '(cmd, w) := stamp_command (pv_CandidateDeviceID preview)
                          ("dispatch apply: " +:+ cmd_Reason cmd) cmd w in
                        let '(err, p, w) :=
                          Mqtt.PublishCommand siteID d cmd (srv_platform s) w in
                        match err with
                        | Some err => writeError 502 err (set_platform p s) w
                        | None =>
                            writeJSON 202 (BApplied (dec_Reason decision) d cmd decision)
                              (set_platform p s) w
                        end
                    end
                end
            end
      end
  end.

Definition commands (s : Server) (w : W) : result :=
  writeJSON 200 (BCommands (Commands (srv_store s))) s w.

Definition events (s : Server) (w : W) : result :=
  writeJSON 200 (BEvents (Events (srv_store s))) s w.

Definition auditLogs (v : Visits) (s : Server) (w : W) : result :=
  match pf_repo (srv_platform s) with
  | None => writeJSON 200 (BAuditLogs []) s w
  | Some _ =>
      let '(fault, w) := db_fault w in
      let '(logs, err) := ListAuditLogs fault 200 (vs_audit v) in
      match err with
      | Some err => writeError 502 err s w
      | None => writeJSON 200 (BAuditLogs logs) s w
      end
  end.

Definition getPolicy (s : Server) (w : W) : result :=
  writeJSON 200 (BPolicy (Policy_ (srv_scheduler s))) s w.

Definition setPolicy (r : Request) (s : Server) (w : W) : result :=
  if negb (requireControl r s) then writeError 401 "control token required" s w else
  match decode_policy (rq_Body r) with
  | inl err => writeError 400 err s w
  | inr p =>
      match ValidatePolicy p with
      | Some err => writeError 400 err s w
      | None => writeJSON 200 (BPolicy p) (set_scheduler (SetPolicy p (srv_scheduler s)) s) w
      end
  end.

Definition command (r : Request) (site_id device_id : string) (s : Server) (w : W) : result :=
  if negb (requireControl r s) then writeError 401 "control token required" s w else
  let siteID := site_of site_id s in
  match DeviceInSite siteID device_id (srv_store s) with
  | None => writeError 404 "device not found" s w
  | Some d =>
      match decode_command (rq_Body r) with
      | inl err => writeError 400 err s w
      | inr cmd =>
          if decide (TrimSpace (cmd_Action cmd) = "") then writeError 400 "action is required" s w
          else
            let '(cmd, w) := stamp_command device_id (cmd_Reason cmd) cmd w in
            let '(err, p, w) := Mqtt.PublishCommand siteID d cmd (srv_platform s) w in
            match err with
            | Some err => writeError 502 err (set_platform p s) w
            | None => writeJSON 202 (BCommand cmd) (set_platform p s) w
            end
      end
  end.

(** ** Routing *)

(** The patterns of [Handler], each with its method and the handler it leads to. *)
Inductive Route :=
| RConsole | RHealth | RMetrics | RListDevices | RUpsertDevice | RSummary | RDeviceStates
| RPlan | RCustomPlan | RDispatchPreview | RCustomDispatchPreview | RApplyDispatch
| RCommands | REvents | RAuditLogs | RGetPolicy | RSetPolicy | RCommand.

Definition site_path (rest : list Seg) : list Seg :=
  [Lit "api"; Lit "v1"; Lit "sites"; Wild "site_id"] ++ rest.

(** All but [GET /], which matches every path and gives way to any other. *)
Definition routes : list (string * list Seg * Route) :=
  [("GET", [Lit "healthz"], RHealth);
   ("GET", [Lit "metrics"], RMetrics);
   ("GET", [Lit "api"; Lit "v1"; Lit "devices"], RListDevices);
   ("POST", [Lit "api"; Lit "v1"; Lit "devices"], RUpsertDevice);
   ("GET", site_path [Lit "summary"], RSummary);
   ("GET", site_path [Lit "device-states"], RDeviceStates);
   ("GET", site_path [Lit "plan"], RPlan);
   ("POST", site_path [Lit "plan"], RCustomPlan);
   ("GET", site_path [Lit "dispatch-preview"], RDispatchPreview);
   ("POST", site_path [Lit "dispatch-preview"], RCustomDispatchPreview);
   ("POST", site_path [Lit "dispatch"; Lit "apply"], RApplyDispatch);
   ("GET", [Lit "api"; Lit "v1"; Lit "commands"], RCommands);
   ("GET", [Lit "api"; Lit "v1"; Lit "events"], REvents);
   ("GET", [Lit "api"; Lit "v1"; Lit "audit-logs"], RAuditLogs);
   ("GET", [Lit "api"; Lit "v1"; Lit "policies"; Lit "default"], RGetPolicy);
   ("PUT", [Lit "api"; Lit "v1"; Lit "policies"; Lit "default"], RSetPolicy);
   ("POST", site_path [Lit "devices"; Wild "device_id"; Lit "command"], RCommand);
   ("POST", [Lit "api"; Lit "v1"; Lit "devices"; Wild "device_id"; Lit "command"], RCommand)].

(** The handler of a request and its path values: [None] when only the method of
    the patterns that match does not fit. *)
Definition lookup_route (r : Request) : option (Route * gmap string string) :=
  match find_route routes (rq_Method r) (rq_segments r) with
  | Some found => Some found
  | None => if match_method "GET" (rq_Method r) then Some (RConsole, ∅) else None
  end.

Definition handle (r : Request) (v : Visits) (route : Route) (values : gmap string string)
    (s : Server) (w : W) : result :=
  let site_id := default "" (values !! "site_id") in
  let device_id := default "" (values !! "device_id") in
  match route with
  | RConsole => writeJSON 200 BConsole s w
  | RHealth => health s w
  | RMetrics => metrics v s w
  | RListDevices => listDevices v s w
  | RUpsertDevice => upsertDevice r s w
  | RSummary => summary v site_id s w
  | RDeviceStates => deviceStates v site_id s w
  | RPlan => plan v site_id s w
  | RCustomPlan => customPlan r v site_id s w
  | RDispatchPreview => dispatchPreview v site_id s w
  | RCustomDispatchPreview => customDispatchPreview r v site_id s w
  | RApplyDispatch => applyDispatch r v site_id s w
  | RCommands => commands s w
  | REvents => events s w
  | RAuditLogs => auditLogs v s w
  | RGetPolicy => getPolicy s w
  | RSetPolicy => setPolicy r s w
  | RCommand => command r site_id device_id s w
  end.

(** The mux: a path that is not clean is redirected, one without a handler for its
    method refused; neither has path values. *)
Definition path_values (r : Request) : gmap string string :=
  if rq_clean r then match lookup_route r with Some (_, values) => values | None => ∅ end else ∅.

Definition mux (r : Request) (v : Visits) (s : Server) (w : W) : result :=
  if negb (rq_clean r) then writeJSON 301 BEmpty s w else
  match lookup_route r with
  | Some (route, values) => handle r v route values s w
  | None => writeJSON 405 BEmpty s w
  end.

(** ** Auditing *)

Definition audit_entry (r : Request) (action : string) (code : Z) (now1 now2 : Time) : AuditLog :=
  MkAuditLog (pretty (UnixNano now1)) now2 (auditActor r) action (rq_Method r) (rq_Path r) code
    (clientIP r) (rq_Header r "User-Agent")
    (<["site_id" := JStr (default "" (path_values r !! "site_id"))]>
      (<["device_id" := JStr (default "" (path_values r !! "device_id"))]> ∅)).

(** [s.audit.PutAuditLog]; its error is only logged. *)
Definition put_audit (entry : AuditLog) (s : Server) (w : W) : Server * W :=
  let '(now, w) := if IsZero (al_OccurredAt entry) then Now w else (al_OccurredAt entry, w) in
  let '(fault, w) := db_fault w in
  (set_platform (record_with (PutAuditLog fault now entry) (srv_platform s)) s, w).

(** A panic of the handler is not audited. *)
Definition withAudit (next : Server → W → result) (r : Request) (s : Server) (w : W) : result :=
  match pf_repo (srv_platform s) with
  | None => next s w
  | Some _ =>
      match auditAction r with
      | None => next s w
      | Some action =>
          let '(rsp, s, w) := next s w in
          match rsp with
          | None => (None, s, w)
          | Some rsp =>
              let '(now1, w) := Now w in
              let '(now2, w) := Now w in
              let '(s, w) := put_audit (audit_entry r action (rsp_Code rsp) now1 now2) s w in
              (Some rsp, s, w)
          end
      end
  end.

(** [Handler]: one request. *)
Definition serve (r : Request) (v : Visits) (s : Server) (w : W) : result :=
  withAudit (mux r v) r s w.
End Server.

(** ** Lemmas *)

(** Everything a request may change but the audit table. *)
Definition live (s : Server) :=
  (srv_siteID s, srv_token s, srv_store s, pf_rejects (srv_platform s), srv_scheduler s,
   (λ repo, (db_devices repo, db_commands repo, db_events repo)) <$> pf_repo (srv_platform s)).

Definition control_route (route : Route) : bool :=
  match route with
  | RUpsertDevice | RApplyDispatch | RSetPolicy | RCommand => true
  | _ => false
  end.

Lemma set_platform_id s : set_platform (srv_platform s) s = s.
Proof. by destruct s. Qed.

(** *** What is audited *)

Lemma HasSuffix_app2 a x p : HasSuffix (a +:+ x +:+ p) p = true.
Proof. rewrite <- str_app_assoc. apply HasSuffix_app. Qed.

Lemma Contains_app2 a x p s : Contains (a +:+ x +:+ p +:+ s) p = true.
Proof. rewrite <- str_app_assoc. apply Contains_app. Qed.

Lemma HasSuffix_app4 a x b y p : HasSuffix (a +:+ x +:+ b +:+ y +:+ p) p = true.
Proof. rewrite <- !(str_app_assoc a), <- (str_app_assoc b). apply HasSuffix_app2. Qed.

(** The five cases of [auditAction]. *)
Lemma audited_if r :
  (rq_Method r = "POST" ∧ rq_Path r = "/api/v1/devices") ∨
  (rq_Method r = "PUT" ∧ rq_Path r = "/api/v1/policies/default") ∨
  (rq_Method r = "POST" ∧ HasPrefix (rq_Path r) "/api/v1/devices/" = true ∧
     HasSuffix (rq_Path r) "/command" = true) ∨
  (rq_Method r = "POST" ∧ HasPrefix (rq_Path r) "/api/v1/sites/" = true ∧
     Contains (rq_Path r) "/devices/" = true ∧ HasSuffix (rq_Path r) "/command" = true) ∨
  (rq_Method r = "POST" ∧ HasPrefix (rq_Path r) "/api/v1/sites/" = true ∧
     HasSuffix (rq_Path r) "/dispatch/apply" = true) →
  is_Some (auditAction r).
Proof.
  intros Hc. unfold auditAction. repeat (case_match; [by eexists|]). exfalso.
  destruct Hc as [(Hm & Hp)|[(Hm & Hp)|[(Hm & Hp & Hs)|[(Hm & Hp & Hd & Hs)|(Hm & Hp & Hs)]]]];
    rewrite ?Hm, ?Hp, ?Hd, ?Hs in *; done.
Qed.

(** Every control request that reaches its handler is audited. *)
Lemma control_audited r route values :
  lookup_route r = Some (route, values) → control_route route = true →
  is_Some (auditAction r).
Proof.
  unfold lookup_route. destruct (find_route _ _ _) as [[rt vs]|] eqn:Ef.
  2: { case_match; [|done]. by intros [= <- <-]. }
  intros [= -> ->] Hc. apply find_route_elem in Ef as (m & pattern & Hin & Hm & Hp).
  apply audited_if. destruct r as [method path clean header body addr]. unfold rq_Path.
  cbn [rq_Method rq_segments] in *. unfold match_method in Hm.
  repeat (apply elem_of_cons in Hin as [Hin|Hin];
    [injection Hin as -> -> ->; try done; cbn in Hm;
     rewrite orb_false_r, bool_decide_eq_true in Hm; subst method; unfold site_path in Hp;
     cbn [app] in Hp; match_segments|]);
    [..|by apply elem_of_nil in Hin].
  - by left.
  - do 4 right. split_and!; [done|..].
    + apply (HasPrefix_app "/api/v1/sites/").
    + apply (HasSuffix_app2 "/api/v1/sites/" _ "/dispatch/apply").
  - right. by left.
  - do 3 right. left. split_and!; [done|..].
    + apply (HasPrefix_app "/api/v1/sites/").
    + apply (Contains_app2 "/api/v1/sites/" _ "/devices/").
    + apply (HasSuffix_app4 "/api/v1/sites/" _ "/devices/" _ "/command").
  - right; right; left. split_and!; [done|..].
    + apply (HasPrefix_app "/api/v1/devices/").
    + apply (HasSuffix_app2 "/api/v1/devices/" _ "/command").
Qed.

(** *** The routes do not overlap *)

(** Some path may match both patterns; some method both methods. *)
Fixpoint overlap (p q : list Seg) : bool :=
  match p, q with
  | [], [] => true
  | Lit a :: p', Lit b :: q' => bool_decide (a = b) && overlap p' q'
  | _ :: p', _ :: q' => overlap p' q'
  | _, _ => false
  end.

Definition conflict (x y : string * list Seg * Route) : bool :=
  (bool_decide (x.1.1 = y.1.1) || bool_decide (x.1.1 = "HEAD") || bool_decide (y.1.1 = "HEAD")) &&
  overlap x.1.2 y.1.2.

Lemma overlap_sound p q path v v' :
  match_path p path = Some v → match_path q path = Some v' → overlap p q = true.
Proof.
  revert q path v v'. induction p as [|[a|a] p IH]; intros [|[b|b] q] [|x path] v v'; simpl; try done;
    repeat case_decide; try done; subst;
    destruct (match_path p path) eqn:Ep, (match_path q path) eqn:Eq; try done; intros _ _;
    rewrite ?bool_decide_true by done; by eapply IH.
Qed.

Lemma conflict_sound method path (x y : string * list Seg * Route) v v' :
  match_method x.1.1 method = true → match_path x.1.2 path = Some v →
  match_method y.1.1 method = true → match_path y.1.2 path = Some v' → conflict x y = true.
Proof.
  intros Hx Hv Hy Hv'. unfold conflict. rewrite (overlap_sound _ _ _ _ _ Hv Hv'), andb_true_r.
  unfold match_method in *. rewrite !orb_true_iff, !andb_true_iff, !bool_decide_eq_true in *.
  destruct Hx as [Hx|[Hx1 Hx2]], Hy as [Hy|[Hy1 Hy2]];
    [left; left|left; right|right|left; left]; congruence.
Qed.

#[export] Instance Seg_eq_dec : EqDecision Seg.
Proof. solve_decision. Defined.
#[export] Instance Route_eq_dec : EqDecision Route.
Proof. solve_decision. Defined.

Lemma routes_conflict x y : x ∈ routes → y ∈ routes → conflict x y = true → x = y.
Proof.
  assert (H : Forall (λ x, Forall (λ y, conflict x y = true → x = y) routes) routes)
    by (apply (bool_decide_unpack _); vm_compute; done).
  rewrite Forall_forall in H. intros Hx Hy. specialize (H x Hx). rewrite Forall_forall in H.
  by apply H.
Qed.

(** The order of the table does not matter: the entry that matches is found. *)
Lemma routes_unambiguous method path m pattern route values :
  (m, pattern, route) ∈ routes → match_method m method = true →
  match_path pattern path = Some values → find_route routes method path = Some (route, values).
Proof.
  intros Hin Hm Hp. destruct (find_route routes method path) as [[route' values']|] eqn:E.
  - apply find_route_elem in E as (m' & pattern' & Hin' & Hm' & Hp').
    pose proof (routes_conflict _ _ Hin Hin' (conflict_sound method path (m, pattern, route)
      (m', pattern', route') _ _ Hm Hp Hm' Hp')).
    by simplify_eq.
  - exfalso. revert E. clear - Hin Hm Hp. induction routes as [|[[m' p'] r'] l IH]; [by apply elem_of_nil in Hin|].
    simpl. apply elem_of_cons in Hin as [[= <- <- <-]|Hin].
    + by rewrite Hm, Hp.
    + case_match; [done|]. by apply IH.
Qed.

(** *** What a handler changes *)

(** A health check looks at the world without publishing. *)
Definition traced_check {W A} (c : @HealthCheck W) : @HealthCheck (W * list A) :=
  MkHealthCheck (hc_Name c)
    ((λ f, λ '(w, l), let '(err, w) := f w in (err, (w, l))) <$> hc_Check c).

(** Lets the observed world step: every reading and outcome becomes a variable. *)
Ltac traced_steps :=
  repeat (rewrite traced_now || rewrite traced_fault ||
    match goal with
    | CL : Clock ?W |- context [@Now ?W ?CL ?w] => destruct (@Now W CL w)
    | ST : Storage ?W |- context [@db_fault ?W ?ST ?w] => destruct (@db_fault W ST w)
    end).

(** Saving a device: on failure nothing changes, on success its row is written. *)
Lemma save_device_result {W} {CL : Clock W} {ST : Storage W} d p (w : W) err p' w' :
  save_device d p w = (err, p', w') →
  match err with
  | Some _ => p' = p
  | None =>
      pf_store p' = pf_store p ∧ pf_rejects p' = pf_rejects p ∧
      match pf_repo p with
      | None => pf_repo p' = None
      | Some repo => ∃ now, pf_repo p' = Some (Upsert None now d repo).2
      end
  end.
Proof.
  destruct p as [st repo rej]. unfold save_device. cbn [pf_store pf_repo pf_rejects].
  destruct repo as [repo|]; [|by intros [= <- <- <-]].
  destruct (if IsZero _ then _ else _) as [now w1]. destruct (db_fault w1) as [[e|] w2].
  - by intros [= <- <- <-].
  - change (Upsert None now d repo) with (None : option error, (Upsert None now d repo).2).
    intros [= <- <- <-]. split; [done|]. split; [done|]. by eexists.
Qed.

Section Effects.
Context {W : Type} {CL : Clock W} {BR : Broker W} {ST : Storage W}.
Context {LO : Location} {MS : MathSin} {BD : DecodeErrors}.
Context (checks : list (@HealthCheck W)).
#[local] Existing Instance traced_clock.
#[local] Existing Instance traced_storage.
#[local] Existing Instance traced_broker.

Definition handler : Type :=
  Server → W * list (string * string) → @result (W * list (string * string)).

(** Nothing changes and nothing is published. *)
Definition silent (h : handler) : Prop :=
  ∀ s wl rsp s' wl', h s wl = (rsp, s', wl') → s' = s ∧ wl'.2 = wl.2.

(** The requests a handler lets through are authorized, and it reports success
    when it changed or published anything. *)
Definition guarded (r : Request) (h : handler) : Prop :=
  ∀ s wl rsp s' wl', h s wl = (rsp, s', wl') →
    (requireControl r s = false → rsp = Some (MkResponse 401 (BError "control token required"))) ∧
    ((s' = s ∧ wl'.2 = wl.2) ∨
     requireControl r s = true ∧
     db_audit <$> pf_repo (srv_platform s') = db_audit <$> pf_repo (srv_platform s) ∧
     ∃ body code, rsp = Some (MkResponse code body) ∧ (code = 200%Z ∨ code = 202%Z)).

Lemma silent_write code v : silent (writeJSON code v).
Proof. by intros s wl rsp s' wl' [= <- <- <-]. Qed.

Lemma silent_checks (l : list (@HealthCheck W)) ok answers wl ok' answers' wl' :
  run_checks (traced_check (A:=string * string) <$> l) ok answers wl = (ok', answers', wl') → wl'.2 = wl.2.
Proof.
  revert ok answers wl. induction l as [|c l IH]; simpl; intros ok answers [w lg].
  { by intros [= <- <- <-]. }
  destruct (hc_Check c) as [f|]; simpl; [|apply IH].
  case_decide; [apply IH|]. destruct (f w) as [[err|] w1]; intros Hr; by apply IH in Hr.
Qed.

Lemma silent_health : silent (health (traced_check <$> checks)).
Proof.
  intros s wl rsp s' wl'. unfold health.
  destruct (run_checks _ _ _ _) as [[ok answers] wl1] eqn:E. apply silent_checks in E.
  destruct ok; intros [= <- <- <-]; done.
Qed.

Lemma silent_metrics v : silent (metrics v).
Proof.
  intros s [w l] rsp s' wl'. unfold metrics, recentAuditLogs.
  destruct (pf_repo _); traced_steps; by intros [= <- <- <-].
Qed.

Lemma silent_states v site : silent (deviceStates v site).
Proof. intros s [w l] rsp s' wl'. unfold deviceStates. traced_steps. by intros [= <- <- <-]. Qed.

Lemma silent_plan v site cfg : silent (write_plan v site cfg).
Proof.
  intros s [w l] rsp s' wl'. unfold write_plan. traced_steps.
  destruct (BuildDayAheadPlan _ _ _); by intros [= <- <- <-].
Qed.

Lemma silent_preview v site cfg : silent (write_preview v site cfg).
Proof.
  intros s [w l] rsp s' wl'. unfold write_preview. traced_steps.
  destruct (BuildPreview _ _ _ _); by intros [= <- <- <-].
Qed.

Lemma silent_customPlan r v site : silent (customPlan r v site).
Proof.
  intros s wl rsp s' wl'. unfold customPlan. destruct (decode_config _); [apply silent_write|].
  destruct (ValidateConfig _); [apply silent_write|apply silent_plan].
Qed.

Lemma silent_customPreview r v site : silent (customDispatchPreview r v site).
Proof.
  intros s wl rsp s' wl'. unfold customDispatchPreview.
  destruct (decode_config _); [apply silent_write|].
  destruct (ValidateConfig _); [apply silent_write|apply silent_preview].
Qed.

Lemma silent_auditLogs v : silent (auditLogs v).
Proof.
  intros s [w l] rsp s' wl'. unfold auditLogs. destruct (pf_repo _); [|apply silent_write].
  traced_steps. destruct (ListAuditLogs _ _ _) as [logs [err|]]; by intros [= <- <- <-].
Qed.

(** Routes that are not control routes. *)
Lemma silent_route r v route values :
  control_route route = false → silent (handle (traced_check <$> checks) r v route values).
Proof.
  destruct route; try done; intros _; unfold handle, listDevices, summary, plan, dispatchPreview,
    commands, events, getPolicy;
    first [exact (silent_write _ _)|apply silent_health|apply silent_metrics|apply silent_states
      |intros s; by apply silent_plan|apply silent_customPlan|intros s; by apply silent_preview
      |apply silent_customPreview|apply silent_auditLogs|intros s; by apply silent_write].
Qed.

(** *** The control handlers *)

(** Publishing: on failure nothing changes, on success the audit table does not. *)
Lemma PublishCommand_guarded site d cmd p (wl : W * list (string * string)) err p' wl' :
  Mqtt.PublishCommand site d cmd p wl = (err, p', wl') →
  match err with
  | Some _ => p' = p ∧ wl'.2 = wl.2
  | None => db_audit <$> pf_repo p' = db_audit <$> pf_repo p ∧ pf_rejects p' = pf_rejects p ∧
      ∃ payload, marshal_command cmd = Some payload ∧
        wl'.2 = wl.2 ++ [(Topic.Command site (dev_Type d) (dev_ID d), payload)]
  end.
Proof.
  destruct wl as [w l]. unfold Mqtt.PublishCommand.
  destruct (marshal_command cmd) as [payload|]; [|by intros [= <- <- <-]].
  unfold Publish at 1, traced_broker. destruct (Publish _ payload w) as [[e|] w1].
  { by intros [= <- <- <-]. }
  unfold record_issued. traced_steps. simpl.
  destruct (pf_repo p) as [repo|] eqn:Er; simpl; traced_steps; simpl; intros [= <- <- <-];
    simpl; rewrite Er; simpl; (split; [|split; [done|by exists payload]]); [|done].
  f_equal. unfold Repository.PutCommandIssued. by repeat case_match.
Qed.

Lemma guarded_command r site id : guarded r (command r site id).
Proof.
  intros s wl rsp s' wl'. unfold command.
  destruct (requireControl r s) eqn:Ec; simpl.
  2: { intros [= <- <- <-]. split; [done|by left]. }
  destruct (DeviceInSite _ _ _) as [d|].
  2: { intros [= <- <- <-]. split; [done|by left]. }
  destruct (decode_command _) as [e|cmd].
  { intros [= <- <- <-]. split; [done|by left]. }
  case_decide.
  { intros [= <- <- <-]. split; [done|by left]. }
  unfold stamp_command. destruct wl as [w l]. traced_steps.
  destruct (Mqtt.PublishCommand _ _ _ _ _) as [[err p'] wl1] eqn:Ep.
  apply PublishCommand_guarded in Ep. destruct err as [err|]; intros [= <- <- <-]; (split; [done|]).
  - destruct Ep as [-> Hl]. left. by rewrite set_platform_id.
  - destruct Ep as (Ha & _). right. split_and!; [done|done|]. eauto.
Qed.

Lemma save_device_log d p (wl : W * list (string * string)) err p' wl' :
  save_device d p wl = (err, p', wl') → wl'.2 = wl.2.
Proof.
  destruct wl as [w l]. unfold save_device. destruct (pf_repo p); [|by intros [= _ _ <-]].
  destruct (IsZero _); traced_steps; destruct (Upsert _ _ _ _); by intros [= _ _ <-].
Qed.

Lemma guarded_upsert r : guarded r (upsertDevice r).
Proof.
  intros s wl rsp s' wl'. unfold upsertDevice.
  destruct (requireControl r s) eqn:Ec; simpl.
  2: { intros [= <- <- <-]. split; [done|by left]. }
  destruct (decode_device _) as [e|d].
  { intros [= <- <- <-]. split; [done|by left]. }
  case_decide.
  { intros [= <- <- <-]. split; [done|by left]. }
  destruct (save_device _ _ _) as [[err p'] wl1] eqn:Es.
  pose proof (save_device_log _ _ _ _ _ _ Es) as Hl.
  apply save_device_result in Es as Hp. destruct err as [err|].
  { intros [= <- <- <-]. split; [done|]. left. rewrite Hp, set_platform_id. done. }
  destruct wl1 as [w1 l1]. intros Hr. split; [done|].
  assert (Ha : db_audit <$> pf_repo p' = db_audit <$> pf_repo (srv_platform s)).
  { destruct Hp as (_ & _ & Hp). destruct (pf_repo (srv_platform s)) as [repo|].
    - by destruct Hp as [now ->].
    - by rewrite Hp. }
  right. revert Hr. destruct (IsZero _); traced_steps; intros [= <- <- <-]; split_and!; eauto.
Qed.

Lemma guarded_setPolicy r : guarded r (setPolicy r).
Proof.
  intros s wl rsp s' wl'. unfold setPolicy.
  destruct (requireControl r s) eqn:Ec; simpl.
  2: { intros [= <- <- <-]. split; [done|by left]. }
  destruct (decode_policy _) as [e|p]; [|destruct (ValidatePolicy p)]; intros [= <- <- <-];
    (split; [done|]); [by left..|]. right. split_and!; eauto.
Qed.

Lemma CanApply_candidate preview req :
  dec_CanApply (DecideApply preview req) = true → is_Some (pv_CandidateCommand preview).
Proof. unfold DecideApply. destruct (req_Confirm req), (pv_CandidateCommand preview); done. Qed.

(** The course of [applyDispatch] after authorization: either nothing changed, or
    the candidate was published. *)
Definition applied (r : Request) (v : Visits) (siteID : string) (s : Server)
    (rsp : option Response) (s' : Server) (sent : list (string * string)) : Prop :=
  ∃ req now preview d cand cmd payload decision,
    decode_apply (rq_Body r) = inr req ∧ ValidateConfig (req_Config req) = None ∧
    BuildPreview now (Summary siteID (vs_telemetry v) (srv_store s)) (Devices (vs_devices v))
      (req_Config req) = Some preview ∧
    decision = DecideApply preview req ∧ dec_CanApply decision = true ∧
    DeviceInSite siteID (pv_CandidateDeviceID preview) (srv_store s) = Some d ∧
    pv_CandidateCommand preview = Some cand ∧
    cmd_Action cmd = cmd_Action cand ∧ cmd_Params cmd = cmd_Params cand ∧
    marshal_command cmd = Some payload ∧
    sent = [(Topic.Command siteID (dev_Type d) (dev_ID d), payload)] ∧
    db_audit <$> pf_repo (srv_platform s') = db_audit <$> pf_repo (srv_platform s) ∧
    rsp = Some (MkResponse 202 (BApplied (dec_Reason decision) d cmd decision)).

Lemma applyDispatch_course r v site s wl rsp s' wl' :
  applyDispatch r v site s wl = (rsp, s', wl') →
  (requireControl r s = false → rsp = Some (MkResponse 401 (BError "control token required"))) ∧
  ((s' = s ∧ wl'.2 = wl.2 ∧ (rsp_Code <$> rsp) ≠ Some 202%Z ∧
    (rsp_Code <$> rsp = Some 404%Z → ∃ req now preview,
       BuildPreview now (Summary (site_of site s) (vs_telemetry v) (srv_store s))
         (Devices (vs_devices v)) (req_Config req) = Some preview ∧
       dec_CanApply (DecideApply preview req) = true ∧
       DeviceInSite (site_of site s) (pv_CandidateDeviceID preview) (srv_store s) = None)) ∨
   requireControl r s = true ∧
   ∃ sent, wl'.2 = wl.2 ++ sent ∧ applied r v (site_of site s) s rsp s' sent).
Proof.
  unfold applyDispatch.
  destruct (requireControl r s) eqn:Ec; simpl.
  2: { intros [= <- <- <-]. split; [done|by left]. }
  intros Hr. split; [done|]. revert Hr.
  destruct (decode_apply _) as [e|req] eqn:Ed; [by intros [= <- <- <-]; left|].
  destruct (ValidateConfig _) eqn:Ev; [by intros [= <- <- <-]; left|].
  destruct (req_MaxAbsTrackingErrorW req <? fzero)%f64; [by intros [= <- <- <-]; left|].
  destruct wl as [w l]. rewrite traced_now. destruct (Now w) as [now w1].
  destruct (BuildPreview _ _ _ _) as [preview|] eqn:Eb; [|by intros [= <- <- <-]; left].
  destruct (dec_CanApply _) eqn:Ea; simpl; [|by intros [= <- <- <-]; left].
  destruct (DeviceInSite _ _ _) as [d|] eqn:Edev.
  2: { intros [= <- <- <-]. left. split_and!; [done..|]. intros _. by exists req, now, preview. }
  destruct (pv_CandidateCommand preview) as [cand|] eqn:Ecand; [|by intros [= <- <- <-]; left].
  unfold stamp_command. traced_steps.
  destruct (Mqtt.PublishCommand _ _ _ _ _) as [[err p'] wl1] eqn:Ep.
  apply PublishCommand_guarded in Ep. destruct err as [err|]; intros [= <- <- <-].
  - destruct Ep as [-> Hl]. left. by rewrite set_platform_id.
  - destruct Ep as (Ha & _ & payload & Hm & Hl). right. split; [done|].
    exists [(Topic.Command (site_of site s) (dev_Type d) (dev_ID d), payload)]. split; [done|].
    match type of Hm with marshal_command ?c = _ =>
      exists req, now, preview, d, cand, c, payload, (DecideApply preview req) end.
    by split_and!.
Qed.

Lemma guarded_apply r v site : guarded r (applyDispatch r v site).
Proof.
  intros s wl rsp s' wl' Hr. apply applyDispatch_course in Hr as [Hu [(-> & Hl & _)|(Hc & sent & _ & Ha)]].
  - split; [done|by left].
  - split; [done|]. right. destruct Ha as (req & now & preview & d & cand & cmd & payload & decision & Ha).
    destruct_and! Ha. split_and!; eauto.
Qed.

Lemma guarded_route r v route values :
  control_route route = true →
  guarded r (handle (traced_check <$> checks) r v route values).
Proof.
  destruct route; try done; intros _; [apply guarded_upsert|apply guarded_apply
    |apply guarded_setPolicy|apply guarded_command].
Qed.
End Effects.

(** *** Auditing *)

Lemma put_audit_live {W} `{Clock W} `{Storage W} entry s (w : W) :
  live (put_audit entry s w).1 = live s.
Proof.
  unfold put_audit. destruct (if IsZero _ then _ else _) as [now w1].
  destruct (db_fault w1) as [fault w2]. unfold live. simpl.
  destruct (pf_repo (srv_platform s)) as [repo|]; [|done]. simpl. unfold PutAuditLog.
  by repeat case_match.
Qed.

(** When the database works the entry is stored, unless its identifier is taken. *)
Lemma put_audit_stored {W} `{Clock W} `{Storage W} entry s repo (w : W) :
  (∀ w : W, (db_fault w).1 = None) → pf_repo (srv_platform s) = Some repo →
  is_Some (Marshal (json_of_map (al_Details entry))) →
  ∃ repo' row, pf_repo (srv_platform (put_audit entry s w).1) = Some repo' ∧
    db_audit repo' = match db_audit repo !! al_ID entry with
      | None => <[al_ID entry := row]> (db_audit repo)
      | Some _ => db_audit repo
      end ∧
    al_ID row = al_ID entry ∧ al_Action row = al_Action entry ∧
    al_StatusCode row = al_StatusCode entry ∧ al_Actor row = al_Actor entry ∧
    al_Path row = al_Path entry.
Proof.
  intros Hdb Hr [txt Hm]. unfold put_audit. destruct (if IsZero _ then _ else _) as [now w1].
  pose proof (Hdb w1) as Hf. destruct (db_fault w1) as [fault w2]. simpl in Hf. subst fault.
  simpl. rewrite Hr. simpl. unfold PutAuditLog. rewrite Hm. simpl.
  do 2 eexists. split; [done|]. split; [by destruct (db_audit repo !! al_ID entry)|]. by split_and!.
Qed.

Lemma audit_entry_prints r action code now1 now2 :
  is_Some (Marshal (json_of_map (al_Details (audit_entry r action code now1 now2)))).
Proof.
  apply Marshal_strings. simpl. intros k v Hk.
  apply lookup_insert_Some in Hk as [[_ <-]|[_ Hk]]; [by eexists|].
  apply lookup_insert_Some in Hk as [[_ <-]|[_ Hk]]; [by eexists|]. by rewrite lookup_empty in Hk.
Qed.

Section Serving.
Context {W : Type} {CL : Clock W} {BR : Broker W} {ST : Storage W}.
Context {LO : Location} {MS : MathSin} {BD : DecodeErrors}.
Context (checks : list (@HealthCheck W)).
#[local] Existing Instance traced_clock.
#[local] Existing Instance traced_storage.
#[local] Existing Instance traced_broker.

(** What the mux does: nothing, or an authorized control request. *)
Lemma mux_course r v s (wl : W * list (string * string)) rsp s' wl' :
  mux (traced_check <$> checks) r v s wl = (rsp, s', wl') →
  ((s' = s ∧ wl'.2 = wl.2) ∨
   requireControl r s = true ∧ is_Some (auditAction r) ∧
   db_audit <$> pf_repo (srv_platform s') = db_audit <$> pf_repo (srv_platform s) ∧
   ∃ body code, rsp = Some (MkResponse code body) ∧ (code = 200%Z ∨ code = 202%Z)) ∧
  (requireControl r s = false → rq_clean r = true → ∀ route values,
     lookup_route r = Some (route, values) → control_route route = true →
     rsp_Code <$> rsp = Some 401%Z).
Proof.
  unfold mux. destruct (rq_clean r); simpl.
  2: { intros [= <- <- <-]. split; [by left|done]. }
  destruct (lookup_route r) as [[route values]|] eqn:El.
  2: { intros [= <- <- <-]. split; [by left|done]. }
  destruct (control_route route) eqn:Ec.
  - intros Hh. pose proof (guarded_route checks r v route values Ec _ _ _ _ _ Hh) as [Hu Hg]. split.
    + destruct Hg as [Hg|(Hc & Ha & Hrsp)]; [by left|right].
      split_and!; [done|by eapply control_audited|done|done].
    + intros Hno _ ? ? _ _. by rewrite (Hu Hno).
  - intros Hh. apply (silent_route checks r v route values Ec) in Hh. split; [by left|].
    intros _ _ ? ? [= <- <-]. congruence.
Qed.

Lemma serve_course r v s (wl : W * list (string * string)) rsp s' wl' :
  serve (traced_check <$> checks) r v s wl = (rsp, s', wl') →
  ∃ s1 wl1, mux (traced_check <$> checks) r v s wl = (rsp, s1, wl1) ∧ wl'.2 = wl1.2 ∧
    ((s' = s1 ∧ (pf_repo (srv_platform s) = None ∨ auditAction r = None ∨ rsp = None)) ∨
     ∃ action code body now1 now2 (wl2 : W * list (string * string)),
       is_Some (pf_repo (srv_platform s)) ∧ auditAction r = Some action ∧
       rsp = Some (MkResponse code body) ∧ now1 = (Now wl1.1).1 ∧
       s' = (put_audit (audit_entry r action code now1 now2) s1 wl2).1).
Proof.
  unfold serve, withAudit. destruct (mux _ r v s wl) as [[rsp1 s1] [w1 l1]] eqn:Em.
  destruct (pf_repo (srv_platform s)) eqn:Er; [|intros [= -> -> <-]; exists s', (w1, l1); eauto 10].
  destruct (auditAction r) as [action|]; [|intros [= -> -> <-]; exists s', (w1, l1); eauto 10].
  destruct rsp1 as [[code body]|]; [|intros [= <- -> <-]; exists s', (w1, l1); eauto 10].
  rewrite traced_now. destruct (Now w1) as [now1 w2] eqn:En.
  rewrite traced_now. destruct (Now w2) as [now2 w3].
  destruct (put_audit _ _ _) as [s2 wl2] eqn:Ep. intros [= <- <- <-].
  exists s1, (w1, l1). split; [done|]. split.
  - simpl. unfold put_audit in Ep. revert Ep. destruct (IsZero _); traced_steps; by intros [= _ <-].
  - right. exists action, code, body, now1, now2, (w3, l1). cbn [rsp_Code] in Ep. rewrite Ep.
    split_and!; [by eexists|done|done|cbn [fst]; by rewrite En|done].
Qed.
End Serving.

(** *** Registering a device *)

(** Two devices with the same attributes, created whenever. *)
Definition same_attributes (d d' : Device) : Prop :=
  dev_ID d' = dev_ID d ∧ dev_SiteID d' = dev_SiteID d ∧ dev_Type d' = dev_Type d ∧
  dev_Name d' = dev_Name d ∧ dev_RatedPowerW d' = dev_RatedPowerW d ∧
  dev_CapacityWh d' = dev_CapacityWh d ∧ dev_CriticalLoad d' = dev_CriticalLoad d.

#[export] Instance same_attributes_equiv : Equivalence same_attributes.
Proof. split; repeat intros ?; unfold same_attributes in *; intuition congruence. Qed.

Lemma Upsert_row now d repo :
  ∃ row, db_devices (Upsert None now d repo).2 =
      <[(dev_SiteID d, dev_ID d) := row]> (db_devices repo) ∧ same_attributes d row ∧
    ∀ old, db_devices repo !! (dev_SiteID d, dev_ID d) = Some old →
      dev_CreatedAt row = dev_CreatedAt old.
Proof.
  eexists. split; [reflexivity|]. split; [by split_and!|]. simpl. by intros old ->.
Qed.

Lemma UpsertDevice_row now d st :
  ∃ d', DeviceInSite (dev_SiteID d) (dev_ID d) (UpsertDevice now d st) = Some d' ∧
    same_attributes d d' ∧
    dev_CreatedAt d' = (if IsZero (dev_CreatedAt d) then now else dev_CreatedAt d) ∧
    st_devices (UpsertDevice now d st) =
      <[stateKey (dev_SiteID d) (dev_ID d) := d']> (st_devices st).
Proof.
  unfold UpsertDevice, DeviceInSite. simpl. destruct (IsZero (dev_CreatedAt d)) eqn:E; simpl;
    eexists; rewrite lookup_insert_eq; (split; [done|]); by split_and!.
Qed.

(** ** Properties *)

(** C18: Without the control token nothing can be controlled: when a token is
    configured and the request does not present it, serving the request
    publishes no command and leaves devices, telemetry, command and event
    history, policy and repository as they were, apart from the audit trail;
    control requests are answered with 401. *)
Theorem control_required {W} {CL : Clock W} {BR : Broker W} {ST : Storage W} {LO : Location}
    {MS : MathSin} {BD : DecodeErrors} (checks : list (@HealthCheck W)) r v s (w : W) :
  requireControl r s = false →
  let '(rsp, s', (_, published)) :=
    @serve _ traced_clock traced_broker traced_storage _ _ _ (traced_check <$> checks) r v s (w, []) in
  live s' = live s ∧ published = [] ∧
  (rq_clean r = true → ∀ route values, lookup_route r = Some (route, values) →
     control_route route = true → rsp_Code <$> rsp = Some 401%Z).
Proof.
  intros Hno. destruct (serve _ _ _ _ _) as [[rsp s'] [w' l]] eqn:E.
  apply serve_course in E as (s1 & wl1 & Hm & Hl & Hs).
  apply mux_course in Hm as [[[-> Hl1]|(Hc & _)] H401]; [|congruence].
  simpl in *. split_and!.
  - destruct Hs as [[-> _]|(? & ? & ? & ? & ? & ? & _ & _ & _ & _ & ->)]; [done|].
    apply put_audit_live.
  - congruence.
  - intros Hcl. by apply H401.
Qed.

(** C19: Control is recorded, but for one case.  While the database works, a request
    that changed anything or published a command was authorized and answered with success,
    and a row with its action, actor, path and status is added to the audit trail under the
    nanosecond the clock showed when its handler returned; unless the trail already
    has a row under that nanosecond: then it stays as it is, and the
    request leaves no record. *)
Theorem changes_are_audited {W} {CL : Clock W} {BR : Broker W} {ST : Storage W} {LO : Location}
    {MS : MathSin} {BD : DecodeErrors} (checks : list (@HealthCheck W)) r v s repo (w : W) :
  (∀ w : W, (db_fault w).1 = None) → pf_repo (srv_platform s) = Some repo →
  let '(_, _, (returned, _)) :=
    @mux _ traced_clock traced_broker traced_storage _ _ _ (traced_check <$> checks) r v s (w, []) in
  let id := pretty (UnixNano (Now returned).1) in
  let '(rsp, s', (_, published)) :=
    @serve _ traced_clock traced_broker traced_storage _ _ _ (traced_check <$> checks) r v s (w, []) in
  (live s' = live s ∧ published = []) ∨
  requireControl r s = true ∧
  ∃ code repo' row, rsp_Code <$> rsp = Some code ∧ (code = 200%Z ∨ code = 202%Z) ∧
    pf_repo (srv_platform s') = Some repo' ∧
    db_audit repo' = (match db_audit repo !! id with None => <[id := row]> (db_audit repo) | Some _ => db_audit repo end) ∧
    al_ID row = id ∧ auditAction r = Some (al_Action row) ∧ al_StatusCode row = code ∧
    al_Actor row = auditActor r ∧ al_Path row = rq_Path r.
Proof.
  intros Hdb Hr. destruct (serve _ _ _ _ _) as [[rsp s'] [w' l]] eqn:E.
  apply serve_course in E as (s1 & [returned l1] & Hm & Hl & Hs). rewrite Hm.
  apply mux_course in Hm as [[[-> Hl1]|(Hc & [action Ha] & Haud & body & code & -> & Hcode)] _].
  - left. simpl in *. split; [|congruence].
    destruct Hs as [[-> _]|(? & ? & ? & ? & ? & ? & _ & _ & _ & _ & ->)]; [done|].
    apply put_audit_live.
  - right. split; [done|].
    destruct Hs as [[_ [Hn|[Hn|Hn]]]|(action' & code' & body' & now1 & now2 & wl2 & _ & Ha' & Hrsp & Hw & ->)];
      [congruence|congruence|done|].
    injection Hrsp as <- <-. rewrite Hr in Haud. cbn [fst] in Hw.
    destruct (pf_repo (srv_platform s1)) as [repo1|] eqn:Hr1; [|done]. injection Haud as Haud.
    destruct (@put_audit_stored _ traced_clock traced_storage
      (audit_entry r action' code now1 now2) s1 repo1 wl2) as (repo' & row & H1 & H2 & H3 & H4 & H5 & H6 & H7);
      [|done|apply audit_entry_prints|].
    + intros [w2 l2]. rewrite traced_fault. specialize (Hdb w2). by destruct (db_fault w2).
    + exists code, repo', row. simpl in H2, H3. rewrite Haud, Hw in H2. rewrite Hw in H3. simpl in *.
      split_and!; try done; congruence.
Qed.

(** C20: Applying a dispatch publishes the candidate command of a fresh preview to a
    registered battery of the site, once, and only when the request is
    authorized, confirmed and within the tracking limit; in every other case
    nothing changes.  The answer is never that the device is unknown: a
    candidate device is always registered. *)
Theorem applyDispatch_spec {W} {CL : Clock W} {BR : Broker W} {ST : Storage W} {LO : Location}
    {MS : MathSin} {BD : DecodeErrors} r v site_id s (w : W) :
  State.wf (srv_store s) → range_of (st_devices (srv_store s)) (vs_devices v) →
  let siteID := site_of site_id s in
  let '(rsp, s', (_, published)) :=
    @applyDispatch _ traced_clock traced_broker traced_storage _ _ _ r v site_id s (w, []) in
  rsp_Code <$> rsp ≠ Some 404%Z ∧
  (rsp_Code <$> rsp ≠ Some 202%Z → s' = s ∧ published = []) ∧
  (rsp_Code <$> rsp = Some 202%Z →
    requireControl r s = true ∧
    ∃ req now preview d cand cmd payload,
      decode_apply (rq_Body r) = inr req ∧ ValidateConfig (req_Config req) = None ∧
      BuildPreview now (Summary siteID (vs_telemetry v) (srv_store s)) (Devices (vs_devices v))
        (req_Config req) = Some preview ∧
      dec_CanApply (DecideApply preview req) = true ∧ pv_CandidateCommand preview = Some cand ∧
      DeviceInSite siteID (pv_CandidateDeviceID preview) (srv_store s) = Some d ∧
      dev_Type d = DeviceBattery ∧
      cmd_Action cmd = "set_mode" ∧ cmd_Params cmd = cmd_Params cand ∧
      marshal_command cmd = Some payload ∧
      published = [(Topic.Command siteID DeviceBattery (pv_CandidateDeviceID preview), payload)]).
Proof.
  intros Hwf Hord siteID.
  assert (Hcand : ∀ now cfg preview cand,
    BuildPreview now (Summary siteID (vs_telemetry v) (srv_store s)) (Devices (vs_devices v)) cfg
      = Some preview → pv_CandidateCommand preview = Some cand →
    ∃ d, DeviceInSite siteID (pv_CandidateDeviceID preview) (srv_store s) = Some d ∧
      dev_Type d = DeviceBattery ∧ dev_ID d = pv_CandidateDeviceID preview ∧
      cmd_Action cand = "set_mode").
  { intros now cfg preview cand Hb Hc.
    destruct (preview_candidate _ _ _ _ _ _ Hb Hc) as ((d & Hin & Hsite & Htyp & Hid) & Ha & _).
    exists d. split; [|done]. unfold Devices in Hin.
    apply list_elem_of_fmap in Hin as ([k d'] & -> & Hin). apply (range_of_elem _ _ _ _ Hord) in Hin.
    simpl in *. rewrite <- Hid. change siteID with (sum_SiteID (Summary siteID (vs_telemetry v) (srv_store s))).
    rewrite <- Hsite. by eapply wf_DeviceInSite. }
  destruct (applyDispatch _ _ _ _ _) as [[rsp s'] [w' l]] eqn:E.
  apply applyDispatch_course in E as [_ [(-> & Hl & H202 & H404)|(Hc & sent & Hl & Happ)]].
  - simpl in Hl. split_and!; [|done|done]. intros H.
    destruct (H404 H) as (req & now & preview & Hb & Hcan & Hnone).
    destruct (CanApply_candidate _ _ Hcan) as [cand Hcand'].
    destruct (Hcand _ _ _ _ Hb Hcand') as (d & Hd & _). fold siteID in Hnone. congruence.
  - destruct Happ as (req & now & preview & d & cand & cmd & payload & decision & Happ).
    destruct Happ as (Hdec & Hv & Hb & -> & Hcan & Hdev & Hcd & Ha & Hpar & Hmar & -> & _ & ->).
    destruct (Hcand _ _ _ _ Hb Hcd) as (d' & Hd' & Htyp & Hid & Hact).
    fold siteID in Hdev. assert (d' = d) as -> by congruence. simpl. split_and!; [done|done|]. intros _. split; [done|].
    exists req, now, preview, d, cand, cmd, payload. simpl in Hl. fold siteID in Hl.
    rewrite Htyp, Hid in Hl. fold siteID in Hb. split_and!; try done; congruence.
Qed.

(** C21: Registering a device changes the live store and the repository together or
    neither: on success both hold the completed device under its site and name
    with the same attributes, and every other device is as before; otherwise
    nothing changes.  They may disagree on the creation time, which the
    repository keeps from the first registration and the store takes anew. *)
Theorem upsertDevice_spec {W} {CL : Clock W} {ST : Storage W} {BD : DecodeErrors} r s (w : W) :
  let '(rsp, s', _) := upsertDevice r s w in
  (rsp_Code <$> rsp ≠ Some 200%Z → s' = s) ∧
  (rsp_Code <$> rsp = Some 200%Z →
    requireControl r s = true ∧ ∃ d0 d live_d,
      decode_device (rq_Body r) = inr d0 ∧ d = complete_device (srv_siteID s) d0 ∧
      dev_ID d ≠ "" ∧ dev_Type d ≠ "" ∧ rsp = Some (MkResponse 200 (BDevice d)) ∧
      DeviceInSite (dev_SiteID d) (dev_ID d) (srv_store s') = Some live_d ∧
      same_attributes d live_d ∧
      st_devices (srv_store s') =
        <[stateKey (dev_SiteID d) (dev_ID d) := live_d]> (st_devices (srv_store s)) ∧
      match pf_repo (srv_platform s) with
      | None => pf_repo (srv_platform s') = None
      | Some repo => ∃ repo' row,
          pf_repo (srv_platform s') = Some repo' ∧ same_attributes d row ∧
          db_devices repo' = <[(dev_SiteID d, dev_ID d) := row]> (db_devices repo) ∧
          ∀ old, db_devices repo !! (dev_SiteID d, dev_ID d) = Some old →
            dev_CreatedAt row = dev_CreatedAt old
      end).
Proof.
  unfold upsertDevice. destruct (requireControl r s) eqn:Ec; simpl; [|done].
  destruct (decode_device _) as [e|d0] eqn:Ed; [done|]. case_decide as Hne; [done|].
  destruct (save_device _ _ _) as [[err p'] w1] eqn:Es. apply save_device_result in Es.
  destruct err as [err|]; [by rewrite Es, set_platform_id|].
  destruct (if IsZero _ then _ else _) as [now w2]. split; [done|]. intros _. split; [done|].
  set (d := complete_device (srv_siteID s) d0) in *. destruct Es as (Hst & _ & Hrepo).
  destruct (UpsertDevice_row now d (pf_store p')) as (live_d & Hl & Ha & _ & Hmap).
  exists d0, d, live_d. split; [done|]. split; [done|].
  split; [by intros ?; apply Hne; left|]. split; [by intros ?; apply Hne; right|].
  split; [done|]. split; [exact Hl|]. split; [exact Ha|].
  split; [unfold srv_store; rewrite <- Hst; exact Hmap|].
  destruct (pf_repo (srv_platform s)) as [repo|]; [|done].
  destruct Hrepo as [now' Hrepo]. destruct (Upsert_row now' d repo) as (row & Hrow & Hra & Hold).
  by exists (Upsert None now' d repo).2, row.
Qed.


(** ** The theorems at a concrete server *)

Definition ex_up_broker : Broker unit := Build_Broker unit (λ w, (true, w)) (λ _ _ w, (None, w)).

#[local] Instance ex_decoder : DecodeErrors := λ _, "invalid body".

Definition ex_command_body : string := print (TObj [
  ("action", TStr "set_mode"); ("params", TObj [("mode", TStr "charging")]); ("reason", TStr "manual")]).
Definition ex_apply_body : string := print (TObj [("confirm", TBool true); ("config", TObj [])]).

Definition ex_server : Server :=
  WithControlToken "secret"
    (New "site-a" (MkPlatform ex_store (Some migrate) ∅) (Scheduler.New "site-a" ex_policy)).

(** A command to the battery, with the given token. *)
Definition ex_request (token : string) : Request :=
  MkRequest "POST" ["api"; "v1"; "devices"; dev_ID ex_battery; "command"] true
    (λ h, if decide (h = "X-VPP-Control-Token") then token else "") ex_command_body "10.0.0.7:4711".

Definition ex_visits : Visits :=
  MkVisits (map_to_list (st_devices ex_store)) (map_to_list (st_telemetry ex_store)) [].

Definition ex_serve (token : string) : @result (unit * list (string * string)) :=
  @serve _ (@traced_clock unit ex_world_clock _) (@traced_broker unit ex_up_broker)
    (@traced_storage unit ex_world_storage _) UTC ex_sin ex_decoder
    (traced_check <$> []) (ex_request token) ex_visits ex_server (tt, []).

Lemma control_required_witness :
  rsp_Code <$> (ex_serve "guess").1.1 = Some 401%Z ∧ (ex_serve "guess").2.2 = [].
Proof.
  pose proof (@control_required unit ex_world_clock ex_up_broker ex_world_storage UTC ex_sin
    ex_decoder [] (ex_request "guess") ex_visits ex_server tt) as Hc.
  unfold ex_serve. destruct (serve _ _ _ _ _) as [[rsp s'] [w' l]].
  destruct Hc as (_ & Hl & Hcode); [by vm_compute|]. split; [|exact Hl].
  eapply Hcode; [done|by vm_compute|done].
Defined.

Lemma changes_are_audited_witness :
  ∃ repo' row, pf_repo (srv_platform (ex_serve "secret").1.2) = Some repo' ∧
    db_audit repo' = {[al_ID row := row]} ∧ al_Action row = "command.issue" ∧
    al_StatusCode row = 202%Z.
Proof.
  pose proof (@changes_are_audited unit ex_world_clock ex_up_broker ex_world_storage UTC ex_sin
    ex_decoder [] (ex_request "secret") ex_visits ex_server migrate tt) as Hc.
  assert (Hcode : rsp_Code <$> (ex_serve "secret").1.1 = Some 202%Z) by by vm_compute.
  assert (Hpub : (ex_serve "secret").2.2 ≠ []) by by vm_compute.
  unfold ex_serve in *. destruct (mux _ _ _ _ _) as [[rsp1 s1] [returned l1]].
  destruct (serve _ _ _ _ _) as [[rsp s'] [w' l]].
  destruct Hc as [[_ Hl]|(_ & code & repo' & row & Hc & _ & Hr & Ha & Hid & Hact & Hs & _)];
    [done|done|done|].
  exists repo', row. split; [exact Hr|]. split; [by rewrite Ha, Hid|].
  assert (Some code = Some 202%Z) as [= ->] by (by rewrite <- Hc, <- Hcode).
  split; [|exact Hs].
  assert (auditAction (ex_request "secret") = Some "command.issue") as E by by vm_compute.
  rewrite E in Hact. by injection Hact.
Defined.

(** Two such requests in one nanosecond: both publish, one row. *)
Example same_nanosecond :
  let '(rsp, s, (_, published)) := @serve _ (@traced_clock unit ex_world_clock _) (@traced_broker unit ex_up_broker)
    (@traced_storage unit ex_world_storage _) UTC ex_sin ex_decoder (traced_check <$> []) (ex_request "secret")
    ex_visits (ex_serve "secret").1.2 (tt, []) in
  rsp_Code <$> rsp = Some 202%Z ∧ length published = 1 ∧
  (λ repo, size (db_audit repo)) <$> pf_repo (srv_platform s) = Some 1.
Proof. by vm_compute. Qed.

Lemma applyDispatch_spec_witness :
  rsp_Code <$> (@applyDispatch _ (@traced_clock unit ex_world_clock _)
    (@traced_broker unit ex_up_broker) (@traced_storage unit ex_world_storage _) UTC ex_sin
    ex_decoder (ex_request "secret") ex_visits "site-a" ex_server (tt, [])).1.1 ≠ Some 404%Z.
Proof.
  pose proof (@applyDispatch_spec unit ex_world_clock ex_up_broker ex_world_storage UTC ex_sin
    ex_decoder (ex_request "secret") ex_visits "site-a" ex_server tt) as Ha.
  destruct (applyDispatch _ _ _ _ _) as [[rsp s'] [w' l]].
  apply Ha; [exact ex_store_wf|apply range_of_map_to_list].
Defined.
