(* ===== verification/Main.v ===== *)
(** * cmd/vpp-lab: putting the platform together

    [main] opens the live store and the repository, fills the store, connects the
    MQTT client and only then starts the scheduler and the HTTP server.  An error
    on the way ends the program.  The checks of [GET /healthz] are those of the
    broker, the database and the mirror of the store. *)
From Stdlib Require Import Floats.SpecFloat.
From S2P Require Import Prelude Float64 GoTime World GoStrings Model State Scheduler Topic Repository Platform.
From S2P Require Import DeviceAuth Config Mqtt Connect Redis Influx Http Api.

(** ** Opening the stores *)

(** [pgxpool.New]. *)
Class Pool (W : Type) := NewPool : string → W → option error * W.

Section Main.
Context {W : Type} `{Clock W} `{Broker W} `{Storage W} `{Redis W} `{Pool W} `{Certificates} `{Connector W}.

Definition newStateStore (cfg : Config) (w : W) : (error + MirroredStore) * W :=
  if decide (RedisAddr cfg = "") then (inr (MkMirroredStore NewStore None), w)
  else NewRedisStore (cfg_SiteID cfg) w.

(** The statements of [migrate] change nothing in a database that has the tables. *)
Definition NewDeviceRepository (dsn : string) (w : W) : option error * W :=
  let '(err, w) := NewPool dsn w in
  match err with Some err => (Some err, w) | None => db_fault w end.

(** ** Starting *)

Inductive StartFatal :=
| StateStoreFailed (err : error) | PostgresFailed (err : error) | DevicesFailed (err : error)
| CommandsFailed (err : error) | EventsFailed (err : error) | MqttFailed (err : ConnectError).

(** What runs: the server with the platform and the scheduler in it, the key of the
    mirror, the keys of the devices, and the interval of the scheduler. *)
Record Running := MkRunning {
  rn_server : Server;
  rn_redisKey : option string;
  rn_keys : Keys;
  rn_writer : Writer;
  rn_interval : Z
}.

(** The orders in which the tables are read. *)
Record Scans := MkScans {
  sc_devices : list ((string * string) * Device);
  sc_commands : list (string * CommandRow);
  sc_events : list (string * DeviceEvent)
}.

(** The three loads of the live store. *)
Definition load_store (collate : string → string → bool) (scans : Scans) (siteID : string)
    (db : DeviceRepository) (store : Store) (w : W) : option StartFatal * DeviceRepository * Store * W :=
  let '(err, db, store, w) := loadOrSeedDevices collate (sc_devices scans) siteID db store w in
  match err with
  | Some err => (Some (DevicesFailed err), db, store, w)
  | None =>
      let '(err, store, w) := loadRecentCommands (sc_commands scans) store w in
      match err with
      | Some err => (Some (CommandsFailed err), db, store, w)
      | None =>
          let '(err, store, w) := loadRecentEvents (sc_events scans) store w in
          (EventsFailed <$> err, db, store, w)
      end
  end.

Definition running (cfg : Config) (db : DeviceRepository) (store : Store) (key : option string) (keys : Keys) :
    Running :=
  MkRunning
    (WithControlToken (ControlToken cfg)
       (Api.New (cfg_SiteID cfg) (MkPlatform store (Some db) ∅) (Scheduler.New (cfg_SiteID cfg) (initial_policy cfg))))
    key keys (NewWriter (InfluxURL cfg) (InfluxToken cfg) (InfluxOrg cfg) (InfluxBucket cfg))
    (SchedulerInterval cfg).

(** What runs handles a message with its keys, and keeps readings with its mirror and its writer. *)
Definition on_message `{Influx W} (visit : W → gmap string float64 → list (string * float64)) (cfg : Config)
    (r : Running) (ord : list (string * Device)) (topic payload : string) (p : Mqtt.Platform) (w : W) :
    Mqtt.Platform * W :=
  @handleMessage W _ _ (platform_sinks (rn_redisKey r) (rn_writer r) visit)
    (device_verifier (rn_keys r) (DeviceAuthMaxSkew cfg)) json_decoder ord topic payload p w.

(** [main] up to where it waits for its end; [db] is what the database holds. *)
Definition start (collate : string → string → bool) (scans : Scans) (cfg : Config) (db : DeviceRepository) (w : W) :
    (StartFatal + Running) * DeviceRepository * W :=
  let '(opened, w) := newStateStore cfg w in
  match opened with
  | inl err => (inl (StateStoreFailed err), db, w)
  | inr ms =>
      let '(err, w) := NewDeviceRepository (PostgresDSN cfg) w in
      match err with
      | Some err => (inl (PostgresFailed err), db, w)
      | None =>
          let '(fatal, db, store, w) := load_store collate scans (cfg_SiteID cfg) db (ms_store ms) w in
          match fatal with
          | Some fatal => (inl fatal, db, w)
          | None =>
              let '(connected, w) := Connect cfg w in
              match connected with
              | inl err => (inl (MqttFailed err), db, w)
              | inr keys => (inr (running cfg db store (ms_redisKey ms) keys), db, w)
              end
          end
      end
  end.

(** ** Health *)

(** [ms]: of the store only the key of its mirror matters; the client is there. *)
Definition healthChecks (ms : MirroredStore) : list (@HealthCheck W) :=
  [MkHealthCheck "mqtt" (Some (Healthy true));
   MkHealthCheck "postgres" (Some db_fault);
   MkHealthCheck "state" (Some (Redis.Ping ms))].
End Main.

(** ** Lemmas *)

Lemma same_device_attributes d d' : same_device d d' → same_attributes d d'.
Proof. intros (? & ? & ? & ? & ? & ? & ? & _). by split_and!. Qed.

(** The tables other than the devices, which starting only reads. *)
Definition other_tables (db : DeviceRepository) := (db_commands db, db_events db, db_audit db).
(** What loading the devices leaves as it is. *)
Definition other_state (s : Store) := (st_telemetry s, st_commands s, st_events s).

Section Loading.
Context {W : Type} `{Clock W} `{Storage W}.

Lemma upsert_all_spec devices db (w : W) err db' w' :
  upsert_all devices db w = (err, db', w') →
  other_tables db' = other_tables db ∧
  (∀ key row, db_devices db' !! key = Some row → db_devices db !! key = Some row ∨
     ∃ d, d ∈ devices ∧ same_attributes d row) ∧
  (err = None → devices ≠ [] → db_devices db' ≠ ∅).
Proof.
  revert db w. induction devices as [|d devices IH]; intros db w; cbn [upsert_all]; [intros [= <- <- <-]; auto|].
  destruct (if IsZero _ then _ else _) as [now w1]. destruct (db_fault w1) as [fault w2].
  destruct (Upsert fault now d db) as [err1 db1] eqn:Eu.
  destruct fault as [e|]; [injection Eu as <- <-; intros [= <- <- <-]; split_and!; [done|auto|done]|].
  destruct (Upsert_row now d db) as (row & Hrow & Hsame & _). rewrite Eu in Hrow. cbn [snd] in Hrow.
  assert (Ho : other_tables db1 = other_tables db) by by injection Eu as _ <-.
  assert (err1 = None) as -> by by injection Eu as <- _.
  intros Hu. destruct (IH _ _ Hu) as (Ho' & Hrows & Hne). split; [congruence|]. split.
  - intros key r Hr. destruct (Hrows key r Hr) as [Hr'|(x & Hx & ?)]; [|right; exists x; split; [by right|done]].
    rewrite Hrow in Hr'. apply lookup_insert_Some in Hr' as [[_ <-]|[_ ?]]; [right|by left]. exists d. by split; [left|].
  - intros -> _. destruct devices as [|x devices]; [|by apply Hne].
    injection Hu as <- _. rewrite Hrow. apply insert_non_empty.
Qed.

Lemma store_all_other devices store (w : W) : other_state (store_all devices store w).1 = other_state store.
Proof. unfold other_state. destruct (store_all_rest devices store w) as (-> & -> & ->). done. Qed.

Lemma seed_keys siteID : NoDup (dev_key <$> seed_devices siteID).
Proof.
  assert (Hinj : ∀ a b : string, stateKey siteID a = stateKey siteID b → a = b).
  { intros a b. unfold stateKey. intros Hab. induction siteID; [by injection Hab|]. injection Hab. auto. }
  unfold seed_devices, dev_key. cbn [fmap list_fmap dev_SiteID dev_ID].
  repeat (apply NoDup_cons; split; [rewrite ?not_elem_of_cons; split_and?; try apply not_elem_of_nil; by intros ?%Hinj|]).
  constructor.
Qed.

(** What the devices of the table and of the store have in common after a start. *)
Definition inventory (db : DeviceRepository) (s : Store) : Prop :=
  db_devices db ≠ ∅ ∧ ∀ key d, db_devices db !! key = Some d →
    ∃ d', DeviceInSite (dev_SiteID d) (dev_ID d) s = Some d' ∧ same_attributes d d'.

Lemma load_devices_spec collate scan siteID db store (w : W) err db' store' w' :
  wf_devices_table (db_devices db) → scan ≡ₚ map_to_list (db_devices db) →
  loadOrSeedDevices collate scan siteID db store w = (err, db', store', w') →
  (db_devices db ≠ ∅ → db' = db) ∧ other_tables db' = other_tables db ∧ other_state store' = other_state store ∧
  (err = None → inventory db' store').
Proof.
  intros Hwf Hscan Hl. destruct (decide (db_devices db = ∅)) as [He|Hne].
  - rewrite He, map_to_list_empty in Hscan. apply Permutation_nil_r in Hscan as ->.
    unfold loadOrSeedDevices in Hl. destruct (db_fault w) as [[e|] w1]; cbn [List_] in Hl.
    { injection Hl as <- <- <- <-. split_and!; try done. }
    cbn [fmap list_fmap] in Hl. change (sort_slice (device_row_less collate) []) with (@nil Device) in Hl.
    rewrite decide_True in Hl by done.
    destruct (upsert_all (seed_devices siteID) db w1) as [[e db1] w2] eqn:Eu.
    destruct (upsert_all_spec _ _ _ _ _ _ Eu) as (Ho & Hrows & Hnon).
    destruct e as [e|]; [injection Hl as <- <- <- <-; by split_and!|].
    pose proof (store_all_other (seed_devices siteID) store w2) as Hs.
    pose proof (λ d, store_all_lookup (seed_devices siteID) store w2 d (seed_keys siteID)) as Hin.
    destruct (store_all _ _ w2) as [store1 w3]. injection Hl as <- <- <- <-. split_and!; [done..|].
    intros _. split; [by apply Hnon|]. intros key row Hrow.
    destruct (Hrows key row Hrow) as [Hold|(x & Hx & Hxr)]; [by rewrite He, lookup_empty in Hold|].
    destruct (Hin x Hx) as (d' & Hd' & Hsame%same_device_attributes). cbn [fst] in Hd'. exists d'.
    split; [|by etrans; [symmetry|]]. unfold DeviceInSite, dev_key in *.
    destruct Hxr as (-> & -> & _). exact Hd'.
  - assert (Hsc : scan ≠ []).
    { intros ->. apply Permutation_nil_l in Hscan. symmetry in Hscan. by apply map_to_list_empty_iff in Hscan. }
    pose proof (startup_inventory collate scan siteID db store w Hwf Hscan Hsc) as Hi. rewrite Hl in Hi.
    destruct Hi as [-> Hi]. split_and!; [done|done| |].
    + unfold loadOrSeedDevices in Hl. destruct (db_fault w) as [[e|] w1]; cbn [List_] in Hl; [by injection Hl as _ <- _|].
      rewrite decide_False in Hl.
      * pose proof (store_all_other (sort_slice (device_row_less collate) scan.*2) store w1) as Hs.
        destruct (store_all _ _ w1) as [store1 w3]. by injection Hl as _ <- _.
      * intros E. pose proof (sort_slice_perm (device_row_less collate) scan.*2) as Hp. rewrite E in Hp.
        apply Permutation_nil_l in Hp. symmetry in Hp. by apply fmap_nil_inv in Hp.
    + intros ->. split; [done|]. intros key d Hd. destruct (Hi key d Hd) as (d' & ? & ?%same_device_attributes).
      by exists d'.
Qed.
End Loading.

Section Started.
Context {W : Type} {CL : Clock W} {ST : Storage W}.

Lemma load_store_spec collate scans siteID db store (w : W) fatal db' store' w' :
  wf_devices_table (db_devices db) → sc_devices scans ≡ₚ map_to_list (db_devices db) →
  load_store collate scans siteID db store w = (fatal, db', store', w') →
  (db_devices db ≠ ∅ → db' = db) ∧ other_tables db' = other_tables db ∧
  (fatal = None → inventory db' store' ∧ st_telemetry store' = st_telemetry store ∧
     st_commands store' = take history (ListCommands None 200 (sc_commands scans)).1 ∧
     st_events store' = take history (ListEvents None 200 (sc_events scans)).1).
Proof.
  intros Hwf Hscan. unfold load_store.
  destruct (loadOrSeedDevices _ _ _ _ _ w) as [[[err db1] store1] w1] eqn:El.
  destruct (load_devices_spec _ _ _ _ _ _ _ _ _ _ Hwf Hscan El) as (Hdb & Ho & Hs & Hi).
  destruct err as [err|]; [by intros [= <- <- <- <-]|]. specialize (Hi eq_refl).
  unfold loadRecentCommands. destruct (db_fault w1) as [[e|] w2]; cbn [ListCommands]; [by intros [= <- <- <- <-]|].
  unfold loadRecentEvents. destruct (db_fault w2) as [[e|] w3]; cbn [ListEvents]; [by intros [= <- <- <- <-]|].
  intros [= <- <- <- <-]. split_and!; [done..|]. intros _. destruct Hi as [Hne Hin].
  split_and!; [by split|by injection Hs|done|done].
Qed.

Context {BR : Broker W} {RE : Redis W}.

(** The checks, in their order. *)
Lemma run_health ms (w : W) :
  let '(connected, w1) := IsConnected w in
  let '(fault, w2) := db_fault w1 in
  let '(ping, w3) := Redis.Ping ms w2 in
  run_checks (healthChecks ms) true ∅ w =
    (bool_decide (connected = true ∧ fault = None ∧ ping = None),
     <["state" := default "ok" ping]> (<["postgres" := default "ok" fault]>
       (<["mqtt" := if connected then "ok" else "mqtt disconnected"]> ∅)), w3).
Proof.
  unfold healthChecks. cbn [run_checks hc_Check hc_Name]. unfold Healthy. cbn [negb].
  destruct (IsConnected w) as [[] w1]; rewrite decide_False by done; cbn [run_checks hc_Check hc_Name];
    rewrite decide_False by done; destruct (db_fault w1) as [[fault|] w2]; cbn [run_checks hc_Check hc_Name];
    rewrite decide_False by done; destruct (Redis.Ping ms w2) as [[ping|] w3]; cbn [run_checks default];
    repeat f_equal; symmetry; first [by apply bool_decide_eq_true_2|apply bool_decide_eq_false_2; naive_solver].
Qed.
End Started.

(** ** Properties *)

(** C38: The platform serves nothing before its state is complete.  A start that succeeds has every
    device of the table in the live store, seeding the table when it is empty; the latest
    readings of the mirror, and the most recent commands and events of the database; the
    keys, the policy and the token of its settings.  Whatever happens, a start writes to no other table,
    and to no inventory that is not empty: a second start finds what the first one left. *)
Theorem start_spec {W} {CL : Clock W} {ST : Storage W} {RE : Redis W} {PO : Pool W} {CE : Certificates}
    {CO : Connector W} collate scans cfg db (w : W) :
  wf_devices_table (db_devices db) → sc_devices scans ≡ₚ map_to_list (db_devices db) →
  let '(result, db', _) := start collate scans cfg db w in
  (db_devices db ≠ ∅ → db' = db) ∧ other_tables db' = other_tables db ∧
  match result with
  | inl _ => True
  | inr r =>
      let server := rn_server r in
      inventory db' (srv_store server) ∧ pf_repo (srv_platform server) = Some db' ∧
      (∃ ms w1, newStateStore cfg w = (inr ms, w1) ∧ rn_redisKey r = ms_redisKey ms ∧
         st_telemetry (srv_store server) = st_telemetry (ms_store ms)) ∧
      st_commands (srv_store server) = take history (ListCommands None 200 (sc_commands scans)).1 ∧
      st_events (srv_store server) = take history (ListEvents None 200 (sc_events scans)).1 ∧
      ParseKeys (DeviceKeys cfg) = inr (rn_keys r) ∧
      Policy_ (srv_scheduler server) = initial_policy cfg ∧ srv_token server = TrimSpace (ControlToken cfg)
  end.
Proof.
  intros Hwf Hscan. unfold start. destruct (newStateStore cfg w) as [[err|ms] w1] eqn:Es; [done|].
  destruct (NewDeviceRepository _ w1) as [[err|] w2]; [done|].
  destruct (load_store _ _ _ _ _ w2) as [[[fatal db1] store] w3] eqn:El.
  destruct (load_store_spec _ _ _ _ _ _ _ _ _ _ Hwf Hscan El) as (Hdb & Ho & Hl).
  destruct fatal as [fatal|]; [done|]. destruct (Hl eq_refl) as (Hi & Ht & Hc & He).
  unfold Connect. destruct (ParseKeys _) as [|keys] eqn:Ek; [done|].
  destruct (NewTLSConfig _) as [|tlsConfig]; [done|].
  destruct (connect _ w3) as [[err|] w4]; [done|]. split_and!; try done. by exists ms, w1.
Qed.

(** [GET /healthz] tells the truth: it answers 200 exactly when the broker is connected, the
    database answers and, when there is a mirror, Redis answers; otherwise 503, with each
    check's own result by its name.  It changes nothing. *)
Lemma health_spec {W} {CL : Clock W} {ST : Storage W} {BR : Broker W} {RE : Redis W} ms s (w : W) :
  let '(connected, w1) := IsConnected w in
  let '(fault, w2) := db_fault w1 in
  let '(ping, w3) := Redis.Ping ms w2 in
  let well := bool_decide (connected = true ∧ fault = None ∧ ping = None) in
  health (healthChecks ms) s w =
    (Some (MkResponse (if well then 200 else 503) (BHealth (if well then "ok" else "degraded")
       {["mqtt" := if connected then "ok" else "mqtt disconnected";
         "postgres" := default "ok" fault; "state" := default "ok" ping]})), s, w3).
Proof.
  pose proof (run_health ms w) as Hr. unfold health.
  destruct (IsConnected w) as [connected w1]. destruct (db_fault w1) as [fault w2].
  destruct (Redis.Ping ms w2) as [ping w3]. cbv zeta. rewrite Hr.
  assert (Hm : <["state" := default "ok" ping]> (<["postgres" := default "ok" fault]>
      (<["mqtt" := if connected then "ok" else "mqtt disconnected"]> (∅ : gmap string string))) =
    {["mqtt" := if connected then "ok" else "mqtt disconnected";
      "postgres" := default "ok" fault; "state" := default "ok" ping]}).
  { apply map_eq. intros k. rewrite !lookup_insert, lookup_singleton, lookup_empty. by repeat case_decide; simplify_eq. }
  rewrite Hm. by destruct (bool_decide _).
Qed.

(** ** The theorem at a concrete start *)

#[local] Instance ex_pool : Pool unit := λ _ w, (None, w).
#[local] Instance ex_start_certificates : Certificates := {|
  CertPool := unit; Certificate := unit;
  ReadFile _ := inl "no such file"; AppendCertsFromPEM _ := None; LoadX509KeyPair _ _ := inl "no such file"
|}.
#[local] Instance ex_start_connector : Connector unit := λ _ w, (None, w).
Definition ex_no_redis : Redis unit := {|
  redis_Ping w := (None, w); HGetAll _ w := (inr [], w); HSet _ _ _ w := (None, w); redis_Close w := (None, w)
|}.

(** A first start: the four devices of the seed. *)
Lemma start_spec_witness :
  let '(result, db', _) := @start unit ex_world_clock ex_world_storage ex_no_redis ex_pool ex_start_certificates
    ex_start_connector String.ltb (MkScans [] [] []) (Load_ (λ _, "")) migrate tt in
  size (db_devices db') = 4 ∧
  match result with inl _ => False | inr r => inventory db' (srv_store (rn_server r)) end.
Proof.
  pose proof (@start_spec unit ex_world_clock ex_world_storage ex_no_redis ex_pool ex_start_certificates
    ex_start_connector String.ltb (MkScans [] [] []) (Load_ (λ _, "")) migrate tt) as Hs.
  assert (Hsize : size (db_devices (@start unit ex_world_clock ex_world_storage ex_no_redis ex_pool ex_start_certificates
    ex_start_connector String.ltb (MkScans [] [] []) (Load_ (λ _, "")) migrate tt).1.2) = 4) by by vm_compute.
  assert (Hok : match (@start unit ex_world_clock ex_world_storage ex_no_redis ex_pool ex_start_certificates
    ex_start_connector String.ltb (MkScans [] [] []) (Load_ (λ _, "")) migrate tt).1.1 with inl _ => false | inr _ => true end
      = true) by by vm_compute.
  destruct (start _ _ _ _ _) as [[[fatal|r] db'] w]; [done|]. split; [exact Hsize|].
  destruct Hs as (_ & _ & Hi & _); [|done|exact Hi].
  intros k d Hk. change (db_devices migrate) with (∅ : gmap (string * string) Device) in Hk. by apply lookup_empty_Some in Hk.
Defined.
