(* ===== verification/System.v ===== *)
(** * The running platform

    The three activities that share the state of the platform: the client handles a
    message, the scheduler ticks, the server answers a request.  A step relation
    interleaves them from the state a start leaves, and an invariant holds in all
    that is reached: the live store is well formed, and live store and database have the same devices.
    It depends on a request running alone ([registrations_race]). *)
From Stdlib Require Import Floats.SpecFloat.
From S2P Require Import Prelude Float64 GoTime World GoStrings Model State Scheduler Topic Repository Platform.
From S2P Require Import Optimizer Dispatch Json JsonText Messages DeviceAuth Config Mqtt Connect Redis Http Bodies Api Main ControlLoop.

(** ** The steps *)

(** The sites of the devices a request may register: PostgreSQL stores no NUL byte. *)
Definition storable `{DecodeErrors} (r : Request) (s : Server) : Prop :=
  ∀ d, decode_device (rq_Body r) = inr d → has_byte nul (dev_SiteID (complete_device (srv_siteID s) d)) = false.

Section Steps.
Context {W : Type} {CL : Clock W} {BR : Broker W} {ST : Storage W} {SI : Sinks W} {VE : Verifier} {DE : Decoder}.
Context {LO : Location} {MS : MathSin} {BD : DecodeErrors} (checks : list (@HealthCheck W)).

(** A tick may have read anything; the world moves on by itself. *)
Inductive sys_step : Server * W → Server * W → Prop :=
| step_message ord topic payload s w p' w' :
    range_of (st_devices (srv_store s)) ord → handleMessage ord topic payload (srv_platform s) w = (p', w') →
    sys_step (s, w) (set_platform p' s, w')
| step_tick summary devices tele s w sch' p' w' :
    tick summary devices tele (srv_scheduler s) (srv_platform s, w) = (sch', (p', w')) →
    sys_step (s, w) (set_scheduler sch' (set_platform p' s), w')
| step_request r v s w rsp s' w' :
    storable r s → serve checks r v s w = (rsp, s', w') → sys_step (s, w) (s', w')
| step_world s w w' : sys_step (s, w) (s, w').
End Steps.

(** ** The invariant *)

(** Live store and database have the same devices under every site without a NUL byte. *)
Definition agree (r : DeviceRepository) (s : Store) : Prop :=
  ∀ site id, has_byte nul site = false →
    match db_devices r !! (site, id), DeviceInSite site id s with
    | Some d, Some d' => same_attributes d d'
    | None, None => True
    | _, _ => False
    end.

Record consistent (p : Mqtt.Platform) : Prop := {
  cs_store : State.wf (pf_store p);
  cs_repo : ∃ r, pf_repo p = Some r ∧ wf_devices_table (db_devices r) ∧ agree r (pf_store p)
}.

(** What leaves the devices alone. *)
Record keeps (p p' : Mqtt.Platform) : Prop := {
  kp_store : st_devices (pf_store p') = st_devices (pf_store p);
  kp_repo : db_devices <$> pf_repo p' = db_devices <$> pf_repo p;
  kp_wf : State.wf (pf_store p) → State.wf (pf_store p')
}.

#[export] Instance keeps_preorder : PreOrder keeps.
Proof.
  split; [done|]. intros p1 p2 p3 [? ? ?] [? ? ?]. split; [congruence..|auto].
Qed.

Lemma keeps_consistent p p' : keeps p p' → consistent p → consistent p'.
Proof.
  intros [Hs Hr Hw] [Hwf (r & Hp & Ht & Ha)]. split; [auto|]. rewrite Hp in Hr.
  destruct (pf_repo p') as [r'|]; [|done]. injection Hr as Hr. exists r'. rewrite Hr. split_and!; [done..|].
  intros site id Hn. specialize (Ha site id Hn). unfold DeviceInSite in *. by rewrite Hr, Hs.
Qed.

(** *** Messages *)

Section Keeping.
Context {W : Type} {CL : Clock W} {BR : Broker W} {ST : Storage W}.

Lemma rows_keep parsed r r' : rows_effect parsed r r' → db_devices r' = db_devices r.
Proof. by destruct 1. Qed.

Lemma dispatch_wf {SI : Sinks W} {DE : Decoder} ord parsed payload p (w : W) :
  range_of (st_devices (pf_store p)) ord → State.wf (pf_store p) →
  State.wf (pf_store (dispatch_message ord parsed payload p w).1).
Proof.
  intros Hord Hwf. unfold dispatch_message. repeat case_decide; try done.
  - destruct (decode_telemetry payload) as [|tele]; [done|]. unfold handle_telemetry.
    destruct (if (_ =? _)%Z then _ else _) as [ts w1]. eapply step_wf; [by apply step_PutTelemetry|done].
  - destruct (decode_ack payload) as [|ack]; [done|]. unfold handle_ack. destruct (Now w) as [now w1].
    assert (Ha : State.wf (State.PutCommandAck now (p_DeviceID parsed) ack (pf_store p)))
      by (eapply step_wf; [apply step_PutCommandAck|done]).
    destruct (pf_repo _); [|exact Ha]. destruct (db_fault w1) as [fault w2]. destruct (Now w2). exact Ha.
  - destruct (decode_event payload) as [|event]; [done|]. unfold handle_event.
    destruct (if (_ =? _)%Z then _ else _) as [ts w1]. destruct (if IsZero _ then _ else _) as [created w2].
    cbv zeta. set (e := set_event _ _ _ _ _).
    assert (Ha : State.wf (State.PutEvent e (pf_store p))) by (eapply step_wf; [apply step_PutEvent|done]).
    destruct (pf_repo _); [|exact Ha]. destruct (db_fault w2) as [fault w3]. destruct (Now w3). exact Ha.
Qed.

Lemma message_keeps {SI : Sinks W} {VE : Verifier} {DE : Decoder} ord topic payload p (w : W) :
  range_of (st_devices (pf_store p)) ord → keeps p (handleMessage ord topic payload p w).1.
Proof.
  intros Hord. destruct (Topic.Parse topic) as [parsed|] eqn:Hp.
  2: { unfold handleMessage. by rewrite Hp. }
  destruct (handleMessage_own ord topic payload p w parsed Hp) as [Hd _ _ _ _ _].
  pose proof (handleMessage_rows ord topic payload p w parsed Hp) as Hr. split; [done| |].
  - unfold repo_effect in Hr. destruct (pf_repo p) as [r|]; [|by rewrite Hr].
    destruct Hr as (r' & -> & Hr%rows_keep). cbn. by rewrite Hr.
  - intros Hwf. unfold handleMessage. rewrite Hp. destruct (requiresDeviceAuth _); [|by apply dispatch_wf].
    destruct (Now w) as [now w1]. destruct (verify _ _ _ _); [done|by apply dispatch_wf].
Qed.

(** *** Commands *)

Lemma PublishCommand_keeps site d cmd p (w : W) : keeps p (Mqtt.PublishCommand site d cmd p w).1.2.
Proof.
  unfold Mqtt.PublishCommand. destruct (marshal_command cmd) as [payload|]; [|done].
  destruct (Publish _ payload w) as [[err|] w1]; [done|]. unfold record_issued. destruct (Now w1) as [now w2].
  assert (Hk : keeps p (set_store (State.PutCommandIssued now site d cmd) p)).
  { split; [done..|]. intros Hwf. eapply step_wf; [apply step_PutCommandIssued|done]. }
  destruct (pf_repo _) as [r|] eqn:Er; [|exact Hk]. destruct (db_fault w2) as [fault w3]. destruct (Now w3) as [now' w4].
  etrans; [exact Hk|]. split; [done| |done]. cbn [fst snd record_with pf_repo]. rewrite Er. cbn. f_equal.
  unfold Repository.PutCommandIssued. by repeat case_match.
Qed.

Lemma tick_keeps summary devices tele s p (w : W) :
  keeps p (tick summary devices tele s (p, w)).2.1.
Proof.
  apply (tick_invariant (λ x : Mqtt.Platform * W, keeps p x.1)); [| |done].
  - intros [p' w'] Hk. change (Now (p', w')) with (let '(t, w) := Now w' in (t, (p', w))). by destruct (Now w').
  - intros site d cmd [p' w'] Hk. unfold Scheduler.PublishCommand, mqtt_commander.
    pose proof (PublishCommand_keeps site d cmd p' w') as Hk'.
    destruct (Mqtt.PublishCommand _ _ _ _ _) as [[err p2] w2]. cbn [fst snd] in *. by etrans.
Qed.

(** *** Requests *)

Context {LO : Location} {MS : MathSin} {BD : DecodeErrors} (checks : list (@HealthCheck W)).

Lemma query_same r v route values s (w : W) :
  control_route route = false → (handle checks r v route values s w).1.2 = s.
Proof.
  destruct route; try done; intros _; unfold handle, health, metrics, recentAuditLogs, listDevices, summary, deviceStates,
    plan, customPlan, write_plan, dispatchPreview, customDispatchPreview, write_preview, commands, events, auditLogs,
    getPolicy, panic, writeError, writeJSON; by repeat case_match; simplify_eq.
Qed.

Lemma postCommand_keeps r site id s (w : W) : keeps (srv_platform s) (srv_platform (command r site id s w).1.2).
Proof.
  unfold command. destruct (negb _); [done|]. destruct (DeviceInSite _ _ _) as [d|]; [|done].
  destruct (decode_command _) as [|cmd]; [done|]. case_decide; [done|].
  destruct (stamp_command _ _ _ _) as [cmd' w1].
  pose proof (PublishCommand_keeps (site_of site s) d cmd' (srv_platform s) w1) as Hk.
  by destruct (Mqtt.PublishCommand _ _ _ _ _) as [[[err|] p'] w2].
Qed.

Lemma applyDispatch_keeps r v site s (w : W) : keeps (srv_platform s) (srv_platform (applyDispatch r v site s w).1.2).
Proof.
  unfold applyDispatch. destruct (negb _); [done|]. destruct (decode_apply _) as [|req]; [done|].
  destruct (ValidateConfig _); [done|]. destruct (fltb _ _); [done|]. destruct (Now w) as [now w1].
  destruct (BuildPreview _ _ _ _) as [preview|]; [|done]. cbv zeta. destruct (negb _); [done|].
  destruct (DeviceInSite _ _ _) as [d|]; [|done]. destruct (pv_CandidateCommand preview) as [cand|]; [|done].
  destruct (stamp_command _ _ _ _) as [cmd' w2].
  pose proof (PublishCommand_keeps (site_of site s) d cmd' (srv_platform s) w2) as Hk.
  by destruct (Mqtt.PublishCommand _ _ _ _ _) as [[[err|] p'] w3].
Qed.

Lemma setPolicy_keeps r s (w : W) : srv_platform (setPolicy r s w).1.2 = srv_platform s.
Proof. unfold setPolicy. by repeat case_match. Qed.

Lemma audit_keeps entry s (w : W) : keeps (srv_platform s) (srv_platform (put_audit entry s w).1).
Proof.
  unfold put_audit. destruct (if IsZero _ then _ else _) as [now w1]. destruct (db_fault w1) as [fault w2].
  split; [done| |done]. cbn. destruct (pf_repo _); [|done]. cbn. f_equal. unfold PutAuditLog. by repeat case_match.
Qed.

(** A registration inserts the device on both sides. *)
Lemma register_consistent site id d d' p r :
  consistent p → pf_repo p = Some r → has_byte nul site = false → dev_SiteID d = site → dev_ID d = id →
  same_attributes d d' → ∀ p' r',
  st_devices (pf_store p') = <[stateKey site id := d']> (st_devices (pf_store p)) → State.wf (pf_store p') →
  pf_repo p' = Some r' → db_devices r' = <[(site, id) := d]> (db_devices r) → consistent p'.
Proof.
  intros [_ (r0 & Hr0 & Ht & Ha)] Hr Hn Hsite Hid Hsame p' r' Hs' Hwf' Hr' Hd'. assert (r0 = r) as -> by congruence.
  split; [done|]. exists r'. split; [done|]. split.
  - intros k x. rewrite Hd'. intros [[<- <-]|[_ Hx]]%lookup_insert_Some; [by subst|by apply Ht].
  - intros site2 id2 Hn2. specialize (Ha site2 id2 Hn2). unfold DeviceInSite in *. rewrite Hs', Hd'.
    destruct (decide ((site2, id2) = (site, id))) as [[= -> ->]|Hne]; [by rewrite !lookup_insert_eq|].
    rewrite !lookup_insert_ne; [done| |done].
    intros [-> ->]%stateKey_inj; done.
Qed.

Lemma upsert_consistent r s (w : W) :
  storable r s → consistent (srv_platform s) → consistent (srv_platform (upsertDevice r s w).1.2).
Proof.
  intros Hst Hc. unfold upsertDevice. destruct (negb _); [done|].
  destruct (decode_device _) as [|d0] eqn:Ed; [done|]. specialize (Hst d0 Ed). case_decide; [done|].
  set (d := complete_device (srv_siteID s) d0) in *.
  destruct (save_device d (srv_platform s) w) as [[err p'] w1] eqn:Es. apply save_device_result in Es.
  destruct err as [err|]; [by rewrite Es|]. destruct Es as (Hstore & _ & Hrepo).
  destruct (if IsZero _ then _ else _) as [now w2]. cbn [writeJSON fst snd set_platform srv_platform].
  pose proof Hc as [Hwf (repo & Hr & _)]. rewrite Hr in Hrepo. destruct Hrepo as [now' Hrepo].
  destruct (Upsert_row now' d repo) as (row & Hrow & Hsame & _).
  destruct (UpsertDevice_row now d (pf_store p')) as (live_d & _ & Hlive & _ & Hmap).
  pose proof Hsame as (Hid & Hsite & _).
  eapply (register_consistent _ _ row live_d _ repo Hc Hr); [exact Hst|done|done| | | |exact Hrepo|exact Hrow].
  - by etrans; [symmetry|].
  - cbn [set_store pf_store]. rewrite Hmap. by rewrite Hstore.
  - cbn [set_store pf_store]. rewrite Hstore. eapply step_wf; [apply step_UpsertDevice|done].
Qed.

Lemma serve_consistent r v s (w : W) :
  storable r s → consistent (srv_platform s) → consistent (srv_platform (serve checks r v s w).1.2).
Proof.
  intros Hst Hc.
  assert (Hm : consistent (srv_platform (mux checks r v s w).1.2)).
  { unfold mux. destruct (negb _); [done|]. destruct (lookup_route r) as [[route values]|]; [|done].
    destruct (control_route route) eqn:Er; [|by rewrite query_same].
    destruct route; try done; unfold handle.
    - by apply upsert_consistent.
    - eapply keeps_consistent; [apply applyDispatch_keeps|done].
    - by rewrite setPolicy_keeps.
    - eapply keeps_consistent; [apply postCommand_keeps|done]. }
  unfold serve, withAudit. destruct (pf_repo (srv_platform s)); [|exact Hm]. destruct (auditAction r) as [action|]; [|exact Hm].
  destruct (mux checks r v s w) as [[rsp s1] w1]. cbn [fst snd] in Hm. destruct rsp as [rsp|]; [|exact Hm].
  destruct (Now w1) as [now1 w2]. destruct (Now w2) as [now2 w3].
  pose proof (audit_keeps (audit_entry r action (rsp_Code rsp) now1 now2) s1 w3) as Hk.
  destruct (put_audit _ _ _) as [s2 w4]. cbn [fst snd] in *. by eapply keeps_consistent.
Qed.

End Keeping.

(** *** The policy *)

Section Policies.
Context {W : Type} {C : Clock W} {K : Commander W}.

Lemma publish_policy d action reason params s (w : W) :
  sch_policy (publish d action reason params s w).1.2 = sch_policy s.
Proof.
  assert (Hd : ∀ key now w, sch_policy (deliver key now d action reason params s w).1.2 = sch_policy s).
  { intros key now w0. unfold deliver. destruct (Scheduler.PublishCommand _ _ _ _) as [[err|] w1]; [|done].
    by destruct (Equal _ _). }
  unfold publish. destruct (Now w) as [now w1]. destruct (sch_lastSent s !! _); [|apply Hd].
  destruct (Now w1) as [now2 w2]. destruct (_ <? _)%Z; [done|apply Hd].
Qed.

Lemma tick_policy summary devices tele s (w : W) : sch_policy (tick summary devices tele s w).1 = sch_policy s.
Proof.
  apply (tick_preserves (λ s' _, sch_policy s' = sch_policy s)); [|done]. intros d action reason params s' w' <-.
  pose proof (publish_policy d action reason params s' w') as Hp. by destruct (publish _ _ _ _ _ _) as [[ok s1] w1].
Qed.
End Policies.

(** A request leaves the policy alone or puts a valid one in force. *)
Lemma serve_policy {W} {CL : Clock W} {BR : Broker W} {ST : Storage W} {LO : Location} {MS : MathSin} {BD : DecodeErrors}
    (checks : list (@HealthCheck W)) r v s (w : W) :
  let policy' := Policy_ (srv_scheduler (serve checks r v s w).1.2) in
  policy' = Policy_ (srv_scheduler s) ∨ ValidatePolicy policy' = None.
Proof.
  cbv zeta.
  assert (Hm : Policy_ (srv_scheduler (mux checks r v s w).1.2) = Policy_ (srv_scheduler s) ∨
    ValidatePolicy (Policy_ (srv_scheduler (mux checks r v s w).1.2)) = None).
  { unfold mux. destruct (negb _); [by left|]. destruct (lookup_route r) as [[route values]|]; [|by left].
    destruct (control_route route) eqn:Er; [|left; by rewrite query_same].
    destruct route; try done; unfold handle.
    - left. unfold upsertDevice, writeError, writeJSON. by repeat case_match; simplify_eq.
    - left. unfold applyDispatch, writeError, writeJSON, panic. by repeat case_match; simplify_eq.
    - unfold setPolicy. destruct (negb _); [by left|]. destruct (decode_policy _) as [|p]; [by left|].
      destruct (ValidatePolicy p) eqn:Ev; [by left|by right].
    - left. unfold command, writeError, writeJSON. by repeat case_match; simplify_eq. }
  unfold serve, withAudit. destruct (pf_repo (srv_platform s)); [|exact Hm]. destruct (auditAction r); [|exact Hm].
  destruct (mux checks r v s w) as [[rsp s1] w1]. cbn [fst snd] in Hm. destruct rsp as [rsp|]; [|exact Hm].
  destruct (Now w1) as [now1 w2]. destruct (Now w2) as [now2 w3]. unfold put_audit.
  destruct (if IsZero _ then _ else _) as [now w4]. by destruct (db_fault w4).
Qed.

(** *** The start *)

Section Starting.
Context {W : Type} {CL : Clock W} {ST : Storage W}.

Lemma store_all_from devices store (w : W) k d' :
  st_devices (store_all devices store w).1 !! k = Some d' →
  st_devices store !! k = Some d' ∨ ∃ d, d ∈ devices ∧ dev_key d = k.
Proof.
  intros Hk. destruct (decide (k ∈ dev_key <$> devices)) as [(d & -> & Hd)%list_elem_of_fmap|Hno].
  - right. by exists d.
  - left. by rewrite store_all_keep in Hk.
Qed.

Lemma store_all_wf devices store (w : W) : State.wf store → State.wf (store_all devices store w).1.
Proof.
  revert store w. induction devices as [|d devices IH]; intros store w Hwf; cbn [store_all]; [done|].
  destruct (if IsZero _ then _ else _) as [now w1]. apply IH. by eapply step_wf; [apply step_UpsertDevice|].
Qed.

Lemma upsert_all_rows devices db (w : W) err db' w' :
  upsert_all devices db w = (err, db', w') →
  Forall (λ d, has_byte nul (dev_SiteID d) = false) devices →
  (wf_devices_table (db_devices db) → wf_devices_table (db_devices db')) ∧
  (∀ k, is_Some (db_devices db !! k) → is_Some (db_devices db' !! k)) ∧
  (err = None → ∀ d, d ∈ devices → is_Some (db_devices db' !! (dev_SiteID d, dev_ID d))).
Proof.
  revert db w. induction devices as [|d devices IH]; intros db w; cbn [upsert_all].
  { intros [= <- <- <-] _. split_and!; [done..|]. by intros _ d ?%elem_of_nil. }
  destruct (if IsZero _ then _ else _) as [now w1]. destruct (db_fault w1) as [fault w2].
  intros Hu [Hn Hns]%Forall_cons. destruct fault as [e|]; [injection Hu as <- <- <-; by split_and!|].
  destruct (Upsert_row now d db) as (row & Hrow & (Hid & Hsite & _) & _).
  destruct (Upsert None now d db) as [err1 db1] eqn:Eu. cbn [snd] in Hrow.
  assert (err1 = None) as -> by by injection Eu as <- _.
  destruct (IH _ _ Hu Hns) as (Hwf & Hmono & Hin). split_and!.
  - intros Ht. apply Hwf. intros k x. rewrite Hrow. intros [[<- <-]|[_ Hx]]%lookup_insert_Some; [|by apply Ht].
    by rewrite Hid, Hsite.
  - intros k Hk. apply Hmono. rewrite Hrow. apply lookup_insert_is_Some'. by right.
  - intros -> x [->|Hx]%elem_of_cons; [|by apply Hin]. apply Hmono. rewrite Hrow, lookup_insert_eq. by eexists.
Qed.

(** After the devices are loaded: the table is well formed and the store holds nothing else. *)
Lemma load_devices_from collate scan siteID db store (w : W) db' store' w' :
  wf_devices_table (db_devices db) → scan ≡ₚ map_to_list (db_devices db) → has_byte nul siteID = false →
  st_devices store = ∅ → loadOrSeedDevices collate scan siteID db store w = (None, db', store', w') →
  wf_devices_table (db_devices db') ∧ (State.wf store → State.wf store') ∧
  ∀ k d', st_devices store' !! k = Some d' →
    ∃ site id, k = stateKey site id ∧ has_byte nul site = false ∧ is_Some (db_devices db' !! (site, id)).
Proof.
  intros Ht Hscan Hsite Hempty. unfold loadOrSeedDevices. destruct (db_fault w) as [[e|] w1]; [done|]. cbn [List_].
  set (devices := sort_slice (device_row_less collate) scan.*2).
  assert (Hdevices : ∀ d, d ∈ devices → has_byte nul (dev_SiteID d) = false ∧
    is_Some (db_devices db !! (dev_SiteID d, dev_ID d))).
  { intros d Hd. unfold devices in Hd. rewrite sort_slice_perm in Hd.
    apply list_elem_of_fmap in Hd as ([k x] & -> & Hx). rewrite Hscan in Hx. apply elem_of_map_to_list in Hx.
    destruct (Ht _ _ Hx) as [-> Hn]. split; [done|by eexists]. }
  case_decide as Hd.
  - destruct (upsert_all (seed_devices siteID) db w1) as [[err db1] w2] eqn:Eu.
    destruct err as [err|]; [done|].
    assert (Hs : Forall (λ d, dev_SiteID d = siteID) (seed_devices siteID)) by by repeat constructor.
    rewrite Forall_forall in Hs.
    destruct (upsert_all_rows _ _ _ _ _ _ Eu) as (Hwf & _ & Hin).
    { apply Forall_forall. intros d Hdd. by rewrite (Hs d Hdd). }
    pose proof (store_all_wf (seed_devices siteID) store w2) as Hwfs.
    pose proof (store_all_from (seed_devices siteID) store w2) as Hfrom.
    destruct (store_all _ store w2) as [store1 w3]. intros [= <- <- <-]. split_and!; [by apply Hwf|done|].
    intros k d' [Hk|(d & Hdin & <-)]%Hfrom; [by rewrite Hempty in Hk|].
    exists (dev_SiteID d), (dev_ID d). split; [done|]. split; [by rewrite (Hs d Hdin)|by apply Hin].
  - pose proof (store_all_wf devices store w1) as Hwfs. pose proof (store_all_from devices store w1) as Hfrom.
    destruct (store_all devices store w1) as [store1 w3]. intros [= <- <- <-]. split_and!; [done|done|].
    intros k d' [Hk|(d & Hdin & <-)]%Hfrom; [by rewrite Hempty in Hk|].
    exists (dev_SiteID d), (dev_ID d). split; [done|]. by apply Hdevices.
Qed.

Lemma load_store_consistent collate scans siteID db store (w : W) db' store' w' rejects :
  wf_devices_table (db_devices db) → sc_devices scans ≡ₚ map_to_list (db_devices db) → has_byte nul siteID = false →
  st_devices store = ∅ → State.wf store → load_store collate scans siteID db store w = (None, db', store', w') →
  consistent (MkPlatform store' (Some db') rejects).
Proof.
  intros Ht Hscan Hsite Hempty Hwf Hl.
  destruct (load_store_spec _ _ _ _ _ _ _ _ _ _ Ht Hscan Hl) as (_ & _ & Hinv). destruct (Hinv eq_refl) as ([_ Hin] & _).
  revert Hl. unfold load_store. destruct (loadOrSeedDevices _ _ _ _ _ w) as [[[err db1] store1] w1] eqn:El.
  destruct err as [err|]; [done|].
  destruct (load_devices_from _ _ _ _ _ _ _ _ _ Ht Hscan Hsite Hempty El) as (Ht' & Hwf' & Hfrom).
  unfold loadRecentCommands. destruct (db_fault w1) as [[e|] w2]; cbn [ListCommands]; [done|].
  unfold loadRecentEvents. destruct (db_fault w2) as [[e|] w3]; cbn [ListEvents]; [done|].
  intros [= <- <- <-]. split; cbn [pf_store pf_repo].
  - eapply step_wf; [apply step_SetEvents|]. eapply step_wf; [apply step_SetCommands|]. by apply Hwf'.
  - exists db1. split_and!; [done..|]. intros site id Hn. unfold DeviceInSite in *. cbn in *.
    destruct (db_devices db1 !! (site, id)) as [d|] eqn:Ed.
    + destruct (Ht' _ _ Ed) as [[= -> ->] _]. destruct (Hin _ _ Ed) as (d' & -> & Hs). exact Hs.
    + destruct (st_devices store1 !! stateKey site id) as [d'|] eqn:Es; [|done].
      destruct (Hfrom _ _ Es) as (site' & id' & Hkey & Hn' & [x Hx]).
      apply stateKey_inj in Hkey as [-> ->]; [congruence|done|done].
Qed.
End Starting.

(** The store [newStateStore] opens. *)
Lemma newStateStore_wf {W} {RE : Redis W} cfg (w : W) ms w' :
  newStateStore cfg w = (inr ms, w') → st_devices (ms_store ms) = ∅ ∧ State.wf (ms_store ms).
Proof.
  unfold newStateStore. case_decide; [intros [= <- _]; split; [done|apply wf_NewStore]|].
  unfold NewRedisStore, loadTelemetry. destruct (redis_Ping w) as [[err|] w1]; [by destruct (redis_Close w1)|].
  destruct (HGetAll _ w1) as [[err|values] w2]; [by destruct (redis_Close w2)|]. intros [= <- _]. split; [done|].
  split; cbn; [done| |unfold history; lia|unfold history; lia].
  assert (Hload : ∀ m, (∀ k t, m !! k = Some t → k = stateKey (tel_SiteID t) (tel_DeviceID t)) →
    ∀ k t, foldl (load_entry (cfg_SiteID cfg)) m values !! k = Some t → k = stateKey (tel_SiteID t) (tel_DeviceID t)).
  { induction values as [|e values IH]; intros m Hm; cbn [foldl]; [done|]. apply IH. intros k t. unfold load_entry.
    destruct (unmarshal_telemetry _) as [t0|]; [|by apply Hm]. cbv zeta.
    by apply (insert_keyed (λ t, stateKey (tel_SiteID t) (tel_DeviceID t))). }
  by apply Hload.
Qed.

(** Two registrations of one device that do not run one after the other: both are answered with success,
    and the database keeps what the live store has not. *)
Lemma registrations_race {W} {CL : Clock W} {ST : Storage W} d1 d2 p r (w w1 w2 : W) p1 p2 t1 t2 :
  pf_repo p = Some r → dev_SiteID d2 = dev_SiteID d1 → dev_ID d2 = dev_ID d1 → ¬ same_attributes d1 d2 →
  has_byte nul (dev_SiteID d1) = false →
  save_device d1 p w = (None, p1, w1) → save_device d2 p1 w1 = (None, p2, w2) →
  ¬ consistent (set_store (UpsertDevice t1 d1) (set_store (UpsertDevice t2 d2) p2)).
Proof.
  intros Hr Hsite Hid Hdiff Hn H1 H2 [_ (r3 & Hr3 & _ & Ha)]. specialize (Ha (dev_SiteID d1) (dev_ID d1) Hn).
  apply save_device_result in H1 as (_ & _ & H1). rewrite Hr in H1. destruct H1 as [n1 H1].
  apply save_device_result in H2 as (_ & _ & H2). rewrite H1 in H2. destruct H2 as [n2 H2].
  cbn [set_store pf_repo] in Hr3. assert (r3 = (Upsert None n2 d2 (Upsert None n1 d1 r).2).2) as -> by congruence.
  destruct (Upsert_row n2 d2 (Upsert None n1 d1 r).2) as (row & Hrow & Hs2 & _).
  destruct (UpsertDevice_row t1 d1 (UpsertDevice t2 d2 (pf_store p2))) as (live_d & Hl & Hs1 & _).
  rewrite Hrow, Hsite, Hid, lookup_insert_eq in Ha. cbn [set_store pf_store] in Ha. rewrite Hl in Ha.
  apply Hdiff. etrans; [exact Hs1|]. etrans; [|symmetry; exact Hs2]. by symmetry.
Qed.

(** What holds of the server in every state. *)
Definition sound (policy : Policy) (s : Server) : Prop :=
  consistent (srv_platform s) ∧
  (Policy_ (srv_scheduler s) = policy ∨ ValidatePolicy (Policy_ (srv_scheduler s)) = None).

Section Invariance.
Context {W : Type} {CL : Clock W} {BR : Broker W} {ST : Storage W} {SI : Sinks W} {VE : Verifier} {DE : Decoder}.
Context {LO : Location} {MS : MathSin} {BD : DecodeErrors} (checks : list (@HealthCheck W)).

Lemma step_sound policy x y : sys_step checks x y → sound policy x.1 → sound policy y.1.
Proof.
  intros Hstep [Hc Hp].
  destruct Hstep as [ord topic payload s w p' w' Hord Hm|summary devices tele s w sch' p' w' Hk|r v s w rsp s' w' Hst Hs|];
    cbn [fst] in *; [| | |done].
  - pose proof (message_keeps ord topic payload _ w Hord) as Hkeep. rewrite Hm in Hkeep.
    split; [by eapply keeps_consistent|exact Hp].
  - pose proof (tick_keeps summary devices tele (srv_scheduler s) (srv_platform s) w) as Hkeep.
    pose proof (tick_policy summary devices tele (srv_scheduler s) (srv_platform s, w)) as Hsame. rewrite Hk in Hkeep, Hsame.
    split; [by eapply keeps_consistent|]. unfold Policy_ in *. cbn in *. by rewrite Hsame.
  - pose proof (serve_consistent checks r v s w Hst Hc) as Hc'. pose proof (serve_policy checks r v s w) as Hp'.
    rewrite Hs in Hc', Hp'. cbn [fst snd] in *. split; [exact Hc'|]. destruct Hp' as [->|?]; [exact Hp|by right].
Qed.

Lemma run_invariant policy x y : rtc (sys_step checks) x y → sound policy x.1 → sound policy y.1.
Proof. induction 1 as [|x y z Hstep _ IH]; [done|]. intros Hx. by apply IH, (step_sound policy x). Qed.
End Invariance.

(** ** Properties *)

(** C5: In every state the running platform reaches, by any interleaving of messages, ticks
    and requests from what a start leaves, whatever broker and database answer, the live store is well formed (every reading and
    device under its own key, histories bounded) and has exactly the devices of the database, with
    the same attributes; and the policy in force is the one of the settings, or has
    passed validation.  Requests are served one at a time here: [registrations_race]
    shows what two at once may do. *)
Theorem running_consistent {W} {CL : Clock W} {BR : Broker W} {ST : Storage W} {RE : Redis W} {PO : Pool W}
    {CE : Certificates} {CO : Connector W} {SI : Sinks W} {VE : Verifier} {DE : Decoder} {LO : Location} {MS : MathSin}
    {BD : DecodeErrors} checks collate scans cfg db (w : W) r db' w1 s w2 :
  wf_devices_table (db_devices db) → sc_devices scans ≡ₚ map_to_list (db_devices db) →
  has_byte nul (cfg_SiteID cfg) = false →
  start collate scans cfg db w = (inr r, db', w1) →
  rtc (sys_step checks) (rn_server r, w1) (s, w2) →
  consistent (srv_platform s) ∧
  (Policy_ (srv_scheduler s) = initial_policy cfg ∨ ValidatePolicy (Policy_ (srv_scheduler s)) = None).
Proof.
  intros Ht Hscan Hsite Hstart Hrun.
  assert (Hpol : Policy_ (srv_scheduler (rn_server r)) = initial_policy cfg).
  { revert Hstart. unfold start. destruct (newStateStore cfg w) as [[err|ms] w3]; [done|].
    destruct (NewDeviceRepository _ w3) as [[err|] w4]; [done|].
    destruct (load_store _ _ _ _ _ w4) as [[[fatal db1] store] w5]. destruct fatal as [fatal|]; [done|].
    destruct (Connect cfg w5) as [[err|keys] w6]; [done|]. by intros [= <- <- <-]. }
  assert (H0 : consistent (srv_platform (rn_server r))).
  { revert Hstart. unfold start. destruct (newStateStore cfg w) as [[err|ms] w3] eqn:Es; [done|].
    destruct (NewDeviceRepository _ w3) as [[err|] w4]; [done|].
    destruct (load_store _ _ _ _ _ w4) as [[[fatal db1] store] w5] eqn:El. destruct fatal as [fatal|]; [done|].
    destruct (Connect cfg w5) as [[err|keys] w6]; [done|]. intros [= <- <- <-].
    destruct (newStateStore_wf _ _ _ _ Es) as [Hempty Hwf].
    exact (load_store_consistent _ _ _ _ _ _ _ _ _ _ Ht Hscan Hsite Hempty Hwf El). }
  apply (run_invariant checks (initial_policy cfg) (rn_server r, w1) (s, w2) Hrun). by split; [|left].
Qed.

(** ** The theorem at a concrete run *)

Definition ex_device_body : string := print (TObj [("id", TStr "pump_01"); ("type", TStr "load")]).
Definition ex_registration : Request :=
  MkRequest "POST" ["api"; "v1"; "devices"] true (λ _, "") ex_device_body "10.0.0.7:4711".

(** A first start, and a device that is registered then. *)
Lemma running_consistent_witness :
  match @start unit ex_world_clock ex_world_storage ex_no_redis ex_pool ex_start_certificates ex_start_connector
    String.ltb (MkScans [] [] []) (Load_ (λ _, "")) migrate tt with
  | (inl _, _, _) => False
  | (inr r, _, w) =>
      let '(rsp, s, _) := @serve unit ex_world_clock ex_up_broker ex_world_storage UTC ex_sin ex_decoder [] ex_registration
        (MkVisits [] [] []) (rn_server r) w in
      rsp_Code <$> rsp = Some 200%Z ∧ is_Some (DeviceInSite "home-lab" "pump_01" (srv_store s)) ∧
      consistent (srv_platform s)
  end.
Proof.
  pose proof (@running_consistent unit ex_world_clock ex_up_broker ex_world_storage ex_no_redis ex_pool
    ex_start_certificates ex_start_connector no_sinks (device_verifier ∅ 0) json_decoder UTC ex_sin ex_decoder []
    String.ltb (MkScans [] [] []) (Load_ (λ _, "")) migrate tt) as Hc.
  assert (Hok : match @start unit ex_world_clock ex_world_storage ex_no_redis ex_pool ex_start_certificates
    ex_start_connector String.ltb (MkScans [] [] []) (Load_ (λ _, "")) migrate tt with
    | (inl _, _, _) => false
    | (inr r, _, w) =>
        let '(rsp, s, _) := @serve unit ex_world_clock ex_up_broker ex_world_storage UTC ex_sin ex_decoder [] ex_registration
          (MkVisits [] [] []) (rn_server r) w in
        bool_decide (rsp_Code <$> rsp = Some 200%Z) &&
        match DeviceInSite "home-lab" "pump_01" (srv_store s) with Some _ => true | None => false end &&
        bool_decide (srv_siteID (rn_server r) = "home-lab")
    end = true) by by vm_compute.
  destruct (start _ _ _ _ _) as [[[fatal|r] db'] w]; [done|].
  destruct (serve _ _ _ _ _) as [[rsp s] w'] eqn:Es.
  apply andb_true_iff in Hok as [[Hcode%bool_decide_eq_true Hdev]%andb_true_iff Hsite%bool_decide_eq_true].
  split; [exact Hcode|]. split; [by destruct (DeviceInSite _ _ _); [eexists|]|].
  apply (λ Ht Hs Hn He Hr, proj1 (Hc r db' w s w' Ht Hs Hn He Hr)); [|done|by vm_compute|done|].
  - intros k d Hk. change (db_devices migrate) with (∅ : gmap (string * string) Device) in Hk.
    by apply lookup_empty_Some in Hk.
  - eapply rtc_once, step_request; [|exact Es]. intros d Hd. rewrite Hsite.
    assert (match @decode_device ex_decoder (rq_Body ex_registration) with
      | inr d => has_byte nul (dev_SiteID (complete_device "home-lab" d)) = false | inl _ => True end) as Hb by by vm_compute.
    by rewrite Hd in Hb.
Defined.
